(* ===== verification/_CoqProject ===== *)
-Q . S2P
Prelude.v
Errors.v
Interfaces.v
Sha256.v
Environment.v
Streams.v
CheckpointCodec.v
WasixOutput.v
Types.v
MemoryCache.v
LruSpec.v
DiskCache.v
ArtifactStore.v
Runtime.v
Preparation.v
Restart.v
Http.v
HttpService.v
HttpProgress.v
Pause.v
Wakeups.v
Invocation.v
WorkerMessages.v
WorkerFrames.v
WorkerProtocol.v
Redaction.v
CheckpointTests.v
ProcStatus.v
BenchmarkStatistics.v
TierBenchmark.v
ExamplePrograms.v
PauseBenchmark.v
HttpBenchmark.v
WorkerIsolation.v
WorkerExecutable.v
WorkerTests.v
WorkerJournal.v
WorkerOperations.v
WorkerEndToEnd.v
CaptureEndToEnd.v
WorkerScenario.v
Migration.v
