(* ===== verification/Prelude.v ===== *)
(** * Verification of the Runtrue WebAssembly component runtime

    The program is a Rust library that prepares and runs WASI components and,
    in a separate worker process, captures and restores WASIX checkpoints.
    Its parts, and the files of this development that model them:

    - [src/src/error.rs]: the [Error] enum, failure phases and reasons with
      their displayed texts ([Errors]).
    - [src/src/environment.rs]: environment manifests, their validation and
      content identity ([Environment]).
    - [src/src/checkpoint.rs]: the authenticated checkpoint artifact, sealed
      from an attested journal and opened from memory or from a stream
      ([CheckpointCodec], over the byte streams of [Streams]).
    - [src/src/wasix_output.rs]: the bounded sink behind a guest's stdout and
      stderr ([WasixOutput]).
    - [src/src/types.rs], [config.rs], [measurement.rs]: profiles, tiers,
      limits, command input and output ([Types]); pause, resume, eviction and
      cancellation of a running command ([Pause], with the epoch callback and
      [RunningCommand] of [runtime.rs]; [Wakeups] refines it with the
      notifications that wake waiting tasks).
    - [src/src/cache.rs]: the authenticated cache of compiled artifacts on
      disk ([DiskCache], with the store it implements in [ArtifactStore]).
    - [src/src/runtime.rs]: the in-memory tiers ([MemoryCache], with the
      recency-list cache it implements in [LruSpec]); package
      preparation through the tiers and profile detection ([Runtime], a client
      of [MemoryCache] and [DiskCache]); construction of a runtime, background
      promotion and concurrent preparations ([Preparation]); two processes
      that share a cache directory ([Restart]); linkers, the
      store, [invoke], [run], [start], [wait] and the epoch watchdog
      ([Invocation], a client of [Runtime], [Pause] and [Http]).
    - [src/src/http.rs]: outbound capabilities, destination checks and body
      limits ([Http]); the reusable service with admission, workers, streaming
      bodies and metrics ([HttpService], a client of [Runtime] and [Http], with
      the progress of its requests in [HttpProgress]).
    - [src/src/wasix_worker.rs]: configuration, messages and their validation
      ([WorkerMessages]); length-prefixed frames and diagnostics
      ([WorkerFrames]); sealed inputs, the exchanges of the parent, the
      programs of the worker and the supervision of the process
      ([WorkerProtocol]); parsing of the process status and the worker's entry
      into isolation ([ProcStatus], [WorkerIsolation]); pinning of the worker
      executable and what a child does before it executes it
      ([WorkerExecutable]); the guest's execution and the inspection of
      journals ([WorkerJournal]); the public operations with their preparation,
      spawning and supervision ([WorkerOperations]).
    - [src/src/bin/runtrue-wasix-worker.rs]: the worker's [main]
      ([WorkerOperations]).  [WorkerEndToEnd] and [CaptureEndToEnd] put parent
      and worker binary together; [WorkerScenario] is one concrete deployment
      on which their statements are evaluated; [Migration] moves a guest from
      one deployment to another through a sealed checkpoint.
    - the [Debug] implementations of the types that hold secrets or guest data
      ([Redaction]).
    - [src/examples/]: the statistics and reports of the benchmarks
      ([BenchmarkStatistics]); the benchmarks themselves as programs over the
      modelled library, that of the tiers over [Preparation] and [Invocation]
      ([TierBenchmark]), that of pausing over [Invocation] ([PauseBenchmark]),
      those of HTTP and of capacity over [HttpService] ([HttpBenchmark]); the
      servers' handlers and command lines and the component converter
      ([ExamplePrograms]).
    - the unit tests inside [checkpoint.rs] ([CheckpointTests]) and inside
      [wasix_output.rs], [http.rs] and [wasix_worker.rs] ([WorkerTests]): each
      is a proposition on the model, with a proof that it passes.

    This file holds what all of them share: [result] (Rust's [Result], with
    stdpp's monad notations), the early return [reject_if], machine integers
    as [Z] with explicit wrapping, checked and saturating operations, byte
    lists with their lengths and big-endian encodings, Rust's slice searches
    and sorts, the rewriting database [blen_db] and the tactics [result_inv],
    [bool_inv] and [blen_lia].  [Interfaces] states as type classes what the
    runtime relies on in third-party code (SHA-256, HMAC, [hex], [serde_json])
    with the documented laws, and gives one concrete instance of each, [Toy],
    on which statements are evaluated ([Sha256] defines the real hash functions
    and shows that they satisfy the laws too); further interfaces stand where they are
    used: [Engine] for Wasmtime, [HttpLib] for URI parsing, name resolution
    and the transport, [ProxyLib] for Wasmtime's HTTP handler, [LinkerLib] and
    [PipeLib] for its linkers and output pipes, [Linux] for the system calls of
    isolation, [FileCalls] for those of pinning, [Wasmer] for the engine and
    journal format of the worker, [Allocator] and [Write] for memory and output
    streams, [Host] and [BuildInfo] for facts of the process and the build.

    ** How state and effects are modelled

    - A fallible function returns [result Error A]; a function with mutable
      state takes and returns it.  Bytes are [list byte]; integers are [Z]
      kept within their width by the operations the source uses; maps are
      [gmap]; errors carry the texts of the source.
    - The disk cache runs in a [World]: files with contents and permission
      bits, and a schedule that decides for each call whether it fails; a
      failing write leaves any prefix behind.
    - A reader is a list of events (chunks, interruptions, failures), so a
      theorem about all readers covers every splitting and fault.  The control
      socket of a worker has a schedule of faults and records what was sent.
    - Where an asynchronous function awaits while other tasks run, the change
      those tasks make is an argument of the definition ([prepare]).  Such an
      argument covers what other tasks do between two sections of one call;
      [Preparation] has the tasks themselves, interleaved at every section,
      and [run_alone] relates the two.
    - Concurrent code is split at its atomic operations: [token_step] and
      [machine_run] in [Pause], [request_step], [worker_step] and [system_run]
      in [HttpService], [task_step] and [runtime_run] in [Preparation],
      [wake_step] and [wake_run] in [Wakeups].
      Invariants hold in every state reachable by any sequence of events.
    - A command call is driven by a script of timed happenings ([call_run] in
      [Invocation]): requests of its client, epochs, polls, writes, traps and
      returns; a theorem about all scripts covers every guest and every
      schedule.  The epoch callback is two happenings, one for each of its
      clock readings, so that requests and time can come between them.
    - A future under [tokio::time::timeout] is a [Timer]: when it is ready, if
      ever, and how late the timer fires; a supervisor's [select!] is a [Race]
      of such a timer with a cancellation ([WorkerProtocol]).  The supervisors
      take the timeouts the code passes them, and [supervised_for] records how
      long each ran its worker.
    - The worker process, its parent and the kernel between them are values:
      a [World] of answers for the operations of the parent, a process state
      with the laws of [Linux] for the worker, a [WorkerWorld] that joins both.
    - Mutable Rust objects shared by clones (the output sink) are one state,
      on which the operations of all clones form one sequence.

    ** What the theorems show

    - Checkpoints: [verify_parts_iff] (acceptance means authentic, and
      conversely), [scan_journal_iff], [seal_open_roundtrip] (for codecs whose
      largest envelope is [Addressable], and the failure of the others),
      [seal_capture_succeeds], [open_reader_agrees], [into_parts_exact].
    - Manifests: [environment_id_binds], [validate_identity_fields_iff],
      [from_json_roundtrip].
    - Disk cache: [load_authentic], [disk_cache_refines_store], [publish_fault_safe],
      [publish_load_roundtrip].
    - Memory cache: [memory_cache_refines_lru], with [cache_trace_sound] and
      [insert_warmish_lru].
    - Across processes: [restart_reuses_artifact].
    - Preparation: [prepare_deserializes_trusted], [prepare_leaves_warm],
      [prepare_tampered_fails_closed], [prepare_cold_survives_publish],
      [detect_profile_unique]; for all interleavings
      [runtime_state_wellformed], [prepared_component_genuine] (artifacts of
      the disk are those that lay in a directory the run [Passed] through),
      [preparation_single_flight], [preparation_terminates].
    - Calls: [invocation_time_bounded] (up to the unpaused time between
      callbacks, [responsive], and the paused time between the two clock
      readings of one, [prompt]), [invocation_outcome_explained],
      [invocation_measures], with [run_controlled_guards],
      [evicted_command_demoted], [guests_confined], [linkers_once] and
      [watchdog_stops].
    - Output sink: [output_capture_exact], [poll_write_vectored_atomic].
    - Outbound HTTP: [send_request_capability], [limit_body_exact],
      [is_public_ip_iff] (with the IPv6 blocks that the code does not list).
    - HTTP service: [admission_bounded], [requests_complete],
      [service_state_exact], [request_ids_sequential],
      [streaming_body_protocol].
    - Pausing: [epoch_callback_counts_running_time], [total_paused_exact],
      [pause_timing_consistent], [eviction_final]; with notifications
      [no_lost_wakeup] and [cancelled_command_stops].
    - Worker protocol: [worker_ready_guarantees], [worker_frame_roundtrip],
      [worker_diagnostics_exact], [sealed_transfer_agrees],
      [restore_authorization_guarded].
    - Worker process: [pin_executable_exact], [pinned_worker_runs],
      [status_fields_roundtrip], [isolation_report_truthful],
      [captured_journal_restores].
    - Worker operations: [restore_admission], [worker_time_bounded],
      [operations_leave_no_worker], [captured_checkpoint_restorable], and with
      the worker binary at the other end [restore_end_to_end],
      [capture_end_to_end] and, from one host to another,
      [migration_end_to_end].
    - Logs: [debug_redacts].
    - Examples: [tier_benchmark_asserts_hold], [pause_benchmark_asserts_hold],
      [http_benchmark_asserts_hold] and [capacity_benchmark_reads] (no assertion
      of the benchmarks fails under the stated conditions, and their reports
      summarise what they measured), [percentile_nearest_rank],
      [throughput_measures], [capacity_report_exact], [raw_baseline_matches],
      [wait_until_paused_decides], [componentize_effect].

    Statements that the code itself refutes are recorded as examples:
    [idle_evictions_undercounted], [http_service_panics],
    [runtime_new_panics], [resumed_reported_paused],
    [resume_ok_after_eviction], [evicted_call_returns],
    [timeout_during_instantiation], [paused_call_times_out] with
    [paused_reported_timed_out], [short_pause_evicted],
    [fresh_pause_evicted], [loaded_package_promoted],
    [eviction_counted_before_tier] with [eviction_race_panics],
    [live_worker_reported_warmish], [unanswered_check_replaces].

    Cryptographic strength is not assumed.  Where a statement depends on a
    digest identifying its input it says "or there is a collision"
    ([sha256_collision]); the laws of [CryptoLaws] are only lengths and
    alphabets, so unforgeability of HMAC is stated as possession of the right
    tag.

    ** Fuel

    Loops that are not structural take fuel, and the caller supplies a bound
    the loop cannot exceed: the journal's length for [scan_loop] (each record
    consumes at least eight bytes, [scan_loop_fuel]); the number of entries
    for [evict_warm] and [evict_warmish] (each round removes one); the slice
    length for [bsearch_base]; the number of events and bytes of the reader
    for [diagnostics_loop], the file size for [hash_loop], [read_loop] and
    [read_bytes_loop], which return [None] when fuel runs out and are proved
    never to ([worker_diagnostics_exact], [sealed_transfer_agrees],
    [pin_executable_exact], [read_bytes_loop_total]).  The concurrent machines
    need none: their runs are as long as the list of events.  The bounds of
    [cancelled_command_stops], 18 and 3 steps, are the longest paths of a
    cancelled task through its wait, the 14 of [requests_complete] the longest
    path of a request; [tier_benchmark_asserts_hold] asks that
    the use counter has room for the at most 14 accesses of an iteration.

    ** What is not modelled

    Wasmtime, Wasmer, Tokio and the kernel are parameters.  Within a section of
    a preparation the accesses to the files of one cache entry are one step,
    although another process could interleave with them; the client's requests
    are single steps in [Invocation], and the epoch callback one step for each
    of its clock readings, while [Pause] has their atomic loads and stores.
    Adjacent clock readings that only enter measurements (the end of
    instantiation and the start of execution, execution and suspended time at
    the end) are one instant.  The task that reaps a failed probe's or
    transport's worker after its group was killed is modelled by its end,
    which nobody waits for; the time a spawn takes is not.  That a guest reaches its epoch checks is
    the engine's part and a hypothesis ([responsive]): a guest that waits in a
    host call is not interrupted until it returns.  Not modelled are the
    variants for systems other than Linux and Unix, which return an error or do
    nothing, the views that hand fields of the host state to the engine,
    conversions between header types of the HTTP crates, accessors of values
    already in hand, and the build script.  Of the examples, the accept loops of
    the servers, which only pass connections on, and the printing of reports are
    not modelled; when Wasmtime's HTTP handler starts and drops workers is its
    own decision, of which the HTTP benchmark needs what [Policy] and [Retains]
    state.  Of the unit tests, the one that joins the task pool of the WASIX
    engine is not modelled.  Integration tests, fuzz targets, scripts and
    deployment files are clients of the library. *)
From Stdlib Require Export ZArith Lia Strings.Byte.
From stdpp Require Export base option gmap strings list pretty sorting.

Local Open Scope Z_scope.

(** ** Results: Rust's [Result], with stdpp's monad notations *)

Inductive result (E A : Type) : Type :=
| Ok (a : A)
| Err (e : E).
Arguments Ok {E A} a.
Arguments Err {E A} e.

#[global] Instance result_ret E : MRet (result E) := λ A a, Ok a.
#[global] Instance result_bind E : MBind (result E) := λ A B f r,
  match r with Ok a => f a | Err e => Err e end.
#[global] Instance result_fmap E : FMap (result E) := λ A B f r,
  match r with Ok a => Ok (f a) | Err e => Err e end.

(** [Result::map_err], [Option::ok_or] and the early return
    [if bad { return Err(e); }]. *)
Definition map_err {E F A} (f : E → F) (r : result E A) : result F A :=
  match r with Ok a => Ok a | Err e => Err (f e) end.

Definition ok_or {E A} (o : option A) (e : E) : result E A :=
  match o with Some a => Ok a | None => Err e end.

Definition reject_if {E} (bad : bool) (e : E) : result E unit :=
  if bad then Err e else Ok tt.

(** A [for] loop whose body may return early with [?]. *)
Fixpoint for_each {E A} (f : A → result E unit) (l : list A) : result E unit :=
  match l with
  | [] => Ok tt
  | x :: l' => _ ← f x; for_each f l'
  end.

Definition is_ok {E A} (r : result E A) : bool :=
  match r with Ok _ => true | Err _ => false end.

Section results.
Context {E A B : Type}.
Implicit Types (r : result E A) (e : E).

Lemma bind_Ok r (f : A → result E B) b :
  (r ≫= f) = Ok b ↔ ∃ a, r = Ok a ∧ f a = Ok b.
Proof. destruct r; cbn; naive_solver. Qed.

Lemma bind_Err r (f : A → result E B) e :
  (r ≫= f) = Err e ↔ r = Err e ∨ ∃ a, r = Ok a ∧ f a = Err e.
Proof. destruct r; cbn; naive_solver. Qed.

Lemma map_err_Ok {F} (g : E → F) r a : map_err g r = Ok a ↔ r = Ok a.
Proof. destruct r; cbn; naive_solver. Qed.

Lemma ok_or_Ok (o : option A) e a : ok_or o e = Ok a ↔ o = Some a.
Proof. destruct o; cbn; naive_solver. Qed.

Lemma reject_if_Ok (b : bool) e u : reject_if b e = Ok u ↔ b = false.
Proof. destruct b, u; cbn; naive_solver. Qed.

Lemma reject_if_Err (b : bool) e e' : reject_if b e = Err e' ↔ b = true ∧ e' = e.
Proof. destruct b; cbn; naive_solver. Qed.

Lemma reject_bind_Ok (b : bool) e (k : unit → result E B) y :
  (reject_if b e ≫= k) = Ok y ↔ b = false ∧ k tt = Ok y.
Proof. destruct b; cbn; naive_solver. Qed.

Lemma for_each_Ok (f : A → result E unit) l u :
  for_each f l = Ok u ↔ Forall (λ x, f x = Ok tt) l.
Proof.
  destruct u. induction l as [|x l IH]; cbn; [by split; [constructor|]|].
  rewrite Forall_cons, <- IH. destruct (f x) as [[]|]; naive_solver.
Qed.
End results.

Lemma for_each_iff {E A} (f : A → result E unit) (P : A → Prop) l u :
  (∀ x, f x = Ok tt ↔ P x) → for_each f l = Ok u ↔ Forall P l.
Proof. intros Hf. rewrite for_each_Ok. by setoid_rewrite Hf. Qed.

(** Case analysis on a hypothesis [computation = Ok _]: binds, guards and
    error mappings are opened until none is left. *)
Ltac result_step :=
  match goal with
  | H : (_ ≫= _) = Ok _ |- _ =>
      apply bind_Ok in H; destruct H as (? & ? & H)
  | H : map_err _ _ = Ok _ |- _ => apply map_err_Ok in H
  | H : ok_or _ _ = Ok _ |- _ => apply ok_or_Ok in H
  | H : reject_if _ _ = Ok _ |- _ => apply reject_if_Ok in H
  | H : for_each _ _ = Ok _ |- _ => apply for_each_Ok in H
  | H : Ok _ = Ok _ |- _ => injection H as H
  | H : Err _ = Ok _ |- _ => discriminate H
  | H : Ok _ = Err _ |- _ => discriminate H
  | H : mret _ = Ok _ |- _ => cbn [mret result_ret] in H
  end.
Ltac result_inv := repeat result_step; simplify_eq.
(** The same through results that are pairs. *)
Ltac result_pairs :=
  repeat (progress result_inv || match goal with y : _ * _ |- _ => destruct y end).

(** Boolean guards of the source turned into propositions. *)
Ltac bool_step :=
  match goal with
  | H : (_ || _)%bool = false |- _ => apply orb_false_iff in H; destruct H
  | H : (_ && _)%bool = true |- _ => apply andb_true_iff in H; destruct H
  | H : negb _ = false |- _ => apply negb_false_iff in H
  | H : negb _ = true |- _ => apply negb_true_iff in H
  | H : (_ <? _) = true |- _ => apply Z.ltb_lt in H
  | H : (_ <? _) = false |- _ => apply Z.ltb_ge in H
  | H : (_ <=? _) = true |- _ => apply Z.leb_le in H
  | H : (_ <=? _) = false |- _ => apply Z.leb_gt in H
  | H : (_ =? _) = true |- _ => apply Z.eqb_eq in H
  | H : (_ =? _) = false |- _ => apply Z.eqb_neq in H
  | H : bool_decide _ = true |- _ => apply bool_decide_eq_true in H
  | H : bool_decide _ = false |- _ => apply bool_decide_eq_false in H
  end.
Ltac bool_inv := repeat bool_step.

(** ** List predicates computed by [any] *)

Lemma existsb_false {A} (f : A → bool) l : existsb f l = false ↔ Forall (λ x, f x = false) l.
Proof.
  induction l as [|x l IH]; cbn; [by split; [constructor|]|].
  by rewrite orb_false_iff, Forall_cons, IH.
Qed.

(** ** Machine integers

    [usize] is the 64-bit word of the supported platform (Linux x86_64). *)

Definition u8_max : Z := 2 ^ 8 - 1.
Definition u16_max : Z := 2 ^ 16 - 1.
Definition u32_max : Z := 2 ^ 32 - 1.
Definition u64_max : Z := 2 ^ 64 - 1.
Definition usize_max : Z := 2 ^ 64 - 1.

Definition checked_add (max a b : Z) : option Z :=
  if a + b <=? max then Some (a + b) else None.
Definition saturating_add (max a b : Z) : Z := Z.min max (a + b).
Definition saturating_sub (a b : Z) : Z := Z.max 0 (a - b).
Definition wrapping_add (max a b : Z) : Z := (a + b) mod (max + 1).

Lemma checked_add_Some max a b c :
  checked_add max a b = Some c ↔ c = a + b ∧ a + b ≤ max.
Proof. unfold checked_add. case_match; bool_inv; naive_solver lia. Qed.

Lemma checked_add_None max a b : checked_add max a b = None ↔ max < a + b.
Proof. unfold checked_add. case_match; bool_inv; naive_solver lia. Qed.

(** ** Bytes and their big-endian words *)

#[global] Instance byte_eq_dec : EqDecision byte := Byte.byte_eq_dec.

Definition byte_val (b : byte) : Z := Z.of_N (Byte.to_N b).
Definition byte_of_Z (z : Z) : byte :=
  match Byte.of_N (Z.to_N (z mod 256)) with Some b => b | None => x00 end.

Lemma byte_val_range b : 0 ≤ byte_val b < 256.
Proof.
  unfold byte_val. pose proof (Byte.to_N_bounded b).
  split; [lia|]. change 256 with (Z.of_N 256). lia.
Qed.

Lemma byte_val_of_Z z : byte_val (byte_of_Z z) = z mod 256.
Proof.
  unfold byte_of_Z, byte_val. pose proof (Z.mod_pos_bound z 256 eq_refl).
  destruct (Byte.of_N _) as [b|] eqn:Hb.
  - apply Byte.to_of_N in Hb. rewrite Hb. lia.
  - apply Byte.of_N_None_iff in Hb. lia.
Qed.

Lemma byte_val_inj b c : byte_val b = byte_val c → b = c.
Proof.
  unfold byte_val. intros H%N2Z.inj.
  pose proof (Byte.of_to_N b) as Hb. pose proof (Byte.of_to_N c) as Hc.
  rewrite H in Hb. congruence.
Qed.

Lemma byte_of_val b : byte_of_Z (byte_val b) = b.
Proof.
  apply byte_val_inj. rewrite byte_val_of_Z.
  apply Z.mod_small, byte_val_range.
Qed.

(** [to_be_bytes] of an [n]-byte word, and [from_be_bytes]. *)
Fixpoint be_bytes (n : nat) (z : Z) : list byte :=
  match n with
  | O => []
  | S n' => byte_of_Z (z / 256 ^ Z.of_nat n') :: be_bytes n' z
  end.

Fixpoint be_val (l : list byte) : Z :=
  match l with
  | [] => 0
  | b :: l' => byte_val b * 256 ^ Z.of_nat (length l') + be_val l'
  end.

Lemma length_be_bytes n z : length (be_bytes n z) = n.
Proof. induction n; cbn; congruence. Qed.

Lemma be_val_range l : 0 ≤ be_val l < 256 ^ Z.of_nat (length l).
Proof.
  induction l as [|b l IH]; cbn [be_val length]; [lia|].
  pose proof (byte_val_range b). rewrite Nat2Z.inj_succ, Z.pow_succ_r by lia. nia.
Qed.

Lemma be_val_be_bytes n z : be_val (be_bytes n z) = z mod 256 ^ Z.of_nat n.
Proof.
  induction n as [|n IH]; cbn [be_val be_bytes].
  - by rewrite Z.mod_1_r.
  - rewrite byte_val_of_Z, length_be_bytes, IH, Nat2Z.inj_succ, Z.pow_succ_r by lia.
    rewrite (Z.mul_comm 256), Z.rem_mul_r by lia. lia.
Qed.

Lemma be_val_be_bytes_small n z :
  0 ≤ z < 256 ^ Z.of_nat n → be_val (be_bytes n z) = z.
Proof. intros. rewrite be_val_be_bytes. by apply Z.mod_small. Qed.

Lemma be_val_inj l k : length l = length k → be_val l = be_val k → l = k.
Proof.
  revert k. induction l as [|b l IH]; intros [|c k] Hlen Heq; try done.
  cbn [be_val length] in *. injection Hlen as Hlen.
  pose proof (be_val_range l). pose proof (be_val_range k).
  rewrite Hlen in *.
  assert (byte_val b = byte_val c) as Hbc by nia.
  rewrite Hbc in Heq. f_equal; [by apply byte_val_inj|apply IH; lia].
Qed.

Lemma be_bytes_be_val l : be_bytes (length l) (be_val l) = l.
Proof.
  apply be_val_inj; [apply length_be_bytes|].
  apply be_val_be_bytes_small, be_val_range.
Qed.

(** ** Byte slices *)

Definition blen {A} (l : list A) : Z := Z.of_nat (length l).

(** [&l[a..b]] for in-range bounds. *)
Definition slice {A} (l : list A) (a b : Z) : list A :=
  take (Z.to_nat (b - a)) (drop (Z.to_nat a) l).

Lemma blen_nonneg {A} (l : list A) : 0 ≤ blen l.
Proof. unfold blen. lia. Qed.

Lemma blen_app {A} (l k : list A) : blen (l ++ k) = blen l + blen k.
Proof. unfold blen. rewrite length_app. lia. Qed.

Lemma blen_nil_inv {A} (l : list A) : blen l = 0 → l = [].
Proof. destruct l; [done|]. unfold blen. cbn. lia. Qed.

Lemma blen_slice {A} (l : list A) a b :
  0 ≤ a ≤ b → b ≤ blen l → blen (slice l a b) = b - a.
Proof.
  unfold blen, slice. intros. rewrite length_take, length_drop. lia.
Qed.

Lemma slice_0_app {A} (l k : list A) b : b = blen l → slice (l ++ k) 0 b = l.
Proof.
  intros ->. unfold slice, blen. rewrite Z.sub_0_r, Nat2Z.id.
  change (Z.to_nat 0) with 0%nat. by rewrite drop_0, take_app_length.
Qed.

Lemma slice_app_mid {A} (l m k : list A) a b :
  a = blen l → b = blen l + blen m → slice (l ++ m ++ k) a b = m.
Proof.
  intros -> ->. unfold slice, blen.
  rewrite Nat2Z.id, drop_app_length, Z.add_simpl_l, Nat2Z.id.
  by rewrite take_app_length.
Qed.

Lemma slice_app_end {A} (l m : list A) a b :
  a = blen l → b = blen l + blen m → slice (l ++ m) a b = m.
Proof. intros. rewrite <- (app_nil_r m) at 1. by apply slice_app_mid. Qed.

(** A list splits at any in-range position into two slices. *)
Lemma slice_split {A} (l : list A) a b c :
  0 ≤ a ≤ b → b ≤ c → c ≤ blen l → slice l a c = slice l a b ++ slice l b c.
Proof.
  unfold slice, blen. intros.
  replace (Z.to_nat (c - a)) with (Z.to_nat (b - a) + Z.to_nat (c - b))%nat by lia.
  rewrite <- take_take_drop, drop_drop. do 3 f_equal. lia.
Qed.

Lemma slice_full {A} (l : list A) : slice l 0 (blen l) = l.
Proof. by rewrite <- (app_nil_r l) at 1; apply slice_0_app. Qed.

(** ** Strings

    A Rust [String] is its UTF-8 byte sequence; Rocq's [string] holds 8-bit
    characters, so a [string] here is that byte sequence and [String.length]
    is [str::len]. *)

Definition str_bytes (s : string) : list byte := String.list_byte_of_string s.
Definition slen (s : string) : Z := Z.of_nat (String.length s).

Lemma str_bytes_inj s t : str_bytes s = str_bytes t → s = t.
Proof.
  unfold str_bytes. intros H%(f_equal String.string_of_list_byte).
  by rewrite !String.string_of_list_byte_of_string in H.
Qed.

Lemma length_str_bytes s : length (str_bytes s) = String.length s.
Proof. induction s; [done|]. cbn in *. by f_equal. Qed.

Lemma blen_str_bytes s : blen (str_bytes s) = slen s.
Proof. unfold blen, slen. by rewrite length_str_bytes. Qed.

Lemma str_bytes_app s t : str_bytes (s +:+ t) = str_bytes s ++ str_bytes t.
Proof.
  unfold str_bytes. induction s as [|c s IH]; [done|].
  change (String c s +:+ t) with (String c (s +:+ t)).
  cbn in *. by f_equal.
Qed.

Lemma str_app_assoc s t u : (s +:+ t) +:+ u = s +:+ t +:+ u.
Proof. apply str_bytes_inj. by rewrite !str_bytes_app, app_assoc. Qed.

Lemma slen_app s t : slen (s +:+ t) = slen s + slen t.
Proof. by rewrite <- !blen_str_bytes, str_bytes_app, blen_app. Qed.

(** [s.bytes().all(p)] *)
Definition str_all (p : byte → bool) (s : string) : bool :=
  forallb p (str_bytes s).

Lemma str_all_Forall p s : str_all p s = true ↔ Forall (λ b, p b = true) (str_bytes s).
Proof. unfold str_all. rewrite forallb_forall, Forall_forall. by setoid_rewrite list_elem_of_In. Qed.

Definition str_contains (b : byte) (s : string) : bool :=
  existsb (λ c, bool_decide (c = b)) (str_bytes s).

(** [strip_prefix] and [starts_with], on bytes. *)
Fixpoint bytes_strip_prefix (p l : list byte) : option (list byte) :=
  match p, l with
  | [], _ => Some l
  | b :: p', c :: l' => if bool_decide (b = c) then bytes_strip_prefix p' l' else None
  | _ :: _, [] => None
  end.

Definition strip_prefix (p s : string) : option string :=
  String.string_of_list_byte <$> bytes_strip_prefix (str_bytes p) (str_bytes s).
Definition starts_with (p s : string) : bool :=
  bool_decide (is_Some (strip_prefix p s)).

Lemma bytes_strip_prefix_Some p l k :
  bytes_strip_prefix p l = Some k ↔ l = p ++ k.
Proof.
  revert l. induction p as [|b p IH]; intros [|c l]; cbn; try naive_solver.
  case_bool_decide; subst; [rewrite IH|]; naive_solver.
Qed.

Lemma strip_prefix_Some p s t : strip_prefix p s = Some t ↔ s = p +:+ t.
Proof.
  unfold strip_prefix. rewrite fmap_Some. split.
  - intros (k & Hk%bytes_strip_prefix_Some & ->). apply str_bytes_inj.
    rewrite str_bytes_app. unfold str_bytes at 3.
    by rewrite String.list_byte_of_string_of_list_byte.
  - intros ->. exists (str_bytes t). rewrite bytes_strip_prefix_Some, str_bytes_app.
    split; [done|]. symmetry. apply String.string_of_list_byte_of_string.
Qed.

(** Lexicographic byte order: Rust's [Ord] on [str]. *)
Fixpoint bytes_ltb (l k : list byte) : bool :=
  match l, k with
  | _, [] => false
  | [], _ :: _ => true
  | b :: l', c :: k' =>
      (byte_val b <? byte_val c) || ((byte_val b =? byte_val c) && bytes_ltb l' k')
  end.
Definition str_ltb (s t : string) : bool := bytes_ltb (str_bytes s) (str_bytes t).
Definition str_compare (s t : string) : comparison :=
  if str_ltb s t then Lt else if bool_decide (s = t) then Eq else Gt.

Lemma bytes_ltb_irrefl l : bytes_ltb l l = false.
Proof. induction l as [|b l IH]; cbn; [done|]. by rewrite IH, Z.ltb_irrefl, andb_false_r. Qed.

Lemma bytes_ltb_trans l k j :
  bytes_ltb l k = true → bytes_ltb k j = true → bytes_ltb l j = true.
Proof.
  revert k j. induction l as [|b l IH]; intros [|c k] [|d j]; cbn; try done.
  rewrite !orb_true_iff, !andb_true_iff, !Z.ltb_lt, !Z.eqb_eq.
  intros [?|[??]] [?|[??]]; try (left; lia).
  right. split; [lia|]. eauto.
Qed.

Lemma bytes_ltb_total l k : bytes_ltb l k = false → l = k ∨ bytes_ltb k l = true.
Proof.
  revert k. induction l as [|b l IH]; intros [|c k]; cbn; [auto..|].
  rewrite orb_false_iff, andb_false_iff, Z.ltb_ge, Z.eqb_neq. intros [Hle Hor].
  destruct (decide (byte_val b = byte_val c)) as [Hbc|Hbc].
  - destruct Hor as [|Hlk]; [done|]. apply byte_val_inj in Hbc as ->.
    destruct (IH _ Hlk) as [->|Hkl]; [by left|right]. rewrite Hkl.
    by rewrite Z.eqb_refl, orb_true_r.
  - right. apply orb_true_iff. left. apply Z.ltb_lt. lia.
Qed.

Lemma str_ltb_irrefl s : str_ltb s s = false.
Proof. apply bytes_ltb_irrefl. Qed.
Lemma str_ltb_trans s t u : str_ltb s t = true → str_ltb t u = true → str_ltb s u = true.
Proof. apply bytes_ltb_trans. Qed.
Lemma str_ltb_total s t : str_ltb s t = false → s = t ∨ str_ltb t s = true.
Proof. intros [?%str_bytes_inj|?]%bytes_ltb_total; auto. Qed.

(** ASCII classes of [u8]. *)
Definition in_range (lo hi : Z) (b : byte) : bool := (lo <=? byte_val b) && (byte_val b <=? hi).
Definition is_ascii (b : byte) : bool := byte_val b <=? 127.
Definition is_ascii_control (b : byte) : bool := (byte_val b <=? 31) || (byte_val b =? 127).
Definition is_ascii_digit (b : byte) : bool := in_range 48 57 b.
Definition is_ascii_lowercase (b : byte) : bool := in_range 97 122 b.
Definition is_ascii_uppercase (b : byte) : bool := in_range 65 90 b.
Definition is_ascii_alphanumeric (b : byte) : bool :=
  is_ascii_digit b || is_ascii_lowercase b || is_ascii_uppercase b.
Definition is_ascii_hexdigit (b : byte) : bool :=
  is_ascii_digit b || in_range 97 102 b || in_range 65 70 b.
Definition is_ascii_graphic (b : byte) : bool := in_range 33 126 b.

Definition to_ascii_lowercase_byte (b : byte) : byte :=
  if is_ascii_uppercase b then byte_of_Z (byte_val b + 32) else b.
Definition to_ascii_lowercase (s : string) : string :=
  String.string_of_list_byte (to_ascii_lowercase_byte <$> str_bytes s).
(** [eq_ignore_ascii_case] *)
Definition eq_ignore_ascii_case (s t : string) : bool :=
  bool_decide (to_ascii_lowercase s = to_ascii_lowercase t).

(** [format!] of a decimal integer and of a string with [{:?}].  The debug
    form escapes quotes, backslashes and ASCII control characters; bytes of a
    multi-byte character are kept as they are. *)
Definition show (z : Z) : string := pretty z.

Definition hex_digit (z : Z) : string :=
  String (Ascii.ascii_of_N (Z.to_N (if z <? 10 then 48 + z else 87 + z))) EmptyString.
Definition byte_str (b : byte) : string := String.string_of_list_byte [b].
Definition dquote : string := byte_str "034"%byte.

Definition debug_byte (b : byte) : string :=
  let z := byte_val b in
  if z =? 0 then "\0"
  else if z =? 9 then "\t"
  else if z =? 10 then "\n"
  else if z =? 13 then "\r"
  else if (z =? 34) || (z =? 92) then "\" +:+ byte_str b
  else if is_ascii_control b then
    "\u{" +:+ (if z <? 16 then hex_digit z else hex_digit (z / 16) +:+ hex_digit (z mod 16)) +:+ "}"
  else byte_str b.
Definition show_debug (s : string) : string :=
  dquote +:+ foldr (λ b acc, debug_byte b +:+ acc) EmptyString (str_bytes s) +:+ dquote.

(** Lengths of byte sequences are computed by one rewrite database; [blen_lia]
    uses it, with the sign of every remaining length, to close arithmetic. *)
Lemma blen_be_bytes n z : blen (be_bytes n z) = Z.of_nat n.
Proof. unfold blen. by rewrite length_be_bytes. Qed.
Lemma blen_cons {A} (x : A) l : blen (x :: l) = 1 + blen l.
Proof. unfold blen. cbn [length]. lia. Qed.
Lemma blen_nil {A} : blen (@nil A) = 0.
Proof. done. Qed.

Create HintDb blen_db.
#[export] Hint Rewrite @blen_app @blen_cons @blen_nil blen_be_bytes blen_str_bytes slen_app : blen_db.

Ltac blen_pos :=
  repeat match goal with
  | |- context [blen ?l] => lazymatch goal with
      | _ : 0 ≤ blen l |- _ => fail | _ => pose proof (blen_nonneg l) end
  | _ : context [blen ?l] |- _ => lazymatch goal with
      | _ : 0 ≤ blen l |- _ => fail | _ => pose proof (blen_nonneg l) end
  end.
Ltac blen_lia := autorewrite with blen_db in *; blen_pos; lia.

(** ** Length-prefixed strings

    A string written as its length in a big-endian [u64] followed by its
    bytes, and a list of strings written as its count followed by its
    elements.  [unlp] and [unlps] read one back from the front of a buffer. *)
Definition lp (s : string) : list byte := be_bytes 8 (slen s) ++ str_bytes s.
Definition lps (l : list string) : list byte := be_bytes 8 (blen l) ++ mjoin (lp <$> l).

Definition unlp (l : list byte) : option (string * list byte) :=
  if blen l <? 8 then None
  else
    let n := be_val (take 8 l) in
    let r := drop 8 l in
    if blen r <? n then None
    else Some (String.string_of_list_byte (take (Z.to_nat n) r), drop (Z.to_nat n) r).

Fixpoint unlp_many (n : nat) (l : list byte) : option (list string * list byte) :=
  match n with
  | O => Some ([], l)
  | S n' => '(s, r) ← unlp l; '(t, r') ← unlp_many n' r; Some (s :: t, r')
  end.

Definition unlps (l : list byte) : option (list string * list byte) :=
  if blen l <? 8 then None
  else let n := be_val (take 8 l) in
       if blen l <? n then None else unlp_many (Z.to_nat n) (drop 8 l).

Definition short (s : string) : Prop := slen s < 2 ^ 64.

Lemma unlp_lp s r : short s → unlp (lp s ++ r) = Some (s, r).
Proof.
  unfold short, unlp, lp. intros Hs.
  assert (0 ≤ slen s) by (unfold slen; lia).
  rewrite <- app_assoc, blen_app. unfold blen at 1. rewrite length_be_bytes.
  destruct (Z.ltb_spec (Z.of_nat 8 + blen (str_bytes s ++ r)) 8) as [Hlt|_].
  { pose proof (blen_nonneg (str_bytes s ++ r)). lia. }
  rewrite take_app_length', drop_app_length' by (by rewrite length_be_bytes).
  rewrite be_val_be_bytes_small by (cbn; lia).
  rewrite blen_app, blen_str_bytes.
  destruct (Z.ltb_spec (slen s + blen r) (slen s)) as [Hlt|_].
  { pose proof (blen_nonneg r). lia. }
  assert (Z.to_nat (slen s) = length (str_bytes s)) as Hn.
  { rewrite length_str_bytes. unfold slen. lia. }
  rewrite take_app_length', drop_app_length' by done.
  unfold str_bytes. by rewrite String.string_of_list_byte_of_string.
Qed.

Lemma unlp_many_lp l r :
  Forall short l → unlp_many (length l) (mjoin (lp <$> l) ++ r) = Some (l, r).
Proof.
  induction 1 as [|s l Hs Hl IH]; [done|].
  change (mjoin (lp <$> s :: l)) with (lp s ++ mjoin (lp <$> l)).
  cbn [length unlp_many]. unfold mbind, option_bind.
  rewrite <- app_assoc, unlp_lp by done. by rewrite IH.
Qed.

Lemma blen_lps l : blen l ≤ blen (lps l).
Proof.
  unfold lps. rewrite blen_app. unfold blen at 2. rewrite length_be_bytes.
  enough (blen l ≤ blen (mjoin (lp <$> l))) by lia.
  induction l as [|s l IH]; [done|].
  change (mjoin (lp <$> s :: l)) with (lp s ++ mjoin (lp <$> l)). rewrite blen_app.
  unfold lp at 1. rewrite blen_app. unfold blen at 2. rewrite length_be_bytes.
  pose proof (blen_nonneg (str_bytes s)). unfold blen in *. cbn [length]. lia.
Qed.

Lemma unlps_lps l r :
  blen l < 2 ^ 64 → Forall short l → unlps (lps l ++ r) = Some (l, r).
Proof.
  intros Hlen Hs. unfold unlps.
  pose proof (blen_lps l). pose proof (blen_nonneg l). pose proof (blen_nonneg r).
  rewrite blen_app.
  assert (8 ≤ blen (lps l)) as H8.
  { unfold lps. rewrite blen_app. unfold blen at 1. rewrite length_be_bytes.
    pose proof (blen_nonneg (mjoin (lp <$> l))). lia. }
  destruct (Z.ltb_spec (blen (lps l) + blen r) 8); [lia|].
  replace (lps l ++ r) with (be_bytes 8 (blen l) ++ mjoin (lp <$> l) ++ r)
    by (unfold lps; by rewrite <- app_assoc).
  rewrite take_app_length', drop_app_length' by (by rewrite length_be_bytes).
  rewrite be_val_be_bytes_small by (cbn; lia).
  destruct (Z.ltb_spec (blen (lps l) + blen r) (blen l)); [lia|].
  unfold blen. rewrite Nat2Z.id. by apply unlp_many_lp.
Qed.

Lemma lp_inj s t r r' :
  short s → short t → lp s ++ r = lp t ++ r' → s = t ∧ r = r'.
Proof.
  intros Hs Ht Heq%(f_equal unlp). rewrite !unlp_lp in Heq by done. by simplify_eq.
Qed.

Lemma lps_inj l k r r' :
  blen l < 2 ^ 64 → blen k < 2 ^ 64 → Forall short l → Forall short k →
  lps l ++ r = lps k ++ r' → l = k ∧ r = r'.
Proof.
  intros ???? Heq%(f_equal unlps). rewrite !unlps_lps in Heq by done. by simplify_eq.
Qed.

(** ** Ordered slices *)

(** [values.windows(2).any(|pair| pair[0] >= pair[1])] *)
Fixpoint has_disorder (l : list string) : bool :=
  match l with
  | a :: (b :: _) as t => negb (str_ltb a b) || has_disorder t
  | _ => false
  end.

Definition str_lt (s t : string) : Prop := str_ltb s t = true.
#[global] Instance str_lt_strict : StrictOrder str_lt.
Proof.
  split.
  - intros s. unfold complement, str_lt. by rewrite str_ltb_irrefl.
  - intros s t u. apply str_ltb_trans.
Qed.

Lemma has_disorder_cons a b l :
  has_disorder (a :: b :: l) = negb (str_ltb a b) || has_disorder (b :: l).
Proof. done. Qed.

Lemma has_disorder_sorted l : has_disorder l = false ↔ StronglySorted str_lt l.
Proof.
  split.
  - intros Hl. apply Sorted_StronglySorted; [intros ???; apply str_ltb_trans|].
    induction l as [|a [|b l] IH]; [by constructor|by repeat constructor|].
    rewrite has_disorder_cons in Hl. apply orb_false_iff in Hl as [Hab%negb_false_iff Hl].
    constructor; [by apply IH|by constructor].
  - induction 1 as [|a l Hl IH Ha]; [done|]. destruct l as [|b l]; [done|].
    rewrite has_disorder_cons. inversion_clear Ha as [|?? Hab]. unfold str_lt in Hab.
    by rewrite Hab, IH.
Qed.

(** [slice::binary_search] of the standard library: the halving loop keeps a
    window [base .. base + size] and finishes with one comparison. *)
Fixpoint bsearch_base (fuel : nat) (l : list string) (x : string) (base size : nat) : nat :=
  match fuel with
  | O => base
  | S fuel' =>
      if (size <=? 1)%nat then base
      else
        let half := (size / 2)%nat in
        let mid := (base + half)%nat in
        let base' := match str_compare (l !!! mid) x with Gt => base | _ => mid end in
        bsearch_base fuel' l x base' (size - half)
  end.

Definition binary_search (l : list string) (x : string) : bool :=
  match length l with
  | O => false
  | n => bool_decide (l !!! bsearch_base n l x 0 n = x)
  end.

Lemma sorted_lookup_lt l i j s t :
  StronglySorted str_lt l → l !! i = Some s → l !! j = Some t → (i < j)%nat → str_lt s t.
Proof.
  intros Hl. revert i j. induction Hl as [|a l Hl IH Ha]; intros [|i] [|j] Hi Hj Hlt;
    cbn in *; try done || lia.
  - injection Hi as <-. rewrite Forall_forall in Ha. apply Ha.
    apply list_elem_of_lookup. eauto.
  - apply (IH i j); auto with lia.
Qed.

Lemma str_compare_Gt s t : str_compare s t = Gt ↔ str_lt t s.
Proof.
  unfold str_compare, str_lt. destruct (str_ltb s t) eqn:Hst.
  - split; [done|]. intros Hts. pose proof (str_ltb_trans _ _ _ Hst Hts).
    by rewrite str_ltb_irrefl in *.
  - case_bool_decide as Heq; subst; [by rewrite str_ltb_irrefl|].
    split; [|done]. intros _. by destruct (str_ltb_total _ _ Hst).
Qed.

Lemma half_bounds n : (1 < n → 0 < n / 2 ∧ 2 * (n / 2) <= n)%nat.
Proof.
  pose proof (Nat.div_mod_eq n 2). pose proof (Nat.mod_upper_bound n 2). lia.
Qed.

Lemma bsearch_base_window fuel l x base size i :
  StronglySorted str_lt l → l !! i = Some x →
  (base <= i < base + size)%nat → (base + size <= length l)%nat → (size <= fuel)%nat →
  bsearch_base fuel l x base size = i.
Proof.
  intros Hl Hi. revert base size. induction fuel as [|fuel IH]; intros base size Hw Hlen Hf; [lia|].
  cbn [bsearch_base]. destruct (Nat.leb_spec size 1); [lia|].
  pose proof (half_bounds size).
  set (half := (size / 2)%nat) in *.
  destruct (lookup_lt_is_Some_2 l (base + half)) as [m Hm]; [lia|].
  rewrite (list_lookup_total_correct _ _ _ Hm).
  destruct (str_compare m x) eqn:Hc.
  3: { apply str_compare_Gt in Hc. apply IH; try lia.
       destruct (decide (i < base + half)%nat); [lia|].
       destruct (decide (i = base + half)%nat) as [->|].
       - rewrite Hi in Hm. injection Hm as ->. by apply irreflexivity in Hc; [|apply _].
       - assert (str_lt m x) as Hmx by (eapply (sorted_lookup_lt l); eauto with lia).
         destruct (irreflexivity str_lt m). by trans x. }
  all: assert (¬ str_lt x m) as Hn by (rewrite <- str_compare_Gt; congruence);
    apply IH; try lia; destruct (decide (base + half <= i)%nat); [lia|];
    destruct Hn; eapply (sorted_lookup_lt l); eauto with lia.
Qed.

(** On a strictly sorted slice the binary search finds exactly the members. *)
Lemma binary_search_spec l x :
  StronglySorted str_lt l → binary_search l x = true ↔ x ∈ l.
Proof.
  intros Hl. unfold binary_search. destruct l as [|a l].
  { cbn. split; [done|]. by intros ?%not_elem_of_nil. }
  cbn [length]. rewrite bool_decide_eq_true. set (n := S (length l)). split.
  - intros <-. apply list_elem_of_lookup.
    destruct (decide (bsearch_base n (a :: l) x 0 n < length (a :: l))%nat).
    + eexists. by apply list_lookup_lookup_total_lt.
    + exfalso. apply n0. clear n0. cbn [length].
      assert (∀ fuel base size, (0 < size)%nat → (base + size <= n)%nat →
        (bsearch_base fuel (a :: l) x base size < n)%nat) as Hb; [|by apply Hb; unfold n; lia].
      induction fuel as [|fuel IH]; intros base size Hs Hn; cbn [bsearch_base]; [lia|].
      destruct (Nat.leb_spec size 1); [lia|].
      pose proof (half_bounds size).
      destruct (str_compare ((a :: l) !!! (base + size / 2)%nat) x); apply IH; lia.
  - intros [i Hi]%list_elem_of_lookup. pose proof (lookup_lt_Some _ _ _ Hi).
    rewrite (bsearch_base_window n (a :: l) x 0 n i); auto; cbn [length] in *; try lia.
    by apply list_lookup_total_correct.
Qed.

(** ** Threads in a list: sums of their weights, and adding one *)

(** Steps of interest in a run. *)
Definition count {A} (f : A → nat) (l : list A) : nat := sum_list (f <$> l).

Definition zsum {A} (f : A → Z) (l : list A) : Z := foldr (λ x n, f x + n) 0 l.

Lemma zsum_app {A} (f : A → Z) l k : zsum f (l ++ k) = zsum f l + zsum f k.
Proof. induction l as [|x l IH]; cbn; [done|]. unfold zsum in *. lia. Qed.

Lemma zsum_insert {A} (f : A → Z) l i x y :
  l !! i = Some x → zsum f (<[i := y]> l) = zsum f l - f x + f y.
Proof.
  intros Hi. rewrite insert_take_drop by by eapply lookup_lt_Some.
  rewrite <- (take_drop_middle l i x Hi) at 3. rewrite !zsum_app. cbn. lia.
Qed.

Lemma zsum_le {A} (f g : A → Z) l : (∀ x, f x ≤ g x) → zsum f l ≤ zsum g l.
Proof. intros Hfg. induction l as [|x l IH]; cbn; [lia|]. specialize (Hfg x). unfold zsum in IH. lia. Qed.

Lemma zsum_nonneg {A} (f : A → Z) l : (∀ x, 0 ≤ f x) → 0 ≤ zsum f l.
Proof. intros Hf. induction l as [|x l IH]; cbn; [lia|]. specialize (Hf x). unfold zsum in IH. lia. Qed.

Lemma zsum_pos {A} (f : A → Z) l : (∀ x, 0 ≤ f x) → 0 < zsum f l ↔ ∃ x, x ∈ l ∧ 0 < f x.
Proof.
  intros Hf. induction l as [|x l IH]; cbn.
  - split; [lia|]. intros (x & Hx & _). by apply not_elem_of_nil in Hx.
  - fold (zsum f l). pose proof (zsum_nonneg f l Hf). specialize (Hf x). setoid_rewrite elem_of_cons. split.
    + intros Hs. destruct (decide (0 < f x)); [by exists x; auto|].
      destruct (proj1 IH) as (y & ? & ?); [lia|]. exists y; auto.
    + intros (y & [->|Hy] & Hp); [lia|]. assert (0 < zsum f l) by (apply IH; eauto). lia.
Qed.

Lemma lookup_snoc_cases {A} (l : list A) x i y :
  (l ++ [x]) !! i = Some y → l !! i = Some y ∨ i = length l ∧ y = x.
Proof.
  intros [Hl|[Hl Hx]]%lookup_app_Some; [by left|right].
  apply list_lookup_singleton_Some in Hx as [? ->]. split; [lia|done].
Qed.

(** Histories that grow at the end. *)
Lemma snoc_old {A} (x y : A) l : x ∈ l → x ∈ l ++ [y].
Proof. intros. apply elem_of_app. by left. Qed.
Lemma snoc_new {A} (x : A) l : x ∈ l ++ [x].
Proof. apply elem_of_app. right. by apply list_elem_of_singleton. Qed.
Create HintDb history.
#[export] Hint Resolve snoc_old snoc_new : history.
