(* ===== verification/Errors.v ===== *)
(** Error values of the runtime ([src/src/error.rs]): the [Error] enum, the
    phase and reason classifications of checkpoint failures, and the bounded
    worker diagnostics they carry. *)
From S2P Require Import Prelude.

Local Open Scope Z_scope.

Inductive WasixCheckpointRestorePhase :=
| RestoreReady | RestoreInput | RestoreAuthorization
| RestoreExecution | RestoreOutput | RestoreShutdown.

Inductive WasixCheckpointCapturePhase :=
| CaptureReady | CaptureInput | CaptureAuthorization
| CaptureExecution | CaptureOutput | CaptureShutdown.

Inductive WasixCheckpointRestoreFailureReason :=
| RestoreProtocol | RestoreRuntime | RestoreResourceLimit | RestoreWorkerProcess.

Inductive WasixCheckpointCaptureFailureReason :=
| CaptureProtocol | CaptureRuntime | CaptureResourceLimit | CaptureWorkerProcess.

#[global] Instance restore_phase_eq : EqDecision WasixCheckpointRestorePhase.
Proof. solve_decision. Defined.
#[global] Instance capture_phase_eq : EqDecision WasixCheckpointCapturePhase.
Proof. solve_decision. Defined.
#[global] Instance restore_reason_eq : EqDecision WasixCheckpointRestoreFailureReason.
Proof. solve_decision. Defined.
#[global] Instance capture_reason_eq : EqDecision WasixCheckpointCaptureFailureReason.
Proof. solve_decision. Defined.

(** Bounded diagnostics emitted by a worker process. *)
Record WasixWorkerDiagnostics := {
  diagnostic_bytes : list byte;
  truncated : bool;
}.

Record WasixCheckpointRestoreFailure := {
  rf_phase : WasixCheckpointRestorePhase;
  rf_reason : WasixCheckpointRestoreFailureReason;
  rf_diagnostics : WasixWorkerDiagnostics;
  rf_exit_code : option Z;
  rf_exit_signal : option Z;
}.

Record WasixCheckpointCaptureFailure := {
  cf_phase : WasixCheckpointCapturePhase;
  cf_reason : WasixCheckpointCaptureFailureReason;
  cf_diagnostics : WasixWorkerDiagnostics;
  cf_exit_code : option Z;
  cf_exit_signal : option Z;
}.

#[global] Instance diagnostics_eq : EqDecision WasixWorkerDiagnostics.
Proof. solve_decision. Defined.
#[global] Instance restore_failure_eq : EqDecision WasixCheckpointRestoreFailure.
Proof. solve_decision. Defined.
#[global] Instance capture_failure_eq : EqDecision WasixCheckpointCaptureFailure.
Proof. solve_decision. Defined.

(** [WasixCheckpointRestoreFailure::new] and [with_exit_status], and their
    capture counterparts. *)
Definition restore_failure_new phase reason diagnostics : WasixCheckpointRestoreFailure :=
  {| rf_phase := phase; rf_reason := reason; rf_diagnostics := diagnostics;
     rf_exit_code := None; rf_exit_signal := None |}.

Definition restore_with_exit_status (exit_code exit_signal : option Z)
    (f : WasixCheckpointRestoreFailure) : WasixCheckpointRestoreFailure :=
  {| rf_phase := rf_phase f; rf_reason := rf_reason f; rf_diagnostics := rf_diagnostics f;
     rf_exit_code := exit_code; rf_exit_signal := exit_signal |}.

Definition capture_failure_new phase reason diagnostics : WasixCheckpointCaptureFailure :=
  {| cf_phase := phase; cf_reason := reason; cf_diagnostics := diagnostics;
     cf_exit_code := None; cf_exit_signal := None |}.

Definition capture_with_exit_status (exit_code exit_signal : option Z)
    (f : WasixCheckpointCaptureFailure) : WasixCheckpointCaptureFailure :=
  {| cf_phase := cf_phase f; cf_reason := cf_reason f; cf_diagnostics := cf_diagnostics f;
     cf_exit_code := exit_code; cf_exit_signal := exit_signal |}.

(** The runtime's [Error] enum. *)
Inductive Error :=
| Configuration (message : string)
| Io (message : string)
| Preparation (message : string)
| UnsupportedComponent (message : string)
| Execution (message : string)
| Limit (what : string)
| Cancelled
| IdleEvicted
| InvalidState (what : string)
| Timeout
| Cache (message : string)
| Checkpoint (message : string)
| CheckpointRestore (failure : WasixCheckpointRestoreFailure)
| CheckpointCapture (failure : WasixCheckpointCaptureFailure).

#[global] Instance error_eq : EqDecision Error.
Proof. solve_decision. Defined.

Notation Result := (result Error).

(** The [Display] text of the phases and reasons ([#[error("...")]]). *)
Definition restore_phase_display (p : WasixCheckpointRestorePhase) : string :=
  match p with
  | RestoreReady => "worker readiness"
  | RestoreInput => "sealed input transfer"
  | RestoreAuthorization => "execution authorization"
  | RestoreExecution => "checkpoint execution"
  | RestoreOutput => "output collection"
  | RestoreShutdown => "worker shutdown"
  end.

Definition capture_phase_display (p : WasixCheckpointCapturePhase) : string :=
  match p with
  | CaptureReady => "worker readiness"
  | CaptureInput => "sealed input transfer"
  | CaptureAuthorization => "execution authorization"
  | CaptureExecution => "checkpoint execution"
  | CaptureOutput => "output collection"
  | CaptureShutdown => "worker shutdown"
  end.

Definition restore_reason_display (r : WasixCheckpointRestoreFailureReason) : string :=
  match r with
  | RestoreProtocol => "worker protocol failure"
  | RestoreRuntime => "checkpoint runtime failure"
  | RestoreResourceLimit => "checkpoint resource limit"
  | RestoreWorkerProcess => "worker process failure"
  end.

Definition capture_reason_display (r : WasixCheckpointCaptureFailureReason) : string :=
  match r with
  | CaptureProtocol => "worker protocol failure"
  | CaptureRuntime => "checkpoint runtime failure"
  | CaptureResourceLimit => "checkpoint resource limit"
  | CaptureWorkerProcess => "worker process failure"
  end.

(** [Display] of [Error]. *)
Definition error_display (e : Error) : string :=
  match e with
  | Configuration m => "invalid runtime configuration: " +:+ m
  | Io m => "component I/O failed: " +:+ m
  | Preparation m => "component preparation failed: " +:+ m
  | UnsupportedComponent m => "unsupported component: " +:+ m
  | Execution m => "component execution failed: " +:+ m
  | Limit m => "runtime limit exceeded: " +:+ m
  | Cancelled => "component execution was cancelled"
  | IdleEvicted => "paused invocation was evicted after its resident lifetime expired"
  | InvalidState m => "invalid invocation state: " +:+ m
  | Timeout => "component execution timed out"
  | Cache m => "AOT cache failed: " +:+ m
  | Checkpoint m => "WASIX checkpoint failed: " +:+ m
  | CheckpointRestore f =>
      "WASIX checkpoint restore failed during " +:+ restore_phase_display (rf_phase f)
        +:+ ": " +:+ restore_reason_display (rf_reason f)
  | CheckpointCapture f =>
      "WASIX checkpoint capture failed during " +:+ capture_phase_display (cf_phase f)
        +:+ ": " +:+ capture_reason_display (cf_reason f)
  end.
