(* ===== verification/Interfaces.v ===== *)
(** Interfaces of the third-party code the runtime calls: SHA-256 and
    HMAC-SHA-256 (RustCrypto), the [hex] crate, and [serde_json] for one
    serializable type.  Each is a class of operations and a class of the laws
    its documentation states; clients are proved against the classes.  The
    [Toy] module gives one concrete implementation of every class, so that
    hypotheses on these interfaces can be shown satisfiable and statements can
    be evaluated. *)
From S2P Require Import Prelude.

Local Open Scope Z_scope.

Class Crypto := {
  sha256 : list byte → list byte;
  hmac_sha256 : list byte → list byte → list byte;
  hmac_accepts_key : list byte → bool;
  hex_encode : list byte → string;
  hex_decode : string → option (list byte);
}.

Definition is_lower_hex (b : byte) : bool := is_ascii_digit b || in_range 97 102 b.

Class CryptoLaws (C : Crypto) : Prop := {
  sha256_length b : length (sha256 b) = 32%nat;
  hmac_length k m : length (hmac_sha256 k m) = 32%nat;
  hmac_any_key k : hmac_accepts_key k = true;
  hex_encode_length b : String.length (hex_encode b) = (2 * length b)%nat;
  hex_encode_lower b : str_all is_lower_hex (hex_encode b) = true;
  hex_decode_encode b : hex_decode (hex_encode b) = Some b;
}.

(** [serde_json::to_vec] and [serde_json::from_slice] at one type; errors are
    their [Display] text. *)
Class Json (A : Type) := {
  to_vec : A → result string (list byte);
  from_slice : list byte → result string A;
}.

Class JsonLaws {A} (J : Json A) : Prop := {
  from_to a b : to_vec a = Ok b → from_slice b = Ok a;
}.

(** A JSON text is never empty. *)
Class JsonNonEmpty {A} (J : Json A) : Prop :=
  to_vec_nonempty a b : to_vec a = Ok b → b ≠ [].

(** [serde_json::to_writer] at one type: the pieces it writes in order and the
    error that ends it, if any. *)
Class JsonWriter (A : Type) := json_writes : A → list (list byte) * option string.

Class JsonWriterLaws {A} (J : Json A) (W : JsonWriter A) : Prop := {
  json_writes_to_vec a : to_vec a =
    match json_writes a with
    | (pieces, None) => Ok (mjoin pieces)
    | (_, Some e) => Err e
    end;
}.

(** An HMAC computation: [new_from_slice], [update], [finalize] and
    [verify_slice], which compares the whole tag. *)
Record Mac := { mac_key : list byte; mac_data : list byte }.

Definition mac_new `{Crypto} (key : list byte) : option Mac :=
  if hmac_accepts_key key then Some {| mac_key := key; mac_data := [] |} else None.
Definition mac_update (m : Mac) (b : list byte) : Mac :=
  {| mac_key := mac_key m; mac_data := mac_data m ++ b |}.
Definition mac_finalize `{Crypto} (m : Mac) : list byte := hmac_sha256 (mac_key m) (mac_data m).
Definition mac_verify_slice `{Crypto} (m : Mac) (tag : list byte) : bool :=
  bool_decide (tag = mac_finalize m).

(** A lowercase SHA-256 digest in hexadecimal, and its prefixed form. *)
Definition Hex64 (s : string) : Prop :=
  slen s = 64 ∧ Forall (λ b, is_lower_hex b = true) (str_bytes s).
Definition Sha256Id (s : string) : Prop := ∃ d, s = "sha256:" +:+ d ∧ Hex64 d.

(** The lowercase hexadecimal digest [hex::encode(Sha256::digest(b))]. *)
Definition sha256_hex `{Crypto} (b : list byte) : string := hex_encode (sha256 b).

(** Two different inputs with the same digest. *)
Definition sha256_collision `{Crypto} : Prop :=
  ∃ x y, x ≠ y ∧ sha256 x = sha256 y.

Section laws.
Context `{CryptoLaws}.

Lemma hex_encode_inj b c : hex_encode b = hex_encode c → b = c.
Proof.
  intros Heq. apply (f_equal hex_decode) in Heq.
  rewrite !hex_decode_encode in Heq. congruence.
Qed.

Lemma sha256_hex_length b : slen (sha256_hex b) = 64.
Proof. unfold slen, sha256_hex. rewrite hex_encode_length, sha256_length. done. Qed.

Lemma sha256_hex_lower b : str_all is_lower_hex (sha256_hex b) = true.
Proof. apply hex_encode_lower. Qed.

Lemma sha256_hex_hex64 b : Hex64 (sha256_hex b).
Proof. split; [apply sha256_hex_length|]. apply str_all_Forall, sha256_hex_lower. Qed.

Lemma sha256_hex_id b : Sha256Id ("sha256:" +:+ sha256_hex b).
Proof. eexists. split; [done|]. apply sha256_hex_hex64. Qed.

Lemma sha256_hex_collision x y :
  sha256_hex x = sha256_hex y → x = y ∨ sha256_collision.
Proof.
  intros Heq%hex_encode_inj. destruct (decide (x = y)) as [|Hne]; [by left|].
  right. by exists x, y.
Qed.
End laws.

Lemma from_slice_to_vec_inj {A} (J : Json A) `{!JsonLaws J} a a' b :
  to_vec a = Ok b → to_vec a' = Ok b → a = a'.
Proof. intros H1%from_to H2%from_to. congruence. Qed.

(** ** Concrete implementations *)
Module Toy.
(** The first 32 bytes, padded with zeros. *)
Definition digest (b : list byte) : list byte := take 32 (b ++ replicate 32 x00).

(** Hexadecimal digits of the two halves of a byte. *)
Definition hex_nibble (x : bool * (bool * (bool * bool))) : byte :=
  match x with
  | (false, (false, (false, false))) => "0" | (true, (false, (false, false))) => "1"
  | (false, (true, (false, false))) => "2" | (true, (true, (false, false))) => "3"
  | (false, (false, (true, false))) => "4" | (true, (false, (true, false))) => "5"
  | (false, (true, (true, false))) => "6" | (true, (true, (true, false))) => "7"
  | (false, (false, (false, true))) => "8" | (true, (false, (false, true))) => "9"
  | (false, (true, (false, true))) => "a" | (true, (true, (false, true))) => "b"
  | (false, (false, (true, true))) => "c" | (true, (false, (true, true))) => "d"
  | (false, (true, (true, true))) => "e" | (true, (true, (true, true))) => "f"
  end%byte.
Definition unhex_nibble (b : byte) : option (bool * (bool * (bool * bool))) :=
  match b with
  | "0" => Some (false, (false, (false, false))) | "1" => Some (true, (false, (false, false)))
  | "2" => Some (false, (true, (false, false))) | "3" => Some (true, (true, (false, false)))
  | "4" => Some (false, (false, (true, false))) | "5" => Some (true, (false, (true, false)))
  | "6" => Some (false, (true, (true, false))) | "7" => Some (true, (true, (true, false)))
  | "8" => Some (false, (false, (false, true))) | "9" => Some (true, (false, (false, true)))
  | "a" => Some (false, (true, (false, true))) | "b" => Some (true, (true, (false, true)))
  | "c" => Some (false, (false, (true, true))) | "d" => Some (true, (false, (true, true)))
  | "e" => Some (false, (true, (true, true))) | "f" => Some (true, (true, (true, true)))
  | _ => None
  end%byte.
Definition low_nibble (b : byte) :=
  let '(b0, (b1, (b2, (b3, _)))) := Byte.to_bits b in (b0, (b1, (b2, b3))).
Definition high_nibble (b : byte) :=
  let '(_, (_, (_, (_, h)))) := Byte.to_bits b in h.
Definition of_nibbles (h l : bool * (bool * (bool * bool))) : byte :=
  let '(l0, (l1, (l2, l3))) := l in Byte.of_bits (l0, (l1, (l2, (l3, h)))).

Fixpoint hex_bytes (l : list byte) : list byte :=
  match l with
  | [] => []
  | b :: l' => hex_nibble (high_nibble b) :: hex_nibble (low_nibble b) :: hex_bytes l'
  end.
Fixpoint unhex_bytes (l : list byte) : option (list byte) :=
  match l with
  | [] => Some []
  | [_] => None
  | a :: b :: l' =>
      x ← unhex_nibble a; y ← unhex_nibble b; r ← unhex_bytes l'; Some (of_nibbles x y :: r)
  end.

#[export] Instance crypto : Crypto := {|
  sha256 := digest;
  hmac_sha256 k m := digest (k ++ m);
  hmac_accepts_key _ := true;
  hex_encode b := String.string_of_list_byte (hex_bytes b);
  hex_decode s := unhex_bytes (str_bytes s);
|}.

Lemma unhex_hex_nibble x : unhex_nibble (hex_nibble x) = Some x.
Proof. by destruct x as [[] [[] [[] []]]]. Qed.
Lemma hex_nibble_lower x : is_lower_hex (hex_nibble x) = true.
Proof. by destruct x as [[] [[] [[] []]]]. Qed.
Lemma of_nibbles_split b : of_nibbles (high_nibble b) (low_nibble b) = b.
Proof. by destruct b. Qed.

Lemma unhex_hex_bytes l : unhex_bytes (hex_bytes l) = Some l.
Proof.
  induction l as [|b l IH]; [done|]. cbn [hex_bytes unhex_bytes].
  rewrite !unhex_hex_nibble, IH. cbn. by rewrite of_nibbles_split.
Qed.

Lemma length_digest b : length (digest b) = 32%nat.
Proof. unfold digest. rewrite length_take, length_app, length_replicate. lia. Qed.

#[export] Instance crypto_laws : CryptoLaws crypto.
Proof.
  split.
  - apply length_digest.
  - intros k m. apply length_digest.
  - done.
  - intros b. cbn. rewrite <- length_str_bytes. unfold str_bytes.
    rewrite String.list_byte_of_string_of_list_byte.
    induction b as [|x b IH]; [done|]. cbn [hex_bytes length]. lia.
  - intros b. change (str_all is_lower_hex (String.string_of_list_byte (hex_bytes b)) = true).
    unfold str_all, str_bytes.
    rewrite String.list_byte_of_string_of_list_byte.
    induction b as [|x b IH]; [done|]. cbn [hex_bytes forallb]. by rewrite !hex_nibble_lower, IH.
  - intros b.
    change (unhex_bytes (str_bytes (String.string_of_list_byte (hex_bytes b))) = Some b).
    unfold str_bytes. rewrite String.list_byte_of_string_of_list_byte. apply unhex_hex_bytes.
Qed.

(** A codec for values written as lists of lists of strings: every byte of a
    string is preceded by 1, a string ends with 2 and a list with 3. *)
Fixpoint write_string (s k : list byte) : list byte :=
  match s with [] => x02 :: k | b :: s' => x01 :: b :: write_string s' k end.
Definition write_strings (l : list string) (k : list byte) : list byte :=
  foldr (λ s k, write_string (str_bytes s) k) (x03 :: k) l.
Definition write_lists (ll : list (list string)) : list byte := foldr write_strings [] ll.

(** The parser's state: the string read so far, the strings and the lists,
    each in reverse. *)
Fixpoint read_lists (s : list byte) (l : list string) (ll : list (list string))
    (b : list byte) : option (list (list string)) :=
  match b with
  | [] => Some (reverse ll)
  | x01 :: c :: b' => read_lists (c :: s) l ll b'
  | x02 :: b' => read_lists [] (String.string_of_list_byte (reverse s) :: l) ll b'
  | x03 :: b' => read_lists [] [] (reverse l :: ll) b'
  | _ => None
  end.

Lemma read_write_string s t l ll k :
  read_lists t l ll (write_string s k) =
  read_lists [] (String.string_of_list_byte (reverse t ++ s) :: l) ll k.
Proof.
  revert t. induction s as [|b s IH]; intros t; cbn [write_string read_lists];
    [by rewrite app_nil_r|].
  by rewrite IH, reverse_cons, <- app_assoc.
Qed.
Lemma read_write_strings x l ll k :
  read_lists [] l ll (write_strings x k) = read_lists [] [] ((reverse l ++ x) :: ll) k.
Proof.
  revert l. induction x as [|s x IH]; intros l; [by cbn; rewrite app_nil_r|].
  change (write_strings (s :: x) k) with (write_string (str_bytes s) (write_strings x k)).
  rewrite read_write_string. cbn [reverse app]. change (reverse []) with (@nil byte).
  cbn [app]. unfold str_bytes. rewrite String.string_of_list_byte_of_string, IH.
  by rewrite reverse_cons, <- app_assoc.
Qed.
Lemma read_write_lists ll done_ :
  read_lists [] [] done_ (write_lists ll) = Some (reverse done_ ++ ll).
Proof.
  revert done_. induction ll as [|x ll IH]; intros d; [by cbn; rewrite app_nil_r|].
  change (write_lists (x :: ll)) with (write_strings x (write_lists ll)).
  rewrite read_write_strings, IH, reverse_cons, <- app_assoc. done.
Qed.

(** Integers as their sign and binary digits. *)
Fixpoint pos_digits (p : positive) : list byte :=
  match p with
  | xH => []
  | xO p' => "0"%byte :: pos_digits p'
  | xI p' => "1"%byte :: pos_digits p'
  end.
Fixpoint digits_pos (s : list byte) : positive :=
  match s with
  | [] => xH
  | "0"%byte :: s' => xO (digits_pos s')
  | _ :: s' => xI (digits_pos s')
  end.
Definition of_z (z : Z) : string :=
  String.string_of_list_byte
    match z with
    | Z0 => []
    | Zpos p => "+"%byte :: pos_digits p
    | Zneg p => "-"%byte :: pos_digits p
    end.
Definition to_z (s : string) : Z :=
  match str_bytes s with
  | [] => Z0
  | "+"%byte :: s' => Zpos (digits_pos s')
  | _ :: s' => Zneg (digits_pos s')
  end.
Lemma digits_pos_digits p : digits_pos (pos_digits p) = p.
Proof. induction p as [p IH|p IH|]; cbn; by rewrite ?IH. Qed.
Lemma to_of_z z : to_z (of_z z) = z.
Proof.
  unfold to_z, of_z, str_bytes. rewrite String.list_byte_of_string_of_list_byte.
  destruct z; by rewrite ?digits_pos_digits.
Qed.

Definition json {A} (enc : A → list (list string)) (dec : list (list string) → option A) : Json A := {|
  to_vec a := Ok (write_lists (enc a));
  from_slice b := ok_or (read_lists [] [] [] b ≫= dec) "malformed";
|}.
Lemma json_laws {A} enc (dec : list (list string) → option A) :
  (∀ a, dec (enc a) = Some a) → JsonLaws (json enc dec).
Proof.
  intros Hdec. split. intros a b [= <-]. cbn. rewrite read_write_lists. cbn. by rewrite Hdec.
Qed.

Lemma write_strings_nonempty l k : write_strings l k ≠ [].
Proof. destruct l as [|s l]; [done|]. cbn. by destruct (str_bytes s). Qed.
Lemma json_nonempty {A} (enc : A → list (list string)) dec :
  (∀ a, enc a ≠ []) → JsonNonEmpty (json enc dec).
Proof.
  intros Hne a b [= <-]. destruct (enc a) as [|x l] eqn:E; [by apply Hne in E|].
  apply write_strings_nonempty.
Qed.
End Toy.
