(* ===== verification/Sha256.v ===== *)
(** SHA-256 (FIPS 180-4), HMAC-SHA-256 (RFC 2104) and hexadecimal text,
    executable: the functions the code uses through the crates [sha2], [hmac]
    and [hex].  They satisfy the laws of the [Crypto] interface, so everything
    proved from those laws holds of the real functions. *)
From S2P Require Import Prelude Interfaces.

Local Open Scope Z_scope.

Module Sha256.
Import Toy.

Definition mask : Z := 2 ^ 32 - 1.
Definition rotr (n x : Z) : Z := Z.lor (Z.shiftr x n) (Z.land mask (Z.shiftl x (32 - n))).
Definition add32 (x y : Z) : Z := Z.land mask (x + y).

Definition small_sigma0 (x : Z) : Z := Z.lxor (rotr 7 x) (Z.lxor (rotr 18 x) (Z.shiftr x 3)).
Definition small_sigma1 (x : Z) : Z := Z.lxor (rotr 17 x) (Z.lxor (rotr 19 x) (Z.shiftr x 10)).
Definition big_sigma0 (x : Z) : Z := Z.lxor (rotr 2 x) (Z.lxor (rotr 13 x) (rotr 22 x)).
Definition big_sigma1 (x : Z) : Z := Z.lxor (rotr 6 x) (Z.lxor (rotr 11 x) (rotr 25 x)).
Definition ch (x y z : Z) : Z := Z.lxor z (Z.land x (Z.lxor y z)).
Definition maj (x y z : Z) : Z := Z.lor (Z.land x y) (Z.land z (Z.lor x y)).

(** The largest [r] below [2 ^ n] with [r ^ k <= x], on top of the bits found. *)
Fixpoint root_from (k : Z) (x : Z) (n : nat) (found : Z) : Z :=
  match n with
  | O => found
  | S n' =>
      let larger := found + 2 ^ Z.of_nat n' in
      root_from k x n' (if larger ^ k <=? x then larger else found)
  end.
(** The first 32 bits of the fraction of the [k]-th root of [p], for the small
    primes: the constants of the standard. *)
Definition root_fraction (k p : Z) : Z := Z.land mask (root_from k (p * 2 ^ (32 * k)) 40 0).
Definition is_prime (p : Z) : bool := forallb (λ q, negb (p mod q =? 0)) (seqZ 2 (p - 2)).
Definition small_primes : list Z := List.filter is_prime (seqZ 2 310).
Definition round_constants : list Z := Eval vm_compute in root_fraction 3 <$> small_primes.

(** The working variables [a] to [h]. *)
Definition state : Type := Z * Z * Z * Z * Z * Z * Z * Z.
Definition initial : state :=
  Eval vm_compute in
    match root_fraction 2 <$> small_primes with
    | a :: b :: c :: d :: e :: f :: g :: h :: _ => (a, b, c, d, e, f, g, h)
    | _ => (0, 0, 0, 0, 0, 0, 0, 0)
    end.

(** One round, consuming the first word of the window and appending the next. *)
Definition round_step (s : state) (k w : Z) : state :=
  let '(a, b, c, d, e, f, g, h) := s in
  let t1 := h + big_sigma1 e + ch e f g + k + w in
  let t2 := big_sigma0 a + maj a b c in
  (add32 t1 t2, a, b, c, add32 d t1, e, f, g).

Definition next_word (w : list Z) : Z :=
  match w with
  | w0 :: w1 :: _ :: _ :: _ :: _ :: _ :: _ :: _ :: w9 :: _ :: _ :: _ :: _ :: w14 :: _ =>
      Z.land mask (small_sigma1 w14 + w9 + small_sigma0 w1 + w0)
  | _ => 0
  end.
Fixpoint rounds (ks : list Z) (w : list Z) (s : state) : state :=
  match ks with
  | [] => s
  | k :: ks' =>
      let n := next_word w in
      match w with
      | w0 :: w' => rounds ks' (w' ++ [n]) (round_step s k w0)
      | [] => s
      end
  end.

Definition compress (s : state) (w : list Z) : state :=
  let '(a, b, c, d, e, f, g, h) := s in
  let '(a', b', c', d', e', f', g', h') := rounds round_constants w s in
  (add32 a a', add32 b b', add32 c c', add32 d d', add32 e e', add32 f f', add32 g g', add32 h h').

Definition byte_z (b : byte) : Z := Z.of_N (Byte.to_N b).
Fixpoint words (l : list byte) : list Z :=
  match l with
  | a :: b :: c :: d :: l' =>
      (((byte_z a * 256 + byte_z b) * 256 + byte_z c) * 256 + byte_z d) :: words l'
  | _ => []
  end.
Fixpoint blocks (fuel : nat) (w : list Z) (s : state) : state :=
  match fuel with
  | O => s
  | S fuel' => blocks fuel' (drop 16 w) (compress s (take 16 w))
  end.

(** A one bit, zeros, and the length in bits as 64 bits. *)
Definition pad (l : list byte) : list byte :=
  let n := length l in
  l ++ [x80] ++ replicate ((119 - n mod 64) mod 64) x00 ++ be_bytes 8 (8 * Z.of_nat n).
Definition sha256_sum (l : list byte) : list byte :=
  let w := words (pad l) in
  let '(a, b, c, d, e, f, g, h) := blocks (length w / 16) w initial in
  be_bytes 4 a ++ be_bytes 4 b ++ be_bytes 4 c ++ be_bytes 4 d
  ++ be_bytes 4 e ++ be_bytes 4 f ++ be_bytes 4 g ++ be_bytes 4 h.
Definition xor_byte (x : Z) (b : byte) : byte := default x00 (Byte.of_N (Z.to_N (Z.lxor x (byte_z b)))).
Definition hmac (key message : list byte) : list byte :=
  let key := if Nat.ltb 64 (length key) then sha256_sum key else key in
  let key := key ++ replicate (64 - length key) x00 in
  sha256_sum ((xor_byte 0x5c <$> key) ++ sha256_sum ((xor_byte 0x36 <$> key) ++ message)).

(** ** The interface *)

#[export] Instance crypto : Crypto := {|
  sha256 := sha256_sum;
  hmac_sha256 := hmac;
  hmac_accepts_key _ := true;
  hex_encode := @hex_encode Toy.crypto;
  hex_decode := @hex_decode Toy.crypto;
|}.

Lemma length_sha256_sum l : length (sha256_sum l) = 32%nat.
Proof.
  unfold sha256_sum. destruct (blocks _ _ _) as [[[[[[[a b] c] d] e] f] g] h].
  by rewrite !length_app, !length_be_bytes.
Qed.

#[export] Instance crypto_laws : CryptoLaws crypto.
Proof.
  destruct Toy.crypto_laws as [_ _ _ Hlen Hlower Hdec].
  split; [apply length_sha256_sum|intros k m; apply length_sha256_sum|done|exact Hlen|exact Hlower|exact Hdec].
Qed.

(** Vectors of FIPS 180-4 and RFC 4231. *)
Example sha256_abc :
  sha256_hex (str_bytes "abc") = "ba7816bf8f01cfea414140de5dae2223b00361a396177a9cb410ff61f20015ad".
Proof. vm_compute. reflexivity. Qed.
Example sha256_two_blocks :
  sha256_hex (str_bytes "abcdbcdecdefdefgefghfghighijhijkijkljklmklmnlmnomnopnopq")
  = "248d6a61d20638b8e5c026930c3e6039a33ce45964ff2167f6ecedd419db06c1".
Proof. vm_compute. reflexivity. Qed.
Example hmac_jefe :
  hex_encode (hmac_sha256 (str_bytes "Jefe") (str_bytes "what do ya want for nothing?"))
  = "5bdcc146bf60754e6a042426089575c75a003f089d2739839dec58b964ec3843".
Proof. vm_compute. reflexivity. Qed.
End Sha256.
