(* ===== verification/Environment.v ===== *)
(** The immutable WASIX environment manifest ([src/src/environment.rs]): field
    validation, canonical guest paths, and the content identity.  The theorems
    show that validation accepts exactly the canonical fields, that the
    identity preimage determines every identity-bearing field, and that the
    manifest's JSON and identity round trips succeed. *)
From S2P Require Import Prelude Errors Interfaces.

Local Open Scope Z_scope.

Definition IDENTITY_DOMAIN : list byte :=
  str_bytes "runtrue.environment" ++ [x00] ++ str_bytes "v1" ++ [x00].
Definition MAX_MANIFEST_BYTES : Z := 64 * 1024.
Definition MAX_LIST_ENTRIES : Z := 256.
Definition MAX_TOKEN_BYTES : Z := 256.

Record ManifestEnvelope := { envelope_schema_version : Z }.

Record EnvironmentLanguage := {
  name : string; version : string; implementation : string }.
Record EnvironmentArtifact := {
  format : string; path : string; artifact_sha256 : string }.
Record EnvironmentCommands := {
  default : string; available : list string }.
Record EnvironmentFilesystem := {
  immutable : list string; writable : list string }.
Record EnvironmentBuild := {
  toolchain_id : string; source_digest : string; lock_digest : string }.

Record EnvironmentManifest := {
  schema_version : Z;
  environment_id : string;
  execution_profile : string;
  language : EnvironmentLanguage;
  artifact : EnvironmentArtifact;
  required_wasm_features : list string;
  commands : EnvironmentCommands;
  filesystem : EnvironmentFilesystem;
  build : EnvironmentBuild;
}.

#[global] Instance language_eq : EqDecision EnvironmentLanguage.
Proof. solve_decision. Defined.
#[global] Instance artifact_eq : EqDecision EnvironmentArtifact.
Proof. solve_decision. Defined.
#[global] Instance commands_eq : EqDecision EnvironmentCommands.
Proof. solve_decision. Defined.
#[global] Instance filesystem_eq : EqDecision EnvironmentFilesystem.
Proof. solve_decision. Defined.
#[global] Instance build_eq : EqDecision EnvironmentBuild.
Proof. solve_decision. Defined.
#[global] Instance manifest_eq : EqDecision EnvironmentManifest.
Proof. solve_decision. Defined.

Definition set_environment_id (id : string) (m : EnvironmentManifest) : EnvironmentManifest :=
  {| schema_version := schema_version m; environment_id := id;
     execution_profile := execution_profile m; language := language m;
     artifact := artifact m; required_wasm_features := required_wasm_features m;
     commands := commands m; filesystem := filesystem m; build := build m |}.

(** ** Field validators *)

Definition validate_hex_sha256 (label value : string) : Result unit :=
  reject_if (negb (slen value =? 64)
             || negb (str_all (λ b, is_ascii_hexdigit b && negb (is_ascii_uppercase b)) value))
    (Preparation (label +:+ " must contain exactly 64 lowercase hexadecimal characters")).

Definition validate_prefixed_sha256 (label value : string) : Result unit :=
  digest ← ok_or (strip_prefix "sha256:" value)
             (Preparation (label +:+ " must start with sha256:"));
  validate_hex_sha256 label digest.

Definition validate_text (label value : string) : Result unit :=
  reject_if ((slen value =? 0) || (MAX_TOKEN_BYTES <? slen value)
             || negb (str_all (λ b, is_ascii b && negb (is_ascii_control b)) value))
    (Preparation (label +:+ " must be 1 to " +:+ show MAX_TOKEN_BYTES
                    +:+ " printable ASCII bytes")).

Definition is_token_byte (b : byte) : bool :=
  is_ascii_alphanumeric b
  || existsb (λ c, bool_decide (b = c)) ["."; "_"; "-"; "+"; ":"]%byte.

Definition validate_token (label value : string) : Result unit :=
  reject_if ((slen value =? 0) || (MAX_TOKEN_BYTES <? slen value)
             || negb (str_all is_token_byte value))
    (Preparation (label +:+ " must be a bounded portable ASCII token")).

Definition validate_sorted_tokens (label : string) (values : list string) : Result unit :=
  _ ← reject_if (MAX_LIST_ENTRIES <? blen values)
        (Preparation (label +:+ " exceeds " +:+ show MAX_LIST_ENTRIES +:+ " entries"));
  _ ← for_each (validate_token label) values;
  reject_if (has_disorder values)
    (Preparation (label +:+ " must be lexically sorted and unique")).

(** [value.split('/')]: the segments between separators, at least one. *)
Fixpoint split_slash (l : list byte) : list (list byte) :=
  match l with
  | [] => [[]]
  | b :: l' =>
      if bool_decide (b = "/"%byte) then [] :: split_slash l'
      else match split_slash l' with
           | s :: ss => (b :: s) :: ss
           | [] => [[b]]
           end
  end.

(** [value.contains("//")] *)
Fixpoint has_double_slash (l : list byte) : bool :=
  match l with
  | a :: (b :: _) as t =>
      (bool_decide (a = "/"%byte) && bool_decide (b = "/"%byte)) || has_double_slash t
  | _ => false
  end.

Definition is_path_byte (b : byte) : bool :=
  is_ascii_alphanumeric b
  || existsb (λ c, bool_decide (b = c)) ["."; "_"; "-"; "+"]%byte.

Definition bad_segment (segment : list byte) : bool :=
  bool_decide (segment = [])
  || bool_decide (segment = str_bytes ".")
  || bool_decide (segment = str_bytes "..")
  || negb (forallb is_path_byte segment).

Definition validate_guest_path (label value : string) : Result unit :=
  reject_if ((slen value <? 2)
             || (MAX_TOKEN_BYTES <? slen value)
             || negb (bool_decide (head (str_bytes value) = Some "/"%byte))
             || bool_decide (last (str_bytes value) = Some "/"%byte)
             || has_double_slash (str_bytes value)
             || str_contains "\"%byte value
             || existsb bad_segment (drop 1 (split_slash (str_bytes value))))
    (Preparation (label +:+ " contains a non-canonical absolute POSIX path")).

(** [candidate.strip_prefix(ancestor).is_some_and(|suffix| suffix.starts_with('/'))] *)
Definition is_below (ancestor candidate : string) : bool :=
  match strip_prefix ancestor candidate with
  | Some suffix => bool_decide (head (str_bytes suffix) = Some "/"%byte)
  | None => false
  end.

Fixpoint has_overlap (values : list string) : bool :=
  match values with
  | [] => false
  | ancestor :: rest => existsb (is_below ancestor) rest || has_overlap rest
  end.

Definition validate_sorted_guest_paths (label : string) (values : list string) : Result unit :=
  _ ← reject_if (MAX_LIST_ENTRIES <? blen values)
        (Preparation (label +:+ " exceeds " +:+ show MAX_LIST_ENTRIES +:+ " entries"));
  _ ← for_each (validate_guest_path label) values;
  _ ← reject_if (has_disorder values)
        (Preparation (label +:+ " must be lexically sorted and unique"));
  reject_if (has_overlap values)
    (Preparation (label +:+ " must not contain overlapping ancestor paths")).

(** ** Identity preimage: [hash_string] and [hash_strings] append to the
    hashed byte stream. *)

Definition hash_string (hash : list byte) (value : string) : list byte :=
  hash ++ be_bytes 8 (slen value) ++ str_bytes value.

Definition hash_strings (hash : list byte) (values : list string) : list byte :=
  foldl hash_string (hash ++ be_bytes 8 (blen values)) values.

Section manifest.
Context `{Crypto} {JM : Json EnvironmentManifest} {JE : Json ManifestEnvelope}.

Definition overlaps_writable (p : string) : bool :=
  bool_decide (p = "/tmp") || starts_with "/tmp/" p
  || bool_decide (p = "/work") || starts_with "/work/" p.

Definition zero_id : string :=
  "sha256:" +:+ "0000000000000000000000000000000000000000000000000000000000000000".

Definition validate_identity_fields (m : EnvironmentManifest) : Result unit :=
  _ ← reject_if (negb (schema_version m =? 1))
        (UnsupportedComponent ("unsupported environment schema version "
           +:+ show (schema_version m)));
  _ ← reject_if (negb (bool_decide (execution_profile m = "wasix32-v1")))
        (UnsupportedComponent ("unsupported environment execution profile "
           +:+ show_debug (execution_profile m)));
  _ ← reject_if (negb (bool_decide (format (artifact m) = "webc")))
        (UnsupportedComponent ("unsupported environment artifact format "
           +:+ show_debug (format (artifact m))));
  _ ← reject_if (negb (bool_decide (path (artifact m) = "environment.webc")))
        (Preparation "schema 1 artifact path must be exactly environment.webc");
  _ ← validate_hex_sha256 "artifact SHA-256" (artifact_sha256 (artifact m));
  _ ← validate_text "language name" (name (language m));
  _ ← validate_text "language version" (version (language m));
  _ ← validate_text "language implementation" (implementation (language m));
  _ ← validate_token "toolchain ID" (toolchain_id (build m));
  _ ← validate_prefixed_sha256 "source digest" (source_digest (build m));
  _ ← validate_prefixed_sha256 "lock digest" (lock_digest (build m));
  _ ← validate_sorted_tokens "required WebAssembly features" (required_wasm_features m);
  _ ← validate_token "default command" (default (commands m));
  _ ← validate_sorted_tokens "available commands" (available (commands m));
  _ ← reject_if (negb (binary_search (available (commands m)) (default (commands m))))
        (Preparation "environment default command is missing from the command catalog");
  _ ← validate_sorted_guest_paths "immutable guest paths" (immutable (filesystem m));
  _ ← reject_if (negb (bool_decide (writable (filesystem m) = ["/tmp"; "/work"])))
        (UnsupportedComponent "schema 1 requires fresh writable /tmp and /work only");
  _ ← reject_if (existsb overlaps_writable (immutable (filesystem m)))
        (Preparation "immutable guest paths overlap a writable guest path");
  encoded ← map_err (λ e, Preparation ("environment manifest cannot be encoded: " +:+ e))
              (to_vec (set_environment_id zero_id m));
  reject_if (MAX_MANIFEST_BYTES <? blen encoded) (Limit "environment manifest bytes").

(** The bytes hashed by [calculate_environment_id], in field order. *)
Definition identity_preimage (m : EnvironmentManifest) : list byte :=
  let h := IDENTITY_DOMAIN ++ be_bytes 4 (schema_version m) in
  let h := hash_string h (execution_profile m) in
  let h := hash_string h (name (language m)) in
  let h := hash_string h (version (language m)) in
  let h := hash_string h (implementation (language m)) in
  let h := hash_string h (format (artifact m)) in
  let h := hash_string h (path (artifact m)) in
  let h := hash_string h (artifact_sha256 (artifact m)) in
  let h := hash_strings h (required_wasm_features m) in
  let h := hash_string h (default (commands m)) in
  let h := hash_strings h (available (commands m)) in
  let h := hash_strings h (immutable (filesystem m)) in
  let h := hash_strings h (writable (filesystem m)) in
  let h := hash_string h (toolchain_id (build m)) in
  let h := hash_string h (source_digest (build m)) in
  hash_string h (lock_digest (build m)).

Definition calculate_environment_id (m : EnvironmentManifest) : Result string :=
  _ ← validate_identity_fields m;
  Ok ("sha256:" +:+ sha256_hex (identity_preimage m)).

Definition with_calculated_environment_id (m : EnvironmentManifest)
    : Result EnvironmentManifest :=
  id ← calculate_environment_id m;
  Ok (set_environment_id id m).

Definition validate (m : EnvironmentManifest) : Result unit :=
  _ ← validate_identity_fields m;
  _ ← validate_prefixed_sha256 "environment ID" (environment_id m);
  calculated ← calculate_environment_id m;
  reject_if (negb (bool_decide (environment_id m = calculated)))
    (Preparation ("environment ID mismatch: expected " +:+ calculated
       +:+ ", got " +:+ environment_id m)).

Definition from_json (bytes : list byte) : Result EnvironmentManifest :=
  _ ← reject_if (MAX_MANIFEST_BYTES <? blen bytes) (Limit "environment manifest bytes");
  envelope ← map_err (λ e, Preparation ("invalid environment manifest: " +:+ e))
               (from_slice (A := ManifestEnvelope) bytes);
  _ ← reject_if (negb (envelope_schema_version envelope =? 1))
        (UnsupportedComponent ("unsupported environment schema version "
           +:+ show (envelope_schema_version envelope)));
  manifest ← map_err (λ e, Preparation ("invalid environment manifest: " +:+ e))
               (from_slice (A := EnvironmentManifest) bytes);
  _ ← validate manifest;
  Ok manifest.
End manifest.

(** ** Declarative reading of the validators *)

Definition PrintableText (s : string) : Prop :=
  1 ≤ slen s ≤ 256 ∧ Forall (λ b, 32 ≤ byte_val b ≤ 126) (str_bytes s).
Definition Token (s : string) : Prop :=
  1 ≤ slen s ≤ 256 ∧ Forall (λ b, is_token_byte b = true) (str_bytes s).
Definition SortedTokens (l : list string) : Prop :=
  blen l ≤ 256 ∧ Forall Token l ∧ StronglySorted str_lt l.

(** An absolute path is its segments, each preceded by a slash. *)
Definition join_path (segs : list (list byte)) : list byte :=
  mjoin ((λ s, "/"%byte :: s) <$> segs).
Definition CanonicalSegment (s : list byte) : Prop :=
  s ≠ [] ∧ s ≠ str_bytes "." ∧ s ≠ str_bytes ".." ∧ Forall (λ b, is_path_byte b = true) s.
Definition CanonicalPath (s : string) : Prop :=
  slen s ≤ 256 ∧
  ∃ segs, segs ≠ [] ∧ Forall CanonicalSegment segs ∧ str_bytes s = join_path segs.

(** [c] is the path [a] or lies below it. *)
Definition Below (a c : string) : Prop := ∃ suffix, c = a +:+ "/" +:+ suffix.
Definition DisjointPaths (l : list string) : Prop :=
  ∀ i j a c, l !! i = Some a → l !! j = Some c → i ≠ j → ¬ Below a c.
Definition GuestPaths (l : list string) : Prop :=
  blen l ≤ 256 ∧ Forall CanonicalPath l ∧ StronglySorted str_lt l ∧ DisjointPaths l.

Lemma lower_hex_equiv b :
  is_ascii_hexdigit b && negb (is_ascii_uppercase b) = is_lower_hex b.
Proof. by destruct b. Qed.

Lemma printable_equiv b :
  is_ascii b && negb (is_ascii_control b) = true ↔ 32 ≤ byte_val b ≤ 126.
Proof.
  unfold is_ascii, is_ascii_control.
  rewrite andb_true_iff, negb_true_iff, orb_false_iff, !Z.leb_le, Z.leb_gt, Z.eqb_neq. lia.
Qed.

Lemma validate_hex_sha256_Ok label v u : validate_hex_sha256 label v = Ok u ↔ Hex64 v.
Proof.
  unfold validate_hex_sha256, Hex64.
  rewrite reject_if_Ok, orb_false_iff, !negb_false_iff, Z.eqb_eq, str_all_Forall.
  by setoid_rewrite lower_hex_equiv.
Qed.

Lemma validate_prefixed_sha256_Ok label v u :
  validate_prefixed_sha256 label v = Ok u ↔ Sha256Id v.
Proof.
  unfold validate_prefixed_sha256, Sha256Id. rewrite bind_Ok.
  setoid_rewrite ok_or_Ok. setoid_rewrite strip_prefix_Some.
  by setoid_rewrite validate_hex_sha256_Ok.
Qed.

Lemma validate_text_Ok label v u : validate_text label v = Ok u ↔ PrintableText v.
Proof.
  unfold validate_text, PrintableText, MAX_TOKEN_BYTES.
  rewrite reject_if_Ok, !orb_false_iff, negb_false_iff, Z.eqb_neq, Z.ltb_ge, str_all_Forall.
  setoid_rewrite printable_equiv. assert (0 ≤ slen v) by (unfold slen; lia).
  intuition lia.
Qed.

Lemma validate_token_Ok label v u : validate_token label v = Ok u ↔ Token v.
Proof.
  unfold validate_token, Token, MAX_TOKEN_BYTES.
  rewrite reject_if_Ok, !orb_false_iff, negb_false_iff, Z.eqb_neq, Z.ltb_ge, str_all_Forall.
  assert (0 ≤ slen v) by (unfold slen; lia). intuition lia.
Qed.

Lemma validate_sorted_tokens_Ok label l u :
  validate_sorted_tokens label l = Ok u ↔ SortedTokens l.
Proof.
  unfold validate_sorted_tokens, SortedTokens, MAX_LIST_ENTRIES.
  rewrite <- has_disorder_sorted, <- (for_each_iff (validate_token label) Token l tt)
    by (intros; apply validate_token_Ok).
  rewrite bind_Ok. setoid_rewrite reject_if_Ok. setoid_rewrite Z.ltb_ge.
  setoid_rewrite bind_Ok. setoid_rewrite reject_if_Ok.
  split; [intros (?&?&[]&?&?)|intros (?&?&?)]; eauto 10 using tt.
Qed.

(** ** Canonical guest paths *)

Definition no_slash (s : list byte) : Prop := Forall (λ b, b ≠ "/"%byte) s.

Lemma path_byte_no_slash b : is_path_byte b = true → b ≠ "/"%byte ∧ b ≠ "\"%byte.
Proof. by destruct b. Qed.

Lemma canonical_no_slash s : CanonicalSegment s → no_slash s.
Proof.
  intros (_&_&_&Hs). eapply Forall_impl; [exact Hs|]. intros b Hb.
  by apply path_byte_no_slash.
Qed.

Lemma split_slash_app s l :
  no_slash s → split_slash (s ++ "/"%byte :: l) = s :: split_slash l.
Proof.
  induction 1 as [|b s Hb Hs IH]; cbn [app split_slash]; [by rewrite bool_decide_eq_true_2|].
  rewrite bool_decide_eq_false_2 by done. by rewrite IH.
Qed.

Lemma split_slash_single s : no_slash s → split_slash s = [s].
Proof.
  induction 1 as [|b s Hb Hs IH]; cbn [split_slash]; [done|].
  rewrite bool_decide_eq_false_2 by done. by rewrite IH.
Qed.

Lemma join_path_cons s segs : join_path (s :: segs) = "/"%byte :: s ++ join_path segs.
Proof. done. Qed.

Lemma split_slash_join s segs :
  no_slash s → Forall no_slash segs → split_slash (s ++ join_path segs) = s :: segs.
Proof.
  intros Hs Hsegs. revert s Hs. induction Hsegs as [|t segs Ht _ IH]; intros s Hs.
  - rewrite app_nil_r. by apply split_slash_single.
  - rewrite join_path_cons, split_slash_app by done. by rewrite IH.
Qed.

Lemma split_slash_inv l : ∃ s ss, split_slash l = s :: ss ∧ l = s ++ join_path ss.
Proof.
  induction l as [|b l (s & ss & Hsp & Hl)]; [by exists [], []|].
  cbn [split_slash]. case_bool_decide; subst.
  - rewrite Hsp. by exists [], (s :: ss).
  - rewrite Hsp. by exists (b :: s), ss.
Qed.

Lemma has_double_slash_cons a b l : has_double_slash (a :: b :: l) =
  (bool_decide (a = "/"%byte) && bool_decide (b = "/"%byte)) || has_double_slash (b :: l).
Proof. done. Qed.

Lemma has_double_slash_join s segs :
  no_slash s → Forall CanonicalSegment segs →
  has_double_slash (s ++ join_path segs) = false.
Proof.
  intros Hs Hsegs. revert s Hs. induction Hsegs as [|t segs Ht _ IH]; intros s Hs.
  - rewrite app_nil_r. induction Hs as [|a [|b s] Ha Hs IH]; [done..|].
    rewrite has_double_slash_cons, IH, bool_decide_eq_false_2 by done. done.
  - pose proof (canonical_no_slash _ Ht) as Hns. destruct Ht as [Hne _].
    rewrite join_path_cons. specialize (IH t Hns).
    destruct t as [|c t]; [done|]. inversion_clear Hns as [|?? Hc].
    induction Hs as [|a s Ha Hs IHs].
    + cbn [app]. rewrite has_double_slash_cons, (bool_decide_eq_false_2 (c = _)) by done.
      by rewrite andb_false_r.
    + destruct s as [|b s]; cbn [app] in *;
        rewrite has_double_slash_cons, IHs, bool_decide_eq_false_2 by done; done.
Qed.

Lemma last_join s segs b :
  s ≠ [] → no_slash s → Forall CanonicalSegment segs →
  last (s ++ join_path segs) = Some b → b ≠ "/"%byte.
Proof.
  intros Hne Hs Hsegs. revert s Hne Hs. induction Hsegs as [|t segs Ht _ IH]; intros s Hne Hs.
  - rewrite app_nil_r. intros Hb%last_Some. destruct Hb as [l' ->].
    apply Forall_app in Hs as [_ Hs]. by inversion_clear Hs.
  - rewrite join_path_cons, last_app. cbn [last].
    pose proof (canonical_no_slash _ Ht) as Hns. destruct Ht as [Hnt _].
    destruct t as [|c t]; [done|]. specialize (IH (c :: t) Hnt Hns).
    cbn [app] in *. destruct (last (c :: t ++ join_path segs)) eqn:Hl.
    + cbn [last] in *. rewrite Hl. naive_solver.
    + by apply last_None in Hl.
Qed.

Lemma bad_segment_false s : bad_segment s = false ↔ CanonicalSegment s.
Proof.
  unfold bad_segment, CanonicalSegment.
  rewrite !orb_false_iff, !bool_decide_eq_false, negb_false_iff, forallb_forall, Forall_forall.
  setoid_rewrite list_elem_of_In. tauto.
Qed.

Lemma canonical_no_backslash segs :
  Forall CanonicalSegment segs → Forall (λ b, b ≠ "\"%byte) (join_path segs).
Proof.
  induction 1 as [|s segs (_&_&_&Hs) _ IH]; [constructor|].
  rewrite join_path_cons. constructor; [done|]. apply Forall_app. split; [|done].
  eapply Forall_impl; [exact Hs|]. intros b Hb. by apply path_byte_no_slash.
Qed.

Lemma join_path_guards segs v :
  segs ≠ [] → Forall CanonicalSegment segs → str_bytes v = join_path segs →
  2 ≤ slen v ∧ last (join_path segs) ≠ Some "/"%byte ∧
  has_double_slash (join_path segs) = false ∧ str_contains "\"%byte v = false.
Proof.
  intros Hne Hsegs Hv. destruct Hsegs as [|s segs Hs Hsegs]; [done|].
  pose proof (canonical_no_slash _ Hs) as Hns. split_and!.
  - rewrite <- blen_str_bytes, Hv, join_path_cons. destruct Hs as [Hsn _].
    destruct s; [done|]. unfold blen. cbn. lia.
  - rewrite join_path_cons. change ("/"%byte :: s ++ join_path segs)
      with (["/"%byte] ++ (s ++ join_path segs)). rewrite last_app.
    destruct (last (s ++ join_path segs)) eqn:Hl.
    + intros [= ->]. destruct Hs as [Hsn _]. by eapply (last_join s segs).
    + apply last_None, app_eq_nil in Hl as [-> _]. by destruct Hs.
  - apply (has_double_slash_join []); [constructor|]. by constructor.
  - unfold str_contains. rewrite Hv. apply existsb_false.
    eapply Forall_impl; [apply canonical_no_backslash; by constructor|].
    intros b Hb. by apply bool_decide_eq_false_2.
Qed.

Lemma validate_guest_path_Ok label v u :
  validate_guest_path label v = Ok u ↔ CanonicalPath v.
Proof.
  unfold validate_guest_path, CanonicalPath, MAX_TOKEN_BYTES. rewrite reject_if_Ok.
  split.
  - intros Hok. bool_inv. rewrite existsb_false in *. split; [lia|].
    destruct (split_slash_inv (str_bytes v)) as (s & ss & Hsp & Hl).
    match goal with Hb : Forall _ (drop 1 _) |- _ => rewrite Hsp in Hb; cbn [drop] in Hb;
      rename Hb into Hss end.
    assert (s = []) as ->.
    { destruct s as [|c s]; [done|]. assert (c = "/"%byte) as ->.
      { rewrite Hl in *. cbn in *. congruence. }
      rewrite Hl in Hsp. cbn [app split_slash] in Hsp. by case_bool_decide. }
    exists ss. split_and!; [|by setoid_rewrite bad_segment_false in Hss|done].
    intros ->. cbn in Hl. rewrite Hl in *. cbn in *. congruence.
  - intros (Hlen & segs & Hne & Hsegs & Hv).
    destruct (join_path_guards segs v) as (H2 & Hlast & Hdd & Hbs); [done..|].
    rewrite Hv, !orb_false_iff, Z.ltb_ge, Z.ltb_ge, negb_false_iff, existsb_false.
    destruct Hsegs as [|s segs Hs Hsegs]; [done|].
    split_and!; auto.
    + by apply bool_decide_eq_false.
    + assert (split_slash (join_path (s :: segs)) = [] :: s :: segs) as Hsp.
      { apply (split_slash_join []); [constructor|].
        constructor; [by apply canonical_no_slash|].
        eapply Forall_impl; [exact Hsegs|]. apply canonical_no_slash. }
      rewrite Hsp. cbn [drop]. setoid_rewrite bad_segment_false. by constructor.
Qed.

(** Paths in lexical order: an ancestor precedes what lies below it, so the
    one-directional scan of [has_overlap] finds every overlap. *)

Lemma bytes_ltb_prefix l k : k ≠ [] → bytes_ltb l (l ++ k) = true.
Proof.
  intros Hk. induction l as [|b l IH]; cbn; [by destruct k|].
  by rewrite Z.eqb_refl, IH, orb_true_r.
Qed.

Lemma is_below_true a c : is_below a c = true ↔ Below a c.
Proof.
  unfold is_below, Below. split.
  - destruct (strip_prefix a c) as [t|] eqn:Ht; [|done].
    apply strip_prefix_Some in Ht as ->. intros Hh%bool_decide_eq_true.
    destruct t as [|x t]; [done|]. exists t. f_equal.
    change (String x t) with (String x EmptyString +:+ t). f_equal.
    apply str_bytes_inj. cbn in *. congruence.
  - intros [t ->]. destruct (strip_prefix a _) as [s|] eqn:Hs.
    + apply strip_prefix_Some in Hs. apply (f_equal str_bytes) in Hs.
      rewrite !str_bytes_app in Hs. apply app_inv_head in Hs.
      rewrite <- Hs. by apply bool_decide_eq_true.
    + assert (strip_prefix a (a +:+ "/" +:+ t) = Some ("/" +:+ t)) as Hn
        by by apply strip_prefix_Some. congruence.
Qed.

Lemma below_str_lt a c : Below a c → str_lt a c.
Proof.
  intros [t ->]. unfold str_lt, str_ltb. rewrite str_bytes_app.
  apply bytes_ltb_prefix. by rewrite str_bytes_app.
Qed.

Lemma has_overlap_false l :
  has_overlap l = false ↔
  ∀ i j a c, l !! i = Some a → l !! j = Some c → (i < j)%nat → ¬ Below a c.
Proof.
  induction l as [|x l IH]; cbn [has_overlap]; [by split|].
  rewrite orb_false_iff, IH, existsb_false, Forall_lookup. split.
  - intros [Hx Hl] [|i] [|j] a c Hi Hj Hlt; cbn in *; try lia.
    + injection Hi as <-. rewrite <- is_below_true, (Hx _ _ Hj). done.
    + apply (Hl i j); auto with lia.
  - intros Hall. split.
    + intros j c Hj. apply not_true_iff_false. rewrite is_below_true.
      by apply (Hall 0%nat (S j)); auto with lia.
    + intros i j a c Hi Hj Hlt. apply (Hall (S i) (S j)); auto with lia.
Qed.

Lemma overlap_sorted l :
  StronglySorted str_lt l → has_overlap l = false ↔ DisjointPaths l.
Proof.
  intros Hl. rewrite has_overlap_false. unfold DisjointPaths. split.
  - intros Hall i j a c Hi Hj Hij Hb.
    destruct (decide (i < j)%nat) as [Hlt|Hge]; [by apply (Hall i j a c)|].
    apply below_str_lt in Hb. assert (str_lt c a) as Hca
      by (eapply (sorted_lookup_lt l j i); eauto with lia).
    destruct (irreflexivity str_lt a). by trans c.
  - intros Hall i j a c Hi Hj Hlt. apply (Hall i j a c Hi Hj). lia.
Qed.

Lemma validate_sorted_guest_paths_Ok label l u :
  validate_sorted_guest_paths label l = Ok u ↔ GuestPaths l.
Proof.
  unfold validate_sorted_guest_paths, GuestPaths, MAX_LIST_ENTRIES.
  rewrite <- (for_each_iff (validate_guest_path label) CanonicalPath l tt)
    by (intros; apply validate_guest_path_Ok).
  rewrite bind_Ok. setoid_rewrite reject_if_Ok. setoid_rewrite Z.ltb_ge.
  setoid_rewrite bind_Ok. setoid_rewrite bind_Ok. setoid_rewrite reject_if_Ok.
  setoid_rewrite has_disorder_sorted. split.
  - intros (_ & Hlen & [] & Hf & _ & Hs & Ho). split_and!; auto. by apply overlap_sorted.
  - intros (Hlen & Hf & Hs & Hd). exists tt. split; [done|]. exists tt. split; [done|].
    exists tt. split; [done|]. by apply overlap_sorted.
Qed.

(** ** Manifests *)

(** The version 1 invariants other than the content identity, stated without
    reference to the order of the checks. *)
Record CanonicalManifest (encoded_len : Z) (m : EnvironmentManifest) : Prop := {
  cm_schema : schema_version m = 1;
  cm_profile : execution_profile m = "wasix32-v1";
  cm_format : format (artifact m) = "webc";
  cm_path : path (artifact m) = "environment.webc";
  cm_sha256 : Hex64 (artifact_sha256 (artifact m));
  cm_name : PrintableText (name (language m));
  cm_version : PrintableText (version (language m));
  cm_implementation : PrintableText (implementation (language m));
  cm_toolchain : Token (toolchain_id (build m));
  cm_source : Sha256Id (source_digest (build m));
  cm_lock : Sha256Id (lock_digest (build m));
  cm_features : SortedTokens (required_wasm_features m);
  cm_available : SortedTokens (available (commands m));
  cm_default : default (commands m) ∈ available (commands m);
  cm_immutable : GuestPaths (immutable (filesystem m));
  cm_writable : writable (filesystem m) = ["/tmp"; "/work"];
  cm_disjoint : Forall (λ p, p ≠ "/tmp" ∧ ¬ Below "/tmp" p ∧ p ≠ "/work" ∧ ¬ Below "/work" p)
                  (immutable (filesystem m));
  cm_encoded : encoded_len ≤ MAX_MANIFEST_BYTES;
}.

Lemma starts_with_below a s : starts_with (a +:+ "/") s = true ↔ Below a s.
Proof.
  unfold starts_with, Below. rewrite bool_decide_eq_true. split.
  - intros [t ->%strip_prefix_Some]. exists t. by rewrite str_app_assoc.
  - intros [t ->]. exists t. apply strip_prefix_Some. by rewrite str_app_assoc.
Qed.

Lemma overlaps_writable_false p :
  overlaps_writable p = false ↔ p ≠ "/tmp" ∧ ¬ Below "/tmp" p ∧ p ≠ "/work" ∧ ¬ Below "/work" p.
Proof.
  unfold overlaps_writable. rewrite <- !starts_with_below, !orb_false_iff, !bool_decide_eq_false.
  rewrite !not_true_iff_false. tauto.
Qed.

Section theorems.
Context `{CL : CryptoLaws} {JM : Json EnvironmentManifest} {JE : Json ManifestEnvelope}.
Implicit Types m : EnvironmentManifest.

Lemma validate_identity_fields_sound m u :
  validate_identity_fields m = Ok u →
  ∃ b, to_vec (set_environment_id zero_id m) = Ok b ∧ CanonicalManifest (blen b) m.
Proof.
  unfold validate_identity_fields. intros Hok. result_inv. bool_inv.
  rewrite ?validate_hex_sha256_Ok, ?validate_prefixed_sha256_Ok, ?validate_text_Ok,
    ?validate_token_Ok, ?validate_sorted_tokens_Ok, ?validate_sorted_guest_paths_Ok in *.
  eexists. split; [done|]. split; try done; try lia.
  - apply binary_search_spec; [|done].
    match goal with Hs : SortedTokens (available _) |- _ => apply Hs end.
  - rewrite existsb_false in *.
    eapply Forall_impl; [eassumption|]. intros p. apply overlaps_writable_false.
Qed.

Lemma validate_identity_fields_complete m b :
  to_vec (set_environment_id zero_id m) = Ok b → CanonicalManifest (blen b) m →
  validate_identity_fields m = Ok tt.
Proof.
  intros Hb Hm. unfold validate_identity_fields.
  assert (∀ (c : bool) (e : Error) (k : unit → Result unit),
    c = false → k tt = Ok tt → (reject_if c e ≫= k) = Ok tt) as Hr by by intros ? ? ? ->.
  assert (∀ (r : Result unit) (k : unit → Result unit),
    r = Ok tt → k tt = Ok tt → (r ≫= k) = Ok tt) as Hv by by intros ? ? ->.
  destruct Hm.
  apply Hr; [by apply negb_false_iff, Z.eqb_eq|].
  do 3 (apply Hr; [by apply negb_false_iff, bool_decide_eq_true|]).
  apply Hv; [by apply validate_hex_sha256_Ok|].
  do 3 (apply Hv; [by apply validate_text_Ok|]).
  apply Hv; [by apply validate_token_Ok|].
  do 2 (apply Hv; [by apply validate_prefixed_sha256_Ok|]).
  apply Hv; [by apply validate_sorted_tokens_Ok|].
  apply Hv.
  { apply validate_token_Ok. destruct cm_available0 as (_ & Ht & _).
    rewrite Forall_forall in Ht. by apply Ht. }
  apply Hv; [by apply validate_sorted_tokens_Ok|].
  apply Hr; [by apply negb_false_iff, binary_search_spec; [apply cm_available0|]|].
  apply Hv; [by apply validate_sorted_guest_paths_Ok|].
  apply Hr; [by apply negb_false_iff, bool_decide_eq_true|].
  apply Hr.
  { apply existsb_false. eapply Forall_impl; [exact cm_disjoint0|].
    intros p. apply overlaps_writable_false. }
  rewrite Hb. cbn [map_err mbind result_bind]. apply reject_if_Ok, Z.ltb_ge. lia.
Qed.

(** [validate_identity_fields] accepts a manifest exactly when its fields
    are canonical: pinned schema, profile and artifact, lowercase digests,
    bounded tokens, strictly sorted token and path lists, a default command
    in the catalog, canonical and pairwise disjoint guest paths, and a
    bounded encoding. *)
Theorem validate_identity_fields_iff m :
  validate_identity_fields m = Ok tt ↔
  ∃ b, to_vec (set_environment_id zero_id m) = Ok b ∧ CanonicalManifest (blen b) m.
Proof.
  split; [apply validate_identity_fields_sound|].
  intros (b & Hb & Hm). by eapply validate_identity_fields_complete.
Qed.

(** ** The identity preimage is injective *)

Lemma hash_string_lp h s : hash_string h s = h ++ lp s.
Proof. done. Qed.

Lemma hash_strings_lps h l : hash_strings h l = h ++ lps l.
Proof.
  unfold hash_strings, lps. rewrite app_assoc.
  generalize (h ++ be_bytes 8 (blen l)). induction l as [|s l IH]; intros k.
  - by rewrite app_nil_r.
  - cbn [foldl]. rewrite IH, hash_string_lp. by rewrite <- app_assoc.
Qed.

Lemma identity_preimage_flat m :
  identity_preimage m =
  IDENTITY_DOMAIN ++ be_bytes 4 (schema_version m) ++ lp (execution_profile m)
  ++ lp (name (language m)) ++ lp (version (language m)) ++ lp (implementation (language m))
  ++ lp (format (artifact m)) ++ lp (path (artifact m)) ++ lp (artifact_sha256 (artifact m))
  ++ lps (required_wasm_features m) ++ lp (default (commands m)) ++ lps (available (commands m))
  ++ lps (immutable (filesystem m)) ++ lps (writable (filesystem m))
  ++ lp (toolchain_id (build m)) ++ lp (source_digest (build m)) ++ lp (lock_digest (build m)) ++ [].
Proof.
  unfold identity_preimage. rewrite !hash_string_lp, !hash_strings_lps, app_nil_r.
  by rewrite <- !app_assoc.
Qed.

Lemma sha256_id_len s : Sha256Id s → slen s = 71.
Proof. intros (d & -> & Hd & _). rewrite slen_app, Hd. done. Qed.

Lemma token_short s : Token s → short s.
Proof. unfold Token, short. lia. Qed.
Lemma text_short s : PrintableText s → short s.
Proof. unfold PrintableText, short. lia. Qed.
Lemma hex_short s : Hex64 s → short s.
Proof. unfold Hex64, short. lia. Qed.
Lemma id_short s : Sha256Id s → short s.
Proof. intros Hs%sha256_id_len. unfold short. lia. Qed.
Lemma tokens_short l : SortedTokens l → blen l < 2 ^ 64 ∧ Forall short l.
Proof.
  intros (Hl & Ht & _). split; [lia|]. eapply Forall_impl; [done|]. apply token_short.
Qed.
Lemma paths_short l : GuestPaths l → blen l < 2 ^ 64 ∧ Forall short l.
Proof.
  intros (Hl & Hp & _). split; [lia|]. eapply Forall_impl; [done|].
  unfold CanonicalPath, short. intros s [? _]. lia.
Qed.

Lemma canonical_short n m : CanonicalManifest n m →
  (short (execution_profile m) ∧ short (name (language m)) ∧ short (version (language m))
   ∧ short (implementation (language m)) ∧ short (format (artifact m))
   ∧ short (path (artifact m)) ∧ short (artifact_sha256 (artifact m))
   ∧ short (default (commands m)) ∧ short (toolchain_id (build m))
   ∧ short (source_digest (build m)) ∧ short (lock_digest (build m)))
  ∧ (blen (required_wasm_features m) < 2 ^ 64 ∧ Forall short (required_wasm_features m))
  ∧ (blen (available (commands m)) < 2 ^ 64 ∧ Forall short (available (commands m)))
  ∧ (blen (immutable (filesystem m)) < 2 ^ 64 ∧ Forall short (immutable (filesystem m)))
  ∧ (blen (writable (filesystem m)) < 2 ^ 64 ∧ Forall short (writable (filesystem m))).
Proof.
  intros [Hs -> -> -> ? ? ? ? ? ? ? ? Hav Hd ? ->].
  assert (short (default (commands m))).
  { apply tokens_short in Hav as [_ Hav]. rewrite Forall_forall in Hav. by apply Hav. }
  split_and!; try done;
    eauto using token_short, text_short, hex_short, id_short;
    try (by apply tokens_short) || (by apply paths_short).
  repeat constructor.
Qed.

Lemma canonical_preimage_inj n1 n2 m1 m2 :
  CanonicalManifest n1 m1 → CanonicalManifest n2 m2 →
  identity_preimage m1 = identity_preimage m2 →
  set_environment_id "" m1 = set_environment_id "" m2.
Proof.
  intros H1 H2. rewrite !identity_preimage_flat. intros Heq%app_inv_head.
  apply app_inj_1 in Heq as [_ Heq]; [|by rewrite !length_be_bytes].
  pose proof (cm_schema _ _ H1). pose proof (cm_schema _ _ H2).
  apply canonical_short in H1, H2. destruct_and!.
  repeat first
    [ apply lp_inj in Heq as [? Heq]; [|assumption..]
    | apply lps_inj in Heq as [? Heq]; [|assumption..] ].
  destruct m1 as [? ? ? [] [] ? [] [] []], m2 as [? ? ? [] [] ? [] [] []].
  unfold set_environment_id. cbn in *. by subst.
Qed.

Lemma set_environment_id_twice i j m :
  set_environment_id i (set_environment_id j m) = set_environment_id i m.
Proof. done. Qed.

Lemma identity_preimage_id_free i m :
  identity_preimage (set_environment_id i m) = identity_preimage m.
Proof. done. Qed.

Lemma validate_identity_fields_id_free i m :
  validate_identity_fields (set_environment_id i m) = validate_identity_fields m.
Proof. done. Qed.

Lemma validate_inv m u : validate m = Ok u →
  validate_identity_fields m = Ok tt ∧
  environment_id m = "sha256:" +:+ sha256_hex (identity_preimage m).
Proof.
  unfold validate, calculate_environment_id. intros Hok. result_inv. bool_inv.
  destruct_all unit. auto.
Qed.

Lemma validate_intro m :
  validate_identity_fields m = Ok tt →
  environment_id m = "sha256:" +:+ sha256_hex (identity_preimage m) →
  validate m = Ok tt.
Proof.
  intros Hf Hid. unfold validate, calculate_environment_id. rewrite Hf.
  cbn [mbind result_bind].
  assert (validate_prefixed_sha256 "environment ID" (environment_id m) = Ok tt) as ->.
  { apply validate_prefixed_sha256_Ok. rewrite Hid. apply sha256_hex_id. }
  cbn [mbind result_bind]. apply reject_if_Ok, negb_false_iff, bool_decide_eq_true. done.
Qed.

(** C12: two accepted manifests with the same environment ID are equal, or
    SHA-256 has a collision: the ID binds every other manifest field. *)
Theorem environment_id_binds m1 m2 :
  validate m1 = Ok tt → validate m2 = Ok tt → environment_id m1 = environment_id m2 →
  m1 = m2 ∨ sha256_collision.
Proof.
  intros [Hf1 Hi1]%validate_inv [Hf2 Hi2]%validate_inv Heq.
  pose proof Heq as Hid. rewrite Hi1, Hi2 in Hid.
  apply (f_equal str_bytes) in Hid. rewrite !str_bytes_app in Hid.
  apply app_inv_head, str_bytes_inj, sha256_hex_collision in Hid as [Hp|]; [|by right].
  left. apply validate_identity_fields_sound in Hf1 as (b1 & _ & H1), Hf2 as (b2 & _ & H2).
  assert (set_environment_id "" m1 = set_environment_id "" m2) as Hm
    by (by eapply canonical_preimage_inj).
  apply (f_equal (set_environment_id (environment_id m1))) in Hm.
  rewrite !set_environment_id_twice in Hm. rewrite Heq in Hm at 2.
  by destruct m1, m2.
Qed.

(** Stamping a manifest with its calculated ID succeeds exactly when its
    identity fields are accepted; the stamped manifest then validates and
    every other field is unchanged. *)
Theorem with_calculated_environment_id_spec m m' :
  with_calculated_environment_id m = Ok m' ↔
  validate m' = Ok tt ∧ set_environment_id (environment_id m') m = m'.
Proof.
  unfold with_calculated_environment_id, calculate_environment_id. split.
  - intros Hok. result_inv. destruct_all unit. split; [|done].
    by apply validate_intro.
  - intros [[Hf Hid]%validate_inv Hm]. rewrite <- Hm in Hf, Hid.
    rewrite validate_identity_fields_id_free in Hf. rewrite Hf. cbn.
    rewrite identity_preimage_id_free in Hid. cbn in Hid. by rewrite <- Hid, Hm.
Qed.

Lemma from_json_ok m bytes :
  from_json bytes = Ok m ↔
  blen bytes ≤ MAX_MANIFEST_BYTES ∧ from_slice bytes = Ok {| envelope_schema_version := 1 |}
  ∧ from_slice bytes = Ok m ∧ validate m = Ok tt.
Proof.
  unfold from_json. split.
  - intros H. result_inv. bool_inv.
    repeat match goal with x : () |- _ => destruct x | x : ManifestEnvelope |- _ => destruct x end.
    by simplify_eq/=.
  - intros (Hlen & -> & -> & Hv).
    assert ((MAX_MANIFEST_BYTES <? blen bytes) = false) as -> by by apply Z.ltb_ge.
    cbn. by rewrite Hv.
Qed.

(** [from_json] returns a manifest exactly when the text is within
    64 KiB, declares schema version 1 in its envelope, decodes to that
    manifest and the manifest validates; so a validated manifest that is
    encoded within the bound reads back as itself. *)
Theorem from_json_roundtrip `{!JsonLaws JM} m bytes :
  (from_json bytes = Ok m ↔
   blen bytes ≤ MAX_MANIFEST_BYTES ∧ from_slice bytes = Ok {| envelope_schema_version := 1 |}
   ∧ from_slice bytes = Ok m ∧ validate m = Ok tt)
  ∧ (to_vec m = Ok bytes → blen bytes ≤ MAX_MANIFEST_BYTES →
     from_slice bytes = Ok {| envelope_schema_version := schema_version m |} →
     validate m = Ok tt → from_json bytes = Ok m).
Proof.
  split; [apply from_json_ok|]. intros Hto Hlen Henv Hv. apply from_json_ok.
  pose proof (validate_inv _ _ Hv) as [Hf _].
  apply validate_identity_fields_sound in Hf as (b & _ & Hm).
  rewrite Henv, (cm_schema _ _ Hm). split_and!; try done. by apply from_to.
Qed.
End theorems.

(** ** A concrete manifest *)
Module EnvironmentExample.
Import Toy.

Definition enc (m : EnvironmentManifest) : list (list string) :=
  [[of_z (schema_version m); environment_id m; execution_profile m;
    name (language m); version (language m); implementation (language m);
    format (artifact m); path (artifact m); artifact_sha256 (artifact m);
    default (commands m); toolchain_id (build m); source_digest (build m);
    lock_digest (build m)];
   required_wasm_features m; available (commands m);
   immutable (filesystem m); writable (filesystem m)].
Definition dec (l : list (list string)) : option EnvironmentManifest :=
  match l with
  | [[sv; id; ep; n; v; i; f; p; sh; d; t; sd; ld]; feats; av; im; wr] =>
      Some {| schema_version := to_z sv; environment_id := id; execution_profile := ep;
              language := {| name := n; version := v; implementation := i |};
              artifact := {| format := f; path := p; artifact_sha256 := sh |};
              required_wasm_features := feats;
              commands := {| default := d; available := av |};
              filesystem := {| immutable := im; writable := wr |};
              build := {| toolchain_id := t; source_digest := sd; lock_digest := ld |} |}
  | _ => None
  end.
#[export] Instance manifest_json : Json EnvironmentManifest := json enc dec.
#[export] Instance manifest_json_laws : JsonLaws manifest_json.
Proof.
  apply json_laws. intros [? ? ? [] [] ? [] [] []]. cbn -[of_z to_z]. by rewrite to_of_z.
Qed.
(** The envelope reads the same text and ignores the other fields. *)
#[export] Instance envelope_json : Json ManifestEnvelope := {|
  to_vec e := Err "unused";
  from_slice b := m ← from_slice (A := EnvironmentManifest) b;
                  Ok {| envelope_schema_version := schema_version m |};
|}.

Definition digest_a : string :=
  "00112233445566778899aabbccddeeff00112233445566778899aabbccddeeff".
Definition unstamped : EnvironmentManifest := {|
  schema_version := 1; environment_id := "";
  execution_profile := "wasix32-v1";
  language := {| name := "python"; version := "3.12"; implementation := "cpython" |};
  artifact := {| format := "webc"; path := "environment.webc"; artifact_sha256 := digest_a |};
  required_wasm_features := ["bulk-memory"; "threads"];
  commands := {| default := "python"; available := ["pip"; "python"] |};
  filesystem := {| immutable := ["/lib/python3.12"; "/usr/share"]; writable := ["/tmp"; "/work"] |};
  build := {| toolchain_id := "tc-1"; source_digest := "sha256:" +:+ digest_a;
              lock_digest := "sha256:" +:+ digest_a |};
|}.
Definition stamped : EnvironmentManifest :=
  Eval vm_compute in
  match with_calculated_environment_id unstamped with Ok m => m | Err _ => unstamped end.

Lemma environment_id_binds_witness :
  validate stamped = Ok tt ∧ (stamped = stamped ∨ sha256_collision).
Proof.
  split; [by vm_compute|].
  apply (environment_id_binds stamped stamped); [by vm_compute..|done].
Defined.

Lemma with_calculated_environment_id_spec_witness :
  with_calculated_environment_id unstamped = Ok stamped ↔
  validate stamped = Ok tt ∧ set_environment_id (environment_id stamped) unstamped = stamped.
Proof. apply (with_calculated_environment_id_spec unstamped stamped). Defined.

Definition stamped_bytes : list byte :=
  Eval vm_compute in match to_vec stamped with Ok b => b | Err _ => [] end.

Lemma from_json_roundtrip_witness :
  blen stamped_bytes ≤ 64 * 1024 ∧ from_json stamped_bytes = Ok stamped.
Proof.
  split; [by vm_compute|].
  apply (from_json_roundtrip stamped stamped_bytes); vm_compute; done.
Defined.
End EnvironmentExample.
