(* ===== verification/Streams.v ===== *)
(** Byte streams of the standard library as the runtime uses them: readers
    that deliver their bytes in arbitrary pieces and may be interrupted or
    fail, [read_exact], writers, and the allocator seen through
    [try_reserve_exact]. *)
From S2P Require Import Prelude.

Local Open Scope Z_scope.

(** One call of [Read::read] consumes from the front of this list: at most the
    whole chunk is returned and the rest is kept for the next call.  The empty
    list and an empty chunk are end of stream. *)
Inductive read_event :=
| Chunk (bytes : list byte)
| Interrupted
| ReadFailed (message : string).

Abbreviation reader := (list read_event).

Inductive read_error :=
| UnexpectedEof
| OtherError (message : string).

(** [Read::read] into a buffer of [n] bytes. *)
Inductive read_outcome :=
| ReadBytes (bytes : list byte) (rest : reader)
| ReadInterrupted (rest : reader)
| ReadErr (message : string) (rest : reader).

Definition read (r : reader) (n : Z) : read_outcome :=
  match r with
  | [] => ReadBytes [] []
  | Chunk l :: r' =>
      if n <? blen l
      then ReadBytes (take (Z.to_nat n) l) (Chunk (drop (Z.to_nat n) l) :: r')
      else ReadBytes l r'
  | Interrupted :: r' => ReadInterrupted r'
  | ReadFailed m :: r' => ReadErr m r'
  end.

(** [Read::read_exact]: read until [n] bytes have arrived, retrying on
    interruption; a read of zero bytes is an unexpected end of file. *)
Fixpoint read_exact (r : reader) (n : Z) : result read_error (list byte * reader) :=
  if n <=? 0 then Ok ([], r)
  else
    match r with
    | [] => Err UnexpectedEof
    | Chunk l :: r' =>
        if n <? blen l
        then Ok (take (Z.to_nat n) l, Chunk (drop (Z.to_nat n) l) :: r')
        else if blen l =? 0 then Err UnexpectedEof
        else '(rest, r'') ← read_exact r' (n - blen l); Ok (l ++ rest, r'')
    | Interrupted :: r' => read_exact r' n
    | ReadFailed m :: _ => Err (OtherError m)
    end.

(** Every byte a stream delivers, when none of its reads fails or ends early. *)
Definition event_ok (e : read_event) : Prop :=
  match e with Chunk l => l ≠ [] | Interrupted => True | ReadFailed _ => False end.
Definition event_bytes (e : read_event) : list byte :=
  match e with Chunk l => l | _ => [] end.
Definition reader_bytes (r : reader) : list byte := mjoin (event_bytes <$> r).
Definition reliable (r : reader) : Prop := Forall event_ok r.

Lemma reader_bytes_cons e r : reader_bytes (e :: r) = event_bytes e ++ reader_bytes r.
Proof. done. Qed.

(** A reliable stream with enough bytes gives exactly its first [n] bytes,
    whatever the chunking. *)
Lemma read_exact_reliable r n :
  reliable r → 0 ≤ n ≤ blen (reader_bytes r) →
  ∃ r', read_exact r n = Ok (take (Z.to_nat n) (reader_bytes r), r') ∧ reliable r' ∧
        reader_bytes r' = drop (Z.to_nat n) (reader_bytes r).
Proof.
  intros Hr. revert n. induction Hr as [|e r He Hr IH]; intros n Hn.
  { exists []. assert (n = 0) as -> by (unfold reader_bytes, blen in Hn; cbn in Hn; lia).
    split_and!; [done|constructor|done]. }
  cbn [read_exact]. destruct (Z.leb_spec n 0).
  { assert (n = 0) as -> by lia. exists (e :: r). split_and!; [done|by constructor|done]. }
  rewrite reader_bytes_cons in *. destruct e as [l| |m]; cbn [event_bytes event_ok] in *; [| |done].
  - destruct (Z.ltb_spec n (blen l)).
    + eexists. split_and!; [|constructor; [|exact Hr]|].
      * do 2 f_equal. rewrite take_app_le; [done|]. unfold blen in *. lia.
      * cbn. intros Hd%(f_equal length). rewrite length_drop in Hd. unfold blen in *. cbn in Hd. lia.
      * rewrite reader_bytes_cons. cbn. rewrite drop_app_le; [done|]. unfold blen in *. lia.
    + destruct (Z.eqb_spec (blen l) 0) as [Hl|Hl]; [by apply blen_nil_inv in Hl|].
      rewrite blen_app in Hn.
      destruct (IH (n - blen l)) as (r' & Hre & Hr' & Hb); [lia|].
      exists r'. rewrite Hre. cbn [mbind result_bind]. unfold blen in *.
      rewrite take_app_ge, drop_app_ge, Hb by lia. split_and!; [|done|].
      * do 4 f_equal. lia.
      * f_equal. lia.
  - destruct (IH n) as (r' & Hre & Hr' & Hb); [done|]. exists r'. done.
Qed.

Lemma read_exact_length r n b r' : read_exact r n = Ok (b, r') → 0 ≤ n → blen b = n.
Proof.
  revert n b. induction r as [|[l| |m] r IH]; intros n b Hr Hn; cbn [read_exact] in Hr;
    destruct (Z.leb_spec n 0); try (simplify_eq; unfold blen; cbn; lia); try done; [|by eapply IH; [|lia]].
  destruct (Z.ltb_spec n (blen l)); [simplify_eq; unfold blen in *; rewrite length_take; lia|].
  destruct (blen l =? 0); [done|]. apply bind_Ok in Hr as ([b' r''] & Hr & Hx). simplify_eq.
  apply IH in Hr; [|lia]. rewrite blen_app. lia.
Qed.

Lemma read_exact_short r n :
  reliable r → blen (reader_bytes r) < n → read_exact r n = Err UnexpectedEof.
Proof.
  intros Hr. revert n. induction Hr as [|e r He Hr IH]; intros n Hn; cbn [read_exact].
  { destruct (Z.leb_spec n 0); [|done]. unfold reader_bytes, blen in Hn. cbn in Hn. lia. }
  rewrite reader_bytes_cons, blen_app in Hn.
  pose proof (blen_nonneg (event_bytes e)). pose proof (blen_nonneg (reader_bytes r)).
  destruct (Z.leb_spec n 0); [lia|].
  destruct e as [l| |m]; cbn [event_bytes event_ok] in *; [| |done].
  - destruct (Z.ltb_spec n (blen l)); [lia|].
    destruct (Z.eqb_spec (blen l) 0); [done|]. rewrite IH by lia. done.
  - apply IH. unfold blen in Hn at 1. cbn in Hn. lia.
Qed.

(** ** Writers: [Write::write_all]; the error is its [Display] text. *)
Class Write (W : Type) := write_all : W → list byte → W * result string unit.

(** [Vec<u8>]: appends, never fails. *)
#[global] Instance vec_write : Write (list byte) := λ w b, (w ++ b, Ok tt).

(** A writer call whose error is turned into an early return. *)
Definition io_bind {W E A B} (r : W * result E A) (k : W → A → W * result E B)
    : W * result E B :=
  match r with
  | (w, Ok a) => k w a
  | (w, Err e) => (w, Err e)
  end.

Notation "'let?' ( w , x ) ':=' r 'in' k" := (io_bind r (λ w x, k))
  (at level 200, w name, x name, r at level 200, k at level 200,
   format "'let?'  ( w ,  x )  ':='  r  'in' '//' k").

Lemma io_bind_Ok {W E A B} (r : W * result E A) (k : W → A → W * result E B) w b :
  io_bind r k = (w, Ok b) ↔ ∃ w' a, r = (w', Ok a) ∧ k w' a = (w, Ok b).
Proof. destruct r as [w' [a|e]]; cbn; naive_solver. Qed.

(** Inverts a successful chain of such calls. *)
Ltac io_inv :=
  repeat match goal with
  | H : io_bind _ _ = (_, Ok _) |- _ =>
      apply io_bind_Ok in H; destruct H as (? & ? & ? & H); cbn beta in H
  end.

(** A caller's writes in order, stopping at the first error. *)
Fixpoint write_pieces {W} `{Write W} (w : W) (l : list (list byte)) : W * result string unit :=
  match l with
  | [] => (w, Ok tt)
  | b :: l' => io_bind (write_all w b) (λ w' _, write_pieces w' l')
  end.

Lemma vec_write_pieces w l : write_pieces w l = (w ++ mjoin l, Ok tt).
Proof.
  revert w. induction l as [|b l IH]; intros w; [by cbn; rewrite app_nil_r|].
  change (write_pieces w (b :: l)) with (write_pieces (w ++ b) l).
  rewrite IH. by rewrite <- app_assoc.
Qed.

(** ** Allocation: [Vec::try_reserve_exact] of [n] further elements. *)
Class Allocator := try_reserve_exact : Z → result string unit.

Definition infallible_allocator : Allocator := λ _, Ok tt.
