(* ===== verification/CheckpointCodec.v ===== *)
(** The authenticated WASIX checkpoint artifact ([src/src/checkpoint.rs]):
    workload bindings, the journal scanner, sealing into a buffer or a writer,
    and verification of a slice or of a bounded stream. *)
From S2P Require Import Prelude Errors Interfaces Streams.

Local Open Scope Z_scope.

Definition CHECKPOINT_MAGIC : list byte := str_bytes "RTWCPKT" ++ [x00].
Definition CHECKPOINT_FORMAT_VERSION : Z := 2.
Definition CHECKPOINT_DOMAIN : list byte :=
  str_bytes "runtrue-wasm-runtime.wasix-checkpoint.v2" ++ [x00].
Definition CHECKPOINT_ENGINE_PROFILE : string := "runtrue-wasix-engine-v1".
Definition CHECKPOINT_JOURNAL_FORMAT : string := "wasmer-log-file-v1".
Definition CHECKPOINT_EXECUTION_ABI : string := "wasix_32v1+asyncify".
Definition CHECKPOINT_ISOLATION_POLICY : string := "runtrue-wasix-isolation-v1".
Definition CHECKPOINT_SNAPSHOT_TRIGGER : string := "explicit".
Definition JOURNAL_MAGIC : list byte := be_bytes 8 0x310d6dd027362979.
Definition JOURNAL_SNAPSHOT_V1 : Z := 59.
Definition CHECKPOINT_HEADER_BYTES : Z := 8 + 2 + 4 + 8.
Definition CHECKPOINT_TAG_BYTES : Z := 32.
Definition MAX_CHECKPOINT_METADATA_BYTES : Z := 16 * 1024.

(** Constants of the worker protocol ([lib.rs], [wasix_worker.rs]). *)
Definition WASIX_WORKER_PROTOCOL_VERSION : Z := 8.
Definition WASIX_COHORT_ID : string := "wasmer-7.1.0+wasix-0.701.0+webc-11.0.0".

(** What the build fixes: [CARGO_PKG_VERSION] and [RUNTRUE_BUILD_TARGET]. *)
Class BuildInfo := { cargo_pkg_version : string; build_target : string }.

(** ** Workload bindings *)

Record WasixCheckpointBinding := {
  binding_environment_id : string;
  binding_module_sha256 : string;
  binding_command : string;
  binding_instance_id : string;
  binding_generation : Z;
}.
#[global] Instance binding_eq : EqDecision WasixCheckpointBinding.
Proof. solve_decision. Defined.

Definition validate_sha256 (label value : string) : Result unit :=
  reject_if (negb (slen value =? 64) || negb (str_all is_lower_hex value))
    (Checkpoint (label +:+ " must be 64 lowercase hexadecimal characters")).

Definition validate_prefixed_sha256 (label value : string) : Result unit :=
  digest ← ok_or (strip_prefix "sha256:" value)
             (Checkpoint (label +:+ " must start with sha256:"));
  validate_sha256 label digest.

Definition is_checkpoint_token_byte (b : byte) : bool :=
  is_ascii_graphic b && negb (bool_decide (b = "\"%byte)) && negb (bool_decide (b = "034"%byte)).

Definition validate_token (label value : string) (maximum_bytes : Z) : Result unit :=
  reject_if ((slen value =? 0) || (maximum_bytes <? slen value)
             || negb (str_all is_checkpoint_token_byte value))
    (Checkpoint (label +:+ " must be a nonempty printable token of at most "
                   +:+ show maximum_bytes +:+ " bytes")).

Definition binding_validate (b : WasixCheckpointBinding) : Result unit :=
  _ ← validate_prefixed_sha256 "checkpoint environment ID" (binding_environment_id b);
  _ ← validate_sha256 "checkpoint module digest" (binding_module_sha256 b);
  _ ← validate_token "checkpoint command" (binding_command b) 256;
  _ ← validate_token "checkpoint instance ID" (binding_instance_id b) 128;
  reject_if (binding_generation b =? 0)
    (Checkpoint "checkpoint generation must be positive").

Definition binding_new (environment_id module_sha256 command instance_id : string)
    (generation : Z) : Result WasixCheckpointBinding :=
  let binding := {| binding_environment_id := environment_id;
                    binding_module_sha256 := module_sha256;
                    binding_command := command; binding_instance_id := instance_id;
                    binding_generation := generation |} in
  _ ← binding_validate binding;
  Ok binding.

(** ** The journal scanner *)

Definition is_known_journal_record_type (t : Z) : bool :=
  ((1 <=? t) && (t <=? 7)) || ((9 <=? t) && (t <=? 64)).
Definition is_zero_sized_journal_record_type (t : Z) : bool :=
  (t =? 35) || (t =? 37) || (t =? 38) || (t =? 41) || (t =? 60).

Record scan_counters := {
  final_record : option Z;
  record_count : Z;
  init_module_records : Z;
  set_thread_records : Z;
  snapshot_records : Z;
}.
Definition scan_start : scan_counters :=
  {| final_record := None; record_count := 0; init_module_records := 0;
     set_thread_records := 0; snapshot_records := 0 |}.

(** The end of the loop body: the record's place in the journal's lifecycle.
    [at_end] is [cursor == journal.len()]. *)
Definition scan_record (c : scan_counters) (record_type : Z) (at_end : bool)
    : Result scan_counters :=
  if record_type =? 1 then
    let init := init_module_records c + 1 in
    _ ← reject_if (negb (record_count c =? 0) || negb (init =? 1))
          (Checkpoint "checkpoint journal has an invalid module initialization sequence");
    Ok {| final_record := Some record_type; record_count := record_count c + 1;
          init_module_records := init; set_thread_records := set_thread_records c;
          snapshot_records := snapshot_records c |}
  else if record_type =? 3 then
    Ok {| final_record := Some record_type; record_count := record_count c + 1;
          init_module_records := init_module_records c;
          set_thread_records := set_thread_records c + 1;
          snapshot_records := snapshot_records c |}
  else if record_type =? JOURNAL_SNAPSHOT_V1 then
    _ ← reject_if (negb at_end)
          (Checkpoint "checkpoint journal contains records after its snapshot");
    Ok {| final_record := Some record_type; record_count := record_count c + 1;
          init_module_records := init_module_records c;
          set_thread_records := set_thread_records c;
          snapshot_records := snapshot_records c + 1 |}
  else
    Ok {| final_record := Some record_type; record_count := record_count c + 1;
          init_module_records := init_module_records c;
          set_thread_records := set_thread_records c;
          snapshot_records := snapshot_records c |}.

(** The [while] loop; every iteration advances the cursor by at least 8, so
    the journal's length is fuel enough ([scan_loop_fuel]). *)
Fixpoint scan_loop (fuel : nat) (journal : list byte) (cursor : Z) (c : scan_counters)
    : Result scan_counters :=
  if negb (cursor <? blen journal) then Ok c
  else match fuel with
  | O => Err (Checkpoint "checkpoint journal length overflows")
  | S fuel' =>
      header_end ← ok_or (checked_add usize_max cursor 8)
                     (Checkpoint "checkpoint journal length overflows");
      _ ← reject_if (blen journal <? header_end)
            (Checkpoint "checkpoint journal record header is truncated");
      let header := slice journal cursor header_end in
      _ ← reject_if (bool_decide (header = JOURNAL_MAGIC))
            (Checkpoint "checkpoint journal contains a repeated magic marker");
      let record_type := be_val (slice header 0 2) in
      _ ← reject_if (negb (is_known_journal_record_type record_type))
            (Checkpoint ("checkpoint journal record type " +:+ show record_type
                           +:+ " is unsupported"));
      let record_len := be_val (slice header 2 8) in
      _ ← reject_if (usize_max <? record_len)
            (Checkpoint "checkpoint journal record length overflows usize");
      _ ← reject_if ((record_len =? 0) && negb (is_zero_sized_journal_record_type record_type))
            (Checkpoint "checkpoint journal contains an invalid empty record");
      cursor' ← ok_or (checked_add usize_max header_end record_len)
                  (Checkpoint "checkpoint journal length overflows");
      _ ← reject_if (blen journal <? cursor')
            (Checkpoint "checkpoint journal record is truncated");
      c' ← scan_record c record_type (cursor' =? blen journal);
      scan_loop fuel' journal cursor' c'
  end.

Definition scan_journal (journal : list byte) : Result unit :=
  _ ← reject_if ((blen journal <? blen JOURNAL_MAGIC)
                 || negb (bool_decide (slice journal 0 (blen JOURNAL_MAGIC) = JOURNAL_MAGIC)))
        (Checkpoint "checkpoint journal magic is invalid");
  c ← scan_loop (length journal) journal (blen JOURNAL_MAGIC) scan_start;
  reject_if (negb (init_module_records c =? 1) || (set_thread_records c =? 0)
             || negb (snapshot_records c =? 1)
             || negb (bool_decide (final_record c = Some JOURNAL_SNAPSHOT_V1)))
    (Checkpoint "checkpoint journal lifecycle is incomplete").

(** ** Captures, metadata and the codec *)

Record CapturedWasixJournal := {
  captured_bytes : list byte;
  captured_binding : WasixCheckpointBinding;
  captured_worker_build_sha256 : string;
  explicit_snapshot : bool;
}.

Definition from_attested_worker_capture (bytes : list byte) (binding : WasixCheckpointBinding)
    (worker_build_sha256 : string) : Result CapturedWasixJournal :=
  _ ← binding_validate binding;
  _ ← validate_sha256 "captured worker build digest" worker_build_sha256;
  _ ← scan_journal bytes;
  Ok {| captured_bytes := bytes; captured_binding := binding;
        captured_worker_build_sha256 := worker_build_sha256; explicit_snapshot := true |}.

Record CheckpointMetadata := {
  md_binding : WasixCheckpointBinding;
  md_runtime_version : string;
  md_worker_protocol_version : Z;
  md_cohort_id : string;
  md_worker_build_sha256 : string;
  md_engine_profile : string;
  md_platform : string;
  md_journal_format : string;
  md_execution_abi : string;
  md_isolation_policy : string;
  md_snapshot_trigger : string;
  md_journal_sha256 : string;
}.
#[global] Instance checkpoint_metadata_eq : EqDecision CheckpointMetadata.
Proof. solve_decision. Defined.

Record WasixCheckpointCodec := {
  authentication_key : list byte;
  max_journal_bytes : Z;
}.
Definition codec_new (key : list byte) : WasixCheckpointCodec :=
  {| authentication_key := key; max_journal_bytes := 512 * 1024 * 1024 |}.
Definition with_max_journal_bytes (n : Z) (c : WasixCheckpointCodec) : WasixCheckpointCodec :=
  {| authentication_key := authentication_key c; max_journal_bytes := n |}.

Record CheckpointArtifactLayout := {
  metadata_end : Z; authenticated_len : Z; artifact_len : Z }.

Record PreparedCheckpoint := {
  prepared_header : list byte; prepared_metadata : list byte;
  prepared_journal : list byte; prepared_artifact_len : Z }.

(** A [Range<usize>] is its two ends. *)
Record VerifiedCheckpointParts := {
  parts_binding : WasixCheckpointBinding;
  parts_journal : Z * Z;
  parts_artifact_sha256 : string;
  parts_worker_build_sha256 : string;
}.
Record VerifiedWasixCheckpoint := {
  verified_binding : WasixCheckpointBinding;
  verified_bytes : list byte;
  verified_range : Z * Z;
  verified_artifact_sha256 : string;
  verified_worker_build_sha256 : string;
}.
Record VerifiedWasixCheckpointView := {
  view_binding : WasixCheckpointBinding;
  view_journal : list byte;
  view_artifact_sha256 : string;
  view_worker_build_sha256 : string;
}.

(** [VerifiedWasixCheckpoint::journal] and [into_parts]; [copy_within] of a
    range to the front leaves the rest of the buffer in place. *)
Definition verified_journal (v : VerifiedWasixCheckpoint) : list byte :=
  slice (verified_bytes v) (verified_range v).1 (verified_range v).2.
Definition copy_within_front (l : list byte) (r : Z * Z) : list byte :=
  slice l r.1 r.2 ++ drop (Z.to_nat (r.2 - r.1)) l.
Definition into_parts (v : VerifiedWasixCheckpoint) : list byte * string :=
  let r := verified_range v in
  let bytes := if negb (r.1 =? 0) then copy_within_front (verified_bytes v) r
               else verified_bytes v in
  (take (Z.to_nat (r.2 - r.1)) bytes, verified_worker_build_sha256 v).

(** [FallibleBoundedVec]: an output buffer with a maximum length whose growth
    may fail. *)
Record FallibleBoundedVec := { fbv_bytes : list byte; maximum_bytes : Z }.
Definition fbv_new (maximum : Z) : FallibleBoundedVec :=
  {| fbv_bytes := []; maximum_bytes := maximum |}.

Section fallible_bounded_vec.
Context `{Allocator}.

Definition fbv_write (v : FallibleBoundedVec) (bytes : list byte)
    : FallibleBoundedVec * result string Z :=
  match checked_add usize_max (blen (fbv_bytes v)) (blen bytes) with
  | None => (v, Err "metadata length overflows usize")
  | Some new_len =>
      if maximum_bytes v <? new_len
      then (v, Err "metadata exceeds the checkpoint format limit")
      else match try_reserve_exact (blen bytes) with
           | Err e => (v, Err ("metadata allocation failed: " +:+ e))
           | Ok _ => ({| fbv_bytes := fbv_bytes v ++ bytes; maximum_bytes := maximum_bytes v |},
                      Ok (blen bytes))
           end
  end.

(** [Write::write_all]: one [write] takes the whole of a nonempty piece. *)
#[global] Instance fbv_write_all : Write FallibleBoundedVec := λ v bytes,
  if blen bytes =? 0 then (v, Ok tt)
  else io_bind (fbv_write v bytes) (λ v' _, (v', Ok tt)).
End fallible_bounded_vec.

Lemma write_pieces_fbv_Ok `{Allocator} v l v' :
  write_pieces v l = (v', Ok tt) →
  fbv_bytes v' = fbv_bytes v ++ mjoin l ∧ maximum_bytes v' = maximum_bytes v ∧
  (blen (fbv_bytes v) ≤ maximum_bytes v → blen (fbv_bytes v') ≤ maximum_bytes v).
Proof.
  revert v. induction l as [|b l IH]; intros v; cbn [write_pieces].
  { intros [= ->]. split_and!; [|done|done]. cbn. by rewrite app_nil_r. }
  unfold write_all, fbv_write_all. destruct (Z.eqb_spec (blen b) 0) as [Hb|Hb].
  { apply blen_nil_inv in Hb as ->. cbn [io_bind]. intros Hw%IH. done. }
  unfold fbv_write. destruct (checked_add _ _ _) as [n|] eqn:Hn; [|done].
  apply checked_add_Some in Hn as [-> _].
  destruct (Z.ltb_spec (maximum_bytes v) (blen (fbv_bytes v) + blen b)); [done|].
  destruct (try_reserve_exact (blen b)); [|done]. cbn [io_bind].
  intros (Hw & Hm & Hle)%IH. cbn [fbv_bytes maximum_bytes] in *. rewrite Hw, <- app_assoc in *.
  split_and!; [done|done|]. intros _. apply Hle. by rewrite blen_app.
Qed.

Lemma write_pieces_fbv_fits `{Allocator} v l :
  (∀ n, try_reserve_exact n = Ok tt) → maximum_bytes v ≤ usize_max →
  blen (fbv_bytes v) + blen (mjoin l) ≤ maximum_bytes v →
  write_pieces v l =
    ({| fbv_bytes := fbv_bytes v ++ mjoin l; maximum_bytes := maximum_bytes v |}, Ok tt).
Proof.
  intros Hal Hmax. revert v Hmax. induction l as [|b l IH]; intros v Hmax Hlen; cbn [write_pieces].
  { cbn. rewrite app_nil_r. by destruct v. }
  change (mjoin (b :: l)) with (b ++ mjoin l) in *. rewrite blen_app in Hlen.
  unfold write_all, fbv_write_all. destruct (Z.eqb_spec (blen b) 0) as [Hb|Hb].
  { rewrite Hb in Hlen. apply blen_nil_inv in Hb as ->. cbn [io_bind]. apply IH; lia || done. }
  pose proof (blen_nonneg (mjoin l)). unfold fbv_write, checked_add.
  destruct (Z.leb_spec (blen (fbv_bytes v) + blen b) usize_max); [|lia].
  destruct (Z.ltb_spec (maximum_bytes v) (blen (fbv_bytes v) + blen b)); [lia|].
  rewrite Hal. cbn [io_bind]. rewrite IH; cbn [fbv_bytes maximum_bytes].
  - by rewrite app_assoc.
  - done.
  - rewrite blen_app. lia.
Qed.

Definition to_writer {A W} `{JsonWriter A} `{Write W} (w : W) (a : A) : W * result string unit :=
  let '(pieces, failure) := json_writes a in
  io_bind (write_pieces w pieces) (λ w' _,
    (w', match failure with None => Ok tt | Some e => Err e end)).

Section codec.
Context `{Crypto} `{BuildInfo} `{Allocator}.
Context {JW : JsonWriter CheckpointMetadata} {JM : Json CheckpointMetadata}.
Implicit Types c : WasixCheckpointCodec.

(** [format!("{};endian={};pointer={}", ...)] on the supported platform. *)
Definition checkpoint_platform : string :=
  build_target +:+ ";endian=" +:+ "little" +:+ ";pointer=" +:+ show 64.

Definition metadata_current (binding : WasixCheckpointBinding) (worker_build_sha256 : string)
    (journal : list byte) : CheckpointMetadata := {|
  md_binding := binding;
  md_runtime_version := cargo_pkg_version;
  md_worker_protocol_version := WASIX_WORKER_PROTOCOL_VERSION;
  md_cohort_id := WASIX_COHORT_ID;
  md_worker_build_sha256 := worker_build_sha256;
  md_engine_profile := CHECKPOINT_ENGINE_PROFILE;
  md_platform := checkpoint_platform;
  md_journal_format := CHECKPOINT_JOURNAL_FORMAT;
  md_execution_abi := CHECKPOINT_EXECUTION_ABI;
  md_isolation_policy := CHECKPOINT_ISOLATION_POLICY;
  md_snapshot_trigger := CHECKPOINT_SNAPSHOT_TRIGGER;
  md_journal_sha256 := sha256_hex journal;
|}.

Definition metadata_validate (m : CheckpointMetadata)
    (expected_binding : WasixCheckpointBinding) : Result unit :=
  _ ← binding_validate (md_binding m);
  _ ← validate_sha256 "checkpoint journal digest" (md_journal_sha256 m);
  _ ← validate_sha256 "checkpoint worker build digest" (md_worker_build_sha256 m);
  let expected := metadata_current expected_binding (md_worker_build_sha256 m) [] in
  reject_if
    (negb (bool_decide (md_binding m = md_binding expected))
     || negb (bool_decide (md_runtime_version m = md_runtime_version expected))
     || negb (md_worker_protocol_version m =? md_worker_protocol_version expected)
     || negb (bool_decide (md_cohort_id m = md_cohort_id expected))
     || negb (bool_decide (md_engine_profile m = md_engine_profile expected))
     || negb (bool_decide (md_platform m = md_platform expected))
     || negb (bool_decide (md_journal_format m = md_journal_format expected))
     || negb (bool_decide (md_execution_abi m = md_execution_abi expected))
     || negb (bool_decide (md_isolation_policy m = md_isolation_policy expected))
     || negb (bool_decide (md_snapshot_trigger m = md_snapshot_trigger expected)))
    (Checkpoint "checkpoint identity is incompatible").

Definition validate_limit c : Result unit :=
  reject_if (max_journal_bytes c =? 0)
    (Configuration "checkpoint journal limit must be positive").

Definition validate_journal_length c (len : Z) : Result unit :=
  _ ← reject_if (len =? 0) (Checkpoint "checkpoint journal must not be empty");
  reject_if (max_journal_bytes c <? len)
    (Checkpoint "checkpoint journal exceeds the configured limit").

Definition length_overflow : Error := Checkpoint "checkpoint length overflows usize".

Definition maximum_artifact_bytes c : Result Z :=
  ok_or (l ← checked_add usize_max CHECKPOINT_HEADER_BYTES MAX_CHECKPOINT_METADATA_BYTES;
         l ← checked_add usize_max l (max_journal_bytes c);
         checked_add usize_max l CHECKPOINT_TAG_BYTES)
    length_overflow.

Definition authentication_state c : Result Mac :=
  mac ← ok_or (mac_new (authentication_key c))
          (Checkpoint "checkpoint authentication key is invalid");
  Ok (mac_update mac CHECKPOINT_DOMAIN).
Definition authentication_tag c (bytes : list byte) : Result Mac :=
  mac ← authentication_state c;
  Ok (mac_update mac bytes).

(** *** Sealing *)

Definition prepare_seal c (binding : WasixCheckpointBinding) (journal : CapturedWasixJournal)
    : Result PreparedCheckpoint :=
  _ ← validate_limit c;
  _ ← binding_validate binding;
  _ ← reject_if (negb (bool_decide (binding = captured_binding journal))
                 || negb (explicit_snapshot journal))
        (Checkpoint "captured journal does not match the checkpoint binding");
  _ ← validate_journal_length c (blen (captured_bytes journal));
  _ ← scan_journal (captured_bytes journal);
  let metadata := metadata_current binding (captured_worker_build_sha256 journal)
                    (captured_bytes journal) in
  let '(metadata_writer, encoded) := to_writer (fbv_new MAX_CHECKPOINT_METADATA_BYTES) metadata in
  _ ← map_err (λ e, Checkpoint ("checkpoint metadata encoding failed: " +:+ e)) encoded;
  let metadata := fbv_bytes metadata_writer in
  _ ← reject_if ((blen metadata =? 0) || (MAX_CHECKPOINT_METADATA_BYTES <? blen metadata))
        (Checkpoint "checkpoint metadata exceeds the format limit");
  capacity ← ok_or (l ← checked_add usize_max CHECKPOINT_HEADER_BYTES (blen metadata);
                    l ← checked_add usize_max l (blen (captured_bytes journal));
                    checked_add usize_max l CHECKPOINT_TAG_BYTES)
               length_overflow;
  _ ← reject_if (u32_max <? blen metadata)
        (Checkpoint "checkpoint metadata length overflows u32");
  _ ← reject_if (u64_max <? blen (captured_bytes journal))
        (Checkpoint "checkpoint journal length overflows u64");
  Ok {| prepared_header := CHECKPOINT_MAGIC ++ be_bytes 2 CHECKPOINT_FORMAT_VERSION
                             ++ be_bytes 4 (blen metadata)
                             ++ be_bytes 8 (blen (captured_bytes journal));
        prepared_metadata := metadata;
        prepared_journal := captured_bytes journal;
        prepared_artifact_len := capacity |}.

Definition write_authenticated_chunk {W} `{Write W} (writer : W) (mac : Mac)
    (bytes : list byte) (phase : string) : W * Result Mac :=
  let '(writer, r) := write_all writer bytes in
  (writer, _ ← map_err (λ e, Checkpoint ("checkpoint artifact " +:+ phase
                                           +:+ " write failed: " +:+ e)) r;
           Ok (mac_update mac bytes)).

Definition write_prepared_checkpoint {W} `{Write W} c (p : PreparedCheckpoint) (writer : W)
    : W * Result unit :=
  match authentication_state c with
  | Err e => (writer, Err e)
  | Ok mac =>
      io_bind (write_authenticated_chunk writer mac (prepared_header p) "header") (λ writer mac,
      io_bind (write_authenticated_chunk writer mac (prepared_metadata p) "metadata") (λ writer mac,
      io_bind (write_authenticated_chunk writer mac (prepared_journal p) "journal") (λ writer mac,
      let '(writer, r) := write_all writer (mac_finalize mac) in
      (writer, map_err (λ e, Checkpoint ("checkpoint artifact tag write failed: " +:+ e)) r))))
  end.

Definition seal_bound_capture c (binding : WasixCheckpointBinding)
    (journal : CapturedWasixJournal) : Result (list byte) :=
  prepared ← prepare_seal c binding journal;
  _ ← map_err (λ e, Checkpoint ("checkpoint artifact allocation failed during seal: " +:+ e))
        (try_reserve_exact (prepared_artifact_len prepared));
  let '(artifact, r) := write_prepared_checkpoint c prepared ([] : list byte) in
  _ ← r;
  Ok artifact.

Definition seal_capture c (journal : CapturedWasixJournal) : Result (list byte) :=
  seal_bound_capture c (captured_binding journal) journal.

Definition binding_mismatch : Error :=
  Checkpoint "captured journal binding does not match the checkpoint binding".

Definition seal c (binding : WasixCheckpointBinding) (journal : CapturedWasixJournal)
    : Result (list byte) :=
  _ ← binding_validate binding;
  _ ← reject_if (negb (bool_decide (binding = captured_binding journal))) binding_mismatch;
  seal_bound_capture c binding journal.

Definition seal_bound_capture_into {W} `{Write W} c (binding : WasixCheckpointBinding)
    (journal : CapturedWasixJournal) (writer : W) : W * Result Z :=
  match prepare_seal c binding journal with
  | Err e => (writer, Err e)
  | Ok prepared =>
      io_bind (write_prepared_checkpoint c prepared writer) (λ writer _,
      (writer, Ok (prepared_artifact_len prepared)))
  end.

Definition seal_capture_into {W} `{Write W} c (journal : CapturedWasixJournal) (writer : W)
    : W * Result Z :=
  seal_bound_capture_into c (captured_binding journal) journal writer.

Definition seal_into {W} `{Write W} c (binding : WasixCheckpointBinding)
    (journal : CapturedWasixJournal) (writer : W) : W * Result Z :=
  match (_ ← binding_validate binding;
         reject_if (negb (bool_decide (binding = captured_binding journal))) binding_mismatch) with
  | Err e => (writer, Err e)
  | Ok _ => seal_bound_capture_into c binding journal writer
  end.

(** *** Verification *)

Definition validate_header c (header : list byte) : Result CheckpointArtifactLayout :=
  _ ← reject_if (negb (bool_decide (slice header 0 (blen CHECKPOINT_MAGIC) = CHECKPOINT_MAGIC)))
        (Checkpoint "checkpoint artifact magic is invalid");
  let version := be_val (slice header 8 10) in
  _ ← reject_if (negb (version =? CHECKPOINT_FORMAT_VERSION))
        (Checkpoint ("checkpoint format " +:+ show version +:+ " is unsupported"));
  let metadata_len := be_val (slice header 10 14) in
  _ ← reject_if ((metadata_len =? 0) || (MAX_CHECKPOINT_METADATA_BYTES <? metadata_len))
        (Checkpoint "checkpoint metadata length is invalid");
  let journal_len := be_val (slice header 14 22) in
  _ ← reject_if (usize_max <? journal_len)
        (Checkpoint "checkpoint journal length overflows usize");
  _ ← validate_journal_length c journal_len;
  metadata_end ← ok_or (checked_add usize_max CHECKPOINT_HEADER_BYTES metadata_len)
                   length_overflow;
  authenticated_len ← ok_or (checked_add usize_max metadata_end journal_len) length_overflow;
  artifact_len ← ok_or (checked_add usize_max authenticated_len CHECKPOINT_TAG_BYTES)
                   length_overflow;
  Ok {| metadata_end := metadata_end; authenticated_len := authenticated_len;
        artifact_len := artifact_len |}.

Definition verify_parts c (expected_binding : WasixCheckpointBinding) (artifact : list byte)
    : Result VerifiedCheckpointParts :=
  _ ← validate_limit c;
  _ ← binding_validate expected_binding;
  maximum ← maximum_artifact_bytes c;
  _ ← reject_if (maximum <? blen artifact)
        (Checkpoint "checkpoint artifact exceeds the configured limit");
  _ ← reject_if (blen artifact <? CHECKPOINT_HEADER_BYTES + CHECKPOINT_TAG_BYTES)
        (Checkpoint "checkpoint artifact is truncated");
  layout ← validate_header c (slice artifact 0 CHECKPOINT_HEADER_BYTES);
  _ ← reject_if (negb (blen artifact =? artifact_len layout))
        (Checkpoint "checkpoint artifact length does not match its header");
  let authenticated := authenticated_len layout in
  let supplied_tag := slice artifact authenticated (blen artifact) in
  mac ← authentication_tag c (slice artifact 0 authenticated);
  _ ← reject_if (negb (mac_verify_slice mac supplied_tag))
        (Checkpoint "checkpoint authentication failed");
  let metadata_end := metadata_end layout in
  metadata ← map_err (λ e, Checkpoint ("checkpoint metadata is malformed: " +:+ e))
               (from_slice (slice artifact CHECKPOINT_HEADER_BYTES metadata_end));
  _ ← metadata_validate metadata expected_binding;
  let journal := slice artifact metadata_end authenticated in
  _ ← reject_if (negb (bool_decide (md_journal_sha256 metadata = sha256_hex journal)))
        (Checkpoint "checkpoint journal digest is invalid");
  _ ← scan_journal journal;
  Ok {| parts_binding := md_binding metadata;
        parts_journal := (metadata_end, authenticated);
        parts_artifact_sha256 := sha256_hex artifact;
        parts_worker_build_sha256 := md_worker_build_sha256 metadata |}.

Definition open c (expected_binding : WasixCheckpointBinding) (artifact : list byte)
    : Result VerifiedWasixCheckpoint :=
  parts ← verify_parts c expected_binding artifact;
  let journal := slice artifact (parts_journal parts).1 (parts_journal parts).2 in
  _ ← map_err (λ e, Checkpoint ("checkpoint journal allocation failed during open: " +:+ e))
        (try_reserve_exact (blen journal));
  Ok {| verified_binding := parts_binding parts;
        verified_bytes := journal;
        verified_range := (0, blen journal);
        verified_artifact_sha256 := parts_artifact_sha256 parts;
        verified_worker_build_sha256 := parts_worker_build_sha256 parts |}.

Definition verify c (expected_binding : WasixCheckpointBinding) (artifact : list byte)
    : Result VerifiedWasixCheckpointView :=
  parts ← verify_parts c expected_binding artifact;
  Ok {| view_binding := parts_binding parts;
        view_journal := slice artifact (parts_journal parts).1 (parts_journal parts).2;
        view_artifact_sha256 := parts_artifact_sha256 parts;
        view_worker_build_sha256 := parts_worker_build_sha256 parts |}.

Definition read_checkpoint_exact (r : reader) (n : Z) (phase : string)
    : Result (list byte * reader) :=
  map_err (λ e, match e with
                | UnexpectedEof => Checkpoint "checkpoint artifact is truncated"
                | OtherError m =>
                    Checkpoint ("checkpoint artifact " +:+ phase +:+ " read failed: " +:+ m)
                end)
    (read_exact r n).

(** The retry loop consumes one event of the stream per iteration. *)
Fixpoint read_checkpoint_trailing_byte (r : reader) : Result Z :=
  match read r 1 with
  | ReadBytes l _ => Ok (blen l)
  | ReadErr m _ => Err (Checkpoint ("checkpoint artifact trailing-byte check failed: " +:+ m))
  | ReadInterrupted _ =>
      match r with [] => Ok 0 | _ :: rest => read_checkpoint_trailing_byte rest end
  end.

Definition open_reader c (expected_binding : WasixCheckpointBinding) (r : reader)
    : Result VerifiedWasixCheckpoint :=
  _ ← validate_limit c;
  _ ← binding_validate expected_binding;
  maximum ← maximum_artifact_bytes c;
  '(header, r) ← read_checkpoint_exact r CHECKPOINT_HEADER_BYTES "header";
  layout ← validate_header c header;
  _ ← map_err (λ e, Checkpoint ("checkpoint artifact allocation failed while reading: " +:+ e))
        (try_reserve_exact (artifact_len layout));
  '(body, r) ← read_checkpoint_exact r (artifact_len layout - CHECKPOINT_HEADER_BYTES) "body";
  let artifact := header ++ body in
  trailing_bytes ← read_checkpoint_trailing_byte r;
  _ ← reject_if (negb (trailing_bytes =? 0))
        (Checkpoint (if artifact_len layout =? maximum
           then "checkpoint artifact exceeds the configured limit while reading"
           else "checkpoint artifact length does not match its header"));
  parts ← verify_parts c expected_binding artifact;
  Ok {| verified_binding := parts_binding parts;
        verified_bytes := artifact;
        verified_range := parts_journal parts;
        verified_artifact_sha256 := parts_artifact_sha256 parts;
        verified_worker_build_sha256 := parts_worker_build_sha256 parts |}.
End codec.

(** ** The journals the scanner accepts *)

Definition record : Type := Z * list byte.
Definition encode_record (r : record) : list byte :=
  be_bytes 2 r.1 ++ be_bytes 6 (blen r.2) ++ r.2.
Definition encode_records (l : list record) : list byte := mjoin (encode_record <$> l).

Definition RecordOk (r : record) : Prop :=
  is_known_journal_record_type r.1 = true ∧ blen r.2 < 2 ^ 48 ∧
  (r.2 = [] → is_zero_sized_journal_record_type r.1 = true).

(** Magic, one module initialization first, one snapshot last, a thread record
    between them, and well-formed known records throughout. *)
Definition WellFormedJournal (j : list byte) : Prop :=
  ∃ init middle snapshot,
    j = JOURNAL_MAGIC ++ encode_records ((1, init) :: middle ++ [(59, snapshot)]) ∧
    Forall RecordOk ((1, init) :: middle ++ [(59, snapshot)]) ∧
    Forall (λ r : record, r.1 ≠ 1 ∧ r.1 ≠ 59) middle ∧
    Exists (λ r : record, r.1 = 3) middle.

(** Rust allocations hold at most [isize::MAX] bytes. *)
Definition isize_max : Z := 2 ^ 63 - 1.

Lemma encode_records_cons r l : encode_records (r :: l) = encode_record r ++ encode_records l.
Proof. done. Qed.
Lemma encode_records_app l k :
  encode_records (l ++ k) = encode_records l ++ encode_records k.
Proof.
  induction l as [|r l IH]; [done|].
  change ((r :: l) ++ k) with (r :: l ++ k).
  rewrite !encode_records_cons, IH. by rewrite app_assoc.
Qed.
Lemma blen_encode_record r : blen (encode_record r) = 8 + blen r.2.
Proof. unfold encode_record. blen_lia. Qed.
Lemma encode_records_nil_inv l : encode_records l = [] → l = [].
Proof.
  destruct l as [|r l]; [done|]. rewrite encode_records_cons.
  intros Hl%(f_equal blen). rewrite blen_app, blen_encode_record in Hl. blen_lia.
Qed.
Lemma blen_journal_magic : blen JOURNAL_MAGIC = 8.
Proof. done. Qed.

(** The scanner's counters over a list of parsed records. *)
Fixpoint lifecycle (c : scan_counters) (l : list record) : Result scan_counters :=
  match l with
  | [] => Ok c
  | r :: l' => c' ← scan_record c r.1 (bool_decide (l' = [])); lifecycle c' l'
  end.

Definition header_of (t n : Z) : list byte := be_bytes 2 t ++ be_bytes 6 n.

Lemma header_type t n : 0 ≤ t < 2 ^ 16 → be_val (slice (header_of t n) 0 2) = t.
Proof.
  intros Ht. unfold header_of. rewrite slice_0_app by (by rewrite blen_be_bytes).
  apply be_val_be_bytes_small. cbn. lia.
Qed.
Lemma header_len t n : 0 ≤ n < 2 ^ 48 → be_val (slice (header_of t n) 2 8) = n.
Proof.
  intros Hn. unfold header_of. rewrite slice_app_end by (by rewrite !blen_be_bytes).
  apply be_val_be_bytes_small. cbn. lia.
Qed.
Lemma known_range t : is_known_journal_record_type t = true → 1 ≤ t ≤ 64.
Proof.
  unfold is_known_journal_record_type. rewrite orb_true_iff, !andb_true_iff, !Z.leb_le. lia.
Qed.
Lemma header_not_magic t n :
  is_known_journal_record_type t = true → header_of t n ≠ JOURNAL_MAGIC.
Proof.
  intros Ht%known_range Heq. apply (f_equal (λ l, be_val (slice l 0 2))) in Heq.
  rewrite header_type in Heq by lia.
  change (be_val (slice JOURNAL_MAGIC 0 2)) with 12557 in Heq. lia.
Qed.
Lemma header_of_slice h : blen h = 8 →
  h = header_of (be_val (slice h 0 2)) (be_val (slice h 2 8)).
Proof.
  intros Hh. rewrite <- (slice_full h) at 1. rewrite Hh.
  rewrite (slice_split h 0 2 8) by lia. unfold header_of. f_equal.
  - rewrite <- (be_bytes_be_val (slice h 0 2)) at 1. f_equal.
    apply Nat2Z.inj. change (blen (slice h 0 2) = 2). rewrite blen_slice; lia.
  - rewrite <- (be_bytes_be_val (slice h 2 8)) at 1. f_equal.
    apply Nat2Z.inj. change (blen (slice h 2 8) = 6). rewrite blen_slice; lia.
Qed.

(** One iteration of the loop at an encoded record consumes that record. *)
Lemma scan_loop_record fuel pre r l c :
  RecordOk r → blen (pre ++ encode_record r ++ encode_records l) ≤ isize_max →
  scan_loop (S fuel) (pre ++ encode_record r ++ encode_records l) (blen pre) c =
  (c' ← scan_record c r.1 (bool_decide (l = []));
   scan_loop fuel (pre ++ encode_record r ++ encode_records l) (blen (pre ++ encode_record r)) c').
Proof.
  intros (Hknown & Hlen & Hzero) Hmax. pose proof (known_range _ Hknown).
  set (j := pre ++ encode_record r ++ encode_records l) in *.
  assert (blen j = blen pre + (8 + blen r.2) + blen (encode_records l)) as Hj.
  { unfold j. rewrite !blen_app, blen_encode_record. lia. }
  pose proof (blen_nonneg r.2). pose proof (blen_nonneg pre).
  pose proof (blen_nonneg (encode_records l)). unfold isize_max in Hmax.
  assert (slice j (blen pre) (blen pre + 8) = header_of r.1 (blen r.2)) as Hs.
  { unfold j, encode_record. rewrite <- !app_assoc, (app_assoc (be_bytes 2 _)).
    apply slice_app_mid; [done|]. unfold header_of. blen_lia. }
  cbn [scan_loop]. destruct (Z.ltb_spec (blen pre) (blen j)); [|lia]. cbn [negb].
  unfold checked_add, usize_max.
  destruct (Z.leb_spec (blen pre + 8) (2 ^ 64 - 1)); [|lia]. cbn [ok_or mbind result_bind].
  destruct (Z.ltb_spec (blen j) (blen pre + 8)); [lia|]. cbn [reject_if mbind result_bind].
  rewrite Hs, header_type, header_len by lia. rewrite Hknown.
  rewrite bool_decide_eq_false_2 by (by apply header_not_magic). cbn [negb reject_if mbind result_bind].
  destruct (Z.ltb_spec (2 ^ 64 - 1) (blen r.2)); [lia|]. cbn [reject_if mbind result_bind].
  assert ((blen r.2 =? 0) && negb (is_zero_sized_journal_record_type r.1) = false) as ->.
  { destruct (Z.eqb_spec (blen r.2) 0) as [Hr0|]; [|done]. by rewrite Hzero by by apply blen_nil_inv. }
  cbn [reject_if mbind result_bind].
  destruct (Z.leb_spec (blen pre + 8 + blen r.2) (2 ^ 64 - 1)); [|lia]. cbn [ok_or mbind result_bind].
  destruct (Z.ltb_spec (blen j) (blen pre + 8 + blen r.2)); [lia|]. cbn [reject_if mbind result_bind].
  assert ((blen pre + 8 + blen r.2 =? blen j) = bool_decide (l = [])) as ->.
  { case_bool_decide as Hl.
    - subst l. apply Z.eqb_eq. change (blen (encode_records [])) with 0 in Hj. lia.
    - apply Z.eqb_neq. intros He. apply Hl, encode_records_nil_inv, blen_nil_inv. lia. }
  rewrite blen_app, blen_encode_record.
  by replace (blen pre + 8 + blen r.2) with (blen pre + (8 + blen r.2)) by lia.
Qed.

Lemma scan_loop_complete fuel pre l c :
  Forall RecordOk l → blen (pre ++ encode_records l) ≤ isize_max → (length l <= fuel)%nat →
  scan_loop fuel (pre ++ encode_records l) (blen pre) c = lifecycle c l.
Proof.
  intros Hl. revert fuel pre c. induction Hl as [|r l Hr Hl IH]; intros fuel pre c Hmax Hf.
  { change (encode_records []) with (@nil byte). rewrite app_nil_r.
    destruct fuel; cbn [scan_loop]; rewrite Z.ltb_irrefl; done. }
  cbn [length] in Hf. destruct fuel as [|fuel]; [lia|].
  rewrite encode_records_cons in *. rewrite scan_loop_record by done. cbn [lifecycle].
  destruct (scan_record c r.1 (bool_decide (l = []))) as [c'|e]; [|done]. cbn [mbind result_bind].
  rewrite app_assoc. apply IH; [by rewrite <- app_assoc|lia].
Qed.

Lemma length_encode_records l : (length l <= length (encode_records l))%nat.
Proof.
  induction l as [|r l IH]; [done|]. rewrite encode_records_cons, length_app.
  pose proof (blen_encode_record r). pose proof (blen_nonneg r.2). unfold blen in *. cbn [length]. lia.
Qed.

(** Whatever the loop accepts is a sequence of encoded records. *)
Lemma scan_loop_sound fuel j cursor c c' :
  0 ≤ cursor ≤ blen j → scan_loop fuel j cursor c = Ok c' →
  ∃ l, Forall RecordOk l ∧ drop (Z.to_nat cursor) j = encode_records l.
Proof.
  revert cursor c. induction fuel as [|fuel IH]; intros cursor c Hc; cbn [scan_loop];
    destruct (Z.ltb_spec cursor (blen j)) as [Hlt|Hge]; cbn [negb]; try done.
  1,3: intros _; exists []; split; [constructor|]; apply drop_ge; unfold blen in *; lia.
  intros Hok. result_inv. rewrite checked_add_Some in *. destruct_and?. subst. bool_inv.
  set (h := slice j cursor (cursor + 8)) in *.
  assert (blen h = 8) as Hh by (unfold h; rewrite blen_slice; lia).
  set (n := be_val (slice h 2 8)) in *. set (t := be_val (slice h 0 2)) in *.
  pose proof (be_val_range (slice h 2 8)) as Hn. fold n in Hn.
  assert (Z.of_nat (length (slice h 2 8)) = 6) as Hl6
    by (change (blen (slice h 2 8) = 6); rewrite blen_slice; lia).
  rewrite Hl6 in Hn. change (256 ^ 6) with (2 ^ 48) in Hn.
  match goal with Hs : scan_loop _ _ _ _ = Ok _ |- _ =>
    apply IH in Hs as (l & Hl & Hd); [|lia] end.
  set (body := slice j (cursor + 8) (cursor + 8 + n)).
  assert (blen body = n) as Hb by (unfold body; rewrite blen_slice; lia).
  exists ((t, body) :: l). split.
  - constructor; [|done]. split_and!; cbn; [done|lia|]. intros Hnil.
    rewrite Hnil in Hb. change (blen (@nil byte)) with 0 in Hb.
    match goal with Hz : (n =? 0) && _ = false |- _ => rewrite <- Hb in Hz; cbn in Hz end.
    by bool_inv.
  - rewrite encode_records_cons, <- Hd. unfold encode_record. cbn [fst snd].
    rewrite Hb, app_assoc. fold (header_of t n). unfold t, n. rewrite <- header_of_slice by done.
    fold n. unfold h, body.
    transitivity (slice j cursor (blen j)).
    { unfold slice. symmetry. apply take_ge. rewrite length_drop. unfold blen in *. lia. }
    rewrite (slice_split j cursor (cursor + 8) (blen j)) by lia.
    rewrite (slice_split j (cursor + 8) (cursor + 8 + n) (blen j)) by lia.
    rewrite <- app_assoc. do 2 f_equal. unfold slice. apply take_ge.
    rewrite length_drop. unfold blen in *. lia.
Qed.

(** Counters after records that neither initialize nor snapshot. *)
Definition bump_one (c : scan_counters) (r : record) : scan_counters :=
  {| final_record := Some r.1; record_count := record_count c + 1;
     init_module_records := init_module_records c;
     set_thread_records := set_thread_records c + (if r.1 =? 3 then 1 else 0);
     snapshot_records := snapshot_records c |}.
Definition bump (c : scan_counters) (l : list record) : scan_counters := foldl bump_one c l.

Definition is_middle (r : record) : Prop := r.1 ≠ 1 ∧ r.1 ≠ 59.
#[global] Instance is_middle_dec r : Decision (is_middle r) := _.

Lemma scan_record_middle c r b : is_middle r → scan_record c r.1 b = Ok (bump_one c r).
Proof.
  intros [H1 H59]. unfold scan_record, bump_one, JOURNAL_SNAPSHOT_V1.
  destruct (Z.eqb_spec r.1 1); [done|]. destruct (Z.eqb_spec r.1 3); [done|].
  destruct (Z.eqb_spec r.1 59); [done|]. by rewrite Z.add_0_r.
Qed.

Lemma lifecycle_middle c l k : Forall is_middle l → lifecycle c (l ++ k) = lifecycle (bump c l) k.
Proof.
  intros Hl. revert c. induction Hl as [|r l Hr Hl IH]; intros c; [done|].
  cbn [app lifecycle]. rewrite scan_record_middle by done. cbn [mbind result_bind]. apply IH.
Qed.

Lemma bump_fields c l :
  init_module_records (bump c l) = init_module_records c ∧
  snapshot_records (bump c l) = snapshot_records c ∧
  record_count c ≤ record_count (bump c l) ∧
  set_thread_records c ≤ set_thread_records (bump c l).
Proof.
  revert c. induction l as [|r l IH]; intros c; [cbn; lia|].
  change (bump c (r :: l)) with (bump (bump_one c r) l).
  destruct (IH (bump_one c r)) as (-> & -> & Hrc & Hst). cbn in *.
  destruct (r.1 =? 3); split_and!; lia.
Qed.

Lemma bump_threads c l :
  set_thread_records (bump c l) = set_thread_records c ↔ ¬ Exists (λ r : record, r.1 = 3) l.
Proof.
  revert c. induction l as [|r l IH]; intros c.
  { cbn. split; [intros _ Hx; inversion Hx|done]. }
  change (bump c (r :: l)) with (bump (bump_one c r) l).
  rewrite Exists_cons. destruct (Z.eqb_spec r.1 3) as [H3|H3].
  - pose proof (bump_fields (bump_one c r) l) as (_ & _ & _ & Hst). cbn in Hst.
    rewrite H3 in Hst. cbn in Hst. split; [lia|]. intros []. by left.
  - specialize (IH (bump_one c r)). cbn in IH. destruct (Z.eqb_spec r.1 3); [done|].
    rewrite Z.add_0_r in IH. rewrite IH. tauto.
Qed.

Lemma split_first_not_middle (l : list record) :
  Forall is_middle l ∨ ∃ m r k, l = m ++ r :: k ∧ Forall is_middle m ∧ ¬ is_middle r.
Proof.
  induction l as [|r l IH]; [by left; constructor|].
  destruct (decide (is_middle r)) as [Hr|Hr]; [|by right; exists [], r, l].
  destruct IH as [Hl|(m & r' & k & -> & Hm & Hr')]; [by left; constructor|].
  right. exists (r :: m), r', k. split_and!; [done|by constructor|done].
Qed.

(** The closing test of [scan_journal] as a predicate on the counters. *)
Definition lifecycle_complete (c : scan_counters) : bool :=
  negb (negb (init_module_records c =? 1) || (set_thread_records c =? 0)
        || negb (snapshot_records c =? 1)
        || negb (bool_decide (final_record c = Some JOURNAL_SNAPSHOT_V1))).

Definition LifecycleShape (l : list record) : Prop :=
  ∃ init middle snapshot, l = (1, init) :: middle ++ [(59, snapshot)] ∧
    Forall is_middle middle ∧ Exists (λ r : record, r.1 = 3) middle.

(** Counters after the module initialization record. *)
Definition after_init : scan_counters :=
  {| final_record := Some 1; record_count := 1; init_module_records := 1;
     set_thread_records := 0; snapshot_records := 0 |}.

Lemma scan_record_init b : scan_record scan_start 1 b = Ok after_init.
Proof. done. Qed.

Lemma scan_start_first (r : record) b c :
  scan_record scan_start r.1 b = Ok c →
  (r.1 = 1 ∧ c = after_init) ∨ (r.1 ≠ 1 ∧ init_module_records c = 0 ∧ record_count c = 1).
Proof.
  unfold scan_record. destruct (Z.eqb_spec r.1 1) as [->|].
  { cbn. intros [= <-]. by left. }
  intros Hc. right. split; [done|]. revert Hc.
  destruct (r.1 =? 3), (r.1 =? JOURNAL_SNAPSHOT_V1), b; cbn; intros [= <-]; done.
Qed.

(** Once a record has been read, a later module initialization is rejected,
    so the count of initializations is settled. *)
Lemma lifecycle_init_fixed c l c' :
  1 ≤ record_count c → lifecycle c l = Ok c' →
  init_module_records c' = init_module_records c.
Proof.
  revert c. induction l as [|r l IH]; intros c Hrc; cbn [lifecycle]; [by intros [= ->]|].
  intros Hok. result_inv.
  match goal with Hs : scan_record _ _ _ = Ok ?d |- _ =>
    assert (1 ≤ record_count d ∧ init_module_records d = init_module_records c) as [Hd Hi] end;
    [|by rewrite <- Hi; apply IH].
  unfold scan_record in *. destruct (r.1 =? 1).
  { result_inv. bool_inv. lia. }
  destruct (r.1 =? 3), (r.1 =? JOURNAL_SNAPSHOT_V1), (bool_decide (l = [])); cbn in *;
    simplify_eq; cbn; lia.
Qed.

Lemma lifecycle_sound l c :
  lifecycle scan_start l = Ok c → lifecycle_complete c = true → LifecycleShape l.
Proof.
  intros Hok Hc. apply negb_true_iff in Hc. bool_inv.
  destruct l as [|[t init] l]; cbn [lifecycle] in Hok; [by simplify_eq|]. result_inv.
  match goal with Hs : scan_record scan_start _ _ = Ok _ |- _ =>
    apply (scan_start_first (t, init)) in Hs as [[Ht ->]|(_ & Hi & Hr)] end; cbn in *; subst.
  2: { apply lifecycle_init_fixed in Hok; [|lia]. lia. }
  destruct (split_first_not_middle l) as [Hm|(m & [u snap] & k & -> & Hm & Hr)].
  { rewrite <- (app_nil_r l), lifecycle_middle in Hok by done. cbn in Hok. simplify_eq.
    match goal with Hs : snapshot_records (bump ?d l) = 1 |- _ =>
      pose proof (bump_fields d l) as (_ & Hsn & _) end. cbn in Hsn. lia. }
  rewrite lifecycle_middle in Hok by done. cbn [lifecycle fst] in Hok. result_inv.
  set (d := bump _ m) in *.
  match goal with Hs : scan_record d u _ = Ok _ |- _ => revert Hs end.
  pose proof (bump_fields after_init m) as (Hi & _ & Hrc & Hst).
  fold d in Hi, Hrc, Hst. cbn in Hi, Hrc, Hst. unfold scan_record, JOURNAL_SNAPSHOT_V1.
  unfold is_middle in Hr. cbn in Hr.
  destruct (Z.eqb_spec u 1).
  { intros Hs. result_inv. bool_inv. lia. }
  destruct (Z.eqb_spec u 3); [lia|]. destruct (Z.eqb_spec u 59) as [->|]; [|lia].
  intros Hs. result_inv. bool_inv. subst k. cbn in Hok. simplify_eq. cbn in *.
  exists init, m, snap. split_and!; [done|done|].
  destruct (decide (Exists (λ r : record, r.1 = 3) m)) as [|Hn]; [done|].
  apply (bump_threads after_init) in Hn. fold d in Hn. cbn in Hn. lia.
Qed.

Lemma lifecycle_sufficient l :
  LifecycleShape l → ∃ c, lifecycle scan_start l = Ok c ∧ lifecycle_complete c = true.
Proof.
  intros (init & m & snap & -> & Hm & H3). cbn [lifecycle fst].
  rewrite scan_record_init.
  cbn [mbind result_bind]. rewrite lifecycle_middle by done. set (d := bump _ m).
  eexists. split; [done|]. unfold lifecycle_complete. cbn.
  pose proof (bump_fields after_init m) as (Hi & Hsn & _ & Hst).
  fold d in Hi, Hsn, Hst. cbn in Hi, Hsn, Hst. rewrite Hi, Hsn.
  destruct (Z.eqb_spec (set_thread_records d) 0) as [Hz|]; [|done].
  by apply (bump_threads after_init m) in Hz.
Qed.

Lemma scan_journal_complete_test c :
  reject_if (negb (init_module_records c =? 1) || (set_thread_records c =? 0)
             || negb (snapshot_records c =? 1)
             || negb (bool_decide (final_record c = Some JOURNAL_SNAPSHOT_V1)))
    (Checkpoint "checkpoint journal lifecycle is incomplete") = Ok tt
  ↔ lifecycle_complete c = true.
Proof. unfold lifecycle_complete. by rewrite reject_if_Ok, negb_true_iff. Qed.

Lemma well_formed_shape j :
  WellFormedJournal j ↔
  ∃ l, j = JOURNAL_MAGIC ++ encode_records l ∧ Forall RecordOk l ∧ LifecycleShape l.
Proof.
  split.
  - intros (init & m & snap & Hj & Hok & Hm & H3). eexists. split_and!; [done|done|].
    by exists init, m, snap.
  - intros (l & Hj & Hok & init & m & snap & -> & Hm & H3). by exists init, m, snap.
Qed.

Lemma scan_journal_magic j :
  blen j <? blen JOURNAL_MAGIC = false →
  slice j 0 (blen JOURNAL_MAGIC) = JOURNAL_MAGIC →
  j = JOURNAL_MAGIC ++ drop (Z.to_nat (blen JOURNAL_MAGIC)) j.
Proof.
  intros Hlen Hs. bool_inv. rewrite <- Hs at 1. unfold slice.
  rewrite Z.sub_0_r. change (Z.to_nat 0) with 0%nat. by rewrite drop_0, take_drop.
Qed.

Lemma scan_journal_spec j :
  blen j ≤ isize_max → scan_journal j = Ok tt ↔ WellFormedJournal j.
Proof.
  intros Hmax. rewrite well_formed_shape. unfold scan_journal. split.
  - intros Hok. result_inv. bool_inv.
    assert ((blen j <? blen JOURNAL_MAGIC) = false) as Hm by (by apply Z.ltb_ge).
    pose proof (scan_journal_magic j Hm ltac:(done)) as Hj.
    match goal with Hs : scan_loop _ _ _ _ = Ok _ |- _ =>
      pose proof Hs as Hscan; apply scan_loop_sound in Hs as (l & Hl & Hd);
      [|pose proof blen_journal_magic; lia] end.
    rewrite Hd in Hj. exists l. split_and!; [done..|].
    rewrite Hj in Hscan. rewrite scan_loop_complete in Hscan; [|done|by rewrite <- Hj|].
    + eapply lifecycle_sound; [done|]. unfold lifecycle_complete. apply negb_true_iff.
      by rewrite !orb_false_iff, !negb_false_iff, !Z.eqb_eq, Z.eqb_neq, bool_decide_eq_true.
    + rewrite length_app. pose proof (length_encode_records l). lia.
  - intros (l & -> & Hl & Hs).
    rewrite blen_app, slice_0_app by done. rewrite bool_decide_eq_true_2 by done.
    destruct (Z.ltb_spec (blen JOURNAL_MAGIC + blen (encode_records l)) (blen JOURNAL_MAGIC));
      [blen_lia|]. cbn [reject_if negb orb mbind result_bind].
    apply lifecycle_sufficient in Hs as (c & Hc & Hcc).
    rewrite scan_loop_complete, Hc; [by apply scan_journal_complete_test|done..|].
    rewrite length_app. pose proof (length_encode_records l). lia.
Qed.

(** C24: the journal scanner accepts exactly the well-formed journals: the
    magic, one module-initialization record first, at least one thread record,
    one snapshot record last, and only known record types with bodies where
    the type requires one. *)
Theorem scan_journal_iff j :
  blen j ≤ isize_max → scan_journal j = Ok tt ↔ WellFormedJournal j.
Proof. apply scan_journal_spec. Qed.

(** The loop's result does not depend on the fuel beyond the bytes left. *)
Lemma scan_loop_fuel f g j cursor c :
  0 ≤ cursor → blen j - cursor ≤ Z.of_nat f → blen j - cursor ≤ Z.of_nat g →
  scan_loop f j cursor c = scan_loop g j cursor c.
Proof.
  revert g cursor c. induction f as [|f IH]; intros g cursor c Hc Hf Hg.
  { destruct g; cbn [scan_loop]; destruct (Z.ltb_spec cursor (blen j)); done || lia. }
  destruct g as [|g].
  { cbn [scan_loop]. destruct (Z.ltb_spec cursor (blen j)); done || lia. }
  cbn [scan_loop]. destruct (Z.ltb_spec cursor (blen j)); [|done]. cbn [negb].
  destruct (checked_add usize_max cursor 8) as [he|] eqn:Hhe; [|done].
  apply checked_add_Some in Hhe as [-> _]. cbn [ok_or mbind result_bind].
  repeat (match goal with |- context [reject_if ?b ?e] => destruct (reject_if b e) as [[]|]; [|done] end;
          cbn [mbind result_bind]).
  pose proof (be_val_range (slice (slice j cursor (cursor + 8)) 2 8)).
  set (n := be_val (slice (slice j cursor (cursor + 8)) 2 8)) in *.
  destruct (checked_add usize_max (cursor + 8) n) as [c2|] eqn:Hc2; [|done].
  apply checked_add_Some in Hc2 as [-> _]. cbn [ok_or mbind result_bind].
  destruct (reject_if _ _) as [[]|]; [|done]. cbn [mbind result_bind].
  destruct (scan_record _ _ _) as [c'|]; [|done]. cbn [mbind result_bind].
  apply IH; lia.
Qed.

(** ** The artifact as a value *)

Definition ok {E A} (r : result E A) : option A :=
  match r with Ok a => Some a | Err _ => None end.

Section envelope.
Context {C : Crypto} {CL : CryptoLaws C} `{BuildInfo} `{Allocator}.
Context {JW : JsonWriter CheckpointMetadata} {JM : Json CheckpointMetadata}.
Implicit Types c : WasixCheckpointCodec.

(** Header, metadata and journal, followed by their HMAC tag. *)
Definition envelope_header (metadata journal : list byte) : list byte :=
  CHECKPOINT_MAGIC ++ be_bytes 2 CHECKPOINT_FORMAT_VERSION
    ++ be_bytes 4 (blen metadata) ++ be_bytes 8 (blen journal).
Definition envelope_body (metadata journal : list byte) : list byte :=
  envelope_header metadata journal ++ metadata ++ journal.
Definition envelope c (metadata journal : list byte) : list byte :=
  envelope_body metadata journal
    ++ hmac_sha256 (authentication_key c) (CHECKPOINT_DOMAIN ++ envelope_body metadata journal).

(** Lengths within the format and the codec's configured limit. *)
Definition EnvelopeBounds c (metadata journal : list byte) : Prop :=
  1 ≤ blen metadata ≤ MAX_CHECKPOINT_METADATA_BYTES ∧
  1 ≤ blen journal ≤ max_journal_bytes c ∧
  CHECKPOINT_HEADER_BYTES + MAX_CHECKPOINT_METADATA_BYTES + max_journal_bytes c
    + CHECKPOINT_TAG_BYTES ≤ usize_max.

Definition layout_of (metadata journal : list byte) : CheckpointArtifactLayout :=
  {| metadata_end := CHECKPOINT_HEADER_BYTES + blen metadata;
     authenticated_len := CHECKPOINT_HEADER_BYTES + blen metadata + blen journal;
     artifact_len := CHECKPOINT_HEADER_BYTES + blen metadata + blen journal
                       + CHECKPOINT_TAG_BYTES |}.

Lemma blen_header m j : blen (envelope_header m j) = CHECKPOINT_HEADER_BYTES.
Proof. unfold envelope_header. rewrite !blen_app, !blen_be_bytes. done. Qed.
Lemma blen_hmac k m : blen (hmac_sha256 k m) = 32.
Proof. unfold blen. by rewrite hmac_length. Qed.
Lemma blen_body m j :
  blen (envelope_body m j) = CHECKPOINT_HEADER_BYTES + blen m + blen j.
Proof. unfold envelope_body. rewrite !blen_app, blen_header. lia. Qed.
Lemma blen_envelope c m j : blen (envelope c m j) = artifact_len (layout_of m j).
Proof. unfold envelope. rewrite blen_app, blen_hmac, blen_body. done. Qed.

Lemma envelope_split c m j :
  slice (envelope c m j) 0 CHECKPOINT_HEADER_BYTES = envelope_header m j ∧
  slice (envelope c m j) CHECKPOINT_HEADER_BYTES (metadata_end (layout_of m j)) = m ∧
  slice (envelope c m j) (metadata_end (layout_of m j)) (authenticated_len (layout_of m j)) = j ∧
  slice (envelope c m j) 0 (authenticated_len (layout_of m j)) = envelope_body m j ∧
  slice (envelope c m j) (authenticated_len (layout_of m j)) (artifact_len (layout_of m j)) =
    hmac_sha256 (authentication_key c) (CHECKPOINT_DOMAIN ++ envelope_body m j).
Proof.
  unfold envelope, layout_of. cbn [metadata_end authenticated_len artifact_len].
  pose proof (blen_header m j) as Hh. set (tag := hmac_sha256 _ _).
  assert (blen tag = 32) as Ht by apply blen_hmac.
  split_and!.
  - unfold envelope_body. rewrite <- app_assoc. by apply slice_0_app.
  - unfold envelope_body. rewrite <- !app_assoc. by apply slice_app_mid; rewrite Hh.
  - unfold envelope_body.
    replace ((envelope_header m j ++ m ++ j) ++ tag) with ((envelope_header m j ++ m) ++ j ++ tag)
      by (by rewrite <- !app_assoc).
    by apply slice_app_mid; rewrite blen_app, Hh.
  - apply slice_0_app. by rewrite blen_body.
  - by apply slice_app_end; rewrite blen_body, ?Ht.
Qed.

Lemma header_fields m j :
  0 ≤ blen m < 2 ^ 32 → 0 ≤ blen j < 2 ^ 64 →
  slice (envelope_header m j) 0 (blen CHECKPOINT_MAGIC) = CHECKPOINT_MAGIC ∧
  be_val (slice (envelope_header m j) 8 10) = CHECKPOINT_FORMAT_VERSION ∧
  be_val (slice (envelope_header m j) 10 14) = blen m ∧
  be_val (slice (envelope_header m j) 14 22) = blen j.
Proof.
  intros Hm Hj. unfold envelope_header. split_and!.
  - by apply slice_0_app.
  - rewrite slice_app_mid; [done| |]; rewrite ?blen_be_bytes; done.
  - rewrite (app_assoc CHECKPOINT_MAGIC), slice_app_mid;
      [|by rewrite blen_app, blen_be_bytes..].
    apply be_val_be_bytes_small. cbn. lia.
  - rewrite (app_assoc CHECKPOINT_MAGIC), (app_assoc (CHECKPOINT_MAGIC ++ _)), slice_app_end;
      [|by rewrite !blen_app, !blen_be_bytes..].
    apply be_val_be_bytes_small. cbn. lia.
Qed.

Lemma validate_header_complete c m j :
  EnvelopeBounds c m j → validate_header c (envelope_header m j) = Ok (layout_of m j).
Proof.
  unfold EnvelopeBounds, MAX_CHECKPOINT_METADATA_BYTES, CHECKPOINT_HEADER_BYTES,
    CHECKPOINT_TAG_BYTES, usize_max. intros (Hm & Hj & Hmax).
  destruct (header_fields m j) as (H8 & H10 & H14 & H22); [lia..|].
  unfold validate_header, validate_journal_length.
  rewrite H8, H10, H14, H22. rewrite bool_decide_eq_true_2 by done.
  cbn [reject_if mbind result_bind negb orb Z.eqb Pos.eqb CHECKPOINT_FORMAT_VERSION].
  unfold checked_add, MAX_CHECKPOINT_METADATA_BYTES, CHECKPOINT_HEADER_BYTES,
    CHECKPOINT_TAG_BYTES, usize_max.
  repeat (match goal with
    | |- context [?a =? ?b] => destruct (Z.eqb_spec a b); [lia|]
    | |- context [?a <? ?b] => destruct (Z.ltb_spec a b); [lia|]
    | |- context [?a <=? ?b] => destruct (Z.leb_spec a b); [|lia]
    end; cbn [reject_if mbind result_bind negb orb ok_or]). done.
Qed.

(** What an accepted header says. *)
Lemma validate_header_inv c h l :
  blen h = CHECKPOINT_HEADER_BYTES → validate_header c h = Ok l →
  ∃ ml jl, h = CHECKPOINT_MAGIC ++ be_bytes 2 CHECKPOINT_FORMAT_VERSION
                 ++ be_bytes 4 ml ++ be_bytes 8 jl ∧
    1 ≤ ml ≤ MAX_CHECKPOINT_METADATA_BYTES ∧ 1 ≤ jl ≤ max_journal_bytes c ∧
    metadata_end l = CHECKPOINT_HEADER_BYTES + ml ∧
    authenticated_len l = CHECKPOINT_HEADER_BYTES + ml + jl ∧
    artifact_len l = CHECKPOINT_HEADER_BYTES + ml + jl + CHECKPOINT_TAG_BYTES.
Proof.
  unfold CHECKPOINT_HEADER_BYTES. intros Hh. unfold validate_header, validate_journal_length.
  intros Hok. result_inv. rewrite !checked_add_Some in *. destruct_and?. bool_inv. subst.
  exists (be_val (slice h 10 14)), (be_val (slice h 14 22)).
  pose proof (be_val_range (slice h 10 14)). pose proof (be_val_range (slice h 14 22)).
  split_and!; cbn [metadata_end authenticated_len artifact_len];
    unfold CHECKPOINT_HEADER_BYTES in *; try lia.
  rewrite <- (slice_full h) at 1. rewrite Hh.
  change (8 + 2 + 4 + 8) with 22 in *. change (blen CHECKPOINT_MAGIC) with 8 in *.
  rewrite (slice_split h 0 8 22), (slice_split h 8 10 22), (slice_split h 10 14 22) by lia.
  assert (∀ a b n, 0 ≤ a ≤ b → b ≤ 22 → b - a = Z.of_nat n →
    slice h a b = be_bytes n (be_val (slice h a b))) as Hw.
  { intros a b n Hab Hb Hn. rewrite <- (be_bytes_be_val (slice h a b)) at 1. f_equal.
    apply Nat2Z.inj. change (blen (slice h a b) = Z.of_nat n). rewrite blen_slice; lia. }
  f_equal; [done|]. f_equal; [|f_equal].
  - rewrite (Hw 8 10 2%nat) by lia. by f_equal.
  - by apply Hw.
  - by apply Hw.
Qed.

(** The guards that precede the header, and the MAC of a byte string. *)
Lemma maximum_artifact_bytes_Ok c n :
  maximum_artifact_bytes c = Ok n ↔
  n = CHECKPOINT_HEADER_BYTES + MAX_CHECKPOINT_METADATA_BYTES + max_journal_bytes c
        + CHECKPOINT_TAG_BYTES ∧ 
  CHECKPOINT_HEADER_BYTES + MAX_CHECKPOINT_METADATA_BYTES + max_journal_bytes c ≤ usize_max ∧
  n ≤ usize_max.
Proof.
  unfold maximum_artifact_bytes. rewrite ok_or_Ok.
  assert (checked_add usize_max CHECKPOINT_HEADER_BYTES MAX_CHECKPOINT_METADATA_BYTES =
    Some (CHECKPOINT_HEADER_BYTES + MAX_CHECKPOINT_METADATA_BYTES)) as -> by done.
  cbn [mbind option_bind]. rewrite bind_Some. setoid_rewrite checked_add_Some. split.
  - intros (x & [-> ?] & -> & ?). done.
  - intros (-> & ? & ?). eauto.
Qed.

Lemma authentication_tag_eq c b :
  authentication_tag c b =
  Ok {| mac_key := authentication_key c; mac_data := CHECKPOINT_DOMAIN ++ b |}.
Proof.
  unfold authentication_tag, authentication_state, mac_new. rewrite hmac_any_key.
  done.
Qed.

(** Accepted metadata is the current metadata of the expected binding. *)
Lemma metadata_validate_Ok m b :
  metadata_validate m b = Ok tt ↔
  binding_validate b = Ok tt ∧ Hex64 (md_journal_sha256 m) ∧ Hex64 (md_worker_build_sha256 m) ∧
  m = {| md_binding := b; md_runtime_version := cargo_pkg_version;
         md_worker_protocol_version := WASIX_WORKER_PROTOCOL_VERSION;
         md_cohort_id := WASIX_COHORT_ID;
         md_worker_build_sha256 := md_worker_build_sha256 m;
         md_engine_profile := CHECKPOINT_ENGINE_PROFILE; md_platform := checkpoint_platform;
         md_journal_format := CHECKPOINT_JOURNAL_FORMAT;
         md_execution_abi := CHECKPOINT_EXECUTION_ABI;
         md_isolation_policy := CHECKPOINT_ISOLATION_POLICY;
         md_snapshot_trigger := CHECKPOINT_SNAPSHOT_TRIGGER;
         md_journal_sha256 := md_journal_sha256 m |}.
Proof.
  assert (∀ label v u, validate_sha256 label v = Ok u ↔ Hex64 v) as Hsha.
  { intros. unfold validate_sha256, Hex64.
    by rewrite reject_if_Ok, orb_false_iff, !negb_false_iff, Z.eqb_eq, str_all_Forall. }
  unfold metadata_validate. split.
  - intros Hok. result_inv. rewrite Hsha in *. bool_inv. destruct_all unit.
    destruct m. cbn in *. subst. done.
  - intros (Hb & Hj & Hw & Hm). destruct m. cbn in *. injection Hm as -> -> -> -> -> -> -> -> -> ->.
    unfold metadata_current. cbn. rewrite Hb.
    cbn [mbind result_bind]. rewrite (proj2 (Hsha _ _ tt)) by done. cbn [mbind result_bind].
    rewrite (proj2 (Hsha _ _ tt)) by done. cbn [mbind result_bind].
    rewrite !bool_decide_eq_true_2 by done. done.
Qed.

Lemma metadata_current_validate b w j :
  binding_validate b = Ok tt → Hex64 w → metadata_validate (metadata_current b w j) b = Ok tt.
Proof.
  intros Hb Hw. apply metadata_validate_Ok. split_and!; [done|apply sha256_hex_hex64|done|done].
Qed.

(** The parts of an artifact that holds this metadata and journal. *)
Definition parts_of c b w (m j : list byte) : VerifiedCheckpointParts :=
  {| parts_binding := b;
     parts_journal := (metadata_end (layout_of m j), authenticated_len (layout_of m j));
     parts_artifact_sha256 := sha256_hex (envelope c m j);
     parts_worker_build_sha256 := w |}.

(** An artifact that the codec's key authenticates for the binding [b]. *)
Definition Authentic c b w m j : Prop :=
  binding_validate b = Ok tt ∧ Hex64 w ∧ EnvelopeBounds c m j ∧
  from_slice m = Ok (metadata_current b w j) ∧ scan_journal j = Ok tt.

Lemma verify_parts_complete c b w m j :
  Authentic c b w m j → verify_parts c b (envelope c m j) = Ok (parts_of c b w m j).
Proof.
  intros (Hb & Hw & Hbounds & Hfrom & Hscan).
  pose proof (envelope_split c m j) as (Hhead & Hmeta & Hjour & Hbody & Htag).
  pose proof Hbounds as (Hm & Hj & Hmax).
  unfold verify_parts, validate_limit.
  destruct (Z.eqb_spec (max_journal_bytes c) 0); [lia|]. cbn [reject_if mbind result_bind].
  rewrite Hb. cbn [mbind result_bind].
  assert (0 ≤ CHECKPOINT_TAG_BYTES) by done.
  rewrite (proj2 (maximum_artifact_bytes_Ok c
    (CHECKPOINT_HEADER_BYTES + MAX_CHECKPOINT_METADATA_BYTES + max_journal_bytes c
       + CHECKPOINT_TAG_BYTES))) by (split_and!; [done|lia..]).
  cbn [mbind result_bind]. rewrite blen_envelope, Hhead, validate_header_complete by done.
  destruct (Z.ltb_spec (CHECKPOINT_HEADER_BYTES + MAX_CHECKPOINT_METADATA_BYTES
    + max_journal_bytes c + CHECKPOINT_TAG_BYTES) (artifact_len (layout_of m j)));
    [cbn [layout_of artifact_len] in *; lia|].
  cbn [reject_if mbind result_bind].
  destruct (Z.ltb_spec (artifact_len (layout_of m j)) (CHECKPOINT_HEADER_BYTES + CHECKPOINT_TAG_BYTES));
    [cbn [layout_of artifact_len] in *; lia|].
  cbn [reject_if mbind result_bind]. rewrite Z.eqb_refl. cbn [negb reject_if mbind result_bind].
  rewrite Hbody, Htag, authentication_tag_eq. cbn [mbind result_bind].
  unfold mac_verify_slice, mac_finalize. rewrite bool_decide_eq_true_2 by done.
  cbn [negb reject_if mbind result_bind]. rewrite Hmeta, Hfrom. cbn [map_err mbind result_bind].
  rewrite metadata_current_validate by done. cbn [mbind result_bind].
  rewrite Hjour. rewrite bool_decide_eq_true_2 by done. cbn [negb reject_if mbind result_bind].
  by rewrite Hscan.
Qed.

(** Everything the verifier accepts is such an artifact. *)
Lemma verify_parts_sound c b art p :
  verify_parts c b art = Ok p →
  ∃ w m j, art = envelope c m j ∧ Authentic c b w m j ∧ p = parts_of c b w m j.
Proof.
  unfold verify_parts, validate_limit. intros Hok. result_inv.
  rewrite authentication_tag_eq in *. result_inv. rewrite maximum_artifact_bytes_Ok in *.
  destruct_and?. subst. bool_inv. destruct_all unit.
  match goal with
  | Hh : validate_header c _ = Ok ?lay, Hl : blen art = _ |- _ =>
      rename lay into layout; rename Hl into Hlen;
      apply validate_header_inv in Hh as (ml & jl & Hhd & Hml & Hjl & Hme & Hal & Hart);
      [|rewrite blen_slice; unfold CHECKPOINT_HEADER_BYTES, CHECKPOINT_TAG_BYTES in *; lia]
  end.
  match goal with Hf : from_slice _ = Ok ?md |- _ => rename md into meta; rename Hf into Hfrom end.
  set (m := slice art CHECKPOINT_HEADER_BYTES (metadata_end layout)) in *.
  set (j := slice art (metadata_end layout) (authenticated_len layout)) in *.
  assert (0 < CHECKPOINT_HEADER_BYTES ∧ 0 < CHECKPOINT_TAG_BYTES) as [] by done.
  assert (blen m = ml) as Hm by (unfold m; rewrite blen_slice; lia).
  assert (blen j = jl) as Hj by (unfold j; rewrite blen_slice; lia).
  assert (slice art 0 (authenticated_len layout) = envelope_body m j) as Hbody.
  { rewrite (slice_split art 0 CHECKPOINT_HEADER_BYTES),
      (slice_split art CHECKPOINT_HEADER_BYTES (metadata_end layout)) by lia.
    unfold envelope_body, envelope_header. rewrite Hm, Hj, <- Hhd. done. }
  assert (art = envelope c m j) as Heq.
  { rewrite <- (slice_full art) at 1.
    rewrite (slice_split art 0 (authenticated_len layout)) by lia.
    unfold envelope. rewrite Hbody. f_equal.
    match goal with Hv : mac_verify_slice _ _ = true |- _ =>
      apply bool_decide_eq_true in Hv; rewrite Hv; unfold mac_finalize; cbn; by rewrite Hbody end. }
  match goal with Hv : metadata_validate _ _ = Ok tt |- _ =>
    apply metadata_validate_Ok in Hv as (_ & _ & Hw & Hmeta) end.
  exists (md_worker_build_sha256 meta), m, j. split_and!; [done|split_and!|]; try done.
  - unfold EnvelopeBounds. lia.
  - rewrite Hfrom, Hmeta. unfold metadata_current. do 2 f_equal. done.
  - unfold parts_of. rewrite <- Heq. unfold layout_of. cbn.
    rewrite Hm, Hj, Hme, Hal. by rewrite Hmeta.
Qed.

(** *** Sealing produces exactly that artifact *)

Definition prepared_of (m j : list byte) : PreparedCheckpoint :=
  {| prepared_header := envelope_header m j; prepared_metadata := m; prepared_journal := j;
     prepared_artifact_len := artifact_len (layout_of m j) |}.

Lemma write_prepared_vec c m j :
  write_prepared_checkpoint c (prepared_of m j) ([] : list byte) = (envelope c m j, Ok tt).
Proof.
  unfold write_prepared_checkpoint, authentication_state, mac_new. rewrite hmac_any_key.
  unfold write_authenticated_chunk, write_all, vec_write. cbn [ok_or mbind result_bind map_err io_bind].
  unfold mac_finalize, mac_update, envelope, envelope_body.
  cbn [mac_key mac_data app prepared_of prepared_header prepared_metadata prepared_journal].
  by rewrite <- !app_assoc.
Qed.

Lemma prepare_seal_inv c b cap p :
  prepare_seal c b cap = Ok p →
  ∃ pieces,
    json_writes (metadata_current b (captured_worker_build_sha256 cap) (captured_bytes cap))
      = (pieces, None) ∧
    binding_validate b = Ok tt ∧ b = captured_binding cap ∧ explicit_snapshot cap = true ∧
    scan_journal (captured_bytes cap) = Ok tt ∧
    1 ≤ blen (mjoin pieces) ≤ MAX_CHECKPOINT_METADATA_BYTES ∧
    1 ≤ blen (captured_bytes cap) ≤ max_journal_bytes c ∧
    p = prepared_of (mjoin pieces) (captured_bytes cap).
Proof.
  unfold prepare_seal, validate_limit, validate_journal_length. intros Hok.
  result_inv. destruct (to_writer _ _) as [v enc] eqn:Hw. result_inv. destruct_all unit.
  unfold to_writer in Hw.
  destruct (json_writes _) as [pieces failure] eqn:Hjs.
  destruct (write_pieces (fbv_new MAX_CHECKPOINT_METADATA_BYTES) pieces) as [v' [[]|e]] eqn:Hp;
    cbn [io_bind] in Hw; [|done].
  destruct failure; [done|]. simplify_eq.
  apply write_pieces_fbv_Ok in Hp as (Hv & _ & Hle). cbn in Hv.
  match goal with Hc : _ ≫= _ = Some _ |- _ =>
    rewrite bind_Some in Hc; destruct Hc as (? & Hc1 & Hc);
    rewrite bind_Some in Hc; destruct Hc as (? & Hc2 & Hc);
    rewrite checked_add_Some in Hc, Hc1, Hc2 end.
  bool_inv. exists pieces. pose proof (blen_nonneg (captured_bytes cap)).
  pose proof (blen_nonneg (mjoin pieces)). rewrite Hv in *.
  split_and!; try done; try lia. destruct_and?. subst. done.
Qed.

Lemma seal_bound_capture_inv c b cap art :
  seal_bound_capture c b cap = Ok art →
  ∃ m, (∃ pieces, m = mjoin pieces ∧
         json_writes (metadata_current b (captured_worker_build_sha256 cap) (captured_bytes cap))
           = (pieces, None)) ∧
    binding_validate b = Ok tt ∧ b = captured_binding cap ∧ explicit_snapshot cap = true ∧
    scan_journal (captured_bytes cap) = Ok tt ∧
    1 ≤ blen m ≤ MAX_CHECKPOINT_METADATA_BYTES ∧
    1 ≤ blen (captured_bytes cap) ≤ max_journal_bytes c ∧
    art = envelope c m (captured_bytes cap).
Proof.
  unfold seal_bound_capture. intros (p & Hp & Hok)%bind_Ok.
  apply prepare_seal_inv in Hp as (pieces & Hjs & Hb & Hcb & He & Hs & Hm & Hj & ->).
  apply bind_Ok in Hok as (u & _ & Hok). rewrite write_prepared_vec in Hok.
  exists (mjoin pieces). split_and!; eauto; try lia.
  change (Ok (E := Error) (envelope c (mjoin pieces) (captured_bytes cap)) = Ok art) in Hok.
  congruence.
Qed.

Lemma prepare_seal_complete c cap m pieces :
  let b := captured_binding cap in
  let md := metadata_current b (captured_worker_build_sha256 cap) (captured_bytes cap) in
  (∀ n, try_reserve_exact n = Ok tt) →
  binding_validate b = Ok tt → explicit_snapshot cap = true →
  scan_journal (captured_bytes cap) = Ok tt →
  json_writes md = (pieces, None) → m = mjoin pieces →
  EnvelopeBounds c m (captured_bytes cap) →
  prepare_seal c b cap = Ok (prepared_of m (captured_bytes cap)).
Proof.
  intros b md Hal Hb He Hs Hjs -> (Hm & Hj & Hmax).
  unfold prepare_seal, validate_limit, validate_journal_length.
  destruct (Z.eqb_spec (max_journal_bytes c) 0); [lia|]. cbn [reject_if mbind result_bind].
  rewrite Hb, He. cbn [mbind result_bind]. rewrite bool_decide_eq_true_2 by done.
  cbn [negb orb reject_if mbind result_bind].
  destruct (Z.eqb_spec (blen (captured_bytes cap)) 0); [lia|]. cbn [reject_if mbind result_bind].
  destruct (Z.ltb_spec (max_journal_bytes c) (blen (captured_bytes cap))); [lia|].
  cbn [reject_if mbind result_bind]. rewrite Hs. cbn [mbind result_bind].
  unfold to_writer. fold md. rewrite Hjs.
  rewrite write_pieces_fbv_fits; [|done|done|cbn; unfold blen at 1; cbn; lia].
  cbn [io_bind map_err mbind result_bind fbv_bytes fbv_new app].
  destruct (Z.eqb_spec (blen (mjoin pieces)) 0); [lia|].
  destruct (Z.ltb_spec MAX_CHECKPOINT_METADATA_BYTES (blen (mjoin pieces))); [lia|].
  cbn [orb reject_if mbind result_bind]. unfold checked_add.
  unfold MAX_CHECKPOINT_METADATA_BYTES, CHECKPOINT_HEADER_BYTES, CHECKPOINT_TAG_BYTES, usize_max in *.
  repeat (match goal with
    | |- context [?a <=? ?b] => destruct (Z.leb_spec a b); [|lia]
    end; cbn [mbind option_bind ok_or result_bind]).
  unfold u32_max, u64_max.
  repeat (match goal with
    | |- context [?a <? ?b] => destruct (Z.ltb_spec a b); [lia|]
    end; cbn [reject_if mbind result_bind]). done.
Qed.

(** C1: the verifier accepts exactly the authentic artifacts: a header with
    the magic, version and lengths within the limits, metadata that decodes to
    the current identity of the expected binding with the journal's digest, a
    well-formed journal, and the key's HMAC over domain, header, metadata and
    journal. *)
Theorem verify_parts_iff c b art p :
  verify_parts c b art = Ok p ↔
  ∃ w m j, art = envelope c m j ∧ Authentic c b w m j ∧ p = parts_of c b w m j.
Proof.
  split; [apply verify_parts_sound|]. intros (w & m & j & -> & Ha & ->).
  by apply verify_parts_complete.
Qed.

(** An artifact whose framing is acceptable but whose tag is not the
    key's HMAC is rejected as unauthenticated, whatever its metadata would
    decode to: authentication precedes parsing. *)
Theorem verify_parts_unauthenticated c b h body tag l :
  validate_limit c = Ok tt → binding_validate b = Ok tt →
  CHECKPOINT_HEADER_BYTES + MAX_CHECKPOINT_METADATA_BYTES + max_journal_bytes c
    + CHECKPOINT_TAG_BYTES ≤ usize_max →
  blen h = CHECKPOINT_HEADER_BYTES → validate_header c h = Ok l →
  blen (h ++ body) = authenticated_len l → blen tag = CHECKPOINT_TAG_BYTES →
  tag ≠ hmac_sha256 (authentication_key c) (CHECKPOINT_DOMAIN ++ h ++ body) →
  ∀ decoder : Json CheckpointMetadata,
  verify_parts (JM := decoder) c b (h ++ body ++ tag) =
    Err (Checkpoint "checkpoint authentication failed").
Proof.
  intros Hlim Hb Hmax Hh Hl Hlen Htag Hne decoder.
  pose proof (validate_header_inv _ _ _ Hh Hl) as (ml & jl & _ & Hml & Hjl & _ & Hal & Hart).
  assert (0 < CHECKPOINT_HEADER_BYTES ∧ 0 < CHECKPOINT_TAG_BYTES) as [] by done.
  assert (blen (h ++ body ++ tag) = artifact_len l) as Hlen'.
  { rewrite app_assoc, blen_app. lia. }
  unfold verify_parts. rewrite Hlim, Hb. cbn [mbind result_bind].
  rewrite (proj2 (maximum_artifact_bytes_Ok c
    (CHECKPOINT_HEADER_BYTES + MAX_CHECKPOINT_METADATA_BYTES + max_journal_bytes c
       + CHECKPOINT_TAG_BYTES))) by (split_and!; [done|lia..]).
  cbn [mbind result_bind]. rewrite slice_0_app, Hl, Hlen' by done.
  rewrite (proj2 (Z.ltb_ge _ (artifact_len l))) by lia. cbn [reject_if mbind result_bind].
  rewrite (proj2 (Z.ltb_ge (artifact_len l) _)) by lia. cbn [reject_if mbind result_bind].
  rewrite Z.eqb_refl. cbn [negb reject_if mbind result_bind].
  rewrite app_assoc, (slice_0_app (h ++ body)) by lia.
  rewrite (slice_app_end (h ++ body) tag (authenticated_len l) (artifact_len l)) by lia.
  rewrite authentication_tag_eq. cbn [mbind result_bind].
  unfold mac_verify_slice, mac_finalize. cbn [mac_key mac_data].
  by rewrite bool_decide_eq_false_2.
Qed.

Section json_laws.
Context `{!JsonLaws JM} `{!JsonWriterLaws JM JW}.

Lemma pieces_decode md pieces :
  json_writes md = (pieces, None) → from_slice (mjoin pieces) = Ok md.
Proof. intros Hjs. apply from_to. rewrite json_writes_to_vec. by rewrite Hjs. Qed.

Lemma sealed_authentic c b w bytes cap art :
  from_attested_worker_capture bytes b w = Ok cap → seal_capture c cap = Ok art →
  CHECKPOINT_HEADER_BYTES + MAX_CHECKPOINT_METADATA_BYTES + max_journal_bytes c
    + CHECKPOINT_TAG_BYTES ≤ usize_max →
  ∃ m, art = envelope c m bytes ∧ Authentic c b w m bytes.
Proof.
  unfold from_attested_worker_capture, seal_capture. intros Hcap Hseal Hmax. result_inv.
  destruct_all unit. cbn in *.
  apply seal_bound_capture_inv in Hseal as (m & (pieces & -> & Hjs) & Hb & _ & _ & Hs & Hm & Hj & ->).
  cbn in *. exists (mjoin pieces). split; [done|]. split_and!; try done; try lia.
  - match goal with Hv : validate_sha256 _ _ = Ok _ |- _ => unfold validate_sha256 in Hv;
      apply reject_if_Ok in Hv; bool_inv; split; [done|by apply str_all_Forall] end.
  - by apply pieces_decode.
Qed.

(** The largest artifact of a codec has an addressable length. *)
Definition Addressable c : Prop :=
  CHECKPOINT_HEADER_BYTES + MAX_CHECKPOINT_METADATA_BYTES + max_journal_bytes c + CHECKPOINT_TAG_BYTES ≤ usize_max.
Lemma verify_parts_unaddressable c b art :
  validate_limit c = Ok tt → binding_validate b = Ok tt → ¬ Addressable c → verify_parts c b art = Err length_overflow.
Proof.
  intros Hl Hb Ha. unfold verify_parts. rewrite Hl, Hb. cbn [mbind result_bind].
  destruct (maximum_artifact_bytes c) as [n|e] eqn:Hm.
  - apply maximum_artifact_bytes_Ok in Hm as (-> & _ & ?). done.
  - unfold maximum_artifact_bytes in Hm. by destruct (_ ≫= _); simplify_eq/=.
Qed.
Lemma sealed_limits c b w bytes cap art :
  from_attested_worker_capture bytes b w = Ok cap → seal_capture c cap = Ok art →
  validate_limit c = Ok tt ∧ binding_validate b = Ok tt.
Proof.
  unfold from_attested_worker_capture, seal_capture. intros Hcap Hseal. result_inv. destruct_all unit. cbn in *.
  apply seal_bound_capture_inv in Hseal as (m & _ & Hb & _ & _ & _ & _ & Hj & _). split; [|done].
  unfold validate_limit. by rewrite (proj2 (Z.eqb_neq _ _)) by lia.
Qed.

(** C10: an artifact sealed from an attested capture verifies under the same
    codec and binding and gives back the exact journal, binding and worker
    digest: both as a borrowed view and, when the copy can be allocated, as
    an owned checkpoint.  This holds for every codec whose journal limit leaves
    the largest artifact addressable; with a larger limit, which configuration
    and sealing accept, neither verifies anything: both report that the length
    overflows. *)
Theorem seal_open_roundtrip c b w bytes cap art :
  from_attested_worker_capture bytes b w = Ok cap → seal_capture c cap = Ok art →
  (Addressable c →
   verify c b art = Ok {| view_binding := b; view_journal := bytes;
                          view_artifact_sha256 := sha256_hex art;
                          view_worker_build_sha256 := w |} ∧
   (try_reserve_exact (blen bytes) = Ok tt →
    open c b art = Ok {| verified_binding := b; verified_bytes := bytes;
                         verified_range := (0, blen bytes);
                         verified_artifact_sha256 := sha256_hex art;
                         verified_worker_build_sha256 := w |}))
  ∧ (¬ Addressable c → verify c b art = Err length_overflow ∧ open c b art = Err length_overflow).
Proof.
  intros Hcap Hseal. split.
  - intros Hmax. destruct (sealed_authentic _ _ _ _ _ _ Hcap Hseal Hmax) as (m & -> & Ha).
    pose proof (envelope_split c m bytes) as (_ & _ & Hj & _).
    split; [|intros Hal]; [unfold verify|unfold open];
      rewrite (verify_parts_complete c b w m bytes Ha); cbn [mbind result_bind];
      unfold parts_of; cbn [parts_journal fst snd]; rewrite Hj; [done|].
    rewrite Hal. done.
  - intros Hmax. destruct (sealed_limits _ _ _ _ _ _ Hcap Hseal) as [Hl Hb].
    unfold verify, open. by rewrite (verify_parts_unaddressable c b art Hl Hb Hmax).
Qed.

(** Sealing an attested capture succeeds whenever the journal is within
    the codec's limit, the metadata encodes within 16 KiB and memory can be
    allocated; the result is the artifact determined by key, metadata and
    journal, and the streaming form writes the same bytes and returns their
    count. *)
Theorem seal_capture_succeeds c b w bytes cap m :
  from_attested_worker_capture bytes b w = Ok cap →
  to_vec (metadata_current b w bytes) = Ok m →
  EnvelopeBounds c m bytes → (∀ n, try_reserve_exact n = Ok tt) →
  seal_capture c cap = Ok (envelope c m bytes) ∧
  seal c b cap = Ok (envelope c m bytes) ∧
  seal_into c b cap ([] : list byte) = (envelope c m bytes, Ok (blen (envelope c m bytes))).
Proof.
  unfold from_attested_worker_capture. intros Hcap Hto Hbounds Hal. result_inv. destruct_all unit.
  rewrite json_writes_to_vec in Hto.
  destruct (json_writes _) as [pieces []] eqn:Hjs; [done|]. injection Hto as Hto.
  set (cap := Build_CapturedWasixJournal bytes b w true).
  assert (prepare_seal c b cap = Ok (prepared_of m bytes)) as Hp
    by (by apply (prepare_seal_complete c cap m pieces)).
  assert (seal_bound_capture c b cap = Ok (envelope c m bytes)) as Hs.
  { unfold seal_bound_capture. rewrite Hp. cbn [mbind result_bind]. rewrite Hal.
    cbn [map_err mbind result_bind]. by rewrite write_prepared_vec. }
  split_and!; [done| |].
  - unfold seal. match goal with Hb : binding_validate b = Ok tt |- _ => rewrite Hb end.
    cbn [mbind result_bind]. by rewrite bool_decide_eq_true_2.
  - unfold seal_into. match goal with Hb : binding_validate b = Ok tt |- _ => rewrite Hb end.
    cbn [mbind result_bind]. rewrite bool_decide_eq_true_2 by done. cbn [negb reject_if].
    unfold seal_bound_capture_into. rewrite Hp, write_prepared_vec. cbn [io_bind].
    by rewrite blen_envelope.
Qed.
End json_laws.

(** *** Streams *)

Lemma trailing_reliable r :
  reliable r →
  read_checkpoint_trailing_byte r = Ok (if bool_decide (reader_bytes r = []) then 0 else 1).
Proof.
  induction 1 as [|e r He Hr IH]; [done|]. rewrite reader_bytes_cons.
  destruct e as [l| |m]; cbn [event_ok event_bytes] in *; [|done|done].
  destruct l as [|x l]; [done|]. rewrite bool_decide_eq_false_2 by done.
  cbn [read_checkpoint_trailing_byte read].
  destruct (Z.ltb_spec 1 (blen (x :: l))) as [Hlt|Hge]; [done|].
  f_equal. rewrite blen_cons in *. blen_lia.
Qed.

(** The exact prefix of a reliable stream; a stream that is too short is
    truncated. *)
Lemma read_checkpoint_exact_Ok r n phase b r' :
  reliable r → 0 ≤ n → read_checkpoint_exact r n phase = Ok (b, r') →
  reliable r' ∧ blen b = n ∧ reader_bytes r = b ++ reader_bytes r'.
Proof.
  intros Hr Hn Hok. unfold read_checkpoint_exact in Hok. result_inv.
  destruct (decide (n ≤ blen (reader_bytes r))) as [Hle|Hgt].
  - destruct (read_exact_reliable r n Hr ltac:(lia)) as (r2 & Hre & Hr2 & Hb).
    rewrite Hre in *. simplify_eq. split_and!; [done| |].
    + unfold blen in *. rewrite length_take. lia.
    + by rewrite Hb, take_drop.
  - rewrite read_exact_short in * by (done || lia). done.
Qed.

Lemma read_checkpoint_exact_fits r b k phase :
  reliable r → reader_bytes r = b ++ k →
  ∃ r', read_checkpoint_exact r (blen b) phase = Ok (b, r') ∧ reliable r' ∧ reader_bytes r' = k.
Proof.
  intros Hr Hb. destruct (read_exact_reliable r (blen b) Hr) as (r' & Hre & Hr' & Hb').
  { rewrite Hb. blen_lia. }
  exists r'. unfold read_checkpoint_exact. rewrite Hre.
  unfold blen in *. rewrite Nat2Z.id in *. rewrite Hb in *.
  rewrite take_app_length. split_and!; [done|done|]. by rewrite Hb', drop_app_length.
Qed.

(** What a caller sees of a verified checkpoint. *)
Definition summary (v : VerifiedWasixCheckpoint) :=
  (verified_binding v, verified_journal v, verified_artifact_sha256 v,
   verified_worker_build_sha256 v).

Lemma open_reader_sound c b r v :
  reliable r → open_reader c b r = Ok v →
  ∃ w m j, reader_bytes r = envelope c m j ∧ Authentic c b w m j ∧
    summary v = (b, j, sha256_hex (envelope c m j), w) ∧
    verified_bytes v = envelope c m j ∧
    verified_range v = (metadata_end (layout_of m j), authenticated_len (layout_of m j)).
Proof.
  intros Hr. unfold open_reader. intros Hok. result_inv.
  match goal with p : list byte * reader |- _ => destruct p as [h r1] end.
  result_inv. match goal with p : list byte * reader |- _ => destruct p as [body r2] end.
  result_inv. destruct_all unit.
  match goal with Hh : read_checkpoint_exact _ _ _ = Ok (h, r1) |- _ =>
    apply read_checkpoint_exact_Ok in Hh as (Hr1 & Hlh & Hb1); [|done..] end.
  match goal with Hv : validate_header _ _ = Ok ?lay |- _ => rename lay into layout;
    apply validate_header_inv in Hv as (ml & jl & _ & Hml & Hjl & _ & _ & Hart); [|done] end.
  match goal with Hh : read_checkpoint_exact _ _ _ = Ok (body, r2) |- _ =>
    apply read_checkpoint_exact_Ok in Hh as (Hr2 & Hlb & Hb2);
    [|done|unfold CHECKPOINT_TAG_BYTES in *; lia] end.
  rewrite trailing_reliable in * by done. result_inv. bool_inv.
  case_bool_decide as Hnil; [|done]. rewrite Hnil, app_nil_r in Hb2. rewrite Hb2 in Hb1.
  match goal with Hv : verify_parts _ _ _ = Ok _ |- _ =>
    apply verify_parts_sound in Hv as (w & m & j & Heq & Ha & ->) end.
  pose proof (envelope_split c m j) as (_ & _ & Hj & _).
  exists w, m, j. unfold summary, verified_journal. cbn [verified_range verified_bytes parts_of
    parts_journal verified_binding verified_artifact_sha256 verified_worker_build_sha256
    parts_binding parts_artifact_sha256 parts_worker_build_sha256 fst snd].
  rewrite Heq. rewrite Hj. split_and!; [congruence|done..].
Qed.

Lemma open_reader_complete c b w m j r :
  (∀ n, try_reserve_exact n = Ok tt) →
  reliable r → reader_bytes r = envelope c m j → Authentic c b w m j →
  ∃ v, open_reader c b r = Ok v ∧ summary v = (b, j, sha256_hex (envelope c m j), w).
Proof.
  intros Hal Hr Heq Ha. pose proof Ha as (Hb & _ & Hbounds & _). pose proof Hbounds as (Hm & Hj & Hmax).
  assert (0 ≤ CHECKPOINT_TAG_BYTES) by done.
  pose proof (envelope_split c m j) as (_ & _ & Hjs & _).
  set (tag := hmac_sha256 (authentication_key c) (CHECKPOINT_DOMAIN ++ envelope_body m j)).
  assert (envelope c m j = envelope_header m j ++ (m ++ j ++ tag)) as Henv.
  { unfold envelope. fold tag. unfold envelope_body. by rewrite <- !app_assoc. }
  destruct (read_checkpoint_exact_fits r (envelope_header m j) (m ++ j ++ tag) "header")
    as (r1 & Hre1 & Hr1 & Hb1); [done|congruence|].
  destruct (read_checkpoint_exact_fits r1 (m ++ j ++ tag) [] "body")
    as (r2 & Hre2 & Hr2 & Hb2); [done|by rewrite app_nil_r|].
  eexists. split.
  - unfold open_reader, validate_limit. rewrite (proj2 (Z.eqb_neq _ _)) by lia.
    cbn [reject_if mbind result_bind]. rewrite Hb. cbn [mbind result_bind].
    rewrite (proj2 (maximum_artifact_bytes_Ok c
      (CHECKPOINT_HEADER_BYTES + MAX_CHECKPOINT_METADATA_BYTES + max_journal_bytes c
         + CHECKPOINT_TAG_BYTES))) by (split_and!; [done|lia..]).
    cbn [mbind result_bind]. rewrite blen_header in Hre1. rewrite Hre1. cbn [mbind result_bind].
    rewrite validate_header_complete by done. cbn [mbind result_bind]. rewrite Hal.
    cbn [map_err mbind result_bind].
    replace (artifact_len (layout_of m j) - CHECKPOINT_HEADER_BYTES) with (blen (m ++ j ++ tag)).
    2: { rewrite !blen_app. unfold tag. rewrite blen_hmac. cbn [layout_of artifact_len].
         unfold CHECKPOINT_TAG_BYTES. lia. }
    rewrite Hre2. cbn [mbind result_bind]. rewrite trailing_reliable, Hb2 by done.
    rewrite bool_decide_eq_true_2 by done. cbn [mbind result_bind Z.eqb negb reject_if].
    rewrite <- Henv, (verify_parts_complete c b w m j Ha). cbn [mbind result_bind]. done.
  - unfold summary, verified_journal. cbn [verified_range verified_bytes parts_of
      parts_journal verified_binding verified_artifact_sha256 verified_worker_build_sha256
      parts_binding parts_artifact_sha256 parts_worker_build_sha256 fst snd]. by rewrite Hjs.
Qed.

Lemma open_authentic c b w m j :
  try_reserve_exact (blen j) = Ok tt → Authentic c b w m j →
  open c b (envelope c m j) =
  Ok {| verified_binding := b; verified_bytes := j; verified_range := (0, blen j);
        verified_artifact_sha256 := sha256_hex (envelope c m j);
        verified_worker_build_sha256 := w |}.
Proof.
  intros Hal Ha. pose proof (envelope_split c m j) as (_ & _ & Hj & _).
  unfold open. rewrite (verify_parts_complete c b w m j Ha). cbn [mbind result_bind].
  unfold parts_of. cbn [parts_journal fst snd]. rewrite Hj, Hal. done.
Qed.

Lemma open_sound c b art v :
  open c b art = Ok v →
  ∃ w m j, art = envelope c m j ∧ Authentic c b w m j ∧
    v = {| verified_binding := b; verified_bytes := j; verified_range := (0, blen j);
           verified_artifact_sha256 := sha256_hex art; verified_worker_build_sha256 := w |}.
Proof.
  unfold open. intros (p & Hp & Hok)%bind_Ok.
  apply verify_parts_sound in Hp as (w & m & j & -> & Ha & ->).
  pose proof (envelope_split c m j) as (_ & _ & Hj & _).
  apply bind_Ok in Hok as (u & _ & Hok). unfold parts_of in Hok. cbn [parts_journal fst snd] in Hok.
  rewrite Hj in Hok. exists w, m, j. split_and!; [done|done|].
  cbn [parts_binding parts_artifact_sha256 parts_worker_build_sha256] in Hok. congruence.
Qed.

Lemma summary_whole b j sha w :
  summary {| verified_binding := b; verified_bytes := j; verified_range := (0, blen j);
             verified_artifact_sha256 := sha; verified_worker_build_sha256 := w |} =
  (b, j, sha, w).
Proof. unfold summary, verified_journal. cbn. by rewrite slice_full. Qed.

(** C26: reading a checkpoint from a stream and opening it from memory accept
    the same artifacts and expose the same binding, journal and digests,
    however the stream splits its bytes and wherever it is interrupted. *)
Theorem open_reader_agrees c b r :
  (∀ n, try_reserve_exact n = Ok tt) → reliable r →
  summary <$> ok (open_reader c b r) = summary <$> ok (open c b (reader_bytes r)).
Proof.
  intros Hal Hr. destruct (open_reader c b r) as [v|e] eqn:Hor.
  - apply open_reader_sound in Hor as (w & m & j & Heq & Ha & Hs & _); [|done].
    rewrite Heq, (open_authentic c b w m j) by done. cbn [ok fmap option_fmap option_map].
    by rewrite Hs, summary_whole.
  - destruct (open c b (reader_bytes r)) as [v|] eqn:Ho; [|done].
    apply open_sound in Ho as (w & m & j & Heq & Ha & ->).
    destruct (open_reader_complete c b w m j r) as (v & Hv & _); [done..|congruence].
Qed.

Lemma into_parts_journal v :
  0 ≤ (verified_range v).1 ≤ (verified_range v).2 → (verified_range v).2 ≤ blen (verified_bytes v) →
  into_parts v = (verified_journal v, verified_worker_build_sha256 v).
Proof.
  intros Ha Hb. unfold into_parts, verified_journal, copy_within_front.
  destruct (Z.eqb_spec (verified_range v).1 0) as [Hz|Hz]; cbn [negb].
  - unfold slice. rewrite Hz. cbn [Z.to_nat]. by rewrite drop_0.
  - f_equal. apply take_app_length'.
    pose proof (blen_slice (verified_bytes v) _ _ Ha Hb). unfold blen in *. lia.
Qed.

(** The bytes a verified checkpoint hands to the restore path are the
    authenticated journal and nothing else of the buffer, whether it was
    opened from memory or from a stream. *)
Theorem into_parts_exact c b r art v :
  reliable r → (open_reader c b r = Ok v ∨ open c b art = Ok v) →
  into_parts v = (verified_journal v, verified_worker_build_sha256 v) ∧
  scan_journal (verified_journal v) = Ok tt.
Proof.
  intros Hr [Hv|Hv].
  - apply open_reader_sound in Hv as (w & m & j & _ & Ha & Hs & Hb & Hrg); [|done].
    destruct Ha as (_ & _ & (Hm & Hj & _) & _ & Hscan).
    assert (verified_journal v = j) as Hvj by (unfold summary in Hs; congruence).
    split; [|by rewrite Hvj]. apply into_parts_journal.
    + rewrite Hrg. cbn. unfold CHECKPOINT_HEADER_BYTES. lia.
    + rewrite Hrg, Hb, blen_envelope. cbn. unfold CHECKPOINT_TAG_BYTES. lia.
  - apply open_sound in Hv as (w & m & j & _ & Ha & ->).
    destruct Ha as (_ & _ & (Hm & Hj & _) & _ & Hscan).
    split; [|unfold verified_journal; cbn; by rewrite slice_full].
    apply into_parts_journal; cbn; lia.
Qed.
End envelope.

(** ** A concrete checkpoint *)
Module CheckpointExample.
Import Toy.

#[export] Instance build_info : BuildInfo :=
  {| cargo_pkg_version := "0.1.0"; build_target := "x86_64-unknown-linux-gnu" |}.
#[export] Instance allocator : Allocator := infallible_allocator.

Definition enc (m : CheckpointMetadata) : list (list string) :=
  let b := md_binding m in
  [[binding_environment_id b; binding_module_sha256 b; binding_command b;
    binding_instance_id b; of_z (binding_generation b);
    md_runtime_version m; of_z (md_worker_protocol_version m); md_cohort_id m;
    md_worker_build_sha256 m; md_engine_profile m; md_platform m; md_journal_format m;
    md_execution_abi m; md_isolation_policy m; md_snapshot_trigger m; md_journal_sha256 m]].
Definition dec (l : list (list string)) : option CheckpointMetadata :=
  match l with
  | [[e; mo; co; i; g; rv; wp; ci; wb; ep; pl; jf; ea; ip; st; js]] =>
      Some {| md_binding := {| binding_environment_id := e; binding_module_sha256 := mo;
                binding_command := co; binding_instance_id := i; binding_generation := to_z g |};
              md_runtime_version := rv; md_worker_protocol_version := to_z wp;
              md_cohort_id := ci; md_worker_build_sha256 := wb; md_engine_profile := ep;
              md_platform := pl; md_journal_format := jf; md_execution_abi := ea;
              md_isolation_policy := ip; md_snapshot_trigger := st; md_journal_sha256 := js |}
  | _ => None
  end.
#[export] Instance metadata_json : Json CheckpointMetadata := json enc dec.
#[export] Instance metadata_json_laws : JsonLaws metadata_json.
Proof.
  apply json_laws. intros [[] ? ? ? ? ? ? ? ? ? ? ?]. cbn -[of_z to_z]. by rewrite !to_of_z.
Qed.
(** The writer emits the text in pieces of at most 100 bytes. *)
Fixpoint pieces_of (fuel : nat) (l : list byte) : list (list byte) :=
  match fuel, l with
  | O, _ => [l]
  | _, [] => []
  | S f, _ => take 100 l :: pieces_of f (drop 100 l)
  end.
#[export] Instance metadata_writer : JsonWriter CheckpointMetadata := λ m,
  match to_vec m with
  | Ok b => (pieces_of (length b) b, None)
  | Err e => ([], Some e)
  end.
Lemma join_pieces f l : mjoin (pieces_of f l) = l.
Proof.
  revert l. induction f as [|f IH]; intros [|x l]; try done; [by cbn; rewrite app_nil_r|].
  change (mjoin (pieces_of (S f) (x :: l)))
    with (take 100 (x :: l) ++ mjoin (pieces_of f (drop 100 (x :: l)))).
  by rewrite IH, take_drop.
Qed.
#[export] Instance metadata_writer_laws : JsonWriterLaws metadata_json metadata_writer.
Proof.
  split. intros a. unfold json_writes, metadata_writer. destruct (to_vec a) as [b|e]; [|done].
  by rewrite join_pieces.
Qed.

Definition digest : string := "00112233445566778899aabbccddeeff00112233445566778899aabbccddeeff".
Definition binding : WasixCheckpointBinding :=
  {| binding_environment_id := "sha256:" +:+ digest; binding_module_sha256 := digest;
     binding_command := "python"; binding_instance_id := "run-7"; binding_generation := 3 |}.
Definition journal : list byte :=
  JOURNAL_MAGIC ++ encode_records
    [(1, str_bytes "module"); (3, str_bytes "thread"); (35, []); (59, str_bytes "snapshot")].
Definition codec : WasixCheckpointCodec :=
  with_max_journal_bytes 4096 (codec_new (str_bytes "0123456789abcdef0123456789abcdef")).
Definition capture : CapturedWasixJournal :=
  {| captured_bytes := journal; captured_binding := binding;
     captured_worker_build_sha256 := digest; explicit_snapshot := true |}.
Definition artifact : list byte :=
  Eval vm_compute in match seal_capture codec capture with Ok a => a | Err _ => [] end.
Definition metadata : list byte :=
  Eval vm_compute in match to_vec (metadata_current binding digest journal) with Ok m => m | Err _ => [] end.
(** The artifact arriving in three pieces with an interruption. *)
Definition stream : reader :=
  [Chunk (take 10 artifact); Interrupted; Chunk (slice artifact 10 300);
   Chunk (drop 300 artifact); Interrupted].

Lemma scan_journal_iff_witness :
  scan_journal journal = Ok tt ∧ WellFormedJournal journal.
Proof.
  split; [by vm_compute|]. apply (scan_journal_iff journal); [by vm_compute|by vm_compute].
Defined.

Lemma verify_parts_iff_witness :
  ∃ w m j, artifact = envelope codec m j ∧ Authentic codec binding w m j ∧
           parts_of codec binding digest metadata journal = parts_of codec binding w m j.
Proof.
  apply (verify_parts_iff codec binding artifact (parts_of codec binding digest metadata journal)).
  vm_compute. reflexivity.
Defined.

Lemma verify_parts_unauthenticated_witness :
  verify_parts (JM := {| to_vec _ := Err "unused"; from_slice _ := Err "unused" |}) codec binding
    (envelope_header metadata journal ++ (metadata ++ journal) ++ be_bytes 32 0) =
    Err (Checkpoint "checkpoint authentication failed").
Proof.
  apply (verify_parts_unauthenticated codec binding (envelope_header metadata journal)
           (metadata ++ journal) (be_bytes 32 0) (layout_of metadata journal)); by vm_compute.
Defined.

(** The same codec with the largest limit [with_max_journal_bytes] takes. *)
Definition unbounded : WasixCheckpointCodec := with_max_journal_bytes usize_max codec.
Lemma seal_open_roundtrip_witness :
  verify codec binding artifact =
    Ok {| view_binding := binding; view_journal := journal;
          view_artifact_sha256 := sha256_hex artifact; view_worker_build_sha256 := digest |}
  ∧ seal_capture unbounded capture = Ok artifact ∧ open unbounded binding artifact = Err length_overflow.
Proof.
  assert (from_attested_worker_capture journal binding digest = Ok capture) as Hc by (vm_compute; reflexivity).
  assert (seal_capture unbounded capture = Ok artifact) as Hs by (vm_compute; reflexivity).
  split; [|split; [exact Hs|]].
  - refine (proj1 (proj1 (seal_open_roundtrip codec binding digest journal capture artifact Hc _) _));
      vm_compute; reflexivity || discriminate.
  - refine (proj2 (proj2 (seal_open_roundtrip unbounded binding digest journal capture artifact Hc Hs) _)).
    unfold Addressable. vm_compute. intros Hx. by apply Hx.
Defined.

Lemma seal_capture_succeeds_witness :
  seal_capture codec capture = Ok (envelope codec metadata journal).
Proof.
  refine (proj1 (seal_capture_succeeds codec binding digest journal capture metadata _ _ _ _)).
  - vm_compute. reflexivity.
  - vm_compute. reflexivity.
  - split_and!; vm_compute; discriminate.
  - reflexivity.
Defined.

Lemma open_reader_agrees_witness :
  reliable stream ∧
  summary <$> ok (open_reader codec binding stream) =
  summary <$> ok (open codec binding (reader_bytes stream)).
Proof.
  assert (reliable stream) as Hs by (repeat constructor; by vm_compute).
  split; [exact Hs|]. apply (open_reader_agrees codec binding stream); [done|exact Hs].
Defined.

Definition streamed : VerifiedWasixCheckpoint :=
  {| verified_binding := binding; verified_bytes := artifact;
     verified_range := (metadata_end (layout_of metadata journal),
                        authenticated_len (layout_of metadata journal));
     verified_artifact_sha256 := sha256_hex artifact; verified_worker_build_sha256 := digest |}.

Lemma into_parts_exact_witness :
  into_parts streamed = (verified_journal streamed, verified_worker_build_sha256 streamed) ∧
  scan_journal (verified_journal streamed) = Ok tt.
Proof.
  apply (into_parts_exact codec binding stream artifact streamed).
  - repeat constructor; by vm_compute.
  - left. vm_compute. reflexivity.
Defined.
End CheckpointExample.
