(* ===== verification/WasixOutput.v ===== *)
(** The bounded output sink of isolated WASIX workers
    ([src/src/wasix_output.rs]).  Clones share one state behind a mutex, so the
    operations of all clones form one sequence of atomic steps on that state. *)
From S2P Require Import Prelude Streams.

Local Open Scope Z_scope.

Record OutputState := {
  output_bytes : list byte;
  limit : Z;
  overflowed : bool;
  closed : bool;
}.

(** I/O errors, and [FsError::Unsupported] of the virtual file interface. *)
Inductive io_error :=
| FsUnsupported
| BrokenPipe
| OutOfMemory (message : string)
| OtherIo (message : string).

Definition output_limit_error (limit : Z) : io_error :=
  OtherIo ("WASIX output exceeded its " +:+ show limit +:+ "-byte capture limit").
Definition output_allocation_error (error : string) : io_error :=
  OutOfMemory ("failed to allocate WASIX output capture: " +:+ error).

Definition set_overflowed (s : OutputState) : OutputState :=
  {| output_bytes := output_bytes s; limit := limit s; overflowed := true; closed := closed s |}.
Definition append_output (s : OutputState) (b : list byte) : OutputState :=
  {| output_bytes := output_bytes s ++ b; limit := limit s;
     overflowed := overflowed s; closed := closed s |}.

Section operations.
Context `{Allocator}.

Definition output_new (limit : Z) : result io_error OutputState :=
  _ ← map_err output_allocation_error (try_reserve_exact limit);
  Ok {| output_bytes := []; limit := limit; overflowed := false; closed := false |}.

Definition finish (s : OutputState) : result io_error (list byte) :=
  _ ← reject_if (overflowed s) (output_limit_error (limit s));
  _ ← map_err output_allocation_error (try_reserve_exact (blen (output_bytes s)));
  Ok (output_bytes s).
End operations.

Definition poll_write (s : OutputState) (buffer : list byte)
    : OutputState * result io_error Z :=
  if bool_decide (buffer = []) then (s, Ok 0)
  else if closed s then (s, Err BrokenPipe)
  else if overflowed s then (s, Err (output_limit_error (limit s)))
  else match checked_add usize_max (blen (output_bytes s)) (blen buffer) with
       | None => (set_overflowed s, Err (output_limit_error (limit s)))
       | Some new_len =>
           if limit s <? new_len
           then (set_overflowed s, Err (output_limit_error (limit s)))
           else (append_output s buffer, Ok (blen buffer))
       end.

(** [buffers.iter().try_fold(0, |total, buffer| total.checked_add(buffer.len()))] *)
Definition total_len (buffers : list (list byte)) : option Z :=
  foldl (λ total buffer, t ← total; checked_add usize_max t (blen buffer)) (Some 0) buffers.

Definition poll_write_vectored (s : OutputState) (buffers : list (list byte))
    : OutputState * result io_error Z :=
  match total_len buffers with
  | None => (set_overflowed s, Err (output_limit_error (limit s)))
  | Some write_len =>
      if write_len =? 0 then (s, Ok 0)
      else if closed s then (s, Err BrokenPipe)
      else if overflowed s then (s, Err (output_limit_error (limit s)))
      else match checked_add usize_max (blen (output_bytes s)) write_len with
           | None => (set_overflowed s, Err (output_limit_error (limit s)))
           | Some new_len =>
               if limit s <? new_len
               then (set_overflowed s, Err (output_limit_error (limit s)))
               else (foldl append_output s buffers, Ok write_len)
           end
  end.

Definition poll_flush (s : OutputState) : OutputState * result io_error Z := (s, Ok 0).
Definition poll_shutdown (s : OutputState) : OutputState * result io_error Z :=
  ({| output_bytes := output_bytes s; limit := limit s; overflowed := overflowed s;
      closed := true |}, Ok 0).

Definition poll_write_ready (s : OutputState) : result io_error Z :=
  _ ← reject_if (closed s) BrokenPipe;
  _ ← reject_if (overflowed s) (output_limit_error (limit s));
  Ok (limit s - blen (output_bytes s)).

(** The rest of the file interface: nothing can be read, every position is
    accepted and ignored, and neither truncation nor removal is supported. *)
Definition is_write_vectored : bool := true.
Definition poll_read (s : OutputState) : OutputState * result io_error Z := (s, Ok 0).
Definition start_seek (s : OutputState) (position : Z) : OutputState * result io_error Z := (s, Ok 0).
Definition poll_complete (s : OutputState) : OutputState * result io_error Z := (s, Ok 0).
Definition poll_read_ready (s : OutputState) : OutputState * result io_error Z := (s, Ok 0).
Definition output_set_len (s : OutputState) (new_size : Z) : OutputState * result io_error Z := (s, Err FsUnsupported).
Definition output_unlink (s : OutputState) : OutputState * result io_error Z := (s, Err FsUnsupported).
Definition VIRTUAL_FILE_TIMESTAMP : Z := 1000000000.

Definition output_size (s : OutputState) : Z := Z.min u64_max (blen (output_bytes s)).
Definition output_is_open (s : OutputState) : bool := negb (closed s).

(** ** Sequences of operations *)

Inductive output_op :=
| OpWrite (buffer : list byte)
| OpWriteVectored (buffers : list (list byte))
| OpFlush
| OpShutdown
| OpRead
| OpReadReady
| OpSeek (position : Z)
| OpSeekComplete
| OpSetLen (new_size : Z)
| OpUnlink.

Definition output_step (s : OutputState) (op : output_op) : OutputState * result io_error Z :=
  match op with
  | OpWrite b => poll_write s b
  | OpWriteVectored bs => poll_write_vectored s bs
  | OpFlush => poll_flush s
  | OpShutdown => poll_shutdown s
  | OpRead => poll_read s
  | OpReadReady => poll_read_ready s
  | OpSeek p => start_seek s p
  | OpSeekComplete => poll_complete s
  | OpSetLen n => output_set_len s n
  | OpUnlink => output_unlink s
  end.

Fixpoint output_run (s : OutputState) (ops : list output_op)
    : OutputState * list (result io_error Z) :=
  match ops with
  | [] => (s, [])
  | op :: ops' =>
      let '(s1, r) := output_step s op in
      let '(s2, rs) := output_run s1 ops' in (s2, r :: rs)
  end.

(** Bytes of the writes that were reported as written, in order. *)
Definition payload (op : output_op) : list byte :=
  match op with
  | OpWrite b => b
  | OpWriteVectored bs => mjoin bs
  | _ => []
  end.
Definition accepted (or : output_op * result io_error Z) : list byte :=
  if is_ok or.2 then payload or.1 else [].
Definition accepted_bytes (ops : list output_op) (rs : list (result io_error Z)) : list byte :=
  mjoin (accepted <$> zip ops rs).

(** A rejected write other than one after shutdown. *)
Definition overflow_reported (n : Z) (r : result io_error Z) : Prop :=
  r = Err (output_limit_error n).

(** The sink's invariant: within its limit. *)
Definition OutputOk (s : OutputState) : Prop :=
  blen (output_bytes s) ≤ limit s ∧ limit s ≤ usize_max.

Lemma foldl_append_output bs s :
  foldl append_output s bs = append_output s (mjoin bs).
Proof.
  revert s. induction bs as [|b bs IH]; intros s; cbn [foldl].
  - unfold append_output. cbn. rewrite app_nil_r. by destruct s.
  - rewrite IH. unfold append_output. cbn. by rewrite <- app_assoc.
Qed.

Lemma total_len_None (bs : list (list byte)) : foldl (λ total buffer, t ← total; checked_add usize_max t (blen buffer))
    None bs = (None : option Z).
Proof. by induction bs. Qed.

Lemma total_len_from (bs : list (list byte)) n :
  n ≤ usize_max →
  foldl (λ total buffer, t ← total; checked_add usize_max t (blen buffer)) (Some n) bs =
  if n + blen (mjoin bs) <=? usize_max then Some (n + blen (mjoin bs)) else None.
Proof.
  revert n. induction bs as [|b bs IH]; intros n Hn; cbn [foldl].
  - change (mjoin (@nil (list byte))) with (@nil byte). rewrite blen_nil, Z.add_0_r.
    by rewrite (proj2 (Z.leb_le _ _)).
  - change (mjoin (b :: bs)) with (b ++ mjoin bs). rewrite blen_app, Z.add_assoc.
    cbn [mbind option_bind]. destruct (checked_add usize_max n (blen b)) as [m|] eqn:Hm.
    + apply checked_add_Some in Hm as [-> Hm]. by apply IH.
    + apply checked_add_None in Hm. rewrite total_len_None.
      destruct (Z.leb_spec (n + blen b + blen (mjoin bs)) usize_max); [blen_lia|done].
Qed.

Lemma total_len_spec bs :
  total_len bs = if blen (mjoin bs) <=? usize_max then Some (blen (mjoin bs)) else None.
Proof. unfold total_len. rewrite total_len_from by done. by rewrite Z.add_0_l. Qed.

Lemma vectored_as_write s bs :
  blen (mjoin bs) ≤ usize_max → poll_write_vectored s bs = poll_write s (mjoin bs).
Proof.
  intros Hlen. unfold poll_write_vectored, poll_write.
  rewrite total_len_spec, (proj2 (Z.leb_le _ _)) by done.
  case_bool_decide as Hb.
  - rewrite Hb. done.
  - destruct (Z.eqb_spec (blen (mjoin bs)) 0) as [Hz|]; [by apply blen_nil_inv in Hz|].
    by rewrite foldl_append_output.
Qed.

(** One operation: what it appends is what it reports as written, the limit
    is kept, and the overflow flag records whether it was refused for size. *)
Definition StepOk (s : OutputState) (p : list byte) (s' : OutputState) (r : result io_error Z) : Prop :=
  OutputOk s' ∧ limit s' = limit s ∧
  output_bytes s' = output_bytes s ++ (if is_ok r then p else []) ∧
  (overflowed s' = true ↔ overflowed s = true ∨ overflow_reported (limit s) r).

Lemma ok_not_overflow n x : overflow_reported n (Ok x) ↔ False.
Proof. done. Qed.

Lemma step_kept s p : OutputOk s → (p = [] → ∀ x, StepOk s p s (Ok x)).
Proof.
  intros Hok -> x. unfold StepOk. cbn. rewrite app_nil_r, ok_not_overflow. tauto.
Qed.

Lemma step_unsupported s : OutputOk s → StepOk s [] s (Err FsUnsupported).
Proof.
  intros Hok. unfold StepOk, overflow_reported, output_limit_error. cbn. rewrite app_nil_r. naive_solver.
Qed.

Lemma step_refused s p : OutputOk s → StepOk s p (set_overflowed s) (Err (output_limit_error (limit s))).
Proof. intros Hok. unfold StepOk, overflow_reported. cbn. rewrite app_nil_r. tauto. Qed.

Lemma poll_write_step s b :
  OutputOk s → StepOk s b (poll_write s b).1 (poll_write s b).2.
Proof.
  intros Hok. unfold poll_write. case_bool_decide as Hb; [by apply step_kept|].
  destruct (closed s).
  { unfold StepOk. cbn. rewrite app_nil_r. split_and!; [done..|].
    unfold overflow_reported, output_limit_error. naive_solver. }
  destruct (overflowed s) eqn:Ho.
  { unfold StepOk, overflow_reported. cbn. rewrite app_nil_r. tauto. }
  destruct (checked_add _ _ _) as [n|] eqn:Hn; [|by apply step_refused].
  apply checked_add_Some in Hn as [-> _].
  destruct (Z.ltb_spec (limit s) (blen (output_bytes s) + blen b)); [by apply step_refused|].
  unfold StepOk, OutputOk in *. cbn. rewrite blen_app, ok_not_overflow. split_and!; tauto || lia.
Qed.

Lemma output_step_ok s op :
  OutputOk s → StepOk s (payload op) (output_step s op).1 (output_step s op).2.
Proof.
  intros Hok. destruct op as [b|bs| | | | |n| |n|]; cbn [output_step payload];
    try (by apply step_kept); try (by apply step_unsupported).
  - by apply poll_write_step.
  - destruct (decide (blen (mjoin bs) ≤ usize_max)) as [Hle|Hgt].
    + rewrite vectored_as_write by done. by apply poll_write_step.
    + unfold poll_write_vectored. rewrite total_len_spec, (proj2 (Z.leb_gt _ _)) by lia.
      by apply step_refused.
  - unfold StepOk, OutputOk in *. cbn. rewrite app_nil_r, ok_not_overflow. tauto.
Qed.

Lemma output_run_ok s ops :
  OutputOk s →
  let '(s', rs) := output_run s ops in
  OutputOk s' ∧ limit s' = limit s ∧
  output_bytes s' = output_bytes s ++ accepted_bytes ops rs ∧
  (overflowed s' = true ↔ overflowed s = true ∨ Exists (overflow_reported (limit s)) rs).
Proof.
  revert s. induction ops as [|op ops IH]; intros s Hok; cbn [output_run].
  { unfold accepted_bytes. cbn. rewrite app_nil_r, Exists_nil. tauto. }
  pose proof (output_step_ok s op Hok) as Hst. destruct (output_step s op) as [s1 r].
  destruct Hst as (Hok1 & Hl & Hb & Ho). cbn [fst snd] in *.
  specialize (IH s1 Hok1). destruct (output_run s1 ops) as [s2 rs].
  destruct IH as (Hok2 & Hl2 & Hb2 & Ho2). split_and!; [done|congruence| |].
  - rewrite Hb2, Hb, <- app_assoc. done.
  - rewrite Ho2, Ho, Hl, Exists_cons. tauto.
Qed.

Section claims.
Context `{Allocator}.

(** C35: whatever operations reach a new sink, in whatever order its clones
    issue them, reads, seeks, truncations and removals included, it holds
    exactly the bytes of the writes it reported as written, never more than its
    limit; [finish] returns those bytes unless some write was refused for size,
    and then it fails with the limit error however many writes followed. *)
Theorem output_capture_exact n s0 ops :
  0 ≤ n ≤ usize_max → output_new n = Ok s0 →
  let '(s, rs) := output_run s0 ops in
  output_bytes s = accepted_bytes ops rs ∧ blen (output_bytes s) ≤ n ∧
  (Exists (overflow_reported n) rs → finish s = Err (output_limit_error n)) ∧
  (¬ Exists (overflow_reported n) rs → try_reserve_exact (blen (output_bytes s)) = Ok tt →
   finish s = Ok (accepted_bytes ops rs)).
Proof.
  unfold output_new. intros Hn Hnew. result_inv.
  set (s0 := {| output_bytes := []; limit := n; overflowed := false; closed := false |}).
  assert (OutputOk s0) as Hok by (split; apply Hn).
  pose proof (output_run_ok s0 ops Hok) as Hrun. destruct (output_run s0 ops) as [s rs].
  destruct Hrun as ([Hlim _] & Hl & Hb & Ho). cbn in Hl, Hb, Ho. rewrite Hl in Hlim.
  split_and!; [done|done|..].
  - intros Hex. unfold finish. rewrite (proj2 Ho), Hl by tauto. done.
  - intros Hex Hal. unfold finish. destruct (overflowed s); [naive_solver|].
    cbn [reject_if mbind result_bind]. by rewrite Hal, Hb.
Qed.

(** A vectored write behaves as one write of the concatenated buffers, so
    it is accepted or refused as a whole. *)
Theorem poll_write_vectored_atomic s bs :
  blen (mjoin bs) ≤ usize_max → poll_write_vectored s bs = poll_write s (mjoin bs).
Proof. apply vectored_as_write. Qed.

(** The capacity announced by [poll_write_ready] does not underflow and is
    exact: a nonempty write succeeds if and only if it fits. *)
Theorem poll_write_ready_exact s n b :
  OutputOk s → poll_write_ready s = Ok n → b ≠ [] →
  0 ≤ n ∧ ((poll_write s b).2 = Ok (blen b) ↔ blen b ≤ n).
Proof.
  unfold OutputOk, poll_write_ready. intros Hok Hr Hb. result_inv. split; [lia|].
  unfold poll_write. rewrite bool_decide_eq_false_2 by done.
  repeat match goal with H : _ = false |- _ => rewrite H; clear H end.
  destruct (checked_add _ _ _) as [m|] eqn:Hm.
  - apply checked_add_Some in Hm as [-> _].
    destruct (Z.ltb_spec (limit s) (blen (output_bytes s) + blen b)); cbn; split; done || lia.
  - apply checked_add_None in Hm. cbn. split; done || lia.
Qed.
End claims.

Module OutputExample.
#[export] Instance allocator : Allocator := infallible_allocator.
Definition start : OutputState :=
  {| output_bytes := []; limit := 6; overflowed := false; closed := false |}.
Definition ops : list output_op :=
  [OpWrite (str_bytes "ab"); OpWriteVectored [str_bytes "c"; []; str_bytes "d"];
   OpSetLen 0; OpSeek 1; OpUnlink; OpWrite (str_bytes "toolong"); OpWrite (str_bytes "x"); OpShutdown].

Lemma output_capture_exact_witness :
  let '(s, rs) := output_run start ops in
  output_bytes s = accepted_bytes ops rs ∧ blen (output_bytes s) ≤ 6 ∧
  (Exists (overflow_reported 6) rs → finish s = Err (output_limit_error 6)) ∧
  (¬ Exists (overflow_reported 6) rs → try_reserve_exact (blen (output_bytes s)) = Ok tt →
   finish s = Ok (accepted_bytes ops rs)).
Proof. apply (output_capture_exact 6 start ops); by vm_compute. Defined.

Lemma poll_write_vectored_atomic_witness :
  poll_write_vectored start [str_bytes "abc"; str_bytes "def"] = poll_write start (str_bytes "abcdef").
Proof.
  apply (poll_write_vectored_atomic start [str_bytes "abc"; str_bytes "def"]). by vm_compute.
Defined.

Lemma poll_write_ready_exact_witness :
  0 ≤ 6 ∧ ((poll_write start (str_bytes "abc")).2 = Ok 3 ↔ 3 ≤ 6).
Proof. apply (poll_write_ready_exact start 6 (str_bytes "abc")); by vm_compute. Defined.
End OutputExample.
