(* ===== verification/Types.v ===== *)
(** Public value types of the runtime ([src/src/types.rs], [config.rs],
    [measurement.rs]): WASI profiles, package tiers, invocation states, limits
    and configuration, command input and output. *)
From S2P Require Import Prelude.

Local Open Scope Z_scope.

Inductive WasiVersion := V0_3 | V0_2.
Inductive WasiProfile := Cli0_3 | Cli0_2 | Http0_3 | Http0_2.
Inductive PackageTier := Cold | DiskAot | Warmish | Warm.
Inductive InvocationState := Running | PauseRequested | PausedResident | Evicted | Finished.

#[global] Instance version_eq : EqDecision WasiVersion.
Proof. solve_decision. Defined.
#[global] Instance profile_eq : EqDecision WasiProfile.
Proof. solve_decision. Defined.
#[global] Instance tier_eq : EqDecision PackageTier.
Proof. solve_decision. Defined.
#[global] Instance invocation_state_eq : EqDecision InvocationState.
Proof. solve_decision. Defined.

Definition ALL_PROFILES : list WasiProfile := [Cli0_3; Cli0_2; Http0_3; Http0_2].

Definition cache_id (p : WasiProfile) : string :=
  match p with
  | Cli0_3 => "wasi-cli-command-0.3.0"
  | Cli0_2 => "wasi-cli-command-0.2"
  | Http0_3 => "wasi-http-service-0.3.0"
  | Http0_2 => "wasi-http-proxy-0.2"
  end.

Definition profile_version (p : WasiProfile) : WasiVersion :=
  match p with Cli0_3 | Http0_3 => V0_3 | Cli0_2 | Http0_2 => V0_2 end.
Definition is_command (p : WasiProfile) : bool :=
  match p with Cli0_3 | Cli0_2 => true | _ => false end.
Definition is_http (p : WasiProfile) : bool :=
  match p with Http0_3 | Http0_2 => true | _ => false end.

(** Durations are nanoseconds; [Duration] holds at most [2^64] seconds. *)
Definition duration_max : Z := 2 ^ 64 * 1000000000 - 1.
Definition secs (n : Z) : Z := n * 1000000000.
Definition millis (n : Z) : Z := n * 1000000.

(** [tokio::sync::Semaphore::MAX_PERMITS]; more permits panic. *)
Definition max_permits : Z := Z.shiftr usize_max 3.

Record RuntimeLimits := {
  max_input_bytes : Z;
  max_output_bytes : Z;
  max_memory_bytes : Z;
  max_table_elements : Z;
  max_instances : Z;
  limits_fuel : Z;
  max_timeout : Z;
}.
Definition default_limits : RuntimeLimits := {|
  max_input_bytes := 16 * 1024 * 1024;
  max_output_bytes := 16 * 1024 * 1024;
  max_memory_bytes := 256 * 1024 * 1024;
  max_table_elements := 100000;
  max_instances := 100;
  limits_fuel := 10000000000;
  max_timeout := secs 300;
|}.

(** [AotAuthenticationKey], [DiskCacheConfig] ([cache.rs]). *)
Record DiskCacheConfig := {
  root : string;
  disk_authentication_key : list byte;
  max_entry_bytes : Z;
}.
Definition disk_cache_config_new (root : string) (key : list byte) : DiskCacheConfig :=
  {| root := root; disk_authentication_key := key; max_entry_bytes := 256 * 1024 * 1024 |}.

Record RuntimeConfig := {
  max_warm_components : Z;
  max_warmish_entries : Z;
  config_max_warmish_bytes : Z;
  background_workers : Z;
  paused_resident_ttl : Z;
  epoch_interval : Z;
  disk_cache : option DiskCacheConfig;
  limits : RuntimeLimits;
}.
Definition default_config : RuntimeConfig := {|
  max_warm_components := 64;
  max_warmish_entries := 1024;
  config_max_warmish_bytes := 512 * 1024 * 1024;
  background_workers := 2;
  paused_resident_ttl := secs 30;
  epoch_interval := millis 10;
  disk_cache := None;
  limits := default_limits;
|}.

(** [CommandInput]; its cancellation token is the flag it shares. *)
Record CommandInput := {
  stdin : list byte;
  args : list string;
  env : gmap string string;
  timeout : Z;
  cancelled : bool;
}.
Definition default_command_input : CommandInput :=
  {| stdin := []; args := []; env := ∅; timeout := secs 30; cancelled := false |}.
Definition command_input_new (s : list byte) : CommandInput :=
  {| stdin := s; args := []; env := ∅; timeout := secs 30; cancelled := false |}.
Definition with_args (a : list string) (i : CommandInput) : CommandInput :=
  {| stdin := stdin i; args := a; env := env i; timeout := timeout i; cancelled := cancelled i |}.
Definition with_env (k v : string) (i : CommandInput) : CommandInput :=
  {| stdin := stdin i; args := args i; env := <[k := v]> (env i); timeout := timeout i;
     cancelled := cancelled i |}.
Definition with_timeout (t : Z) (i : CommandInput) : CommandInput :=
  {| stdin := stdin i; args := args i; env := env i; timeout := t; cancelled := cancelled i |}.

(** [PhaseTimings], [RunMeasurement], [CommandOutput]. *)
Record PhaseTimings := {
  phase_prepare : Z; phase_instantiate : Z; phase_execute : Z;
  phase_suspended : Z; phase_active_execute : Z; phase_total : Z }.
Record RunMeasurement := {
  prepared_from : PackageTier; retained_as : PackageTier;
  measured_version : WasiVersion; phases : PhaseTimings }.
Record CommandOutput := {
  stdout : list byte; stderr : list byte; exit_code : Z;
  output_version : WasiVersion; measurement : RunMeasurement }.
