(* ===== verification/MemoryCache.v ===== *)
(** The in-memory package cache of [src/src/runtime.rs] ([MemoryCache]): warm
    compiled components and warmish AOT artifacts, both evicted in
    least-recently-used order, the artifacts also by total size. *)
From S2P Require Import Prelude Types.

Local Open Scope Z_scope.

Section memory_cache.
(** The compiled component type of the engine. *)
Context {Component : Type}.

Record PreparedComponent := {
  component : Component;
  prepared_profile : WasiProfile;
}.
Record PreparedAot := {
  aot_bytes : list byte;
  aot_profile : WasiProfile;
}.
Record CacheEntry (T : Type) := mkEntry { value : T; last_used : Z }.

Record MemoryCache := {
  warm : gmap string (CacheEntry PreparedComponent);
  warmish : gmap string (CacheEntry PreparedAot);
  warmish_bytes : Z;
  sequence : Z;
  max_warm : Z;
  max_warmish : Z;
  max_warmish_bytes : Z;
}.
End memory_cache.
Arguments PreparedComponent : clear implicits.
Arguments MemoryCache : clear implicits.
Arguments mkEntry {T}.
Arguments value {T}.
Arguments last_used {T}.

Definition memory_cache_new {C} (config : RuntimeConfig) : MemoryCache C :=
  {| warm := ∅; warmish := ∅; warmish_bytes := 0; sequence := 0;
     max_warm := max_warm_components config;
     max_warmish := max_warmish_entries config;
     max_warmish_bytes := config_max_warmish_bytes config |}.

(** ** Recency order *)

Definition recency : Type := Z * string.
Definition recency_ltb (a b : recency) : bool :=
  (a.1 <? b.1) || ((a.1 =? b.1) && str_ltb a.2 b.2).

(** [iter().min_by_key(..)]: keeps the earlier element unless the later one is
    smaller. *)
Definition min_step (acc x : recency) : recency := if recency_ltb x acc then x else acc.
Definition least_recent_in (l : list recency) : option string :=
  match l with
  | [] => None
  | x :: l' => Some (foldl min_step x l').2
  end.
Definition recencies {T} (m : gmap string (CacheEntry T)) : list recency :=
  (λ ke : string * CacheEntry T, (last_used ke.2, ke.1)) <$> map_to_list m.
Definition least_recent {T} (m : gmap string (CacheEntry T)) : option string :=
  least_recent_in (recencies m).

(** ** Operations *)

(** [self.sequence.wrapping_add(1).max(1)] *)
Definition next_tick (s : Z) : Z := Z.max 1 (wrapping_add u64_max s 1).

Section operations.
Context {C : Type}.
Implicit Types c : MemoryCache C.

Definition set_warm c w s : MemoryCache C :=
  {| warm := w; warmish := warmish c; warmish_bytes := warmish_bytes c; sequence := s;
     max_warm := max_warm c; max_warmish := max_warmish c;
     max_warmish_bytes := max_warmish_bytes c |}.
Definition set_warmish c w n s : MemoryCache C :=
  {| warm := warm c; warmish := w; warmish_bytes := n; sequence := s;
     max_warm := max_warm c; max_warmish := max_warmish c;
     max_warmish_bytes := max_warmish_bytes c |}.

Definition lookup_warm (digest : string) c : MemoryCache C * option (PreparedComponent C) :=
  let tick := next_tick (sequence c) in
  match warm c !! digest with
  | None => (set_warm c (warm c) tick, None)
  | Some e => (set_warm c (<[digest := mkEntry (value e) tick]> (warm c)) tick, Some (value e))
  end.

Definition lookup_warmish (digest : string) c : MemoryCache C * option PreparedAot :=
  let tick := next_tick (sequence c) in
  match warmish c !! digest with
  | None => (set_warmish c (warmish c) (warmish_bytes c) tick, None)
  | Some e => (set_warmish c (<[digest := mkEntry (value e) tick]> (warmish c))
                 (warmish_bytes c) tick, Some (value e))
  end.

(** [while self.warm.len() > self.max_warm { remove(least_recent) }] *)
Fixpoint evict_warm (fuel : nat) (max : Z) (w : gmap string (CacheEntry (PreparedComponent C)))
    : gmap string (CacheEntry (PreparedComponent C)) :=
  if negb (max <? Z.of_nat (size w)) then w
  else match fuel with
  | O => w
  | S fuel' =>
      match least_recent w with
      | Some key => evict_warm fuel' max (delete key w)
      | None => evict_warm fuel' max w
      end
  end.

Definition insert_warm (digest : string) (v : PreparedComponent C) c : MemoryCache C :=
  let tick := next_tick (sequence c) in
  let w := <[digest := mkEntry v tick]> (warm c) in
  set_warm c (evict_warm (size w) (max_warm c) w) tick.

Fixpoint evict_warmish (fuel : nat) (max max_bytes : Z)
    (w : gmap string (CacheEntry PreparedAot)) (n : Z)
    : gmap string (CacheEntry PreparedAot) * Z :=
  if negb ((max <? Z.of_nat (size w)) || (max_bytes <? n)) then (w, n)
  else match fuel with
  | O => (w, n)
  | S fuel' =>
      match least_recent w with
      | None => (w, n)
      | Some key =>
          match w !! key with
          | Some e => evict_warmish fuel' max max_bytes (delete key w)
                        (saturating_sub n (blen (aot_bytes (value e))))
          | None => evict_warmish fuel' max max_bytes w n
          end
      end
  end.

Definition insert_warmish (digest : string) (v : PreparedAot) c : MemoryCache C :=
  if max_warmish_bytes c <? blen (aot_bytes v) then c
  else
    let tick := next_tick (sequence c) in
    let n := match warmish c !! digest with
             | Some previous =>
                 saturating_sub (warmish_bytes c) (blen (aot_bytes (value previous)))
             | None => warmish_bytes c
             end in
    let w := <[digest := mkEntry v tick]> (warmish c) in
    let n := saturating_add usize_max n (blen (aot_bytes v)) in
    let '(w, n) := evict_warmish (size w) (max_warmish c) (max_warmish_bytes c) w n in
    set_warmish c w n tick.

Definition demote (digest : string) c : MemoryCache C :=
  set_warm c (delete digest (warm c)) (sequence c).
End operations.

(** ** The least recently used entry *)

Definition recency_lt (a b : recency) : Prop := recency_ltb a b = true.

Lemma recency_lt_iff a b : recency_lt a b ↔ a.1 < b.1 ∨ a.1 = b.1 ∧ str_lt a.2 b.2.
Proof.
  unfold recency_lt, recency_ltb. rewrite orb_true_iff, andb_true_iff, Z.ltb_lt, Z.eqb_eq. done.
Qed.
#[global] Instance recency_lt_strict : StrictOrder recency_lt.
Proof.
  split.
  - intros [t k]. unfold complement. rewrite recency_lt_iff. cbn. intros [?|[_ Hk]]; [lia|].
    by apply irreflexivity in Hk; [|apply _].
  - intros [] [] []. rewrite !recency_lt_iff. cbn.
    intros [?|[? Hk]] [?|[? Hl]]; [left; lia..|]. right. split; [lia|]. by etrans.
Qed.
Lemma recency_total a b : recency_lt a b ∨ a = b ∨ recency_lt b a.
Proof.
  destruct a as [t k], b as [u l]. rewrite !recency_lt_iff. cbn.
  destruct (Z.lt_trichotomy t u) as [|[->|]]; [tauto| |tauto].
  destruct (str_ltb k l) eqn:Hk; [by auto|].
  apply str_ltb_total in Hk as [->|Hk]; auto.
Qed.

(** [x] is in the list and no element is below it. *)
Definition minimum (x : recency) (l : list recency) : Prop :=
  x ∈ l ∧ ∀ y, y ∈ l → ¬ recency_lt y x.

Lemma minimum_unique x y l k : minimum x l → minimum y k → l ≡ₚ k → x = y.
Proof.
  intros [Hx Hmx] [Hy Hmy] Hp. destruct (recency_total x y) as [Hlt|[->|Hlt]]; [|done|].
  - destruct (Hmy x); [by rewrite <- Hp|done].
  - destruct (Hmx y); [by rewrite Hp|done].
Qed.

Lemma foldl_min_step x l : minimum (foldl min_step x l) (x :: l).
Proof.
  revert x. induction l as [|y l IH]; intros x; cbn [foldl].
  { split; [set_solver|]. intros y ->%list_elem_of_singleton. apply irreflexivity. apply _. }
  destruct (IH (min_step x y)) as [Hin Hmin]. unfold min_step in *.
  destruct (recency_ltb y x) eqn:Hyx; (split; [set_solver|]); intros z Hz Hlt.
  - apply elem_of_cons in Hz as [->|Hz]; [|by eapply Hmin].
    apply (Hmin y); [set_solver|]. by trans x.
  - apply elem_of_cons in Hz as [->|Hz]; [by apply (Hmin x); [set_solver|]|].
    apply elem_of_cons in Hz as [->|Hz]; [|apply (Hmin z); [set_solver|done]].
    destruct (recency_total y x) as [Hc|[->|Hc]]; [unfold recency_lt in Hc; congruence| |].
    + apply (Hmin x); [set_solver|done].
    + apply (Hmin x); [set_solver|]. by trans y.
Qed.

Lemma least_recent_in_Some l k :
  least_recent_in l = Some k ↔ ∃ t, minimum (t, k) l.
Proof.
  destruct l as [|x l]; cbn.
  { split; [done|]. intros (t & Ht & _). by apply not_elem_of_nil in Ht. }
  pose proof (foldl_min_step x l) as Hm. split.
  - intros [= <-]. exists (foldl min_step x l).1. by destruct (foldl min_step x l).
  - intros (t & Ht). by rewrite (minimum_unique _ _ _ _ Hm Ht).
Qed.
Lemma least_recent_in_None l : least_recent_in l = None ↔ l = [].
Proof. by destruct l. Qed.

(** The choice does not depend on the order in which the map is iterated. *)
Lemma least_recent_in_perm l k : l ≡ₚ k → least_recent_in l = least_recent_in k.
Proof.
  intros Hp. destruct (least_recent_in l) as [x|] eqn:Hl.
  - apply least_recent_in_Some in Hl as (t & Hx & Hmin). symmetry.
    apply least_recent_in_Some. exists t. split; [by rewrite <- Hp|].
    intros y Hy. apply Hmin. by rewrite Hp.
  - apply least_recent_in_None in Hl. subst. apply Permutation_nil_l in Hp. by subst.
Qed.

Lemma elem_of_recencies {T} (m : gmap string (CacheEntry T)) t k :
  (t, k) ∈ recencies m ↔ ∃ e, m !! k = Some e ∧ last_used e = t.
Proof.
  unfold recencies. rewrite list_elem_of_fmap. split.
  - intros ([k' e] & [= -> ->] & He%elem_of_map_to_list). eauto.
  - intros (e & He & <-). exists (k, e). split; [done|]. by apply elem_of_map_to_list.
Qed.

Lemma least_recent_Some {T} (m : gmap string (CacheEntry T)) k :
  least_recent m = Some k →
  ∃ e, m !! k = Some e ∧
    ∀ k' e', m !! k' = Some e' → k' ≠ k → recency_lt (last_used e, k) (last_used e', k').
Proof.
  intros (t & Hin & Hmin)%least_recent_in_Some. apply elem_of_recencies in Hin as (e & He & <-).
  exists e. split; [done|]. intros k' e' He' Hne.
  destruct (recency_total (last_used e, k) (last_used e', k')) as [|[|Hlt]]; [done|congruence|].
  destruct (Hmin (last_used e', k')); [|done]. apply elem_of_recencies. eauto.
Qed.

Lemma least_recent_None {T} (m : gmap string (CacheEntry T)) : least_recent m = None ↔ m = ∅.
Proof.
  unfold least_recent. rewrite least_recent_in_None. unfold recencies.
  rewrite <- map_to_list_empty_iff. by destruct (map_to_list m).
Qed.

(** ** Eviction in recency order *)

Definition evict_one {T} (m m' : gmap string (CacheEntry T)) : Prop :=
  ∃ k, least_recent m = Some k ∧ m' = delete k m.
Definition Evicts {T} : relation (gmap string (CacheEntry T)) := rtc evict_one.

(** What eviction leaves is a part of the map, and every entry it removed was
    used before every entry it kept. *)
Definition LruPart {T} (m m' : gmap string (CacheEntry T)) : Prop :=
  m' ⊆ m ∧ ∀ k e k' e', m !! k = Some e → m' !! k = None → m' !! k' = Some e' →
    recency_lt (last_used e, k) (last_used e', k').

Lemma evicts_lru {T} (m m' : gmap string (CacheEntry T)) : Evicts m m' → LruPart m m'.
Proof.
  induction 1 as [m|m m1 m' (x & Hx & ->) _ [Hsub IH]].
  { split; [done|]. congruence. }
  assert (m' ⊆ m) as Hsub' by (etrans; [exact Hsub|apply delete_subseteq]).
  split; [done|]. intros k e k' e' Hk Hk1 Hk'.
  assert (delete x m !! k' = Some e') as Hd by by eapply lookup_weaken.
  destruct (decide (x = k)) as [->|Hne].
  - destruct (least_recent_Some _ _ Hx) as (ex & Hex & Hmin).
    assert (ex = e) as -> by congruence.
    apply lookup_delete_Some in Hd as [Hne' Hd]. by apply Hmin.
  - apply (IH k e k' e'); [by rewrite lookup_delete_ne|done|done].
Qed.

(** An entry used strictly after all others outlives any eviction that leaves
    something. *)
Lemma evicts_newest {T} (m m' : gmap string (CacheEntry T)) k e :
  Evicts m m' → m' ≠ ∅ → m !! k = Some e →
  (∀ k' e', m !! k' = Some e' → k' ≠ k → last_used e' < last_used e) → m' !! k = Some e.
Proof.
  intros [Hsub Hlru]%evicts_lru Hne Hk Hnew.
  destruct (m' !! k) as [e1|] eqn:Hk'; [by rewrite <- Hk; symmetry; eapply lookup_weaken|].
  apply map_choose in Hne as (k' & e' & He').
  pose proof (Hlru k e k' e' Hk Hk' He') as Hlt. rewrite recency_lt_iff in Hlt. cbn in Hlt.
  assert (k' ≠ k) by congruence.
  assert (m !! k' = Some e') as Hm by by eapply lookup_weaken.
  pose proof (Hnew k' e' Hm ltac:(done)). lia.
Qed.

Lemma evict_warm_spec {C} fuel max (w : gmap string (CacheEntry (PreparedComponent C))) :
  (size w <= fuel)%nat → 1 ≤ max → w ≠ ∅ →
  Evicts w (evict_warm fuel max w) ∧ Z.of_nat (size (evict_warm fuel max w)) ≤ max ∧
  evict_warm fuel max w ≠ ∅.
Proof.
  revert w. induction fuel as [|fuel IH]; intros w Hf Hmax Hne; cbn [evict_warm].
  { assert (size w = 0%nat) as Hs by lia. by apply map_size_empty_inv in Hs. }
  destruct (Z.ltb_spec max (Z.of_nat (size w))) as [Hlt|Hge]; cbn [negb].
  2: { split_and!; [apply rtc_refl|lia|done]. }
  destruct (least_recent w) as [k|] eqn:Hk; [|by apply least_recent_None in Hk].
  destruct (least_recent_Some _ _ Hk) as (e & He & _).
  pose proof (map_size_delete_Some k w ltac:(eauto)) as Hsz.
  destruct (IH (delete k w)) as (Hev & Hle & Hne'); [lia|done| |].
  { intros Hd. rewrite Hd, map_size_empty in Hsz. lia. }
  split_and!; [|done..]. eapply rtc_l; [|exact Hev]. by exists k.
Qed.

(** Combined size of the retained artifacts. *)
Definition aot_len (e : CacheEntry PreparedAot) : Z := blen (aot_bytes (value e)).
Definition total_bytes (w : gmap string (CacheEntry PreparedAot)) : Z :=
  map_fold (λ _ e n, aot_len e + n) 0 w.

Lemma total_bytes_insert w k e : w !! k = None → total_bytes (<[k := e]> w) = aot_len e + total_bytes w.
Proof.
  intros Hk. unfold total_bytes. apply (map_fold_insert_L (λ _ e n, aot_len e + n)); [lia|done].
Qed.
Lemma total_bytes_delete w k e : w !! k = Some e → total_bytes w = aot_len e + total_bytes (delete k w).
Proof.
  intros Hk. unfold total_bytes. apply (map_fold_delete_L (λ _ e n, aot_len e + n)); [lia|done].
Qed.
Lemma total_bytes_nonneg w : 0 ≤ total_bytes w.
Proof.
  induction w as [|k e w Hk IH] using map_ind; [done|].
  rewrite total_bytes_insert by done. pose proof (blen_nonneg (aot_bytes (value e))). unfold aot_len. lia.
Qed.
Lemma total_bytes_singleton w k e :
  w !! k = Some e → size w = 1%nat → total_bytes w = aot_len e.
Proof.
  intros Hk Hs. rewrite (total_bytes_delete w k e) by done.
  pose proof (map_size_delete_Some k w ltac:(eauto)) as Hd. rewrite Hs in Hd.
  assert (delete k w = ∅) as -> by (apply map_size_empty_inv; lia). unfold total_bytes.
  rewrite map_fold_empty. lia.
Qed.

Lemma evict_warmish_spec fuel max max_bytes w :
  (size w <= fuel)%nat → 1 ≤ max → w ≠ ∅ → (∀ k e, w !! k = Some e → aot_len e ≤ max_bytes) →
  let '(w', n') := evict_warmish fuel max max_bytes w (total_bytes w) in
  Evicts w w' ∧ Z.of_nat (size w') ≤ max ∧ w' ≠ ∅ ∧ n' = total_bytes w' ∧ n' ≤ max_bytes.
Proof.
  revert w. induction fuel as [|fuel IH]; intros w Hf Hmax Hne Hent; cbn [evict_warmish].
  { assert (size w = 0%nat) as Hs by lia. by apply map_size_empty_inv in Hs. }
  destruct ((max <? Z.of_nat (size w)) || (max_bytes <? total_bytes w)) eqn:Hcond; cbn [negb].
  2: { bool_inv. split_and!; [apply rtc_refl|lia|done|done|lia]. }
  destruct (least_recent w) as [k|] eqn:Hk; [|by apply least_recent_None in Hk].
  destruct (least_recent_Some _ _ Hk) as (e & He & _). rewrite He.
  pose proof (map_size_delete_Some k w ltac:(eauto)) as Hsz.
  pose proof (total_bytes_delete w k e He) as Htot.
  pose proof (total_bytes_nonneg (delete k w)).
  replace (saturating_sub (total_bytes w) (blen (aot_bytes (value e))))
    with (total_bytes (delete k w)) by (unfold saturating_sub, aot_len in *; lia).
  assert (delete k w ≠ ∅) as Hdne.
  { intros Hd. rewrite Hd, map_size_empty in Hsz.
    assert (size w = 1%nat) as H1.
    { destruct (size w) as [|[|]] eqn:Hs; [by apply map_size_empty_inv in Hs|done|lia]. }
    rewrite (total_bytes_singleton w k e) in Hcond by done.
    apply orb_true_iff in Hcond as [Hc%Z.ltb_lt|Hc%Z.ltb_lt]; [lia|].
    pose proof (Hent k e He). lia. }
  specialize (IH (delete k w)).
  destruct (evict_warmish fuel max max_bytes (delete k w) (total_bytes (delete k w))) as [w' n'].
  destruct IH as (Hev & Hr); [lia|done|done| |].
  { intros k' e' He'. apply lookup_delete_Some in He' as [_ He']. by eapply Hent. }
  split; [|done]. eapply rtc_l; [|exact Hev]. by exists k.
Qed.

(** ** The cache invariant *)

Record CacheOk {C} (c : MemoryCache C) : Prop := {
  ok_limits : 1 ≤ max_warm c ∧ 1 ≤ max_warmish c ∧ 2 * max_warmish_bytes c ≤ usize_max;
  ok_warm_size : Z.of_nat (size (warm c)) ≤ max_warm c;
  ok_warmish_size : Z.of_nat (size (warmish c)) ≤ max_warmish c;
  ok_accounting : warmish_bytes c = total_bytes (warmish c);
  ok_bytes : warmish_bytes c ≤ max_warmish_bytes c;
  ok_sequence : 0 ≤ sequence c;
  ok_warm_ticks : ∀ k e, warm c !! k = Some e → last_used e ≤ sequence c;
  ok_warmish_ticks : ∀ k e, warmish c !! k = Some e → last_used e ≤ sequence c;
}.

Lemma next_tick_succ s : 0 ≤ s < u64_max → next_tick s = s + 1.
Proof.
  intros Hs. unfold next_tick, wrapping_add. rewrite Z.mod_small by lia. lia.
Qed.

Lemma aot_len_le_total w k e : w !! k = Some e → aot_len e ≤ total_bytes w.
Proof.
  intros He. rewrite (total_bytes_delete w k e He). pose proof (total_bytes_nonneg (delete k w)). lia.
Qed.

Lemma total_bytes_replace w k e e' :
  w !! k = Some e → total_bytes (<[k := e']> w) = aot_len e' + total_bytes (delete k w).
Proof.
  intros He. rewrite <- insert_delete_eq. by rewrite total_bytes_insert by apply lookup_delete_eq.
Qed.

Lemma ticks_insert {T} (m : gmap string (CacheEntry T)) k v s :
  (∀ k' e, m !! k' = Some e → last_used e ≤ s) →
  ∀ k' e, <[k := mkEntry v (s + 1)]> m !! k' = Some e → last_used e ≤ s + 1.
Proof.
  intros Hm k' e. rewrite lookup_insert_Some. intros [[_ <-]|[_ He]]; [done|].
  pose proof (Hm _ _ He). lia.
Qed.
Lemma ticks_newest {T} (m : gmap string (CacheEntry T)) k v s :
  (∀ k' e, m !! k' = Some e → last_used e ≤ s) →
  ∀ k' e, <[k := mkEntry v (s + 1)]> m !! k' = Some e → k' ≠ k → last_used e < s + 1.
Proof.
  intros Hm k' e He Hne. rewrite lookup_insert_ne in He by done. pose proof (Hm _ _ He). lia.
Qed.
Lemma ticks_mono {T} (m m' : gmap string (CacheEntry T)) s s' :
  m' ⊆ m → s ≤ s' → (∀ k e, m !! k = Some e → last_used e ≤ s) →
  ∀ k e, m' !! k = Some e → last_used e ≤ s'.
Proof.
  intros Hsub Hs Hm k e He. pose proof (Hm k e ltac:(by eapply lookup_weaken)). lia.
Qed.

Section preservation.
Context {C : Type}.
Implicit Types c : MemoryCache C.

Lemma memory_cache_new_ok config :
  1 ≤ max_warm_components config → 1 ≤ max_warmish_entries config →
  0 ≤ config_max_warmish_bytes config → 2 * config_max_warmish_bytes config ≤ usize_max →
  CacheOk (memory_cache_new (C := C) config).
Proof.
  intros. split; cbn; rewrite ?map_size_empty; try done; try lia; intros ??; by rewrite lookup_empty.
Qed.

Lemma lookup_warm_ok d c : CacheOk c → sequence c < u64_max → CacheOk (lookup_warm d c).1.
Proof.
  intros [] Hs. unfold lookup_warm. rewrite next_tick_succ by done.
  destruct (warm c !! d) as [e|] eqn:He; (split; cbn; try done; try lia);
    try (by eapply ticks_mono; [| |done]; [done|lia]).
  - by rewrite map_size_insert_Some by eauto.
  - by apply ticks_insert.
Qed.

Lemma lookup_warmish_ok d c : CacheOk c → sequence c < u64_max → CacheOk (lookup_warmish d c).1.
Proof.
  intros [] Hs. unfold lookup_warmish. rewrite next_tick_succ by done.
  destruct (warmish c !! d) as [e|] eqn:He; (split; cbn; try done; try lia);
    try (by eapply ticks_mono; [| |done]; [done|lia]).
  - by rewrite map_size_insert_Some by eauto.
  - rewrite (total_bytes_replace _ _ e) by done. cbn. rewrite ok_accounting0.
    by rewrite (total_bytes_delete _ d e).
  - by apply ticks_insert.
Qed.

Lemma insert_ne_empty {T} (m : gmap string (CacheEntry T)) k e : <[k := e]> m ≠ ∅.
Proof. apply insert_non_empty. Qed.

Lemma insert_warm_ok d v c :
  CacheOk c → sequence c < u64_max →
  let c' := insert_warm d v c in
  CacheOk c' ∧ value <$> warm c' !! d = Some v ∧
  LruPart (<[d := mkEntry v (sequence c + 1)]> (warm c)) (warm c') ∧ warmish c' = warmish c.
Proof.
  intros [] Hs c'. unfold c', insert_warm. rewrite next_tick_succ by done.
  set (w := <[d := mkEntry v (sequence c + 1)]> (warm c)).
  destruct (evict_warm_spec (size w) (max_warm c) w) as (Hev & Hsz & Hne);
    [done|lia|apply insert_ne_empty|].
  pose proof (evicts_lru _ _ Hev) as Hlru. split_and!; [|cbn|done|done].
  - split; cbn; try done; try lia.
    + eapply ticks_mono; [apply Hlru|reflexivity|by apply ticks_insert].
    + by eapply ticks_mono; [| |done]; [done|lia].
  - rewrite (evicts_newest w _ d (mkEntry v (sequence c + 1)) Hev Hne).
    + done.
    + unfold w. apply lookup_insert_eq.
    + by apply ticks_newest.
Qed.

(** The byte count [insert_warmish] hands to its eviction loop is exact. *)
Lemma insert_warmish_bytes d v c t :
  CacheOk c → blen (aot_bytes v) ≤ max_warmish_bytes c →
  saturating_add usize_max
    (match warmish c !! d with
     | Some previous => saturating_sub (warmish_bytes c) (blen (aot_bytes (value previous)))
     | None => warmish_bytes c
     end) (blen (aot_bytes v)) = total_bytes (<[d := mkEntry v t]> (warmish c)).
Proof.
  intros [] Hv. pose proof (total_bytes_nonneg (warmish c)). pose proof (blen_nonneg (aot_bytes v)).
  unfold saturating_add, saturating_sub. destruct (warmish c !! d) as [p|] eqn:Hp.
  - rewrite (total_bytes_replace _ _ p) by done.
    pose proof (total_bytes_delete _ _ _ Hp). pose proof (total_bytes_nonneg (delete d (warmish c))).
    pose proof (blen_nonneg (aot_bytes (value p))). unfold aot_len in *. cbn [value] in *. lia.
  - rewrite total_bytes_insert by done. unfold aot_len. cbn [value]. lia.
Qed.

Lemma insert_warmish_ok d v c :
  CacheOk c → sequence c < u64_max → blen (aot_bytes v) ≤ max_warmish_bytes c →
  let c' := insert_warmish d v c in
  CacheOk c' ∧ value <$> warmish c' !! d = Some v ∧
  LruPart (<[d := mkEntry v (sequence c + 1)]> (warmish c)) (warmish c') ∧ warm c' = warm c.
Proof.
  intros Hok Hs Hv c'. unfold c', insert_warmish.
  rewrite (proj2 (Z.ltb_ge _ _)) by done. cbn zeta.
  rewrite (insert_warmish_bytes d v c (next_tick (sequence c))) by done. destruct Hok.
  rewrite next_tick_succ by done.
  set (e := mkEntry v (sequence c + 1)). set (w := <[d := e]> (warmish c)).
  pose proof (evict_warmish_spec (size w) (max_warmish c) (max_warmish_bytes c) w ltac:(done)
    ltac:(lia) ltac:(apply insert_ne_empty)) as Hspec.
  destruct (evict_warmish _ _ _ _ _) as [w' n'].
  destruct Hspec as (Hev & Hsz & Hne & Hn & Hb).
  { intros k x. unfold w. rewrite lookup_insert_Some. intros [[_ <-]|[_ Hx]]; [done|].
    pose proof (aot_len_le_total _ _ _ Hx). lia. }
  pose proof (evicts_lru _ _ Hev) as Hlru. split_and!; [|cbn|done|done].
  - split; cbn; try done; try lia.
    + by eapply ticks_mono; [| |done]; [done|lia].
    + eapply ticks_mono; [apply Hlru|reflexivity|by apply ticks_insert].
  - rewrite (evicts_newest w _ d e Hev Hne); [done| |by apply ticks_newest].
    unfold w. apply lookup_insert_eq.
Qed.

Lemma insert_warmish_oversized d v c :
  max_warmish_bytes c < blen (aot_bytes v) → insert_warmish d v c = c.
Proof. intros Hv. unfold insert_warmish. by rewrite (proj2 (Z.ltb_lt _ _)). Qed.

Lemma demote_ok d c : CacheOk c → CacheOk (demote d c).
Proof.
  intros []. split; cbn; try done.
  - pose proof (map_subseteq_size (delete d (warm c)) (warm c) ltac:(apply delete_subseteq)). lia.
  - eapply ticks_mono; [apply delete_subseteq|reflexivity|done].
Qed.
End preservation.

(** ** Sequences of operations *)

Inductive cache_op (C : Type) :=
| LookupWarm (digest : string)
| LookupWarmish (digest : string)
| InsertWarm (digest : string) (v : PreparedComponent C)
| InsertWarmish (digest : string) (v : PreparedAot)
| Demote (digest : string).
Arguments LookupWarm {C}.
Arguments LookupWarmish {C}.
Arguments InsertWarm {C}.
Arguments InsertWarmish {C}.
Arguments Demote {C}.

Definition cache_step {C} (c : MemoryCache C) (op : cache_op C) : MemoryCache C :=
  match op with
  | LookupWarm d => (lookup_warm d c).1
  | LookupWarmish d => (lookup_warmish d c).1
  | InsertWarm d v => insert_warm d v c
  | InsertWarmish d v => insert_warmish d v c
  | Demote d => demote d c
  end.
Definition cache_run {C} (c : MemoryCache C) (ops : list (cache_op C)) : MemoryCache C :=
  foldl cache_step c ops.

(** The value most recently stored under a digest by a history of operations. *)
Definition warm_after {C} (d : string) (last : option (PreparedComponent C)) (op : cache_op C) :=
  match op with
  | InsertWarm k v => if bool_decide (k = d) then Some v else last
  | Demote k => if bool_decide (k = d) then None else last
  | _ => last
  end.
Definition last_warm {C} (d : string) (ops : list (cache_op C)) : option (PreparedComponent C) :=
  foldl (warm_after d) None ops.
Definition warmish_after {C} (max : Z) (d : string) (last : option PreparedAot) (op : cache_op C) :=
  match op with
  | InsertWarmish k v =>
      if bool_decide (k = d) && (blen (aot_bytes v) <=? max) then Some v else last
  | _ => last
  end.
Definition last_warmish {C} (max : Z) (d : string) (ops : list (cache_op C)) : option PreparedAot :=
  foldl (warmish_after max d) None ops.

Lemma evict_warm_subset {C} fuel max (w : gmap string (CacheEntry (PreparedComponent C))) :
  evict_warm fuel max w ⊆ w.
Proof.
  revert w. induction fuel as [|fuel IH]; intros w; cbn [evict_warm]; destruct (negb _); try done.
  destruct (least_recent w) as [k|]; [|apply IH]. etrans; [apply IH|apply delete_subseteq].
Qed.
Lemma evict_warmish_subset fuel max maxb w n : (evict_warmish fuel max maxb w n).1 ⊆ w.
Proof.
  revert w n. induction fuel as [|fuel IH]; intros w n; cbn [evict_warmish];
    destruct (negb _); try done.
  destruct (least_recent w) as [k|]; [|done]. destruct (w !! k) as [e|]; [|apply IH].
  etrans; [apply IH|apply delete_subseteq].
Qed.

Section traces.
Context {C : Type}.
Implicit Types c : MemoryCache C.

Lemma cache_step_ok c op :
  CacheOk c → sequence c < u64_max → CacheOk (cache_step c op) ∧
  sequence (cache_step c op) ≤ sequence c + 1 ∧
  max_warmish_bytes (cache_step c op) = max_warmish_bytes c.
Proof.
  intros Hok Hs. pose proof (ok_sequence c Hok).
  destruct op as [d|d|d v|d v|d]; cbn [cache_step].
  - split; [by apply lookup_warm_ok|]. unfold lookup_warm.
    destruct (warm c !! d); cbn -[next_tick]; rewrite next_tick_succ; split; done || lia.
  - split; [by apply lookup_warmish_ok|]. unfold lookup_warmish.
    destruct (warmish c !! d); cbn -[next_tick]; rewrite next_tick_succ; split; done || lia.
  - split; [by apply insert_warm_ok|]. cbn -[next_tick]. rewrite next_tick_succ; split; done || lia.
  - destruct (decide (blen (aot_bytes v) ≤ max_warmish_bytes c)).
    + split; [by apply insert_warmish_ok|]. unfold insert_warmish.
      rewrite (proj2 (Z.ltb_ge _ _)) by done. destruct (evict_warmish _ _ _ _ _).
      cbn -[next_tick]. rewrite next_tick_succ; split; done || lia.
    + rewrite insert_warmish_oversized by lia. split_and!; done || lia.
  - split; [by apply demote_ok|]. cbn. split; done || lia.
Qed.

(** Values under a digest after one step: unchanged, dropped, or the new one. *)
Lemma cache_step_limits c op :
  max_warm (cache_step c op) = max_warm c ∧ max_warmish (cache_step c op) = max_warmish c
  ∧ max_warmish_bytes (cache_step c op) = max_warmish_bytes c.
Proof.
  destruct op as [d|d|d v|d v|d]; cbn [cache_step]; unfold lookup_warm, lookup_warmish, insert_warmish.
  - by destruct (warm c !! d).
  - by destruct (warmish c !! d).
  - done.
  - destruct (_ <? _); [done|]. by destruct (evict_warmish _ _ _ _ _).
  - done.
Qed.

(** Any operations keep the invariant and the limits. *)
Lemma cache_run_wf c ops :
  CacheOk c → sequence c + Z.of_nat (length ops) ≤ u64_max →
  CacheOk (cache_run c ops) ∧ sequence (cache_run c ops) ≤ sequence c + Z.of_nat (length ops)
  ∧ max_warm (cache_run c ops) = max_warm c ∧ max_warmish (cache_run c ops) = max_warmish c
  ∧ max_warmish_bytes (cache_run c ops) = max_warmish_bytes c.
Proof.
  revert c. induction ops as [|op ops IH]; intros c Hok Hs; cbn [length cache_run foldl] in *.
  { split_and!; done || lia. }
  destruct (cache_step_ok c op) as (Hok' & Hs' & _); [done|lia|].
  destruct (cache_step_limits c op) as (L1 & L2 & L3).
  destruct (IH (cache_step c op) Hok') as (I1 & I2 & I3 & I4 & I5); [lia|]. unfold cache_run in *.
  split_and!; congruence || done || lia.
Qed.

(** An entry of a tier was just stored, or was there before. *)
Lemma warm_origin c op k e :
  warm (cache_step c op) !! k = Some e →
  op = InsertWarm k (value e) ∨ ∃ e0, warm c !! k = Some e0 ∧ value e0 = value e.
Proof.
  destruct op as [d|d|d v|d v|d]; cbn [cache_step].
  - unfold lookup_warm. destruct (warm c !! d) as [e1|] eqn:He; cbn; [|eauto].
    intros [[<- <-]|[_ Hk]]%lookup_insert_Some; eauto.
  - unfold lookup_warmish. destruct (warmish c !! d); cbn; eauto.
  - cbn. intros Hk. eapply lookup_weaken in Hk; [|apply evict_warm_subset].
    apply lookup_insert_Some in Hk as [[<- <-]|[_ Hk]]; eauto.
  - unfold insert_warmish. destruct (_ <? _); [eauto|]. destruct (evict_warmish _ _ _ _ _); cbn; eauto.
  - cbn. intros [_ Hk]%lookup_delete_Some. eauto.
Qed.
Lemma warmish_origin c op k e :
  warmish (cache_step c op) !! k = Some e →
  op = InsertWarmish k (value e) ∨ ∃ e0, warmish c !! k = Some e0 ∧ value e0 = value e.
Proof.
  destruct op as [d|d|d v|d v|d]; cbn [cache_step]; try by (cbn; eauto).
  - unfold lookup_warm. destruct (warm c !! d); cbn; eauto.
  - unfold lookup_warmish. destruct (warmish c !! d) as [e1|] eqn:He; cbn; [|eauto].
    intros [[<- <-]|[_ Hk]]%lookup_insert_Some; eauto.
  - unfold insert_warmish. destruct (_ <? _); [eauto|].
    match goal with |- context [evict_warmish ?f ?a ?b ?w ?n] =>
      pose proof (evict_warmish_subset f a b w n) as Hsub; destruct (evict_warmish f a b w n) as [w' n'] end.
    cbn. intros Hk. eapply lookup_weaken in Hk; [|exact Hsub].
    apply lookup_insert_Some in Hk as [[<- <-]|[_ Hk]]; eauto.
Qed.

Lemma cache_step_values c op d last lastish :
  CacheOk c → sequence c < u64_max →
  (∀ v, value <$> warm c !! d = Some v → last = Some v) →
  (∀ v, value <$> warmish c !! d = Some v → lastish = Some v) →
  (∀ v, value <$> warm (cache_step c op) !! d = Some v → warm_after d last op = Some v) ∧
  (∀ v, value <$> warmish (cache_step c op) !! d = Some v →
        warmish_after (max_warmish_bytes c) d lastish op = Some v).
Proof.
  intros Hok Hs Hw Hwi. destruct op as [k|k|k v|k v|k]; cbn [cache_step warm_after warmish_after].
  - unfold lookup_warm. destruct (warm c !! k) as [e|] eqn:Hk; cbn; (split; [|done]); [|done].
    intros v. destruct (decide (k = d)) as [->|]; [|rewrite lookup_insert_ne by done; apply Hw].
    rewrite lookup_insert_eq. intros [= <-]. apply Hw. by rewrite Hk.
  - unfold lookup_warmish. destruct (warmish c !! k) as [e|] eqn:Hk; cbn; (split; [done|]); [|done].
    intros v. destruct (decide (k = d)) as [->|]; [|rewrite lookup_insert_ne by done; apply Hwi].
    rewrite lookup_insert_eq. intros [= <-]. apply Hwi. by rewrite Hk.
  - destruct (insert_warm_ok k v c Hok Hs) as (_ & Hv & [Hsub _] & Hsame). split; [|done].
    intros u Hu. case_bool_decide as Hkd; [subst; congruence|]. apply Hw.
    apply fmap_Some in Hu as (e & He & ->).
    pose proof (lookup_weaken _ _ _ _ He Hsub) as Hin. rewrite lookup_insert_ne in Hin by done.
    by rewrite Hin.
  - destruct (Z.leb_spec (blen (aot_bytes v)) (max_warmish_bytes c)) as [Hle|Hgt].
    + destruct (insert_warmish_ok k v c Hok Hs Hle) as (_ & Hv & [Hsub _] & Hsame).
      rewrite Hsame. split; [done|]. intros u Hu. rewrite andb_true_r.
      case_bool_decide as Hkd; [subst; congruence|]. apply Hwi.
      apply fmap_Some in Hu as (e & He & ->).
      pose proof (lookup_weaken _ _ _ _ He Hsub) as Hin. rewrite lookup_insert_ne in Hin by done.
      by rewrite Hin.
    + rewrite insert_warmish_oversized by done. rewrite andb_false_r. done.
  - split; [|done]. intros u Hu. cbn in Hu. case_bool_decide as Hkd; subst.
    + by rewrite lookup_delete_eq in Hu.
    + rewrite lookup_delete_ne in Hu by done. by apply Hw.
Qed.

Lemma cache_run_ok c ops d last lastish :
  CacheOk c → sequence c + Z.of_nat (length ops) ≤ u64_max →
  (∀ v, value <$> warm c !! d = Some v → last = Some v) →
  (∀ v, value <$> warmish c !! d = Some v → lastish = Some v) →
  let c' := cache_run c ops in
  CacheOk c' ∧
  (∀ v, value <$> warm c' !! d = Some v → foldl (warm_after d) last ops = Some v) ∧
  (∀ v, value <$> warmish c' !! d = Some v →
        foldl (warmish_after (max_warmish_bytes c) d) lastish ops = Some v).
Proof.
  revert c last lastish. induction ops as [|op ops IH]; intros c last lastish Hok Hs Hw Hwi; [done|].
  cbn [length] in Hs.
  destruct (cache_step_ok c op Hok ltac:(lia)) as (Hok1 & Hs1 & Hmax).
  destruct (cache_step_values c op d last lastish Hok ltac:(lia) Hw Hwi) as [Hw1 Hwi1].
  unfold cache_run. cbn [foldl]. rewrite <- Hmax in *. apply IH; [done|lia|done|done].
Qed.

(** Whatever sequence of lookups, inserts and demotions reaches a new
    cache, it stays within its entry and byte limits with exact byte
    accounting, and a lookup that hits returns the value most recently stored
    under that digest and not demoted since. *)
Theorem cache_trace_sound config ops d :
  1 ≤ max_warm_components config → 1 ≤ max_warmish_entries config →
  0 ≤ config_max_warmish_bytes config → 2 * config_max_warmish_bytes config ≤ usize_max →
  Z.of_nat (length ops) ≤ u64_max →
  let c := cache_run (memory_cache_new (C := C) config) ops in
  CacheOk c ∧
  (∀ v, (lookup_warm d c).2 = Some v → last_warm d ops = Some v) ∧
  (∀ v, (lookup_warmish d c).2 = Some v →
        last_warmish (config_max_warmish_bytes config) d ops = Some v).
Proof.
  intros H1 H2 H3 H4 Hlen c.
  pose proof (memory_cache_new_ok (C := C) config H1 H2 H3 H4) as Hok.
  destruct (cache_run_ok (memory_cache_new config) ops d None None Hok) as (Hc & Hw & Hwi).
  - cbn. lia.
  - intros v. cbn. by rewrite lookup_empty.
  - intros v. cbn. by rewrite lookup_empty.
  - fold c in Hc, Hw, Hwi. split_and!; [done| |].
    + intros v Hv. apply Hw. unfold lookup_warm in Hv. destruct (warm c !! d); by simplify_eq/=.
    + intros v Hv. apply Hwi. unfold lookup_warmish in Hv. destruct (warmish c !! d); by simplify_eq/=.
Qed.

(** Inserting a compiled component keeps it and evicts only entries that
    were used before every entry that stays; the limits and the artifact tier
    are untouched. *)
Theorem insert_warm_lru d v c :
  CacheOk c → sequence c < u64_max →
  let c' := insert_warm d v c in
  CacheOk c' ∧ value <$> warm c' !! d = Some v ∧
  LruPart (<[d := mkEntry v (sequence c + 1)]> (warm c)) (warm c') ∧ warmish c' = warmish c.
Proof. apply insert_warm_ok. Qed.

(** Inserting an artifact that fits the byte limit keeps it, evicts in
    recency order until count and total size are within their limits, and
    keeps the byte count exact. *)
Theorem insert_warmish_lru d v c :
  CacheOk c → sequence c < u64_max → blen (aot_bytes v) ≤ max_warmish_bytes c →
  let c' := insert_warmish d v c in
  CacheOk c' ∧ value <$> warmish c' !! d = Some v ∧
  LruPart (<[d := mkEntry v (sequence c + 1)]> (warmish c)) (warmish c') ∧ warm c' = warm c.
Proof. apply insert_warmish_ok. Qed.

(** The entry chosen for eviction is determined by the map, not by the
    order in which the hash map is iterated: it is the unique entry with the
    smallest use time, ties broken by digest. *)
Theorem least_recent_deterministic {T} (m : gmap string (CacheEntry T)) l :
  l ≡ₚ recencies m →
  least_recent_in l = least_recent m ∧
  (∀ k, least_recent_in l = Some k ↔
    ∃ e, m !! k = Some e ∧
      ∀ k' e', m !! k' = Some e' → k' ≠ k → recency_lt (last_used e, k) (last_used e', k')).
Proof.
  intros Hp. rewrite (least_recent_in_perm _ _ Hp). split; [done|]. intros k.
  split; [apply least_recent_Some|]. intros (e & He & Hmin).
  apply least_recent_in_Some. exists (last_used e). split; [apply elem_of_recencies; eauto|].
  intros [t k'] Hy Hlt. apply elem_of_recencies in Hy as (e' & He' & <-).
  destruct (decide (k' = k)) as [->|Hne].
  - assert (e' = e) as -> by congruence. by apply irreflexivity in Hlt; [|apply _].
  - pose proof (Hmin k' e' He' Hne) as Hgt.
    by apply (irreflexivity recency_lt (last_used e, k)); trans (last_used e', k').
Qed.
End traces.

Module MemoryCacheExample.
Definition config : RuntimeConfig := {|
  max_warm_components := 1; max_warmish_entries := 2; config_max_warmish_bytes := 5;
  background_workers := 1; paused_resident_ttl := 1; epoch_interval := 1;
  disk_cache := None; limits := default_limits |}.
Definition comp (n : Z) : PreparedComponent Z := {| component := n; prepared_profile := Cli0_2 |}.
Definition aot (s : string) : PreparedAot := {| aot_bytes := str_bytes s; aot_profile := Cli0_2 |}.
Definition ops : list (cache_op Z) :=
  [InsertWarmish "a" (aot "xx"); InsertWarm "a" (comp 1); InsertWarmish "b" (aot "yyy");
   LookupWarmish "a"; InsertWarmish "c" (aot "z"); InsertWarm "c" (comp 3)].
Definition cache : MemoryCache Z := cache_run (memory_cache_new config) ops.

Lemma cache_trace_sound_witness :
  CacheOk cache ∧
  (∀ v, (lookup_warm "c" cache).2 = Some v → last_warm "c" ops = Some v) ∧
  (∀ v, (lookup_warmish "c" cache).2 = Some v → last_warmish 5 "c" ops = Some v).
Proof. apply (cache_trace_sound config ops "c"); by vm_compute. Defined.

Lemma insert_warm_lru_witness :
  let c' := insert_warm "d" (comp 9) (memory_cache_new config) in
  CacheOk c' ∧ value <$> warm c' !! "d" = Some (comp 9) ∧
  LruPart (<["d" := mkEntry (comp 9) 1]> ∅) (warm c') ∧ warmish c' = ∅.
Proof.
  apply (insert_warm_lru "d" (comp 9) (memory_cache_new config)); [|by vm_compute].
  apply memory_cache_new_ok; by vm_compute.
Defined.

Lemma insert_warmish_lru_witness :
  let c' := insert_warmish "d" (aot "abc") (memory_cache_new (C := Z) config) in
  CacheOk c' ∧ value <$> warmish c' !! "d" = Some (aot "abc") ∧
  LruPart (<["d" := mkEntry (aot "abc") 1]> ∅) (warmish c') ∧ warm c' = ∅.
Proof.
  apply (insert_warmish_lru "d" (aot "abc") (memory_cache_new config)); [|by vm_compute..].
  apply memory_cache_new_ok; by vm_compute.
Defined.

Lemma least_recent_deterministic_witness :
  least_recent_in (reverse (recencies (warmish cache))) = least_recent (warmish cache) ∧
  (∀ k, least_recent_in (reverse (recencies (warmish cache))) = Some k ↔
    ∃ e, warmish cache !! k = Some e ∧
      ∀ k' e', warmish cache !! k' = Some e' → k' ≠ k →
        recency_lt (last_used e, k) (last_used e', k')).
Proof.
  apply (least_recent_deterministic (warmish cache) (reverse (recencies (warmish cache)))).
  apply reverse_Permutation.
Defined.
End MemoryCacheExample.
