(* ===== verification/LruSpec.v ===== *)
(** The in-memory package cache refines a textbook least-recently-used cache.

    [MemoryCache] of [src/src/runtime.rs] keeps two hash maps whose entries
    carry the value of a wrapping use counter, and evicts by searching for the
    smallest one.  The specification here has no counter: each tier is a list
    of digests and values, most recently used first.  A hit moves its entry to
    the front, an insertion puts its entry there and keeps the longest prefix
    within the limits. *)
From S2P Require Import Prelude Types MemoryCache.

Local Open Scope Z_scope.

(** ** The specification *)

Section recency_list.
Context {V : Type}.
Implicit Types l : list (string * V).

Fixpoint find (k : string) l : option V :=
  match l with
  | [] => None
  | (k', v) :: l' => if bool_decide (k' = k) then Some v else find k l'
  end.
Definition forget (k : string) l : list (string * V) := filter (λ kv, kv.1 ≠ k) l.
(** Use an entry: it becomes the most recent one. *)
Definition touch (k : string) l : list (string * V) :=
  match find k l with
  | Some v => (k, v) :: forget k l
  | None => l
  end.

(** The longest prefix of at most [count] entries that cost at most [budget]. *)
Fixpoint keep (cost : V → Z) (count budget : Z) l : list (string * V) :=
  match l with
  | [] => []
  | kv :: l' =>
      if (1 <=? count) && (cost kv.2 <=? budget)
      then kv :: keep cost (count - 1) (budget - cost kv.2) l'
      else []
  end.
End recency_list.

Record LruCache (C : Type) := {
  recent_warm : list (string * PreparedComponent C);
  recent_warmish : list (string * PreparedAot);
}.
Arguments recent_warm {C}.
Arguments recent_warmish {C}.

(** What an operation tells its caller. *)
Inductive answer (C : Type) :=
| NoAnswer
| WarmAnswer (found : option (PreparedComponent C))
| WarmishAnswer (found : option PreparedAot).
Arguments NoAnswer {C}.
Arguments WarmAnswer {C}.
Arguments WarmishAnswer {C}.

Definition artifact_size (a : PreparedAot) : Z := blen (aot_bytes a).

Definition lru_step {C} (config : RuntimeConfig) (s : LruCache C) (op : cache_op C) : LruCache C :=
  let warm := recent_warm s in
  let warmish := recent_warmish s in
  match op with
  | LookupWarm d => {| recent_warm := touch d warm; recent_warmish := warmish |}
  | LookupWarmish d => {| recent_warm := warm; recent_warmish := touch d warmish |}
  | InsertWarm d v =>
      {| recent_warm := take (Z.to_nat (max_warm_components config)) ((d, v) :: forget d warm);
         recent_warmish := warmish |}
  | InsertWarmish d v =>
      if artifact_size v <=? config_max_warmish_bytes config then
        {| recent_warm := warm;
           recent_warmish := keep artifact_size (max_warmish_entries config)
             (config_max_warmish_bytes config) ((d, v) :: forget d warmish) |}
      else s
  | Demote d => {| recent_warm := forget d warm; recent_warmish := warmish |}
  end.
Definition lru_answer {C} (s : LruCache C) (op : cache_op C) : answer C :=
  match op with
  | LookupWarm d => WarmAnswer (find d (recent_warm s))
  | LookupWarmish d => WarmishAnswer (find d (recent_warmish s))
  | _ => NoAnswer
  end.
Fixpoint lru_answers {C} config (s : LruCache C) (ops : list (cache_op C)) : list (answer C) :=
  match ops with
  | [] => []
  | op :: ops' => lru_answer s op :: lru_answers config (lru_step config s op) ops'
  end.

(** The answers of the code. *)
Definition cache_answer {C} (c : MemoryCache C) (op : cache_op C) : answer C :=
  match op with
  | LookupWarm d => WarmAnswer (lookup_warm d c).2
  | LookupWarmish d => WarmishAnswer (lookup_warmish d c).2
  | _ => NoAnswer
  end.
Fixpoint cache_answers {C} (c : MemoryCache C) (ops : list (cache_op C)) : list (answer C) :=
  match ops with
  | [] => []
  | op :: ops' => cache_answer c op :: cache_answers (cache_step c op) ops'
  end.

(** ** One tier as a recency list *)

Lemma strongly_sorted_filter {A} (R : relation A) (P : A → Prop) `{!∀ x, Decision (P x)} l :
  StronglySorted R l → StronglySorted R (filter P l).
Proof.
  induction 1 as [|x l Hs IH Hx]; [constructor|]. rewrite filter_cons.
  case_decide; [|done]. constructor; [done|].
  apply Forall_forall. intros y [_ Hy]%list_elem_of_filter. by eapply Forall_forall in Hx.
Qed.

Section tier.
Context {T : Type}.
Implicit Types m : gmap string (CacheEntry T).
Implicit Types es : list (string * CacheEntry T).

Definition newer (a b : string * CacheEntry T) : Prop := last_used b.2 < last_used a.2.
#[global] Instance newer_transitive : Transitive newer.
Proof. unfold newer. intros ???. lia. Qed.

(** The list has the entries of the map, the most recently used one first. *)
Record Held m es : Prop := {
  held_entries : ∀ k e, (k, e) ∈ es ↔ m !! k = Some e;
  held_sorted : StronglySorted newer es;
}.
(** The same without the use times, as the specification keeps it. *)
Definition values es : list (string * T) := (λ ke, (ke.1, value ke.2)) <$> es.
Definition Tier m (l : list (string * T)) : Prop := ∃ es, Held m es ∧ l = values es.

Lemma held_empty : Held ∅ [].
Proof. split; [|constructor]. intros k e. rewrite lookup_empty. set_solver. Qed.

Lemma held_snoc m es x :
  Held m (es ++ [x]) →
  m !! x.1 = Some x.2 ∧ least_recent m = Some x.1 ∧ Held (delete x.1 m) es.
Proof.
  destruct x as [k e]; cbn. intros [Hent Hsort].
  apply StronglySorted_app in Hsort as (Hall & Hes & _).
  assert (m !! k = Some e) as Hk by (apply Hent; set_solver).
  assert (∀ k' e', m !! k' = Some e' → k' ≠ k → last_used e < last_used e') as Hold.
  { intros k' e' Hk' Hne. apply Hent, elem_of_app in Hk' as [Hin|Hin]; [|set_solver].
    by apply (Hall (k', e') (k, e)); [|set_solver]. }
  split_and!; [done| |split; [|done]].
  - apply least_recent_in_Some. exists (last_used e). split; [apply elem_of_recencies; eauto|].
    intros [t k'] (e' & He' & <-)%elem_of_recencies. rewrite recency_lt_iff. cbn.
    destruct (decide (k' = k)) as [->|Hne]; [|pose proof (Hold _ _ He' Hne); lia].
    simplify_eq. intros [?|[_ Hlt]]; [lia|]. by apply irreflexivity in Hlt; [|apply _].
  - intros k' e'. rewrite lookup_delete_Some, <- Hent, elem_of_app, list_elem_of_singleton. split.
    + intros Hin. split; [|by left]. intros <-.
      assert (m !! k = Some e') as Hk' by (apply Hent; set_solver). simplify_eq.
      pose proof (Hall (k, e) (k, e) Hin ltac:(set_solver)) as Hlt. unfold newer in Hlt. lia.
    + intros [Hne [Hin|[= -> ->]]]; done.
Qed.

Lemma held_size m es : Held m es → size m = length es.
Proof.
  revert m. induction es as [|x es IH] using rev_ind; intros m Hh.
  { destruct Hh as [Hent _]. cbn. apply map_size_empty_iff, map_empty. intros k.
    apply eq_None_not_Some. intros [e He%Hent]. set_solver. }
  destruct (held_snoc _ _ _ Hh) as (Hx & _ & Hd). pose proof (IH _ Hd) as Hs.
  rewrite map_size_delete_Some in Hs by eauto. rewrite length_app. cbn.
  assert (size m ≠ 0%nat) by (apply map_size_non_empty_iff; intros ->; by rewrite lookup_empty in Hx).
  lia.
Qed.

Lemma held_filter m es k : Held m es → Held (delete k m) (filter (λ kv, kv.1 ≠ k) es).
Proof.
  intros [Hent Hsort]. split.
  - intros k' e. rewrite list_elem_of_filter, lookup_delete_Some, <- Hent. naive_solver.
  - by apply strongly_sorted_filter.
Qed.

(** Storing under the next use time puts the entry in front. *)
Lemma held_insert m es k v s :
  Held m es → (∀ k' e, m !! k' = Some e → last_used e ≤ s) →
  Held (<[k := mkEntry v (s + 1)]> m)
    ((k, mkEntry v (s + 1)) :: filter (λ kv, kv.1 ≠ k) es).
Proof.
  intros Hh Hticks. destruct (held_filter _ _ k Hh) as [Hent Hsort]. split.
  - intros k' e. rewrite elem_of_cons, Hent, lookup_delete_Some, lookup_insert_Some. naive_solver.
  - constructor; [done|]. apply Forall_forall. intros [k' e] [_ He]%Hent%lookup_delete_Some.
    pose proof (Hticks _ _ He). unfold newer. cbn. lia.
Qed.

Lemma values_filter es k :
  values (filter (λ kv, kv.1 ≠ k) es) = forget k (values es).
Proof.
  unfold values, forget. induction es as [|[k' e] es IH]; [done|].
  rewrite fmap_cons, !filter_cons. cbn. case_decide; [|done]. cbn. by rewrite IH.
Qed.

Lemma find_values es k :
  find k (values es) = None ∧ (∀ e, (k, e) ∉ es)
  ∨ ∃ e, find k (values es) = Some (value e) ∧ (k, e) ∈ es.
Proof.
  induction es as [|[k' e'] es IH]; [left; split; [done|set_solver]|].
  change (values ((k', e') :: es)) with ((k', value e') :: values es). cbn [find].
  case_bool_decide as Hk; [subst; right; exists e'; set_solver|].
  destruct IH as [[-> Hno]|(e & -> & He)]; [left|right; exists e; set_solver].
  split; [done|]. intros e [[= -> ->]|He]%elem_of_cons; [done|by eapply Hno].
Qed.

(** What the client of a tier needs. *)
Lemma tier_empty : Tier ∅ [].
Proof. exists []. split; [apply held_empty|done]. Qed.
Lemma tier_find m l k : Tier m l → find k l = value <$> m !! k.
Proof.
  intros (es & [Hent _] & ->). destruct (find_values es k) as [[-> Hno]|(e & -> & He)].
  - destruct (m !! k) as [e|] eqn:Hk; [|done]. by apply Hent, Hno in Hk.
  - apply Hent in He. by rewrite He.
Qed.
Lemma tier_size m l : Tier m l → size m = length l.
Proof. intros (es & Hh & ->). unfold values. rewrite length_fmap. by apply held_size. Qed.
Lemma tier_delete m l k : Tier m l → Tier (delete k m) (forget k l).
Proof.
  intros (es & Hh & ->). exists (filter (λ kv, kv.1 ≠ k) es).
  split; [by apply held_filter|]. by rewrite values_filter.
Qed.
Lemma tier_insert m l k v s :
  Tier m l → (∀ k' e, m !! k' = Some e → last_used e ≤ s) →
  Tier (<[k := mkEntry v (s + 1)]> m) ((k, v) :: forget k l).
Proof.
  intros (es & Hh & ->) Hticks. eexists. split; [by apply held_insert|].
  cbn. by rewrite <- values_filter.
Qed.
Lemma tier_touch m l k e s :
  Tier m l → (∀ k' e, m !! k' = Some e → last_used e ≤ s) → m !! k = Some e →
  Tier (<[k := mkEntry (value e) (s + 1)]> m) (touch k l).
Proof.
  intros Ht Hticks Hk. unfold touch. rewrite (tier_find _ _ k Ht), Hk. cbn. by apply tier_insert.
Qed.
Lemma tier_touch_miss m l k : Tier m l → m !! k = None → Tier m (touch k l).
Proof. intros Ht Hk. unfold touch. by rewrite (tier_find _ _ k Ht), Hk. Qed.
(** The last entry of the list is the one the code would evict. *)
Lemma tier_snoc m l k v :
  Tier m (l ++ [(k, v)]) →
  ∃ e, m !! k = Some e ∧ value e = v ∧ least_recent m = Some k ∧ Tier (delete k m) l.
Proof.
  intros (es & Hh & Hes). destruct es as [|[k' e] es _] using rev_ind; [by destruct l|].
  unfold values in Hes. rewrite fmap_app in Hes. apply app_inj_tail in Hes as [-> [= -> ->]].
  destruct (held_snoc _ _ _ Hh) as (Hk & Hlr & Hd). cbn in *. exists e.
  split_and!; [done..|]. by exists es.
Qed.
End tier.

(** ** Eviction *)

Lemma take_snoc_over {A} n (l : list A) x : (n < length (l ++ [x]))%nat → take n (l ++ [x]) = take n l.
Proof. rewrite length_app. cbn. intros. apply take_app_le. lia. Qed.

(** The eviction loop of the component tier keeps the first entries. *)
Lemma evict_warm_take {C} fuel max (w : gmap string (CacheEntry (PreparedComponent C))) l :
  (length l <= fuel)%nat → 0 ≤ max → Tier w l →
  Tier (evict_warm fuel max w) (take (Z.to_nat max) l).
Proof.
  revert fuel w. induction l as [|[k v] l IH] using rev_ind; intros fuel w Hf Hmax Ht;
    pose proof (tier_size _ _ Ht) as Hsz.
  { rewrite take_nil. destruct fuel; cbn [evict_warm]; rewrite Hsz, (proj2 (Z.ltb_ge _ _)) by done;
      done. }
  destruct fuel as [|fuel]; [rewrite length_app in Hf; cbn in Hf; lia|]. cbn [evict_warm].
  destruct (Z.ltb_spec max (Z.of_nat (size w))) as [Hlt|Hge]; cbn [negb]; [|by rewrite take_ge by lia].
  destruct (tier_snoc _ _ _ _ Ht) as (e & _ & _ & -> & Hd). rewrite take_snoc_over by lia.
  apply IH; [rewrite length_app in Hf; cbn in Hf; lia|done|done].
Qed.

Section keep.
Context {V : Type} (cost : V → Z).
Implicit Types l : list (string * V).
Definition total_cost l : Z := zsum (λ kv, cost kv.2) l.

Lemma total_cost_cons kv l : total_cost (kv :: l) = cost kv.2 + total_cost l.
Proof. done. Qed.
Lemma total_cost_snoc l kv : total_cost (l ++ [kv]) = total_cost l + cost kv.2.
Proof. unfold total_cost. rewrite zsum_app. cbn. lia. Qed.

Hypothesis cost_nonneg : ∀ v, 0 ≤ cost v.

Lemma keep_all count budget l :
  Z.of_nat (length l) ≤ count → total_cost l ≤ budget → keep cost count budget l = l.
Proof.
  revert count budget. induction l as [|kv l IH]; intros count budget Hc Hb; [done|].
  assert (0 ≤ total_cost l) by (apply zsum_nonneg; intros; apply cost_nonneg).
  rewrite total_cost_cons in Hb. cbn [length keep] in *.
  rewrite (proj2 (Z.leb_le _ _)), (proj2 (Z.leb_le _ _)) by lia. cbn. rewrite IH; [done|lia|lia].
Qed.
Lemma keep_snoc count budget l kv :
  count < Z.of_nat (length (l ++ [kv])) ∨ budget < total_cost (l ++ [kv]) →
  keep cost count budget (l ++ [kv]) = keep cost count budget l.
Proof.
  revert count budget. induction l as [|x l IH]; intros count budget Hover; cbn [app] in *;
    rewrite total_cost_cons in Hover; cbn [length keep] in *.
  - destruct (Z.leb_spec 1 count); [|done]. destruct (Z.leb_spec (cost kv.2) budget); [|done].
    unfold total_cost in Hover. cbn in Hover. lia.
  - destruct (_ && _); [|done]. f_equal. apply IH. lia.
Qed.
End keep.

Lemma tier_total_bytes w l : Tier w l → total_bytes w = total_cost artifact_size l.
Proof.
  revert w. induction l as [|[k v] l IH] using rev_ind; intros w Ht.
  { assert (w = ∅) as -> by (apply map_size_empty_inv, (tier_size _ _ Ht)). done. }
  destruct (tier_snoc _ _ _ _ Ht) as (e & He & Hv & _ & Hd).
  rewrite (total_bytes_delete w k e He), (IH _ Hd), total_cost_snoc. cbn. subst v.
  unfold aot_len, artifact_size. lia.
Qed.

(** The eviction loop of the artifact tier keeps the longest prefix that fits. *)
Lemma evict_warmish_keep fuel max max_bytes w l :
  (length l <= fuel)%nat → Tier w l →
  let '(w', n) := evict_warmish fuel max max_bytes w (total_bytes w) in
  Tier w' (keep artifact_size max max_bytes l) ∧ n = total_bytes w'.
Proof.
  revert fuel w. induction l as [|[k v] l IH] using rev_ind; intros fuel w Hf Ht;
    pose proof (tier_size _ _ Ht) as Hsz; pose proof (tier_total_bytes _ _ Ht) as Htot.
  { assert (w = ∅) as -> by by apply map_size_empty_inv.
    by destruct fuel; cbn [evict_warmish]; destruct (negb _). }
  destruct fuel as [|fuel]; [rewrite length_app in Hf; cbn in Hf; lia|]. cbn [evict_warmish].
  destruct ((max <? Z.of_nat (size w)) || (max_bytes <? total_bytes w)) eqn:Hover; cbn [negb].
  2: { bool_inv. rewrite keep_all; [done|intros; apply blen_nonneg|lia|lia]. }
  destruct (tier_snoc _ _ _ _ Ht) as (e & He & Hv & -> & Hd). rewrite He.
  rewrite keep_snoc by (apply orb_true_iff in Hover; rewrite !Z.ltb_lt in Hover; rewrite <- Hsz, <- Htot; lia).
  replace (saturating_sub (total_bytes w) (blen (aot_bytes (value e)))) with (total_bytes (delete k w)).
  - apply IH; [rewrite length_app in Hf; cbn in Hf; lia|done].
  - pose proof (total_bytes_delete w k e He). pose proof (total_bytes_nonneg (delete k w)).
    unfold saturating_sub, aot_len in *. lia.
Qed.

(** ** The simulation *)

(** The two tiers as the specification sees them, under the limits of the
    configuration. *)
Record Refines {C} (config : RuntimeConfig) (c : MemoryCache C) (s : LruCache C) : Prop := {
  ref_ok : CacheOk c;
  ref_warm : Tier (warm c) (recent_warm s);
  ref_warmish : Tier (warmish c) (recent_warmish s);
  ref_max_warm : max_warm c = max_warm_components config;
  ref_max_warmish : max_warmish c = max_warmish_entries config;
  ref_max_bytes : max_warmish_bytes c = config_max_warmish_bytes config;
}.

Section simulation.
Context {C : Type} (config : RuntimeConfig).
Implicit Types c : MemoryCache C.

Definition lru_new : LruCache C := {| recent_warm := []; recent_warmish := [] |}.

Lemma refines_answer c s op : Refines config c s → cache_answer c op = lru_answer s op.
Proof.
  intros [_ Hw Hwi _ _ _]. destruct op as [d|d|d v|d v|d]; cbn [cache_answer lru_answer]; [| |done..].
  - rewrite (tier_find _ _ d Hw). unfold lookup_warm. by destruct (warm c !! d).
  - rewrite (tier_find _ _ d Hwi). unfold lookup_warmish. by destruct (warmish c !! d).
Qed.

Lemma lookup_warm_tiers d c l :
  CacheOk c → sequence c < u64_max → Tier (warm c) l →
  Tier (warm (lookup_warm d c).1) (touch d l) ∧ warmish (lookup_warm d c).1 = warmish c.
Proof.
  intros [] Hs Ht. unfold lookup_warm. rewrite next_tick_succ by done.
  destruct (warm c !! d) as [e|] eqn:He; cbn; (split; [|done]); [by apply tier_touch|].
  by apply tier_touch_miss.
Qed.
Lemma lookup_warmish_tiers d c l :
  CacheOk c → sequence c < u64_max → Tier (warmish c) l →
  Tier (warmish (lookup_warmish d c).1) (touch d l) ∧ warm (lookup_warmish d c).1 = warm c.
Proof.
  intros [] Hs Ht. unfold lookup_warmish. rewrite next_tick_succ by done.
  destruct (warmish c !! d) as [e|] eqn:He; cbn; (split; [|done]); [by apply tier_touch|].
  by apply tier_touch_miss.
Qed.
Lemma insert_warm_tier d v c l :
  CacheOk c → sequence c < u64_max → Tier (warm c) l →
  Tier (warm (insert_warm d v c)) (take (Z.to_nat (max_warm c)) ((d, v) :: forget d l)).
Proof.
  intros [] Hs Ht. unfold insert_warm. rewrite next_tick_succ by done. cbn [warm set_warm].
  assert (Tier (<[d := mkEntry v (sequence c + 1)]> (warm c)) ((d, v) :: forget d l)) as Hins
    by by apply tier_insert.
  apply evict_warm_take; [by rewrite (tier_size _ _ Hins)|lia|done].
Qed.
Lemma insert_warmish_tier d v c l :
  CacheOk c → sequence c < u64_max → artifact_size v ≤ max_warmish_bytes c → Tier (warmish c) l →
  Tier (warmish (insert_warmish d v c))
    (keep artifact_size (max_warmish c) (max_warmish_bytes c) ((d, v) :: forget d l)).
Proof.
  intros Hok Hs Hv Ht. unfold insert_warmish. rewrite (proj2 (Z.ltb_ge _ _)) by done. cbn zeta.
  rewrite (insert_warmish_bytes d v c (next_tick (sequence c))) by done. destruct Hok. rewrite next_tick_succ by done.
  set (w := <[d := mkEntry v (sequence c + 1)]> (warmish c)).
  assert (Tier w ((d, v) :: forget d l)) as Hins by by apply tier_insert.
  pose proof (evict_warmish_keep (size w) (max_warmish c) (max_warmish_bytes c) w _
    ltac:(by rewrite (tier_size _ _ Hins)) Hins) as Hev.
  destruct (evict_warmish _ _ _ _ _) as [w' n]. by destruct Hev.
Qed.

Lemma refines_step c s op :
  Refines config c s → sequence c < u64_max →
  Refines config (cache_step c op) (lru_step config s op) ∧ sequence (cache_step c op) ≤ sequence c + 1.
Proof.
  intros [Hok Hw Hwi M1 M2 M3] Hs. destruct (cache_step_ok c op Hok Hs) as (Hok' & Hs' & _).
  destruct (cache_step_limits c op) as (L1 & L2 & L3). split; [|done].
  enough (Tier (warm (cache_step c op)) (recent_warm (lru_step config s op)) ∧
          Tier (warmish (cache_step c op)) (recent_warmish (lru_step config s op))) as [Hw' Hwi']
    by (split; congruence || done).
  destruct op as [d|d|d v|d v|d]; cbn [cache_step lru_step].
  - destruct (lookup_warm_tiers d c _ Hok Hs Hw) as [Ht ->]. done.
  - destruct (lookup_warmish_tiers d c _ Hok Hs Hwi) as [Ht ->]. done.
  - rewrite <- M1. split; [by apply insert_warm_tier|done].
  - rewrite <- M2, <- M3. destruct (Z.leb_spec (artifact_size v) (max_warmish_bytes c)) as [Hle|Hgt].
    + destruct (insert_warmish_ok d v c Hok Hs Hle) as (_ & _ & _ & ->).
      split; [done|by apply insert_warmish_tier].
    + by rewrite insert_warmish_oversized.
  - split; [by apply tier_delete|done].
Qed.

Lemma refines_run c s ops :
  Refines config c s → sequence c + Z.of_nat (length ops) ≤ u64_max →
  Refines config (cache_run c ops) (foldl (lru_step config) s ops) ∧
  cache_answers c ops = lru_answers config s ops.
Proof.
  revert c s. induction ops as [|op ops IH]; intros c s Hr Hs; [done|].
  cbn [cache_answers lru_answers length cache_run foldl] in *.
  destruct (refines_step c s op Hr ltac:(lia)) as [Hr' Hs'].
  destruct (IH _ _ Hr' ltac:(lia)) as [Hr'' ->]. by rewrite (refines_answer c s op Hr).
Qed.
End simulation.

(** C25: whatever lookups, inserts and demotions reach a new cache, it answers
    every lookup exactly as the recency-list cache does.  Afterwards each tier
    holds precisely the entries of its list, in the order of their use times,
    and the entry and byte limits and the byte count hold. *)
Theorem memory_cache_refines_lru {C} config (ops : list (cache_op C)) :
  1 ≤ max_warm_components config → 1 ≤ max_warmish_entries config →
  0 ≤ config_max_warmish_bytes config → 2 * config_max_warmish_bytes config ≤ usize_max →
  Z.of_nat (length ops) ≤ u64_max →
  cache_answers (memory_cache_new config) ops = lru_answers config lru_new ops ∧
  Refines config (cache_run (memory_cache_new config) ops) (foldl (lru_step config) lru_new ops).
Proof.
  intros H1 H2 H3 H4 Hlen.
  destruct (refines_run config (memory_cache_new (C := C) config) lru_new ops) as [Hr Ha]; [|done|done].
  split; [by apply memory_cache_new_ok|apply tier_empty|apply tier_empty|done..].
Qed.

Module LruExample.
Import MemoryCacheExample.
(** [a] is used after [b], so inserting [c] evicts [b]. *)
Definition probes : list (cache_op Z) :=
  ops ++ [LookupWarmish "a"; LookupWarmish "b"; LookupWarm "a"; LookupWarm "c"].

Lemma probes_answers :
  drop 6 (cache_answers (memory_cache_new config) probes) =
  [WarmishAnswer (Some (aot "xx")); WarmishAnswer None; WarmAnswer None; WarmAnswer (Some (comp 3))].
Proof. by vm_compute. Qed.

Lemma memory_cache_refines_lru_witness :
  cache_answers (memory_cache_new config) probes = lru_answers config lru_new probes ∧
  Refines config (cache_run (memory_cache_new config) probes) (foldl (lru_step config) lru_new probes).
Proof. apply (memory_cache_refines_lru config probes); by vm_compute. Defined.
End LruExample.
