(* ===== verification/DiskCache.v ===== *)
(** The authenticated AOT cache on disk ([src/src/cache.rs]).  The file system
    is a map from paths to contents and permission bits; every call consumes
    one entry of a schedule that says whether it fails, and a failing write
    leaves a prefix behind.  The temporary-name counter is part of the state. *)
From S2P Require Import Prelude Errors Interfaces Streams Types.

Local Open Scope Z_scope.

Definition CACHE_DOMAIN : list byte := str_bytes "runtrue-wasm-runtime.aot.v1" ++ [x00].

Record CacheIdentity := {
  id_format : Z;
  id_component_digest : string;
  id_profile : string;
  id_wasmtime_version : string;
  id_target : string;
  id_compiler_profile : string;
}.
#[global] Instance cache_identity_eq : EqDecision CacheIdentity.
Proof. solve_decision. Defined.

Record CacheMetadata := {
  cm_identity : CacheIdentity;
  cm_artifact_len : Z;
  cm_authentication_tag : string;
}.
#[global] Instance cache_metadata_eq : EqDecision CacheMetadata.
Proof. solve_decision. Defined.

Record DiskCache := {
  disk_config : DiskCacheConfig;
  disk_target : string;
}.

(** ** The file system *)

Record file := { content : list byte; mode : Z }.
Record fault := { fault_message : string; fault_written : nat }.

Record World := {
  files : gmap string file;
  directories : gmap string Z;
  temp_sequence : Z;
  schedule : list (option fault);
}.

Definition set_files (f : gmap string file) (w : World) : World :=
  {| files := f; directories := directories w; temp_sequence := temp_sequence w;
     schedule := schedule w |}.
Definition set_directories (d : gmap string Z) (w : World) : World :=
  {| files := files w; directories := d; temp_sequence := temp_sequence w;
     schedule := schedule w |}.

(** The outcome of the next call. *)
Definition next_call (w : World) : World * option fault :=
  match schedule w with
  | [] => (w, None)
  | o :: s => ({| files := files w; directories := directories w;
                  temp_sequence := temp_sequence w; schedule := s |}, o)
  end.

Definition not_found : string := "No such file or directory (os error 2)".

Class Host := { process_id : Z; default_mode : Z }.

Section file_system.
Context `{Host}.

Definition fs_read (path : string) (w : World) : World * result string (list byte) :=
  let '(w, o) := next_call w in
  match o with
  | Some f => (w, Err (fault_message f))
  | None => match files w !! path with
            | Some x => (w, Ok (content x))
            | None => (w, Err not_found)
            end
  end.

Definition write_content (path : string) (b : list byte) (w : World) : World :=
  let m := match files w !! path with Some x => mode x | None => default_mode end in
  set_files (<[path := {| content := b; mode := m |}]> (files w)) w.

Definition fs_write (path : string) (b : list byte) (w : World) : World * result string unit :=
  let '(w, o) := next_call w in
  match o with
  | Some f => (write_content path (take (fault_written f) b) w, Err (fault_message f))
  | None => (write_content path b w, Ok tt)
  end.

Definition fs_set_permissions (path : string) (m : Z) (w : World) : World * result string unit :=
  let '(w, o) := next_call w in
  match o with
  | Some f => (w, Err (fault_message f))
  | None =>
      match files w !! path, directories w !! path with
      | Some x, _ => (set_files (<[path := {| content := content x; mode := m |}]> (files w)) w, Ok tt)
      | None, Some _ => (set_directories (<[path := m]> (directories w)) w, Ok tt)
      | None, None => (w, Err not_found)
      end
  end.

Definition fs_rename (from to : string) (w : World) : World * result string unit :=
  let '(w, o) := next_call w in
  match o with
  | Some f => (w, Err (fault_message f))
  | None =>
      match files w !! from with
      | Some x => (set_files (<[to := x]> (delete from (files w))) w, Ok tt)
      | None => (w, Err not_found)
      end
  end.

Definition fs_create_dir_all (path : string) (w : World) : World * result string unit :=
  let '(w, o) := next_call w in
  match o with
  | Some f => (w, Err (fault_message f))
  | None =>
      match directories w !! path with
      | Some _ => (w, Ok tt)
      | None => (set_directories (<[path := default_mode]> (directories w)) w, Ok tt)
      end
  end.

(** [Path::exists] and [Path::is_file]: a failed lookup counts as absent. *)
Definition path_exists (path : string) (w : World) : World * bool :=
  let '(w, o) := next_call w in
  match o with
  | Some _ => (w, false)
  | None => (w, bool_decide (is_Some (files w !! path) ∨ is_Some (directories w !! path)))
  end.
Definition path_is_file (path : string) (w : World) : World * bool :=
  let '(w, o) := next_call w in
  match o with
  | Some _ => (w, false)
  | None => (w, bool_decide (is_Some (files w !! path)))
  end.
End file_system.

(** ** Paths *)

(** The bytes before and after the last occurrence of a separator. *)
Fixpoint split_last (sep : byte) (l : list byte) : option (list byte * list byte) :=
  match l with
  | [] => None
  | b :: l' =>
      match split_last sep l' with
      | Some (x, y) => Some (b :: x, y)
      | None => if bool_decide (b = sep) then Some ([], l') else None
      end
  end.

(** [Path::join] of one component. *)
Definition path_join (root name : string) : string :=
  if bool_decide (head (str_bytes name) = Some "/"%byte) then name
  else if bool_decide (root = EmptyString) then name
  else if bool_decide (last (str_bytes root) = Some "/"%byte) then root +:+ name
  else root +:+ "/" +:+ name.

(** [Path::with_extension]: replaces what follows the last dot of the file
    name, if a nonempty stem precedes it. *)
Definition with_extension (path ext : string) : string :=
  let '(dir, name) := match split_last "/" (str_bytes path) with
                      | Some (d, n) => (d ++ ["/"%byte], n)
                      | None => ([], str_bytes path)
                      end in
  let stem := match split_last "." name with
              | Some (s, _) => if bool_decide (s = []) then name else s
              | None => name
              end in
  String.string_of_list_byte (dir ++ stem ++ ["."%byte] ++ str_bytes ext).

(** ** Operations *)

Definition WASMTIME_VERSION : string := "46.0.3".
Definition PRIMARY_WASI_VERSION : string := "0.3.0".
Lemma primary_profiles_named :
  cache_id Cli0_3 = "wasi-cli-command-" +:+ PRIMARY_WASI_VERSION ∧
  cache_id Http0_3 = "wasi-http-service-" +:+ PRIMARY_WASI_VERSION.
Proof. done. Qed.

Section operations.
Context `{Crypto} `{Host}.
Context {JI : Json CacheIdentity} {JM : Json CacheMetadata}.
Implicit Types c : DiskCache.

Definition io_error (m : string) : Error := Io m.
Definition lift_io {A} (r : World * result string A) : World * Result A :=
  (r.1, map_err io_error r.2).

Definition component_digest (b : list byte) : string := sha256_hex b.

(** Modes [0o700] and [0o600]. *)
Definition set_private_directory (path : string) (w : World) : World * Result unit :=
  lift_io (fs_set_permissions path 448 w).
Definition set_private_file (path : string) (w : World) : World * Result unit :=
  lift_io (fs_set_permissions path 384 w).

Definition disk_prepare (config : DiskCacheConfig) (target : string) (w : World)
    : World * Result DiskCache :=
  if max_entry_bytes config =? 0
  then (w, Err (Configuration "disk cache entry limit must be positive"))
  else
    let? (w, _x) := lift_io (fs_create_dir_all (root config) w) in
    let? (w, _x) := set_private_directory (root config) w in
    (w, Ok {| disk_config := config; disk_target := target |}).

Definition profile_stem (p : WasiProfile) : string :=
  match p with
  | Cli0_3 => "cli-p3"
  | Cli0_2 => "cli-p2"
  | Http0_3 => "http-p3"
  | Http0_2 => "http-p2"
  end.
Definition paths c (digest : string) (p : WasiProfile) : string * string :=
  let stem := digest +:+ "-" +:+ profile_stem p in
  (path_join (root (disk_config c)) (stem +:+ ".aot"),
   path_join (root (disk_config c)) (stem +:+ ".aot.json")).

Definition identity c (digest : string) (p : WasiProfile) : CacheIdentity := {|
  id_format := 1;
  id_component_digest := digest;
  id_profile := cache_id p;
  id_wasmtime_version := WASMTIME_VERSION;
  id_target := disk_target c;
  id_compiler_profile := "cranelift-speed-and-size;component-async;fuel;epoch;baseline";
|}.

Definition cache_authentication_tag c (i : CacheIdentity) (artifact : list byte) : Result Mac :=
  mac ← ok_or (mac_new (disk_authentication_key (disk_config c)))
          (Cache "authentication key is invalid");
  let mac := mac_update mac CACHE_DOMAIN in
  encoded ← map_err (λ e, Cache ("identity encoding failed: " +:+ e)) (to_vec i);
  Ok (mac_update (mac_update mac encoded) artifact).

Definition contains c (digest : string) (p : WasiProfile) (w : World) : World * bool :=
  let '(artifact, metadata) := paths c digest p in
  let '(w, a) := path_is_file artifact w in
  if a then path_is_file metadata w else (w, false).

Definition load c (digest : string) (p : WasiProfile) (w : World)
    : World * Result (option (list byte)) :=
  let id := identity c digest p in
  let '(artifact_path, metadata_path) := paths c digest p in
  let '(w, a) := path_exists artifact_path w in
  let '(w, absent) := if a then (w, false)
                      else let '(w, m) := path_exists metadata_path w in (w, negb m) in
  if absent then (w, Ok None)
  else
    let '(w, r) := fs_read metadata_path w in
    match map_err (λ e, Cache ("metadata read failed: " +:+ e)) r with
    | Err e => (w, Err e)
    | Ok metadata_bytes =>
        match (metadata ← map_err (λ e, Cache ("metadata is malformed: " +:+ e))
                            (from_slice (A := CacheMetadata) metadata_bytes);
               _ ← reject_if (negb (bool_decide (cm_identity metadata = id)))
                     (Cache "artifact identity is incompatible");
               _ ← reject_if (max_entry_bytes (disk_config c) <? cm_artifact_len metadata)
                     (Cache "artifact exceeds the configured limit");
               Ok metadata) with
        | Err e => (w, Err e)
        | Ok metadata =>
            let '(w, r) := fs_read artifact_path w in
            (w, artifact ← map_err (λ e, Cache ("artifact read failed: " +:+ e)) r;
                _ ← reject_if (negb (blen artifact =? cm_artifact_len metadata))
                      (Cache "artifact length does not match metadata");
                expected ← cache_authentication_tag c id artifact;
                supplied ← ok_or (hex_decode (cm_authentication_tag metadata))
                             (Cache "authentication tag is malformed");
                _ ← reject_if (negb (mac_verify_slice expected supplied))
                      (Cache "artifact authentication failed");
                Ok (Some artifact))
        end
    end.

(** [TEMP_SEQUENCE.fetch_add(1)]; the counter wraps. *)
Definition next_temp (w : World) : World * Z :=
  ({| files := files w; directories := directories w;
      temp_sequence := wrapping_add u64_max (temp_sequence w) 1; schedule := schedule w |},
   temp_sequence w).

Definition temporary_path (path : string) (sequence : Z) : string :=
  with_extension path ("tmp-" +:+ show process_id +:+ "-" +:+ show sequence).

Definition atomic_publish (path : string) (b : list byte) (w : World) : World * Result unit :=
  let '(w, sequence) := next_temp w in
  let temporary := temporary_path path sequence in
  let? (w, _x) := lift_io (fs_write temporary b w) in
  let? (w, _x) := set_private_file temporary w in
  let? (w, _x) := lift_io (fs_rename temporary path w) in
  (w, Ok tt).

Definition publish c (digest : string) (p : WasiProfile) (artifact : list byte) (w : World)
    : World * Result unit :=
  match (_ ← reject_if (max_entry_bytes (disk_config c) <? blen artifact)
               (Cache "artifact exceeds the configured limit");
         let id := identity c digest p in
         mac ← cache_authentication_tag c id artifact;
         map_err (λ e, Cache ("metadata encoding failed: " +:+ e))
           (to_vec {| cm_identity := id; cm_artifact_len := blen artifact;
                      cm_authentication_tag := hex_encode (mac_finalize mac) |})) with
  | Err e => (w, Err e)
  | Ok metadata =>
      let '(artifact_path, metadata_path) := paths c digest p in
      let? (w, _x) := atomic_publish artifact_path artifact w in
      let? (w, _x) := atomic_publish metadata_path metadata w in
      (w, Ok tt)
  end.
End operations.

(** ** Where the entries of a digest live *)

Lemma split_last_none sep l : sep ∉ l → split_last sep l = None.
Proof.
  induction l as [|b l IH]; [done|]. rewrite not_elem_of_cons. intros [Hb Hl]. cbn [split_last].
  rewrite IH by done. by rewrite bool_decide_eq_false_2.
Qed.
Lemma split_last_some sep x y : sep ∉ y → split_last sep (x ++ sep :: y) = Some (x, y).
Proof.
  intros Hy. induction x as [|b x IH]; cbn [app split_last].
  - rewrite split_last_none by done. by rewrite bool_decide_eq_true_2.
  - by rewrite IH.
Qed.

(** The directory part that [path_join] puts before a relative name. *)
Definition join_prefix (root : string) : list byte :=
  if bool_decide (root = EmptyString) then []
  else if bool_decide (last (str_bytes root) = Some "/"%byte) then str_bytes root
  else str_bytes root ++ ["/"%byte].

Lemma path_join_prefix root name :
  head (str_bytes name) ≠ Some "/"%byte →
  str_bytes (path_join root name) = join_prefix root ++ str_bytes name.
Proof.
  intros Hn. unfold path_join, join_prefix. rewrite bool_decide_eq_false_2 by done.
  case_bool_decide; [done|]. case_bool_decide; rewrite !str_bytes_app; [done|].
  by rewrite <- app_assoc.
Qed.

Lemma join_prefix_slash root : join_prefix root = [] ∨ ∃ d, join_prefix root = d ++ ["/"%byte].
Proof.
  unfold join_prefix. case_bool_decide; [by left|]. right. case_bool_decide as Hl; [|eauto].
  apply last_Some in Hl as [l Hl]. eauto.
Qed.

Lemma with_extension_prefix root path stem ext old :
  str_bytes path = join_prefix root ++ stem ++ "."%byte :: old →
  "/"%byte ∉ stem ++ "."%byte :: old → "."%byte ∉ old → stem ≠ [] →
  str_bytes (with_extension path ext) = join_prefix root ++ stem ++ ["."%byte] ++ str_bytes ext.
Proof.
  intros Hp Hslash Hdot Hstem. unfold with_extension. rewrite Hp.
  assert (match split_last "/"%byte (join_prefix root ++ stem ++ "."%byte :: old) with
          | Some (d, n) => (d ++ ["/"%byte], n)
          | None => ([], join_prefix root ++ stem ++ "."%byte :: old)
          end = (join_prefix root, stem ++ "."%byte :: old)) as ->.
  { destruct (join_prefix_slash root) as [->|[d ->]].
    - by rewrite split_last_none.
    - rewrite <- app_assoc. cbn [app]. by rewrite split_last_some. }
  rewrite split_last_some, bool_decide_eq_false_2 by done.
  unfold str_bytes at 1. by rewrite String.list_byte_of_string_of_list_byte.
Qed.

Lemma hex64_no sep d : Hex64 d → is_lower_hex sep = false → sep ∉ str_bytes d.
Proof.
  intros [_ Hd] Hs Hin. rewrite Forall_forall in Hd. specialize (Hd _ Hin). congruence.
Qed.
Lemma hex64_length d : Hex64 d → length (str_bytes d) = 64%nat.
Proof. intros [Hd _]. unfold slen in Hd. rewrite length_str_bytes. lia. Qed.

Section entry_paths.
Context `{Host}.
Implicit Types c : DiskCache.

(** [root/digest] followed by a suffix. *)
Definition entry_bytes c (d : string) (suffix : list byte) : list byte :=
  join_prefix (root (disk_config c)) ++ str_bytes d ++ suffix.

Lemma entry_bytes_inj c d d' s s' :
  Hex64 d → Hex64 d' → entry_bytes c d s = entry_bytes c d' s' → d = d' ∧ s = s'.
Proof.
  intros Hd Hd' Heq%app_inv_head.
  apply app_inj_1 in Heq as [Heq ->]; [|by rewrite !hex64_length].
  split; [by apply str_bytes_inj|done].
Qed.

Definition artifact_suffix (p : WasiProfile) : list byte := str_bytes ("-" +:+ profile_stem p +:+ ".aot").
Definition metadata_suffix (p : WasiProfile) : list byte :=
  str_bytes ("-" +:+ profile_stem p +:+ ".aot.json").
Definition temp_ext (n : Z) : string := "tmp-" +:+ show process_id +:+ "-" +:+ show n.
Definition artifact_temp_suffix (p : WasiProfile) (n : Z) : list byte :=
  str_bytes ("-" +:+ profile_stem p +:+ ".") ++ str_bytes (temp_ext n).
Definition metadata_temp_suffix (p : WasiProfile) (n : Z) : list byte :=
  str_bytes ("-" +:+ profile_stem p +:+ ".aot.") ++ str_bytes (temp_ext n).

Lemma head_app_ne (l k : list byte) b : l ≠ [] → b ∉ l → head (l ++ k) ≠ Some b.
Proof. destruct l; [done|]. intros _ Hb [= ->]. apply Hb. by left. Qed.

Lemma paths_bytes c d p :
  Hex64 d →
  str_bytes (paths c d p).1 = entry_bytes c d (artifact_suffix p) ∧
  str_bytes (paths c d p).2 = entry_bytes c d (metadata_suffix p).
Proof.
  intros Hd. pose proof (hex64_no "/" d Hd eq_refl) as Hs. pose proof (hex64_length d Hd) as Hl.
  assert (str_bytes d ≠ []) as Hne by (by intros Hz; rewrite Hz in Hl).
  unfold paths, entry_bytes, artifact_suffix, metadata_suffix. cbn [fst snd].
  split; (rewrite path_join_prefix; [by rewrite !str_bytes_app, <- !app_assoc|]);
    rewrite !str_bytes_app, <- !app_assoc; by apply head_app_ne.
Qed.

Lemma temporary_bytes c d p n :
  Hex64 d →
  str_bytes (temporary_path (paths c d p).1 n) = entry_bytes c d (artifact_temp_suffix p n) ∧
  str_bytes (temporary_path (paths c d p).2 n) = entry_bytes c d (metadata_temp_suffix p n).
Proof.
  intros Hd. destruct (paths_bytes c d p Hd) as [Ha Hm].
  pose proof (hex64_no "/" d Hd eq_refl) as Hs. pose proof (hex64_length d Hd) as Hl.
  assert (str_bytes d ≠ []) as Hne by (by intros Hz; rewrite Hz in Hl).
  unfold temporary_path, entry_bytes, artifact_temp_suffix, metadata_temp_suffix, temp_ext in *. split.
  - rewrite (with_extension_prefix (root (disk_config c)) _
      (str_bytes d ++ str_bytes ("-" +:+ profile_stem p)) _ (str_bytes "aot")).
    + rewrite !str_bytes_app, <- !app_assoc. done.
    + rewrite Ha. unfold artifact_suffix. rewrite !str_bytes_app, <- !app_assoc. done.
    + rewrite <- app_assoc, not_elem_of_app. split; [done|]. by destruct p; vm_compute; set_solver.
    + by vm_compute; set_solver.
    + destruct (str_bytes d); done.
  - rewrite (with_extension_prefix (root (disk_config c)) _
      (str_bytes d ++ str_bytes ("-" +:+ profile_stem p +:+ ".aot")) _ (str_bytes "json")).
    + rewrite !str_bytes_app, <- !app_assoc. done.
    + rewrite Hm. unfold metadata_suffix. rewrite !str_bytes_app, <- !app_assoc. done.
    + rewrite <- app_assoc, not_elem_of_app. split; [done|]. by destruct p; vm_compute; set_solver.
    + by vm_compute; set_solver.
    + destruct (str_bytes d); done.
Qed.

(** Suffixes of different kinds or profiles differ. *)
Lemma suffixes_differ p p' n :
  artifact_suffix p ≠ metadata_suffix p' ∧
  artifact_suffix p ≠ artifact_temp_suffix p' n ∧ artifact_suffix p ≠ metadata_temp_suffix p' n ∧
  metadata_suffix p ≠ artifact_temp_suffix p' n ∧ metadata_suffix p ≠ metadata_temp_suffix p' n ∧
  (artifact_suffix p = artifact_suffix p' → p = p') ∧ (metadata_suffix p = metadata_suffix p' → p = p').
Proof.
  unfold artifact_suffix, metadata_suffix, artifact_temp_suffix, metadata_temp_suffix, temp_ext.
  rewrite !str_bytes_app. destruct p, p'; split_and!; try done; discriminate.
Qed.
(** No temporary name is the path of an entry, and different entries have
    different paths. *)
Lemma temporary_fresh c d p : Hex64 d → ∀ n d' p', Hex64 d' →
  (temporary_path (paths c d p).1 n ≠ (paths c d' p').1 ∧
   temporary_path (paths c d p).1 n ≠ (paths c d' p').2) ∧
  (temporary_path (paths c d p).2 n ≠ (paths c d' p').1 ∧
   temporary_path (paths c d p).2 n ≠ (paths c d' p').2).
Proof.
  intros Hd n d' p' Hd'. destruct (temporary_bytes c d p n Hd) as [Hta Htm].
  destruct (paths_bytes c d' p' Hd') as [Ha' Hm']. pose proof (suffixes_differ p' p n) as Hs.
  split_and!; intros Heq%(f_equal str_bytes); rewrite ?Hta, ?Htm, ?Ha', ?Hm' in Heq;
    apply entry_bytes_inj in Heq as [_ Heq]; try done; naive_solver.
Qed.

Lemma other_entry c d p : Hex64 d → ∀ d' p', Hex64 d' → (d', p') ≠ (d, p) →
  ((paths c d' p').1 ≠ (paths c d p).1 ∧ (paths c d' p').1 ≠ (paths c d p).2) ∧
  ((paths c d' p').2 ≠ (paths c d p).1 ∧ (paths c d' p').2 ≠ (paths c d p).2).
Proof.
  intros Hd d' p' Hd' Hne. destruct (paths_bytes c d' p' Hd') as [Ha' Hm'].
  destruct (paths_bytes c d p Hd) as [Hap Hmp].
  pose proof (suffixes_differ p' p 0) as Hs. pose proof (suffixes_differ p p' 0) as Hs'.
  split_and!; intros Heq%(f_equal str_bytes); rewrite ?Ha', ?Hm', ?Hap, ?Hmp in Heq;
    apply entry_bytes_inj in Heq as [-> Heq]; try done; naive_solver.
Qed.

Lemma artifact_ne_metadata c d p : Hex64 d → (paths c d p).1 ≠ (paths c d p).2.
Proof.
  intros Hd Heq%(f_equal str_bytes). destruct (paths_bytes c d p Hd) as [Hap Hmp].
  rewrite Hap, Hmp in Heq. apply entry_bytes_inj in Heq as [_ Heq]; [|done..].
  by apply (suffixes_differ p p 0) in Heq.
Qed.
End entry_paths.

(** ** What the operations do to the files *)

Definition quiet (w : World) : World :=
  {| files := files w; directories := directories w; temp_sequence := temp_sequence w;
     schedule := [] |}.

Lemma next_call_files w :
  files (next_call w).1 = files w ∧ directories (next_call w).1 = directories w ∧
  temp_sequence (next_call w).1 = temp_sequence w.
Proof. unfold next_call. by destruct (schedule w). Qed.

Section effects.
Context `{Host}.

Lemma fs_write_effect path b w w' r :
  fs_write path b w = (w', r) →
  directories w' = directories w ∧ (∀ q, q ≠ path → files w' !! q = files w !! q) ∧
  (∃ m k, files w' !! path = Some {| content := take k b; mode := m |}) ∧
  (r = Ok tt → ∃ m, files w' !! path = Some {| content := b; mode := m |}).
Proof.
  unfold fs_write. pose proof (next_call_files w) as (Hf & Hd & _).
  destruct (next_call w) as [w1 [f|]]; cbn [fst] in *; intros [= <- <-];
    unfold write_content; cbn [set_files files directories]; rewrite Hf, Hd, lookup_insert_eq;
    (split_and!; [done|by intros q Hq; rewrite lookup_insert_ne|..]); try done; eauto.
  exists (match files w !! path with Some x => mode x | None => default_mode end), (length b).
  by rewrite take_ge.
Qed.

Lemma fs_set_permissions_effect path m w w' r x :
  files w !! path = Some x → fs_set_permissions path m w = (w', r) →
  directories w' = directories w ∧ (∀ q, q ≠ path → files w' !! q = files w !! q) ∧
  (∃ m', files w' !! path = Some {| content := content x; mode := m' |}) ∧
  (r = Ok tt → files w' !! path = Some {| content := content x; mode := m |}).
Proof.
  intros Hx. unfold fs_set_permissions. pose proof (next_call_files w) as (Hf & Hd & _).
  destruct (next_call w) as [w1 [f|]]; cbn [fst] in *.
  - intros [= <- <-]. rewrite Hf, Hd. split_and!; [done..| |done]. exists (mode x). by destruct x.
  - rewrite Hf, Hd, Hx. intros [= <- <-]. cbn. rewrite lookup_insert_eq.
    split_and!; [done| |eauto|done]. intros q Hq. by rewrite lookup_insert_ne.
Qed.

Lemma fs_rename_effect from to w w' r x :
  from ≠ to → files w !! from = Some x → fs_rename from to w = (w', r) →
  directories w' = directories w ∧
  (∀ q, q ≠ from → q ≠ to → files w' !! q = files w !! q) ∧
  (r = Ok tt → files w' !! to = Some x ∧ files w' !! from = None) ∧
  (r ≠ Ok tt → files w' = files w).
Proof.
  intros Hne Hx. unfold fs_rename. pose proof (next_call_files w) as (Hf & Hd & _).
  destruct (next_call w) as [w1 [f|]]; cbn [fst] in *.
  - intros [= <- <-]. by rewrite Hf, Hd.
  - rewrite Hf, Hx. intros [= <- <-]. cbn. rewrite Hd. split_and!; [done| | |done].
    + intros q Hq Hq'. by rewrite lookup_insert_ne, lookup_delete_ne.
    + intros _. by rewrite lookup_insert_eq, lookup_insert_ne, lookup_delete_eq.
Qed.

(** Publishing a file is atomic at its path: it either appears whole and
    private, or the path keeps what it had; only the temporary path is touched
    besides. *)
Lemma atomic_publish_effect path b w w' r :
  temporary_path path (temp_sequence w) ≠ path → atomic_publish path b w = (w', r) →
  directories w' = directories w ∧
  (∀ q, q ≠ path → q ≠ temporary_path path (temp_sequence w) → files w' !! q = files w !! q) ∧
  (r = Ok tt → files w' !! path = Some {| content := b; mode := 384 |}) ∧
  (r ≠ Ok tt → files w' !! path = files w !! path).
Proof.
  intros Hne. unfold atomic_publish. cbn [next_temp]. set (tmp := temporary_path _ _) in *.
  set (w0 := {| files := files w |}).
  unfold lift_io. destruct (fs_write tmp b w0) as [w1 r1] eqn:H1.
  apply fs_write_effect in H1 as (Hd1 & Hq1 & (m1 & k1 & Ht1) & Hok1). cbn in Hd1, Hq1.
  cbn [fst snd]. destruct r1 as [[]|e]; cbn [map_err io_bind].
  2: { intros [= <- <-]. split_and!; [done|auto|done|auto]. }
  destruct (Hok1 eq_refl) as [m Hm1]. unfold set_private_file, lift_io.
  destruct (fs_set_permissions tmp 384 w1) as [w2 r2] eqn:H2.
  apply (fs_set_permissions_effect _ _ _ _ _ _ Hm1) in H2 as (Hd2 & Hq2 & (m2 & Ht2) & Hok2).
  cbn [fst snd content] in *. destruct r2 as [[]|e]; cbn [map_err io_bind].
  2: { intros [= <- <-]. split_and!; [congruence| |done|].
       - intros q Hp Hq. by rewrite Hq2, Hq1.
       - intros _. by rewrite Hq2, Hq1 by congruence. }
  specialize (Hok2 eq_refl). destruct (fs_rename tmp path w2) as [w3 r3] eqn:H3.
  apply (fs_rename_effect _ _ _ _ _ _ Hne Hok2) in H3 as (Hd3 & Hq3 & Hok3 & Herr3).
  cbn [fst snd]. destruct r3 as [[]|e]; cbn [map_err io_bind]; intros [= <- <-].
  - destruct (Hok3 eq_refl) as [Hp _]. split_and!; [congruence| |done|done].
    intros q Hq Hqt. by rewrite Hq3, Hq2, Hq1.
  - rewrite Herr3 by done. split_and!; [congruence| |done|].
    + intros q Hq Hqt. by rewrite Hq2, Hq1.
    + intros _. by rewrite Hq2, Hq1 by congruence.
Qed.
End effects.

(** ** Entries *)

Section entries.
Context {C : Crypto} {CL : CryptoLaws C} `{Host}.
Context {JI : Json CacheIdentity} {JM : Json CacheMetadata}.
Implicit Types c : DiskCache.

(** Metadata bytes and artifact bytes that authenticate each other for the
    exact identity of this digest, profile, engine version, target and
    compiler settings. *)
Definition AuthenticEntry c d p (metadata artifact : list byte) : Prop :=
  ∃ md encoded,
    from_slice metadata = Ok md ∧ to_vec (identity c d p) = Ok encoded ∧
    cm_identity md = identity c d p ∧ cm_artifact_len md = blen artifact ∧
    blen artifact ≤ max_entry_bytes (disk_config c) ∧
    hex_decode (cm_authentication_tag md) =
      Some (hmac_sha256 (disk_authentication_key (disk_config c)) (CACHE_DOMAIN ++ encoded ++ artifact)).

Lemma cache_tag_Ok c i a mac :
  cache_authentication_tag c i a = Ok mac ↔
  ∃ encoded, to_vec i = Ok encoded ∧
    mac = {| mac_key := disk_authentication_key (disk_config c);
             mac_data := CACHE_DOMAIN ++ encoded ++ a |}.
Proof.
  unfold cache_authentication_tag, mac_new. rewrite hmac_any_key. cbn [ok_or mbind result_bind].
  destruct (to_vec i) as [e|e]; cbn [map_err mbind result_bind]; [|naive_solver].
  unfold mac_update. cbn [mac_key mac_data]. rewrite app_nil_l, <- app_assoc. naive_solver.
Qed.

Lemma fs_read_Ok path w w' b :
  fs_read path w = (w', Ok b) →
  files w' = files w ∧ directories w' = directories w ∧ content <$> files w !! path = Some b.
Proof.
  unfold fs_read. pose proof (next_call_files w) as (Hf & Hd & _).
  destruct (next_call w) as [w1 [f|]]; cbn [fst] in *; [done|].
  rewrite Hf. destruct (files w !! path); intros [= <- <-]. done.
Qed.

Lemma path_exists_files path w :
  files (path_exists path w).1 = files w ∧ directories (path_exists path w).1 = directories w.
Proof.
  unfold path_exists. pose proof (next_call_files w) as (Hf & Hd & _).
  by destruct (next_call w) as [w1 [f|]].
Qed.

Lemma load_sound c d p w w' a :
  load c d p w = (w', Ok (Some a)) →
  ∃ m, content <$> files w !! (paths c d p).2 = Some m ∧
       content <$> files w !! (paths c d p).1 = Some a ∧ AuthenticEntry c d p m a.
Proof.
  unfold load. destruct (paths c d p) as [ap mp]. cbn [fst snd].
  pose proof (path_exists_files ap w) as [Hf1 _]. destruct (path_exists ap w) as [w1 ex].
  set (after := if ex then (w1, false) else _).
  assert (files after.1 = files w) as Hf2.
  { unfold after. destruct ex; [done|]. pose proof (path_exists_files mp w1) as [Hf _].
    destruct (path_exists mp w1). cbn in *. congruence. }
  destruct after as [w2 []]; [done|]. cbn [fst] in *.
  destruct (fs_read mp w2) as [w3 r3] eqn:H3. destruct r3 as [mb|]; cbn [map_err]; [|done].
  apply fs_read_Ok in H3 as (Hf3 & _ & Hm). rewrite Hf2 in Hm, Hf3.
  match goal with |- context [match ?x with Ok _ => _ | Err _ => _ end] => destruct x as [md|] eqn:Hmd end;
    [|done].
  destruct (fs_read ap w3) as [w4 r4] eqn:H4. intros [= -> Hok].
  result_inv. bool_inv. apply fs_read_Ok in H4 as (_ & _ & Ha). rewrite Hf3 in Ha.
  match goal with Ht : cache_authentication_tag _ _ _ = Ok _ |- _ =>
    apply cache_tag_Ok in Ht as (encoded & Henc & ->) end.
  exists mb. split_and!; [done|done|]. eexists _, encoded. split_and!; try done; try lia.
  match goal with Hv : mac_verify_slice _ _ = true |- _ => apply bool_decide_eq_true in Hv; subst end.
  done.
Qed.

(** Loading changes neither files nor directories. *)
Lemma fs_read_world path w :
  files (fs_read path w).1 = files w ∧ directories (fs_read path w).1 = directories w.
Proof.
  unfold fs_read. pose proof (next_call_files w) as (Hf & Hd & _).
  destruct (next_call w) as [v [|]]; [done|]. by destruct (files v !! path).
Qed.
Lemma load_world c d p w :
  files (load c d p w).1 = files w ∧ directories (load c d p w).1 = directories w.
Proof.
  unfold load. destruct (paths c d p) as [ap mp].
  pose proof (path_exists_files ap w) as [Hf1 Hd1]. destruct (path_exists ap w) as [w1 ex].
  set (after := if ex then (w1, false) else _).
  assert (files after.1 = files w ∧ directories after.1 = directories w) as [Hf2 Hd2].
  { unfold after. destruct ex; [done|]. pose proof (path_exists_files mp w1) as [Hf Hd].
    destruct (path_exists mp w1). cbn in *. split; congruence. }
  destruct after as [w2 []]; [done|]. cbn [fst] in *.
  pose proof (fs_read_world mp w2) as [Hf3 Hd3].
  destruct (fs_read mp w2) as [w3 [mb|]]; cbn [map_err fst] in *; [|split; congruence].
  match goal with |- context [match ?x with Ok _ => _ | Err _ => _ end] => destruct x end;
    [|cbn; split; congruence].
  pose proof (fs_read_world ap w3) as [Hf4 Hd4].
  destruct (fs_read ap w3) as [w4 r4]. cbn in *. split; congruence.
Qed.

Lemma path_exists_quiet path w :
  path_exists path (quiet w) =
  (quiet w, bool_decide (is_Some (files w !! path) ∨ is_Some (directories w !! path))).
Proof. done. Qed.
Lemma fs_read_quiet path w :
  fs_read path (quiet w) =
  (quiet w, match files w !! path with Some x => Ok (content x) | None => Err not_found end).
Proof. unfold fs_read. cbn. by destruct (files w !! path). Qed.

Lemma load_complete c d p w m a :
  content <$> files w !! (paths c d p).2 = Some m →
  content <$> files w !! (paths c d p).1 = Some a → AuthenticEntry c d p m a →
  (load c d p (quiet w)).2 = Ok (Some a).
Proof.
  intros (xm & Hm & ->)%fmap_Some (xa & Ha & ->)%fmap_Some (md & enc & Hfrom & Henc & Hid & Hlen & Hmax & Htag).
  unfold load. destruct (paths c d p) as [ap mp]. cbn [fst snd] in *.
  rewrite path_exists_quiet, bool_decide_eq_true_2 by (left; by rewrite Ha). cbv iota beta.
  rewrite fs_read_quiet, Hm. cbn [map_err]. rewrite Hfrom. cbn [map_err mbind result_bind].
  rewrite bool_decide_eq_true_2 by done. cbn [negb reject_if mbind result_bind].
  rewrite (proj2 (Z.ltb_ge _ _)) by lia. cbn [reject_if mbind result_bind].
  rewrite fs_read_quiet, Ha. cbn [snd map_err mbind result_bind].
  rewrite Hlen, Z.eqb_refl. cbn [negb reject_if mbind result_bind].
  rewrite (proj2 (cache_tag_Ok _ _ _ _) (ex_intro _ enc (conj Henc eq_refl))).
  cbn [mbind result_bind]. rewrite Htag. cbn [ok_or mbind result_bind].
  unfold mac_verify_slice, mac_finalize. by rewrite bool_decide_eq_true_2.
Qed.

(** A load depends on the two files only. *)
Lemma load_quiet_ext c d p w w' :
  directories w' = directories w →
  files w' !! (paths c d p).1 = files w !! (paths c d p).1 →
  files w' !! (paths c d p).2 = files w !! (paths c d p).2 →
  (load c d p (quiet w')).2 = (load c d p (quiet w)).2.
Proof.
  intros Hd Ha Hm. unfold load. destruct (paths c d p) as [ap mp]. cbn [fst snd] in *.
  rewrite !path_exists_quiet, Ha, Hm, Hd.
  destruct (bool_decide (is_Some (files w !! ap) ∨ is_Some (directories w !! ap))),
    (bool_decide (is_Some (files w !! mp) ∨ is_Some (directories w !! mp)));
    cbn [negb]; cbv iota beta; try done;
    (rewrite !fs_read_quiet, Hm, Ha; destruct (files w !! mp); cbn [map_err]; [|done];
     by match goal with |- context [match ?x with Ok _ => _ | Err _ => _ end] => destruct x end).
Qed.

(** The files an interrupted or completed publication leaves. *)
Lemma publish_effect c d p art w w' r :
  Hex64 d → publish c d p art w = (w', r) →
  directories w' = directories w ∧
  (∀ d' p', Hex64 d' → (d', p') ≠ (d, p) →
     files w' !! (paths c d' p').1 = files w !! (paths c d' p').1 ∧
     files w' !! (paths c d' p').2 = files w !! (paths c d' p').2) ∧
  (r = Ok tt → ∃ enc mb,
     to_vec (identity c d p) = Ok enc ∧ blen art ≤ max_entry_bytes (disk_config c) ∧
     to_vec {| cm_identity := identity c d p; cm_artifact_len := blen art;
               cm_authentication_tag := hex_encode
                 (hmac_sha256 (disk_authentication_key (disk_config c)) (CACHE_DOMAIN ++ enc ++ art)) |}
       = Ok mb ∧
     files w' !! (paths c d p).1 = Some {| content := art; mode := 384 |} ∧
     files w' !! (paths c d p).2 = Some {| content := mb; mode := 384 |}) ∧
  (content <$> files w' !! (paths c d p).1 = Some art ∨
   files w' !! (paths c d p).1 = files w !! (paths c d p).1 ∧
   files w' !! (paths c d p).2 = files w !! (paths c d p).2).
Proof.
  intros Hd. unfold publish.
  match goal with |- context [match ?x with Ok _ => _ | Err _ => _ end] => destruct x as [mb|e] eqn:Hmb end.
  2: { intros [= <- <-]. split_and!; [done|done|done|auto]. }
  assert (∃ enc, to_vec (identity c d p) = Ok enc ∧ blen art ≤ max_entry_bytes (disk_config c) ∧
     to_vec {| cm_identity := identity c d p; cm_artifact_len := blen art;
               cm_authentication_tag := hex_encode
                 (hmac_sha256 (disk_authentication_key (disk_config c)) (CACHE_DOMAIN ++ enc ++ art)) |}
       = Ok mb) as (enc & Henc & Hlen & Hto).
  { result_inv. bool_inv. match goal with Ht : cache_authentication_tag _ _ _ = Ok _ |- _ =>
      apply cache_tag_Ok in Ht as (enc & Henc & ->) end. by exists enc. }
  clear Hmb. rewrite (surjective_pairing (paths c d p)). cbn [fst snd].
  pose proof (temporary_fresh c d p Hd) as Htmp. pose proof (other_entry c d p Hd) as Hother.
  pose proof (artifact_ne_metadata c d p Hd) as Ham.
  destruct (Htmp (temp_sequence w) d p Hd) as [[Hta Htam] _].
  destruct (atomic_publish (paths c d p).1 art w) as [w1 r1] eqn:H1.
  apply atomic_publish_effect in H1 as (Hd1 & Hq1 & Hok1 & Herr1); [|done].
  assert (∀ d' p', Hex64 d' → (d', p') ≠ (d, p) →
    files w1 !! (paths c d' p').1 = files w !! (paths c d' p').1 ∧
    files w1 !! (paths c d' p').2 = files w !! (paths c d' p').2) as Hkeep1.
  { intros d' p' Hd' Hne. destruct (Hother d' p' Hd' Hne) as [[] []],
      (Htmp (temp_sequence w) d' p' Hd') as [[] _]. split; by apply Hq1. }
  assert (files w1 !! (paths c d p).2 = files w !! (paths c d p).2) as Hm1 by (apply Hq1; naive_solver).
  destruct r1 as [[]|e]; cbn [io_bind].
  2: { intros [= <- <-]. split_and!; [done|done|done|]. right. split; [by apply Herr1|done]. }
  specialize (Hok1 eq_refl). clear Herr1.
  destruct (Htmp (temp_sequence w1) d p Hd) as [_ [Htma Htm]].
  destruct (atomic_publish (paths c d p).2 mb w1) as [w2 r2] eqn:H2.
  apply atomic_publish_effect in H2 as (Hd2 & Hq2 & Hok2 & _); [|done].
  assert (∀ d' p', Hex64 d' → (d', p') ≠ (d, p) →
    files w2 !! (paths c d' p').1 = files w !! (paths c d' p').1 ∧
    files w2 !! (paths c d' p').2 = files w !! (paths c d' p').2) as Hkeep2.
  { intros d' p' Hd' Hne. destruct (Hkeep1 d' p' Hd' Hne) as [<- <-].
    destruct (Hother d' p' Hd' Hne) as [[] []], (Htmp (temp_sequence w1) d' p' Hd') as [_ []].
    split; by apply Hq2. }
  assert (files w2 !! (paths c d p).1 = Some {| content := art; mode := 384 |}) as Ha2
    by (rewrite Hq2; [done|done|naive_solver]).
  destruct r2 as [[]|e]; cbn [io_bind]; intros [= <- <-]; (split_and!; [congruence|done| |left; by rewrite Ha2]).
  - intros _. specialize (Hok2 eq_refl). by exists enc, mb.
  - done.
Qed.

(** C2: whatever the directory contains and whichever calls fail, a load that
    returns an artifact returns the bytes stored at the artifact path, and the
    stored metadata authenticates them under the installation key for the exact
    digest, profile, engine version, target and compiler settings. *)
Theorem load_authentic c d p w a :
  (load c d p w).2 = Ok (Some a) →
  ∃ m, content <$> files w !! (paths c d p).2 = Some m ∧
       content <$> files w !! (paths c d p).1 = Some a ∧ AuthenticEntry c d p m a.
Proof.
  intros Hl. destruct (load c d p w) as [w' r] eqn:Heq. cbn in Hl. subst r. by eapply load_sound.
Qed.

(** A publication interrupted by any failure never corrupts the cache: the
    entries of every other digest or profile load as before, and for its own
    entry a load returns the published artifact, what it returned before, or
    an error, never a mixture; when it succeeds both files are private. *)
Theorem publish_fault_safe c d p art w w' r :
  Hex64 d → publish c d p art w = (w', r) →
  (∀ d' p', Hex64 d' → (d', p') ≠ (d, p) →
     (load c d' p' (quiet w')).2 = (load c d' p' (quiet w)).2) ∧
  (∀ a, (load c d p (quiet w')).2 = Ok (Some a) →
     a = art ∨ (load c d p (quiet w)).2 = Ok (Some a)) ∧
  (r = Ok tt →
     mode <$> files w' !! (paths c d p).1 = Some 384 ∧
     mode <$> files w' !! (paths c d p).2 = Some 384).
Proof.
  intros Hd Hp. apply publish_effect in Hp as (Hdir & Hkeep & Hok & Hown); [|done]. split_and!.
  - intros d' p' Hd' Hne. destruct (Hkeep d' p' Hd' Hne). by apply load_quiet_ext.
  - intros a Ha. destruct Hown as [Hown|[H1 H2]].
    + left. destruct (load c d p (quiet w')) as [w2 r2] eqn:Hl. cbn in Ha. subst r2.
      apply load_sound in Hl as (m & _ & Ha & _).
      change (files (quiet w')) with (files w') in Ha. congruence.
    + right. by rewrite <- (load_quiet_ext c d p w w').
  - intros Hr. destruct (Hok Hr) as (enc & mb & _ & _ & _ & -> & ->). done.
Qed.

(** A successful publication is followed by a successful load of the same
    artifact. *)
Theorem publish_load_roundtrip `{!JsonLaws JM} c d p art w w' :
  Hex64 d → publish c d p art w = (w', Ok tt) → (load c d p (quiet w')).2 = Ok (Some art).
Proof.
  intros Hd Hp. apply publish_effect in Hp as (_ & _ & Hok & _); [|done].
  destruct (Hok eq_refl) as (enc & mb & Henc & Hlen & Hto & Ha & Hm).
  apply (load_complete c d p w' mb); [by rewrite Hm|by rewrite Ha|].
  eexists _, enc. split_and!; [by apply from_to|done..|]. cbn. by rewrite hex_decode_encode.
Qed.
End entries.

Module DiskCacheExample.
Import Toy.
#[export] Instance host : Host := {| process_id := 41; default_mode := 420 |}.

Definition enc_identity (i : CacheIdentity) : list string :=
  [of_z (id_format i); id_component_digest i; id_profile i; id_wasmtime_version i;
   id_target i; id_compiler_profile i].
Definition dec_identity (l : list string) : option CacheIdentity :=
  match l with
  | [f; d; p; v; t; c] =>
      Some {| id_format := to_z f; id_component_digest := d; id_profile := p;
              id_wasmtime_version := v; id_target := t; id_compiler_profile := c |}
  | _ => None
  end.
Definition enc (m : CacheMetadata) : list (list string) :=
  [enc_identity (cm_identity m); [of_z (cm_artifact_len m); cm_authentication_tag m]].
Definition dec (l : list (list string)) : option CacheMetadata :=
  match l with
  | [i; [n; t]] =>
      id ← dec_identity i;
      Some {| cm_identity := id; cm_artifact_len := to_z n; cm_authentication_tag := t |}
  | _ => None
  end.
#[export] Instance identity_json : Json CacheIdentity :=
  json (λ i, [enc_identity i]) (λ l, match l with [i] => dec_identity i | _ => None end).
#[export] Instance metadata_json : Json CacheMetadata := json enc dec.
#[export] Instance metadata_json_laws : JsonLaws metadata_json.
Proof. apply json_laws. intros [[] ? ?]. cbn -[of_z to_z]. by rewrite !to_of_z. Qed.

Definition config : DiskCacheConfig :=
  {| root := "/var/cache/rt"; disk_authentication_key := str_bytes "0123456789abcdef";
     max_entry_bytes := 64 |}.
Definition cache : DiskCache := {| disk_config := config; disk_target := "x86_64-linux" |}.
Definition digest : string := "00112233445566778899aabbccddeeff00112233445566778899aabbccddeeff".
Definition empty_world : World :=
  {| files := ∅; directories := ∅; temp_sequence := 7; schedule := [] |}.
(** The rename of the metadata fails. *)
Definition failing_world : World :=
  {| files := ∅; directories := ∅; temp_sequence := 7;
     schedule := [None; None; None; None; None; Some {| fault_message := "disk full"; fault_written := 3 |}] |}.
Definition artifact : list byte := str_bytes "native code".
Definition published : World := (publish cache digest Cli0_2 artifact empty_world).1.

Lemma digest_hex : Hex64 digest.
Proof. split; [done|]. apply str_all_Forall. by vm_compute. Qed.

Lemma load_authentic_witness :
  ∃ m, content <$> files published !! (paths cache digest Cli0_2).2 = Some m ∧
       content <$> files published !! (paths cache digest Cli0_2).1 = Some artifact ∧
       AuthenticEntry cache digest Cli0_2 m artifact.
Proof. apply (load_authentic cache digest Cli0_2 published artifact). by vm_compute. Defined.

Definition interrupted : World := (publish cache digest Cli0_2 artifact failing_world).1.

Lemma publish_fault_safe_witness :
  (publish cache digest Cli0_2 artifact failing_world).2 = Err (Io "disk full") ∧
  (load cache digest Http0_3 (quiet interrupted)).2 = (load cache digest Http0_3 (quiet failing_world)).2.
Proof.
  split; [by vm_compute|].
  refine (proj1 (publish_fault_safe cache digest Cli0_2 artifact failing_world interrupted _ digest_hex
                   (surjective_pairing _)) digest Http0_3 digest_hex _).
  intros [=].
Defined.

Lemma publish_load_roundtrip_witness :
  (load cache digest Cli0_2 (quiet published)).2 = Ok (Some artifact).
Proof.
  apply (publish_load_roundtrip cache digest Cli0_2 artifact empty_world published digest_hex).
  rewrite (surjective_pairing (publish cache digest Cli0_2 artifact empty_world)).
  unfold published. apply f_equal. by vm_compute.
Defined.
End DiskCacheExample.
