(* ===== verification/ArtifactStore.v ===== *)
(** What the disk cache of [DiskCache] ([src/src/cache.rs]) promises, as an
    abstract store: a map from digests and profiles to artifacts.  Each
    operation of the cache comes with the faults its file-system calls meet; a
    run of the cache answers as the store allows, and the store allows anything
    but a plain map only where calls fail: then a publication may be lost or
    leave a torn entry, and a load may miss or fail, but never returns bytes
    that were not published under its key. *)
From S2P Require Import Prelude Errors Interfaces Streams Types DiskCache.

Local Open Scope Z_scope.

(** ** The abstract store *)

#[global] Instance profile_countable : Countable WasiProfile.
Proof.
  apply (inj_countable' (λ p, match p with Cli0_3 => 0 | Cli0_2 => 1 | Http0_3 => 2 | Http0_2 => 3 end)%nat
           (λ n, match n with 0 => Cli0_3 | 1 => Cli0_2 | 2 => Http0_3 | _ => Http0_2 end)%nat).
  by intros [].
Defined.

Notation key := (string * WasiProfile)%type.

(** [Torn a]: the publication of [a] stopped between its two files. *)
Inductive slot := Stored (a : list byte) | Torn (a : list byte).
Notation Store := (gmap key slot).
Definition slot_bytes (x : slot) : list byte := match x with Stored a | Torn a => a end.

Inductive store_op :=
| Publish (k : key) (artifact : list byte)
| Load (k : key)
| Contains (k : key)
| Reopen.

Inductive store_answer :=
| Published (r : Result unit)
| Loaded (r : Result (option (list byte)))
| Found (b : bool)
| Reopened (r : Result unit).

(** One operation; [refuses] says which artifacts the store does not take,
    [faulty] that a call of the operation failed. *)
Inductive store_step (refuses : key → list byte → Prop) (faulty : bool) : Store → store_op → store_answer → Store → Prop :=
| publish_stored s k a : store_step refuses faulty s (Publish k a) (Published (Ok tt)) (<[k := Stored a]> s)
| publish_refused s k a e : refuses k a ∨ faulty = true →
    store_step refuses faulty s (Publish k a) (Published (Err e)) s
| publish_torn s k a e : faulty = true →
    store_step refuses faulty s (Publish k a) (Published (Err e)) (<[k := Torn a]> s)
| load_stored s k a : s !! k = Some (Stored a) → store_step refuses faulty s (Load k) (Loaded (Ok (Some a))) s
| load_torn s k a : s !! k = Some (Torn a) → store_step refuses faulty s (Load k) (Loaded (Ok (Some a))) s
| load_torn_failed s k a e : s !! k = Some (Torn a) → store_step refuses faulty s (Load k) (Loaded (Err e)) s
| load_absent s k : s !! k = None → store_step refuses faulty s (Load k) (Loaded (Ok None)) s
| load_missed s k : faulty = true → store_step refuses faulty s (Load k) (Loaded (Ok None)) s
| load_failed s k e : faulty = true → store_step refuses faulty s (Load k) (Loaded (Err e)) s
| contains_stored s k a : s !! k = Some (Stored a) → store_step refuses faulty s (Contains k) (Found true) s
| contains_torn s k a b : s !! k = Some (Torn a) → store_step refuses faulty s (Contains k) (Found b) s
| contains_absent s k : s !! k = None → store_step refuses faulty s (Contains k) (Found false) s
| contains_missed s k : faulty = true → store_step refuses faulty s (Contains k) (Found false) s
| reopen_done s : store_step refuses faulty s Reopen (Reopened (Ok tt)) s
| reopen_failed s e : faulty = true → store_step refuses faulty s Reopen (Reopened (Err e)) s.

Inductive store_run (refuses : key → list byte → Prop) : Store → list (bool * store_op * store_answer) → Store → Prop :=
| run_done s : store_run refuses s [] s
| run_step s s' s'' f o x l : store_step refuses f s o x s' → store_run refuses s' l s'' →
    store_run refuses s ((f, o, x) :: l) s''.

(** ** The cache, one operation after another *)

Definition op_key (o : store_op) : option key :=
  match o with Publish k _ | Load k | Contains k => Some k | Reopen => None end.
Definition well_keyed (o : store_op) : Prop := ∀ k, op_key o = Some k → Hex64 k.1.

Definition set_schedule (l : list (option fault)) (w : World) : World :=
  {| files := files w; directories := directories w; temp_sequence := temp_sequence w; schedule := l |}.
Definition meets_fault (l : list (option fault)) : bool := existsb (λ o, bool_decide (is_Some o)) l.

Section cache.
Context `{Crypto} `{Host} {JI : Json CacheIdentity} {JM : Json CacheMetadata}.
Implicit Types (c : DiskCache) (w : World).

Definition cache_step c (o : store_op) (w : World) : DiskCache * World * store_answer :=
  match o with
  | Publish (d, p) a => let '(w, r) := publish c d p a w in (c, w, Published r)
  | Load (d, p) => let '(w, r) := load c d p w in (c, w, Loaded r)
  | Contains (d, p) => let '(w, b) := contains c d p w in (c, w, Found b)
  | Reopen =>
      match disk_prepare (disk_config c) (disk_target c) w with
      | (w, Ok c') => (c', w, Reopened (Ok tt))
      | (w, Err e) => (c, w, Reopened (Err e))
      end
  end.

(** Every operation with the faults its calls meet. *)
Fixpoint cache_run c (l : list (list (option fault) * store_op)) w
    : DiskCache * World * list (bool * store_op * store_answer) :=
  match l with
  | [] => (c, w, [])
  | (f, o) :: l' =>
      let '(c, w, x) := cache_step c o (set_schedule f w) in
      let '(c, w, t) := cache_run c l' w in
      (c, w, (meets_fault f, o, x) :: t)
  end.
End cache.

(** ** Calls that do not fail *)

Section calm.
Context `{Host}.
Implicit Types w : World.

Definition calm w : Prop := meets_fault (schedule w) = false.

Lemma next_call_calm w : calm w → (next_call w).2 = None ∧ calm (next_call w).1.
Proof.
  unfold calm, next_call. destruct (schedule w) as [|[f|] l] eqn:Hs; cbn; by rewrite ?Hs.
Qed.

(** A calm read-only call answers from the files and changes nothing else. *)
Definition still w w' : Prop := calm w' ∧ files w' = files w ∧ directories w' = directories w.

Lemma still_call w : calm w → still w (next_call w).1.
Proof. intros Hc. unfold still. destruct (next_call_calm w Hc). by destruct (next_call_files w) as (-> & -> & _). Qed.

Ltac calm_call :=
  match goal with Hc : calm ?w |- _ =>
    let Hn := fresh in let Hs := fresh "Hstill" in
    pose proof (next_call_calm w Hc) as [Hn _]; pose proof (still_call w Hc) as Hs;
    destruct (next_call w) as [? ?]; cbn [fst snd] in Hn, Hs; subst end.

Lemma path_exists_calm path w :
  calm w → ∃ w', still w w' ∧
    path_exists path w = (w', bool_decide (is_Some (files w !! path) ∨ is_Some (directories w !! path))).
Proof. intros Hc. unfold path_exists. calm_call. destruct Hstill as (?&Hf&Hd). rewrite Hf, Hd. by eexists. Qed.
Lemma path_is_file_calm path w :
  calm w → ∃ w', still w w' ∧ path_is_file path w = (w', bool_decide (is_Some (files w !! path))).
Proof. intros Hc. unfold path_is_file. calm_call. destruct Hstill as (?&Hf&Hd). rewrite Hf. by eexists. Qed.
Lemma fs_read_calm path w :
  calm w → ∃ w', still w w' ∧
    fs_read path w = (w', match files w !! path with Some x => Ok (content x) | None => Err not_found end).
Proof.
  intros Hc. unfold fs_read. calm_call. destruct Hstill as (?&Hf&Hd). rewrite Hf.
  by destruct (files w !! path); eexists.
Qed.

Local Ltac done_calm := eexists; split; [|reflexivity]; done.

Lemma fs_write_calm path b w :
  calm w → ∃ w', calm w' ∧ fs_write path b w = (w', Ok tt).
Proof. intros Hc. unfold fs_write. calm_call. destruct Hstill as (? & _). done_calm. Qed.
Lemma fs_set_permissions_calm path m w :
  calm w → is_Some (files w !! path) ∨ is_Some (directories w !! path) →
  ∃ w', calm w' ∧ fs_set_permissions path m w = (w', Ok tt).
Proof.
  intros Hc Hp. unfold fs_set_permissions. calm_call. destruct Hstill as (? & Hf & Hd). rewrite Hf, Hd.
  destruct (files w !! path), (directories w !! path); try done_calm. by destruct Hp as [[]|[]].
Qed.
Lemma fs_rename_calm from to w :
  calm w → is_Some (files w !! from) → ∃ w', calm w' ∧ fs_rename from to w = (w', Ok tt).
Proof.
  intros Hc [x Hx]. unfold fs_rename. calm_call. destruct Hstill as (? & Hf & Hd). rewrite Hf, Hx. done_calm.
Qed.
Lemma fs_create_dir_all_calm path w :
  calm w → ∃ w', calm w' ∧ is_Some (directories w' !! path) ∧ fs_create_dir_all path w = (w', Ok tt).
Proof.
  intros Hc. unfold fs_create_dir_all. calm_call. destruct Hstill as (? & Hf & Hd). rewrite Hd.
  destruct (directories w !! path) eqn:Hp; eexists; (split_and!; [| |reflexivity]); try done; cbn; rewrite ?Hd, ?Hp, ?lookup_insert_eq; done.
Qed.

Lemma atomic_publish_calm path b w :
  calm w → ∃ w', calm w' ∧ atomic_publish path b w = (w', Ok tt).
Proof.
  intros Hc. unfold atomic_publish. cbn [next_temp]. set (w0 := {| files := files w |}).
  destruct (fs_write_calm (temporary_path path (temp_sequence w)) b w0) as (w1 & Hc1 & H1); [done|].
  rewrite H1. cbn [lift_io fst snd map_err io_bind]. apply fs_write_effect in H1 as (_ & _ & (m & k & Ht) & _).
  destruct (fs_set_permissions_calm (temporary_path path (temp_sequence w)) 384 w1) as (w2 & Hc2 & H2); [done|by left; eexists|].
  unfold set_private_file. rewrite H2. cbn [lift_io fst snd map_err io_bind].
  apply (fs_set_permissions_effect _ _ _ _ _ _ Ht) in H2 as (_ & _ & (m2 & Ht2) & _).
  destruct (fs_rename_calm (temporary_path path (temp_sequence w)) path w2) as (w3 & Hc3 & H3); [done|by eexists|].
  rewrite H3. by exists w3.
Qed.
End calm.

(** ** The refinement *)

(** An artifact is refused for its size, or when its metadata cannot be encoded. *)
Definition Refuses `{Crypto} {JI : Json CacheIdentity} {JM : Json CacheMetadata} (c : DiskCache) (k : key)
    (a : list byte) : Prop :=
  max_entry_bytes (disk_config c) < blen a ∨ is_ok (to_vec (identity c k.1 k.2)) = false
  ∨ ∃ tag, is_ok (to_vec {| cm_identity := identity c k.1 k.2; cm_artifact_len := blen a;
                            cm_authentication_tag := tag |}) = false.

Section refinement.
Context {K : Crypto} {CL : CryptoLaws K} `{Host} {JI : Json CacheIdentity} {JM : Json CacheMetadata} {JL : JsonLaws JM}.
Implicit Types (c : DiskCache) (w : World) (s : Store).

(** What the two files of an entry hold for a slot of the store. *)
Definition Holds c (d : string) (p : WasiProfile) w (x : option slot) : Prop :=
  match x with
  | None => files w !! (paths c d p).1 = None ∧ files w !! (paths c d p).2 = None
  | Some (Stored a) => ∃ m, content <$> files w !! (paths c d p).1 = Some a
      ∧ content <$> files w !! (paths c d p).2 = Some m ∧ AuthenticEntry c d p m a
  | Some (Torn a) => content <$> files w !! (paths c d p).1 = Some a
  end.
Definition Represents c s w : Prop :=
  ∀ d p, Hex64 d → directories w !! (paths c d p).1 = None ∧ directories w !! (paths c d p).2 = None
    ∧ Holds c d p w (s !! (d, p)).

Lemma holds_ext c d p w w' x :
  files w' !! (paths c d p).1 = files w !! (paths c d p).1 →
  files w' !! (paths c d p).2 = files w !! (paths c d p).2 → Holds c d p w x → Holds c d p w' x.
Proof. intros H1 H2. unfold Holds. by rewrite H1, H2. Qed.

Lemma represents_same c s w w' :
  files w' = files w → directories w' = directories w → Represents c s w → Represents c s w'.
Proof.
  intros Hf Hd Hr d p Hx. destruct (Hr d p Hx) as (H1 & H2 & H3). rewrite Hd.
  split_and!; [done|done|]. eapply holds_ext; [..|done]; by rewrite Hf.
Qed.

(** One entry changes, the others keep their files. *)
Lemma represents_update c s w w' d p x :
  Hex64 d → Represents c s w → directories w' = directories w →
  (∀ d' p', Hex64 d' → (d', p') ≠ (d, p) →
     files w' !! (paths c d' p').1 = files w !! (paths c d' p').1 ∧
     files w' !! (paths c d' p').2 = files w !! (paths c d' p').2) →
  Holds c d p w' x → Represents c (partial_alter (λ _, x) (d, p) s) w'.
Proof.
  intros Hd Hr Hdir Hkeep Hx d' p' Hd'. destruct (Hr d' p' Hd') as (H1 & H2 & H3). rewrite Hdir.
  split_and!; [done|done|]. destruct (decide ((d', p') = (d, p))) as [[= -> ->]|Hne].
  - by rewrite lookup_partial_alter_eq.
  - rewrite lookup_partial_alter_ne by done. destruct (Hkeep d' p' Hd' Hne). by eapply holds_ext.
Qed.

Lemma publish_calm c d p a w w' e :
  calm w → publish c d p a w = (w', Err e) → w' = w ∧ Refuses c (d, p) a.
Proof.
  intros Hc. unfold publish.
  match goal with |- context [match ?x with Ok _ => _ | Err _ => _ end] => destruct x as [mb|e'] eqn:Hx end.
  - destruct (paths c d p) as [ap mp]. destruct (atomic_publish_calm ap a w Hc) as (w1 & Hc1 & ->). cbn [io_bind].
    destruct (atomic_publish_calm mp mb w1 Hc1) as (w2 & _ & ->). done.
  - intros [= <- _]. split; [done|]. unfold Refuses. cbn [fst snd].
    unfold reject_if in Hx. destruct (Z.ltb_spec (max_entry_bytes (disk_config c)) (blen a)); [by left|]. right.
    cbn [mbind result_bind] in Hx. unfold cache_authentication_tag in Hx. unfold mac_new in Hx. rewrite hmac_any_key in Hx.
    cbn [ok_or mbind result_bind] in Hx. destruct (to_vec (identity c d p)) as [enc|]; [right|by left].
    cbn [map_err mbind result_bind] in Hx. match type of Hx with context [to_vec ?m] =>
      exists (cm_authentication_tag m); cbn [cm_authentication_tag]; by destruct (to_vec m) end.
Qed.

Lemma publish_refines c s d p a w w' r :
  Hex64 d → Represents c s w → publish c d p a w = (w', r) →
  ∃ s', store_step (Refuses c) (meets_fault (schedule w)) s (Publish (d, p) a) (Published r) s' ∧ Represents c s' w'.
Proof.
  intros Hd Hr Hp. pose proof Hp as (Hdir & Hkeep & Hok & Hown)%publish_effect; [|done].
  pose proof (represents_update c s w w' d p) as Hup. destruct r as [[]|e].
  - exists (<[(d, p) := Stored a]> s). split; [constructor|]. apply Hup; [done..|].
    destruct (Hok eq_refl) as (enc & mb & Henc & Hlen & Hto & Ha & Hm). exists mb.
    rewrite Ha, Hm. split_and!; [done..|]. eexists _, enc. split_and!; [by apply from_to|done..|].
    cbn. by rewrite hex_decode_encode.
  - destruct (meets_fault (schedule w)) eqn:Hf.
    + destruct Hown as [Ha|[H1 H2]].
      * exists (<[(d, p) := Torn a]> s). split; [by constructor|]. by apply Hup.
      * exists s. split; [constructor; by right|]. destruct (Hr d p Hd) as (_ & _ & Hh).
        rewrite <- (partial_alter_self s (d, p)). apply Hup; [done..|]. by eapply holds_ext.
    + apply publish_calm in Hp as [-> Href]; [|done]. exists s. split; [constructor; by left|done].
Qed.

(** The two reads of a load, from any calm state over the same files. *)
Local Ltac read_calm Hc Hf :=
  match type of Hc with calm ?v =>
    match goal with |- context [fs_read ?q v] =>
      let w' := fresh "w" in let Hc' := fresh "Hc" in let Hf' := fresh "Hf" in
      destruct (fs_read_calm q v Hc) as (w' & (Hc' & Hf' & _) & ->); rewrite fs_read_quiet, Hf;
      rewrite Hf in Hf'; clear Hc Hf; rename Hc' into Hc; rename Hf' into Hf end end.

Lemma load_calm c d p w : calm w → (load c d p w).2 = (load c d p (quiet w)).2.
Proof.
  intros Hc. unfold load. destruct (paths c d p) as [ap mp]. rewrite !path_exists_quiet.
  destruct (path_exists_calm ap w Hc) as (w1 & (Hc1 & Hf1 & Hd1) & ->).
  destruct (path_exists_calm mp w1 Hc1) as (w2 & (Hc2 & Hf2 & Hd2) & Hm). rewrite Hf1, Hd1 in Hm.
  rewrite Hf1 in Hf2. rewrite Hm.
  destruct (bool_decide (is_Some (files w !! ap) ∨ is_Some (directories w !! ap))),
    (bool_decide (is_Some (files w !! mp) ∨ is_Some (directories w !! mp))); cbn [negb]; cbv iota beta; [| | |done];
    first [read_calm Hc1 Hf1|read_calm Hc2 Hf2]; (destruct (files w !! mp); cbn [map_err]; [|done]);
    (match goal with |- context [match ?x with Ok _ => _ | Err _ => _ end] => destruct x end; [|done]);
    first [read_calm Hc1 Hf1|read_calm Hc2 Hf2]; done.
Qed.

Lemma load_quiet_present c d p w :
  is_Some (files w !! (paths c d p).1) → (load c d p (quiet w)).2 ≠ Ok None.
Proof.
  intros Ha. unfold load. destruct (paths c d p) as [ap mp]. cbn [fst] in Ha.
  rewrite path_exists_quiet, bool_decide_eq_true_2 by by left. cbv iota beta.
  rewrite fs_read_quiet. destruct (files w !! mp); cbn [map_err]; [|done].
  match goal with |- context [match ?x with Ok _ => _ | Err _ => _ end] => destruct x end; [|done].
  rewrite fs_read_quiet. cbn [snd]. intros Hl. by result_inv.
Qed.

Lemma load_quiet_absent c d p w :
  Holds c d p w None → directories w !! (paths c d p).1 = None → directories w !! (paths c d p).2 = None →
  (load c d p (quiet w)).2 = Ok None.
Proof.
  intros [Ha Hm] Hda Hdm. unfold load. destruct (paths c d p) as [ap mp]. cbn [fst snd] in *.
  rewrite !path_exists_quiet, !bool_decide_eq_false_2; [done|..]; rewrite ?Ha, ?Hm, ?Hda, ?Hdm; by intros [[]|[]].
Qed.

Lemma load_refines c s d p w w' r :
  Hex64 d → Represents c s w → load c d p w = (w', r) →
  store_step (Refuses c) (meets_fault (schedule w)) s (Load (d, p)) (Loaded r) s ∧ Represents c s w'.
Proof.
  intros Hd Hr Hl. split.
  2: { pose proof (load_world c d p w) as [Hf Hdir]. rewrite Hl in Hf, Hdir. by eapply represents_same. }
  destruct (Hr d p Hd) as (Hda & Hdm & Hh).
  assert (∀ a, r = Ok (Some a) → content <$> files w !! (paths c d p).1 = Some a) as Hsound.
  { intros a ->. by apply load_sound in Hl as (m & _ & Ha & _). }
  destruct (meets_fault (schedule w)) eqn:Hf.
  - destruct r as [[a|]|e]; [|by constructor..]. specialize (Hsound a eq_refl).
    destruct (s !! (d, p)) as [[b|b]|] eqn:Hs; unfold Holds in Hh.
    + destruct Hh as (m & Hb & _). constructor. congruence.
    + apply load_torn. congruence.
    + destruct Hh as [Hb _]. by rewrite Hb in Hsound.
  - pose proof (load_calm c d p w Hf) as Hq. rewrite Hl in Hq. cbn [snd] in Hq. subst r.
    destruct (s !! (d, p)) as [[b|b]|] eqn:Hs; unfold Holds in Hh.
    + destruct Hh as (m & Hb & Hm & Ha). rewrite (load_complete c d p w m b) by done. by constructor.
    + assert (is_Some (files w !! (paths c d p).1)) as Hp by (destruct (files w !! (paths c d p).1); [done|discriminate]).
      apply load_quiet_present in Hp. destruct (load c d p (quiet w)).2 as [[a|]|e]; [|done|by eapply load_torn_failed].
      specialize (Hsound a eq_refl). apply load_torn. congruence.
    + rewrite load_quiet_absent by done. by constructor.
Qed.

Lemma path_is_file_world path w :
  let x := path_is_file path w in
  files x.1 = files w ∧ directories x.1 = directories w ∧ (x.2 = true → is_Some (files w !! path)).
Proof.
  unfold path_is_file. pose proof (next_call_files w) as (Hf & Hd & _).
  destruct (next_call w) as [w1 [f|]]; cbn [fst snd] in *; [done|]. rewrite Hf, Hd.
  split_and!; [done..|]. by rewrite bool_decide_eq_true.
Qed.

Lemma contains_world c d p w :
  let x := contains c d p w in
  files x.1 = files w ∧ directories x.1 = directories w ∧
  (x.2 = true → is_Some (files w !! (paths c d p).1)).
Proof.
  unfold contains. destruct (paths c d p) as [ap mp]. cbn [fst].
  pose proof (path_is_file_world ap w) as (Hf & Hd & Ha). destruct (path_is_file ap w) as [w1 []]; cbn [fst snd] in *; [|done].
  pose proof (path_is_file_world mp w1) as (Hf1 & Hd1 & _). split_and!; [congruence|congruence|auto].
Qed.

Lemma contains_calm c d p w :
  calm w → (contains c d p w).2
    = bool_decide (is_Some (files w !! (paths c d p).1)) && bool_decide (is_Some (files w !! (paths c d p).2)).
Proof.
  intros Hc. unfold contains. destruct (paths c d p) as [ap mp]. cbn [fst snd].
  destruct (path_is_file_calm ap w Hc) as (w1 & (Hc1 & Hf1 & _) & ->). case_bool_decide; [|done].
  destruct (path_is_file_calm mp w1 Hc1) as (w2 & _ & ->). by rewrite Hf1.
Qed.

Lemma contains_refines c s d p w w' b :
  Hex64 d → Represents c s w → contains c d p w = (w', b) →
  store_step (Refuses c) (meets_fault (schedule w)) s (Contains (d, p)) (Found b) s ∧ Represents c s w'.
Proof.
  intros Hd Hr Hl. pose proof (contains_world c d p w) as (Hf & Hdir & Ha). rewrite Hl in Hf, Hdir, Ha.
  split; [|by eapply represents_same]. destruct (Hr d p Hd) as (_ & _ & Hh). cbn [snd] in Ha.
  destruct (s !! (d, p)) as [[a|a]|] eqn:Hs; unfold Holds in Hh.
  - destruct b; [by eapply contains_stored|]. destruct (meets_fault (schedule w)) eqn:Hm; [by constructor|].
    pose proof (contains_calm c d p w Hm) as Hq. rewrite Hl in Hq.
    destruct Hh as (m & Hx & Hy & _). destruct (files w !! (paths c d p).1), (files w !! (paths c d p).2); done.
  - by eapply contains_torn.
  - destruct b; [|by constructor]. destruct Hh as [Hx _], (Ha eq_refl) as [y Hy]. congruence.
Qed.

Lemma root_not_entry c d p : Hex64 d → root (disk_config c) ≠ (paths c d p).1 ∧ root (disk_config c) ≠ (paths c d p).2.
Proof.
  intros Hd. destruct (paths_bytes c d p Hd) as [Ha Hm]. pose proof (hex64_length d Hd) as Hl.
  assert (length (str_bytes (root (disk_config c))) <= length (join_prefix (root (disk_config c))))%nat as Hj.
  { unfold join_prefix. case_bool_decide as He; [by rewrite He|]. case_bool_decide; rewrite ?length_app; lia. }
  split; intros Heq%(f_equal (length ∘ str_bytes)); cbn [compose] in Heq; rewrite ?Ha, ?Hm in Heq;
    unfold entry_bytes in Heq; rewrite !length_app in Heq; lia.
Qed.

Lemma fs_create_dir_all_effect path w w' r :
  fs_create_dir_all path w = (w', r) →
  files w' = files w ∧ ∀ q, q ≠ path → directories w' !! q = directories w !! q.
Proof.
  unfold fs_create_dir_all. pose proof (next_call_files w) as (Hf & Hd & _).
  destruct (next_call w) as [w1 [f|]]; cbn [fst] in *; [by intros [= <- _]; rewrite Hd|].
  destruct (directories w1 !! path); intros [= <- _]; cbn; rewrite Hd; [done|].
  split; [done|]. intros q Hq. by rewrite lookup_insert_ne.
Qed.
Lemma fs_set_permissions_other path m w w' r :
  fs_set_permissions path m w = (w', r) →
  ∀ q, q ≠ path → files w' !! q = files w !! q ∧ directories w' !! q = directories w !! q.
Proof.
  unfold fs_set_permissions. pose proof (next_call_files w) as (Hf & Hd & _).
  destruct (next_call w) as [w1 [f|]]; cbn [fst] in *; [by intros [= <- _] q _; rewrite Hf, Hd|].
  destruct (files w1 !! path), (directories w1 !! path); intros [= <- _] q Hq; cbn; rewrite Hf, Hd; try done;
    by rewrite lookup_insert_ne.
Qed.

Lemma reopen_refines c s w c' w' x :
  max_entry_bytes (disk_config c) ≠ 0 → Represents c s w → cache_step c Reopen w = (c', w', x) →
  store_step (Refuses c) (meets_fault (schedule w)) s Reopen x s ∧ Represents c s w' ∧ c' = c.
Proof.
  intros Hmax Hr. cbn [cache_step]. unfold disk_prepare. rewrite (proj2 (Z.eqb_neq _ _) Hmax).
  unfold set_private_directory, lift_io. set (path := root (disk_config c)).
  assert (∀ v, (∀ q, q ≠ path → files v !! q = files w !! q ∧ directories v !! q = directories w !! q) →
    Represents c s v) as Hsame.
  { intros v Hv d p Hd. destruct (Hr d p Hd) as (H1 & H2 & H3), (root_not_entry c d p Hd) as [Ha Hm].
    destruct (Hv _ (not_eq_sym Ha)) as [Hfa Hda], (Hv _ (not_eq_sym Hm)) as [Hfm Hdm].
    split_and!; [congruence|congruence|by eapply holds_ext]. }
  destruct (fs_create_dir_all path w) as [w1 r1] eqn:H1. pose proof (fs_create_dir_all_effect _ _ _ _ H1) as [Hf1 Hd1].
  destruct r1 as [u|e]; cbn [fst snd map_err io_bind].
  2: { intros [= <- <- <-]. split_and!; [|apply Hsame; intros q Hq; rewrite Hf1; auto|done].
       destruct (meets_fault (schedule w)) eqn:Hm; [by constructor|].
       destruct (fs_create_dir_all_calm path w Hm) as (? & _ & _ & Hok). congruence. }
  destruct (fs_set_permissions path 448 w1) as [w2 r2] eqn:H2. pose proof (fs_set_permissions_other _ _ _ _ _ H2) as Ho.
  assert (Represents c s w2) as Hr2.
  { apply Hsame. intros q Hq. destruct (Ho q Hq) as [-> ->]. rewrite Hf1. auto. }
  destruct r2 as [u2|e]; cbn [fst snd map_err io_bind]; intros [= <- <- <-].
  - split_and!; [constructor|done|by destruct c].
  - split_and!; [|done|done]. destruct (meets_fault (schedule w)) eqn:Hm; [by constructor|].
    destruct (fs_create_dir_all_calm path w Hm) as (v & Hv & Hdir & Hok). rewrite H1 in Hok. injection Hok as <- _.
    destruct (fs_set_permissions_calm path 448 w1 Hv (or_intror Hdir)) as (? & _ & Hok). congruence.
Qed.

Lemma cache_step_refines c s o w c' w' x :
  max_entry_bytes (disk_config c) ≠ 0 → well_keyed o → Represents c s w → cache_step c o w = (c', w', x) →
  ∃ s', store_step (Refuses c) (meets_fault (schedule w)) s o x s' ∧ Represents c s' w' ∧ c' = c.
Proof.
  intros Hmax Hk Hr. destruct o as [[d p] a|[d p]|[d p]|]; cbn [cache_step].
  4: { intros Hs. destruct (reopen_refines _ _ _ _ _ _ Hmax Hr Hs) as (? & ? & ?). eauto. }
  all: assert (Hex64 d) as Hd by (apply (Hk (d, p)); done).
  - destruct (publish c d p a w) as [w1 r] eqn:Hp. intros [= <- <- <-].
    destruct (publish_refines _ _ _ _ _ _ _ _ Hd Hr Hp) as (s' & ? & ?). eauto.
  - destruct (load c d p w) as [w1 r] eqn:Hp. intros [= <- <- <-].
    destruct (load_refines _ _ _ _ _ _ _ Hd Hr Hp). eauto.
  - destruct (contains c d p w) as [w1 r] eqn:Hp. intros [= <- <- <-].
    destruct (contains_refines _ _ _ _ _ _ _ Hd Hr Hp). eauto.
Qed.

(** Without faults the store is a plain map: what it holds is what was
    published last, and every answer is determined by it. *)
Definition map_answer (refuses : key → list byte → Prop) (s : gmap key (list byte)) (o : store_op) (x : store_answer) : Prop :=
  match o, x with
  | Load k, Loaded r => r = Ok (s !! k)
  | Contains k, Found b => b = bool_decide (is_Some (s !! k))
  | Publish k a, Published r => r = Ok tt ∨ refuses k a
  | Reopen, Reopened r => r = Ok tt
  | _, _ => False
  end.
Definition map_next (s : gmap key (list byte)) (o : store_op) (x : store_answer) : gmap key (list byte) :=
  match o, x with Publish k a, Published (Ok _) => <[k := a]> s | _, _ => s end.
Fixpoint map_run (refuses : key → list byte → Prop) (s : gmap key (list byte)) (t : list (bool * store_op * store_answer)) : Prop :=
  match t with
  | [] => True
  | (_, o, x) :: t' => map_answer refuses s o x ∧ map_run refuses (map_next s o x) t'
  end.

Lemma faultless_run refuses s t s' m :
  store_run refuses s t s' → Forall (λ y, y.1.1 = false) t → s = Stored <$> m → map_run refuses m t.
Proof.
  intros Hrun. revert m. induction Hrun as [|s s1 s2 f o x l Hs _ IH]; intros m Ht ->; cbn; [done|].
  apply Forall_cons in Ht as [Hf Ht]. cbn in Hf. subst f.
  inversion Hs; subst; try discriminate; cbn [map_answer map_next] in *;
    rewrite ?lookup_fmap in *;
    try (match goal with Hl : _ <$> m !! ?k = _ |- _ => destruct (m !! k) eqn:Hk; cbn in Hl; simplify_eq end);
    (split; [naive_solver|]); apply IH; try done. by rewrite fmap_insert.
Qed.

(** C19: the disk cache is a store.  Over a directory without entries, every
    sequence of publications, loads, queries and reopenings, each with any
    faults of its file-system calls, answers as the abstract store allows: a
    load returns the artifact last published under its key, or misses or fails
    where a call of it failed or a publication was torn; entries of other keys
    are never affected; and the final directory holds exactly the entries of the
    store.  When no call fails it is a plain map. *)
Theorem disk_cache_refines_store c w l c' w' t :
  max_entry_bytes (disk_config c) ≠ 0 → Represents c ∅ w → Forall (λ x, well_keyed x.2) l →
  cache_run c l w = (c', w', t) →
  c' = c ∧ (∃ s, store_run (Refuses c) ∅ t s ∧ Represents c s w') ∧
  (Forall (λ x, meets_fault x.1 = false) l → map_run (Refuses c) ∅ t).
Proof.
  intros Hmax Hr Hk Hrun.
  assert (∀ s w, Represents c s w → cache_run c l w = (c', w', t) →
    c' = c ∧ (∃ s', store_run (Refuses c) s t s' ∧ Represents c s' w') ∧
    (Forall (λ x, meets_fault x.1 = false) l → Forall (λ y, y.1.1 = false) t)) as Hgen.
  { clear Hr Hrun w. revert t. induction l as [|[f o] l IH]; intros t s w Hr Hrun; cbn [cache_run] in Hrun.
    { injection Hrun as <- <- <-. split_and!; [done| |done]. exists s. by split; [constructor|]. }
    apply Forall_cons in Hk as [Hk Hl]. destruct (cache_step c o (set_schedule f w)) as [[c1 w1] x] eqn:Hs.
    destruct (cache_step_refines c s o (set_schedule f w) c1 w1 x) as (s1 & Hstep & Hr1 & ->); [done..|].
    destruct (cache_run c l w1) as [[c2 w2] t2] eqn:Ht. injection Hrun as -> -> <-.
    destruct (IH Hl t2 s1 w1 Hr1 Ht) as (-> & (s2 & Hrun & Hr2) & Hf). split_and!; [done| |].
    - exists s2. split; [|done]. by econstructor.
    - intros [? ?]%Forall_cons. constructor; [done|auto]. }
  destruct (Hgen ∅ w Hr Hrun) as (Hc & (s & Hs & Hrep) & Hf). split_and!; [done|by exists s|].
  intros Hq. eapply (faultless_run _ _ _ _ ∅); [done|by apply Hf|]. by rewrite fmap_empty.
Qed.
End refinement.

Module ArtifactStoreExample.
Import Toy DiskCacheExample.

Definition failure : option fault := Some {| fault_message := "disk full"; fault_written := 3 |}.
Definition here : key := (digest, Cli0_2).
(** A torn publication, its repair, a load whose lookups fail, a reopening. *)
Definition session : list (list (option fault) * store_op) :=
  [([None; None; None; None; None; failure], Publish here artifact); ([], Load here); ([], Publish here artifact);
   ([], Load here); ([failure; failure], Load here); ([], Reopen); ([], Contains here); ([], Load (digest, Http0_3))].
Definition undisturbed : list (list (option fault) * store_op) :=
  [([], Contains here); ([], Publish here artifact); ([None], Load here); ([], Publish here (str_bytes "v2")); ([], Load here)].
Definition trace (l : list (list (option fault) * store_op)) : list (bool * store_op * store_answer) :=
  (cache_run cache l empty_world).2.

Lemma surjective_pairing3 {X Y Z} (x : X * Y * Z) : x = (x.1.1, x.1.2, x.2).
Proof. by destruct x as [[]]. Qed.

Example session_answers :
  (λ x, x.2) <$> trace session =
  [Published (Err (Io "disk full")); Loaded (Err (Cache ("metadata read failed: " +:+ not_found))); Published (Ok tt);
   Loaded (Ok (Some artifact)); Loaded (Ok None); Reopened (Ok tt); Found true; Loaded (Ok None)].
Proof. vm_compute. reflexivity. Qed.

Lemma empty_represents : Represents cache ∅ empty_world.
Proof. intros d p _. by rewrite !lookup_empty. Qed.
Lemma all_keyed (l : list (list (option fault) * store_op)) :
  (∀ x, x ∈ l → x.2 = Reopen ∨ ∃ k, op_key x.2 = Some k ∧ k.1 = digest) →
  Forall (λ x, well_keyed x.2) l.
Proof.
  intros Hl. apply Forall_forall. intros x Hx k Hk. destruct (Hl x Hx) as [E|(k' & E & Ed)]; rewrite E in Hk; [done|].
  injection Hk as <-. rewrite Ed. apply digest_hex.
Qed.
Local Ltac keyed :=
  apply all_keyed; intros x Hx; repeat (apply elem_of_cons in Hx as [->|Hx]; [cbn; eauto|]);
  by apply elem_of_nil in Hx.
Lemma session_keyed : Forall (λ x, well_keyed x.2) session.
Proof. keyed. Qed.
Lemma undisturbed_keyed : Forall (λ x, well_keyed x.2) undisturbed.
Proof. keyed. Qed.

Lemma disk_cache_refines_store_witness :
  (∃ s, store_run (Refuses cache) ∅ (trace session) s) ∧ map_run (Refuses cache) ∅ (trace undisturbed).
Proof.
  split.
  - destruct (disk_cache_refines_store cache empty_world session _ _ (trace session) ltac:(done) empty_represents session_keyed
      (surjective_pairing3 _)) as (_ & (s & Hs & _) & _). exists s. exact Hs.
  - apply (disk_cache_refines_store cache empty_world undisturbed _ _ (trace undisturbed) ltac:(done) empty_represents
      undisturbed_keyed (surjective_pairing3 _)). repeat constructor.
Defined.
End ArtifactStoreExample.
