(* ===== verification/Runtime.v ===== *)
(** Package preparation and command invocation ([src/src/runtime.rs]).  The
    engine (Wasmtime) is an interface; the runtime's shared state is explicit,
    and the points where a call awaits while other tasks run take the change
    those tasks make as an argument. *)
From S2P Require Import Prelude Errors Interfaces Streams Types MemoryCache DiskCache.

Local Open Scope Z_scope.

(** What the runtime calls of the engine; errors are the text it formats. *)
Class Engine (C : Type) := {
  from_binary : list byte → result string C;
  deserialize : list byte → result string C;
  serialize : C → result string (list byte);
  exports : C → list string;
}.

Definition validate_config (c : RuntimeConfig) : Result unit :=
  reject_if ((max_warm_components c =? 0)
             || (max_warmish_entries c <? max_warm_components c)
             || (config_max_warmish_bytes c =? 0)
             || (background_workers c =? 0)
             || (paused_resident_ttl c =? 0)
             || (epoch_interval c =? 0))
    (Configuration "cache capacities, background workers, pause TTL, and epoch interval must be positive; warmish entries must cover warm entries").

(** ** World detection *)

Definition export_profile (name : string) : option WasiProfile :=
  if starts_with "wasi:cli/run@0.3." name then Some Cli0_3
  else if starts_with "wasi:cli/run@0.2." name then Some Cli0_2
  else if starts_with "wasi:http/handler@0.3." name then Some Http0_3
  else if starts_with "wasi:http/incoming-handler@0.2." name then Some Http0_2
  else None.

(** [sort_by_key(|p| p.cache_id())]: stable insertion by key. *)
Fixpoint insert_by_key (p : WasiProfile) (l : list WasiProfile) : list WasiProfile :=
  match l with
  | [] => [p]
  | q :: l' => if str_ltb (cache_id q) (cache_id p) then q :: insert_by_key p l' else p :: l
  end.
Definition sort_by_key (l : list WasiProfile) : list WasiProfile := foldr insert_by_key [] l.

(** [Vec::dedup]: drops an element equal to its predecessor. *)
Fixpoint dedup (l : list WasiProfile) : list WasiProfile :=
  match l with
  | p :: (q :: _) as l' => if bool_decide (p = q) then dedup l' else p :: dedup l'
  | _ => l
  end.

Section runtime.
Context {C : Type} `{Engine C} `{Crypto} `{Host}.
Context {JI : Json CacheIdentity} {JM : Json CacheMetadata}.

Definition detect_profile (component : C) : Result WasiProfile :=
  let profiles := dedup (sort_by_key (omap export_profile (exports component))) in
  match profiles with
  | [profile] => Ok profile
  | [] => Err (UnsupportedComponent "expected a standard WASI CLI or HTTP handler export")
  | _ => Err (UnsupportedComponent "component exports more than one supported WASI world")
  end.

Definition deserialize_component (aot : PreparedAot) : Result (PreparedComponent C) :=
  component ← map_err Preparation (deserialize (aot_bytes aot));
  detected ← detect_profile component;
  _ ← reject_if (negb (bool_decide (detected = aot_profile aot)))
        (Cache "deserialized component profile mismatch");
  Ok {| component := component; prepared_profile := detected |}.

(** [RuntimeInner]: the caches, the per-digest preparation locks that have been
    created, the failure counter, and whether a mutex is poisoned. *)
Record RuntimeInner := {
  memory : MemoryCache C;
  memory_poisoned : bool;
  preparation_locks : gset string;
  locks_poisoned : bool;
  disk : option DiskCache;
  disk_world : World;
  disk_publish_failures : Z;
  config : RuntimeConfig;
}.
Implicit Types s : RuntimeInner.

Definition set_memory (m : MemoryCache C) s : RuntimeInner :=
  {| memory := m; memory_poisoned := memory_poisoned s;
     preparation_locks := preparation_locks s; locks_poisoned := locks_poisoned s;
     disk := disk s; disk_world := disk_world s;
     disk_publish_failures := disk_publish_failures s; config := config s |}.
Definition set_disk_world (w : World) s : RuntimeInner :=
  {| memory := memory s; memory_poisoned := memory_poisoned s;
     preparation_locks := preparation_locks s; locks_poisoned := locks_poisoned s;
     disk := disk s; disk_world := w;
     disk_publish_failures := disk_publish_failures s; config := config s |}.
Definition add_lock (d : string) s : RuntimeInner :=
  {| memory := memory s; memory_poisoned := memory_poisoned s;
     preparation_locks := {[d]} ∪ preparation_locks s; locks_poisoned := locks_poisoned s;
     disk := disk s; disk_world := disk_world s;
     disk_publish_failures := disk_publish_failures s; config := config s |}.
Definition count_publish_failure s : RuntimeInner :=
  {| memory := memory s; memory_poisoned := memory_poisoned s;
     preparation_locks := preparation_locks s; locks_poisoned := locks_poisoned s;
     disk := disk s; disk_world := disk_world s;
     disk_publish_failures := wrapping_add u64_max (disk_publish_failures s) 1;
     config := config s |}.

Definition memory_poison_error : Error := Preparation "memory cache is poisoned".

(** Runs an operation under the memory mutex. *)
Definition with_memory {A} (f : MemoryCache C → MemoryCache C * A) s : RuntimeInner * Result A :=
  if memory_poisoned s then (s, Err memory_poison_error)
  else let '(m, a) := f (memory s) in (set_memory m s, Ok a).

Definition runtime_demote (digest : string) s : RuntimeInner :=
  if memory_poisoned s then s else set_memory (demote digest (memory s)) s.

(** [WasiProfile::ALL.into_iter().any(|profile| disk.contains(digest, profile))] *)
Fixpoint disk_contains_any (dc : DiskCache) (digest : string) (l : list WasiProfile) (w : World)
    : World * bool :=
  match l with
  | [] => (w, false)
  | p :: l' =>
      let '(w, found) := contains dc digest p w in
      if found then (w, true) else disk_contains_any dc digest l' w
  end.

Definition tier (digest : string) s : RuntimeInner * PackageTier :=
  let '(s, hit) :=
    if memory_poisoned s then (s, None)
    else
      let '(m, found) := lookup_warm digest (memory s) in
      match found with
      | Some _ => (set_memory m s, Some Warm)
      | None =>
          let '(m, found) := lookup_warmish digest m in
          (set_memory m s, match found with Some _ => Some Warmish | None => None end)
      end in
  match hit with
  | Some t => (s, t)
  | None =>
      match disk s with
      | None => (s, Cold)
      | Some dc =>
          let '(w, found) := disk_contains_any dc digest ALL_PROFILES (disk_world s) in
          (set_disk_world w s, if found then DiskAot else Cold)
      end
  end.

(** The disk loop of [prepare]: the first profile with an entry decides. *)
Fixpoint load_from_disk (dc : DiskCache) (digest : string) (l : list WasiProfile) s
    : RuntimeInner * Result (option (PreparedComponent C)) :=
  match l with
  | [] => (s, Ok None)
  | profile :: l' =>
      let '(w, r) := load dc digest profile (disk_world s) in
      let s := set_disk_world w s in
      match r with
      | Err e => (s, Err e)
      | Ok None => load_from_disk dc digest l' s
      | Ok (Some bytes) =>
          let aot := {| aot_bytes := bytes; aot_profile := profile |} in
          match deserialize_component aot with
          | Err e => (s, Err e)
          | Ok prepared =>
              if negb (bool_decide (prepared_profile prepared = profile))
              then (s, Err (Cache "serialized artifact profile does not match its identity"))
              else
                let? (s, _x) := with_memory (λ m, (insert_warm digest prepared
                                  (insert_warmish digest aot m), tt)) s in
                (s, Ok (Some prepared))
          end
      end
  end.

(** The blocking compilation task. *)
Definition compile (source : list byte) : Result (PreparedComponent C * list byte) :=
  component ← map_err Preparation (from_binary source);
  profile ← detect_profile component;
  bytes ← map_err Preparation (serialize component);
  Ok ({| component := component; prepared_profile := profile |}, bytes).

(** Compilation, publication and retention of a package no tier holds. *)
Definition prepare_cold (digest : string) (source : list byte) (join_failure : option string)
    (others_during_compile : RuntimeInner → RuntimeInner) s
    : RuntimeInner * Result (PreparedComponent C) :=
  let s := others_during_compile s in
  match (match join_failure with
         | Some e => Err (Preparation ("compiler task failed: " +:+ e))
         | None => compile source
         end) with
  | Err e => (s, Err e)
  | Ok (prepared, aot_bytes) =>
      let s :=
        match disk s with
        | None => s
        | Some dc =>
            let '(w, r) := publish dc digest (prepared_profile prepared) aot_bytes (disk_world s) in
            let s := set_disk_world w s in
            if is_ok r then s else count_publish_failure s
        end in
      let aot := {| aot_bytes := aot_bytes; aot_profile := prepared_profile prepared |} in
      let? (s, _x) := with_memory (λ m, (insert_warm digest prepared
                        (insert_warmish digest aot m), tt)) s in
      (s, Ok prepared)
  end.

(** What [prepare] does while it holds the digest's lock. *)
Definition prepare_locked (digest : string) (source : list byte) (join_failure : option string)
    (others_during_compile : RuntimeInner → RuntimeInner) s
    : RuntimeInner * Result (PreparedComponent C) :=
  let? (s, hit) := with_memory (lookup_warm digest) s in
  match hit with
  | Some prepared => (s, Ok prepared)
  | None =>
      let? (s, warmish_hit) := with_memory (lookup_warmish digest) s in
      match warmish_hit with
      | Some aot =>
          match deserialize_component aot with
          | Err e => (s, Err e)
          | Ok prepared =>
              let? (s, _x) := with_memory (λ m, (insert_warm digest prepared m, tt)) s in
              (s, Ok prepared)
          end
      | None =>
          match disk s with
          | None => prepare_cold digest source join_failure others_during_compile s
          | Some dc =>
              let? (s, found) := load_from_disk dc digest ALL_PROFILES s in
              match found with
              | Some prepared => (s, Ok prepared)
              | None => prepare_cold digest source join_failure others_during_compile s
              end
          end
      end
  end.

Definition prepare (digest : string) (source : list byte) (join_failure : option string)
    (others_during_lock others_during_compile : RuntimeInner → RuntimeInner) s
    : RuntimeInner * Result (PreparedComponent C) :=
  let? (s, hit) := with_memory (lookup_warm digest) s in
  match hit with
  | Some prepared => (s, Ok prepared)
  | None =>
      if locks_poisoned s then (s, Err (Preparation "preparation lock map is poisoned"))
      else
        let s := others_during_lock (add_lock digest s) in
        prepare_locked digest source join_failure others_during_compile s
  end.

(** ** Programs *)

Record Program := { program_digest : string; program_bytes : list byte }.

Definition load_bytes (bytes : list byte) : Result Program :=
  _ ← reject_if (bool_decide (bytes = [])) (UnsupportedComponent "component bytes are empty");
  Ok {| program_digest := component_digest bytes; program_bytes := bytes |}.

Record InvocationResult := {
  inv_stdout : list byte; inv_stderr : list byte; inv_exit_code : Z;
  inv_instantiate : Z; inv_execute : Z; inv_suspended : Z }.

(** Clock readings of one call: preparation and total time. *)
Record CallClock := { prepare_elapsed : Z; total_elapsed : Z }.
End runtime.
Arguments RuntimeInner : clear implicits.

Definition map_execution_error (error : string) (evicted timed_out cancelled : bool) : Error :=
  if evicted then IdleEvicted
  else if timed_out then Timeout
  else if cancelled then Cancelled
  else Execution error.

(** ** World detection accepts exactly one world *)

Lemma insert_by_key_perm p l : insert_by_key p l ≡ₚ p :: l.
Proof.
  induction l as [|q l IH]; [done|]. cbn [insert_by_key].
  destruct (str_ltb (cache_id q) (cache_id p)); [|done]. rewrite IH. apply Permutation_swap.
Qed.
Lemma sort_by_key_perm l : sort_by_key l ≡ₚ l.
Proof. induction l as [|p l IH]; [done|]. cbn. by rewrite insert_by_key_perm, IH. Qed.

Lemma dedup_cons p q l :
  dedup (p :: q :: l) = if bool_decide (p = q) then dedup (q :: l) else p :: dedup (q :: l).
Proof. done. Qed.
Lemma elem_of_dedup x l : x ∈ dedup l ↔ x ∈ l.
Proof.
  induction l as [|p [|q l] IH]; [done..|]. rewrite dedup_cons. case_bool_decide; subst; set_solver.
Qed.
Lemma dedup_same p l : Forall (λ q, q = p) l → l ≠ [] → dedup l = [p].
Proof.
  induction 1 as [|q l -> Hl IH]; [done|]. intros _. destruct l as [|q' l]; [done|].
  inversion Hl as [|?? -> Hl']; subst. rewrite dedup_cons, bool_decide_eq_true_2 by done. by apply IH.
Qed.

Lemma dedup_sort_singleton l p :
  dedup (sort_by_key l) = [p] ↔ l ≠ [] ∧ Forall (λ q, q = p) l.
Proof.
  split.
  - intros Hd. split.
    + intros ->. done.
    + apply Forall_forall. intros x Hx. rewrite <- (sort_by_key_perm l), <- elem_of_dedup, Hd in Hx.
      by apply list_elem_of_singleton.
  - intros [Hne Hl]. apply dedup_same; [by rewrite sort_by_key_perm|].
    intros Hs. apply Hne. apply Permutation_nil_r. by rewrite <- (sort_by_key_perm l), Hs.
Qed.

Lemma dedup_sort_nil l : dedup (sort_by_key l) = [] ↔ l = [].
Proof.
  split; [|by intros ->]. intros Hd. destruct l as [|p l]; [done|].
  assert (p ∈ dedup (sort_by_key (p :: l))) as Hp.
  { rewrite elem_of_dedup, sort_by_key_perm. by left. }
  rewrite Hd in Hp. by apply not_elem_of_nil in Hp.
Qed.

Lemma dedup_sort_pair l : (∃ a b r, dedup (sort_by_key l) = a :: b :: r) ↔ ∃ p q, p ∈ l ∧ q ∈ l ∧ p ≠ q.
Proof.
  pose proof (dedup_sort_nil l) as H0. pose proof (dedup_sort_singleton l) as H1. split.
  - intros (a & b & r & E). rewrite E in *. destruct l as [|p l]; [naive_solver|].
    destruct (decide (Forall (λ q, q = p) (p :: l))) as [Hall|Hall].
    + by pose proof (proj2 (H1 p) (conj (not_eq_sym (@nil_cons _ p l)) Hall)).
    + apply not_Forall_Exists in Hall; [|apply _]. apply Exists_exists in Hall as (q & Hq & Hne).
      exists p, q. set_solver.
  - intros (p & q & Hp & Hq & Hne). destruct (dedup (sort_by_key l)) as [|a [|b r]]; [|exfalso|by eauto].
    + assert (l = []) as -> by by apply H0. by apply elem_of_nil in Hp.
    + destruct (proj1 (H1 a) eq_refl) as [_ Hall]. rewrite Forall_forall in Hall.
      apply Hne. rewrite (Hall p Hp). symmetry. by apply Hall.
Qed.

Section detection.
Context {C : Type} `{Engine C}.

(** A component is accepted with a profile exactly when it exports that
    supported world, possibly several times, and no other; with none of them,
    and with two different ones, it is rejected with the corresponding
    message. *)
Theorem detect_profile_unique (comp : C) :
  let worlds := omap export_profile (exports comp) in
  (∀ p, detect_profile comp = Ok p ↔ worlds ≠ [] ∧ Forall (λ q, q = p) worlds) ∧
  (detect_profile comp =
     Err (UnsupportedComponent "expected a standard WASI CLI or HTTP handler export")
   ↔ worlds = []) ∧
  (detect_profile comp =
     Err (UnsupportedComponent "component exports more than one supported WASI world")
   ↔ ∃ p q, p ∈ worlds ∧ q ∈ worlds ∧ p ≠ q).
Proof.
  intros worlds. unfold detect_profile. fold worlds.
  setoid_rewrite <- dedup_sort_singleton. rewrite <- dedup_sort_nil, <- dedup_sort_pair.
  destruct (dedup (sort_by_key worlds)) as [|a [|b l]]; naive_solver.
Qed.
End detection.

(** ** Deserialization only sees trusted bytes *)

Section trust.
Context {C : Type} {E : Engine C} {K : Crypto} {CL : CryptoLaws K} `{Host}.
Context {JI : Json CacheIdentity} {JM : Json CacheMetadata}.
Implicit Types s : RuntimeInner C.

(** The file contents the cache directory may ever hold. *)
Variable Stored : list byte → Prop.

(** Bytes this process serialized, or an artifact that metadata stored on disk
    authenticates under the disk cache's key. *)
Definition Trusted (d : option DiskCache) (b : list byte) : Prop :=
  (∃ comp : C, serialize comp = Ok b) ∨
  (∃ dc digest p m, d = Some dc ∧ Stored m ∧ AuthenticEntry dc digest p m b).

Definition FilesStored s : Prop :=
  ∀ path x, files (disk_world s) !! path = Some x → Stored (content x).

Definition WarmishTrusted s : Prop :=
  ∀ k e, warmish (memory s) !! k = Some e → Trusted (disk s) (aot_bytes (value e)).

(** The same engine with another deserializer. *)
Definition with_deserialize (f : list byte → result string C) : Engine C :=
  {| from_binary := from_binary; deserialize := f; serialize := serialize; exports := exports |}.

Lemma insert_warmish_values d v (m : MemoryCache C) k e :
  warmish (insert_warmish d v m) !! k = Some e →
  value e = v ∨ ∃ e0, warmish m !! k = Some e0 ∧ value e0 = value e.
Proof.
  unfold insert_warmish. destruct (_ <? _); [eauto|].
  match goal with |- context [evict_warmish ?f ?a ?b ?w ?n] =>
    pose proof (evict_warmish_subset f a b w n) as Hsub; destruct (evict_warmish f a b w n) as [w' n'] end.
  cbn. intros Hk. pose proof (lookup_weaken _ _ _ _ Hk Hsub) as Hin.
  apply lookup_insert_Some in Hin as [[_ <-]|[_ Hin]]; eauto.
Qed.

Lemma lookup_warmish_values d (m : MemoryCache C) k e :
  warmish (lookup_warmish d m).1 !! k = Some e →
  ∃ e0, warmish m !! k = Some e0 ∧ value e0 = value e.
Proof.
  unfold lookup_warmish. destruct (warmish m !! d) as [e1|] eqn:He; cbn; [|eauto].
  intros [[<- <-]|[_ Hk]]%lookup_insert_Some; eauto.
Qed.

Lemma lookup_warm_warmish d (m : MemoryCache C) : warmish (lookup_warm d m).1 = warmish m.
Proof. unfold lookup_warm. by destruct (warm m !! d). Qed.

Lemma trusted_lookup_warm d s m a :
  lookup_warm d (memory s) = (m, a) → WarmishTrusted s → WarmishTrusted (set_memory m s).
Proof.
  intros Hl Ht k e. cbn. pose proof (lookup_warm_warmish d (memory s)) as Hw. rewrite Hl in Hw.
  cbn in Hw. rewrite Hw. apply Ht.
Qed.
Lemma trusted_lookup_warmish d s m a :
  lookup_warmish d (memory s) = (m, a) → WarmishTrusted s →
  WarmishTrusted (set_memory m s) ∧
  (∀ aot, a = Some aot → Trusted (disk s) (aot_bytes aot)).
Proof.
  intros Hl Ht. split.
  - intros k e Hk. cbn in *.
    assert (warmish (lookup_warmish d (memory s)).1 !! k = Some e) as Hk' by by rewrite Hl.
    apply lookup_warmish_values in Hk' as (e0 & He0 & <-). by apply (Ht k).
  - intros aot ->. unfold lookup_warmish in Hl.
    destruct (warmish (memory s) !! d) as [e|] eqn:He; simplify_eq. by apply (Ht d).
Qed.
Lemma trusted_insert d prepared aot s :
  WarmishTrusted s → Trusted (disk s) (aot_bytes aot) →
  WarmishTrusted (set_memory (insert_warm d prepared (insert_warmish d aot (memory s))) s).
Proof.
  intros Ht Haot k e Hk. cbn in *. apply insert_warmish_values in Hk as [->|(e0 & He0 & <-)]; [done|].
  by apply (Ht k).
Qed.

Section redirected.
Variable f : list byte → result string C.

Lemma detect_profile_redirect comp :
  detect_profile (H := with_deserialize f) comp = detect_profile (H := E) comp.
Proof. done. Qed.
Lemma compile_redirect source : compile (H := with_deserialize f) source = compile (H := E) source.
Proof. done. Qed.
Lemma deserialize_component_redirect aot :
  f (aot_bytes aot) = deserialize (aot_bytes aot) →
  deserialize_component (H := with_deserialize f) aot = deserialize_component (H := E) aot.
Proof. intros Hf. unfold deserialize_component. cbn [deserialize with_deserialize]. by rewrite Hf. Qed.

Context (d0 : option DiskCache).
Hypothesis Hagree : ∀ b, Trusted d0 b → f b = deserialize b.

Lemma with_memory_trusted {A} (g : MemoryCache C → MemoryCache C * A) s :
  WarmishTrusted s →
  (∀ m a, g (memory s) = (m, a) → WarmishTrusted (set_memory m s)) →
  WarmishTrusted (with_memory g s).1 ∧ disk (with_memory g s).1 = disk s.
Proof.
  intros Ht Hg. unfold with_memory. destruct (memory_poisoned s); [done|].
  destruct (g (memory s)) as [m a] eqn:Hm. split; [by eapply Hg|done].
Qed.

Lemma with_memory_world {A} (g : MemoryCache C → MemoryCache C * A) s :
  disk_world (with_memory g s).1 = disk_world s.
Proof. unfold with_memory. destruct (memory_poisoned s), (g (memory s)); done. Qed.

Lemma load_from_disk_redirect dc digest l s :
  d0 = Some dc → disk s = d0 → FilesStored s → WarmishTrusted s →
  load_from_disk (H := with_deserialize f) dc digest l s = load_from_disk (H := E) dc digest l s ∧
  WarmishTrusted (load_from_disk (H := E) dc digest l s).1 ∧
  disk (load_from_disk (H := E) dc digest l s).1 = disk s ∧
  FilesStored (load_from_disk (H := E) dc digest l s).1.
Proof.
  intros Hdc. revert s. induction l as [|p l IH]; intros s Hd Hfs Ht; cbn [load_from_disk]; [done|].
  pose proof (load_world dc digest p (disk_world s)) as [Hfiles _].
  destruct (load dc digest p (disk_world s)) as [w r] eqn:Hl. cbn [fst] in Hfiles.
  assert (FilesStored (set_disk_world w s)) as Hfs1.
  { intros path x. cbn. rewrite Hfiles. apply Hfs. }
  assert (WarmishTrusted (set_disk_world w s)) as Ht1 by done.
  destruct r as [[b|]|e]; [|by apply (IH (set_disk_world w s))|done].
  apply load_sound in Hl as (m & Hm & _ & Hauth).
  assert (Stored m) as Hsm by (apply fmap_Some in Hm as (x & Hx & ->); by eapply Hfs).
  assert (Trusted d0 b) as Hb by (right; by exists dc, digest, p, m).
  rewrite deserialize_component_redirect by by apply Hagree.
  destruct (deserialize_component _) as [prepared|e]; [|done].
  destruct (negb _); [done|].
  destruct (with_memory_trusted (λ m, (insert_warm digest prepared
      (insert_warmish digest {| aot_bytes := b; aot_profile := p |} m), tt)) (set_disk_world w s) Ht1)
    as [Ht2 Hd2].
  { intros m' [] [= <-]. apply (trusted_insert digest prepared _ (set_disk_world w s)); [done|].
    cbn. by rewrite Hd. }
  split; [done|]. pose proof (with_memory_world (λ m, (insert_warm digest prepared
      (insert_warmish digest {| aot_bytes := b; aot_profile := p |} m), tt)) (set_disk_world w s)) as Hw.
  assert (FilesStored (with_memory (λ m, (insert_warm digest prepared
      (insert_warmish digest {| aot_bytes := b; aot_profile := p |} m), tt)) (set_disk_world w s)).1) as Hfs2.
  { intros path x. rewrite Hw. apply Hfs1. }
  destruct (with_memory _ _) as [s2 [[]|]]; cbn in *; done.
Qed.

Lemma compile_serialized source prepared b :
  compile (H := E) source = Ok (prepared, b) → Trusted d0 b.
Proof. unfold compile. intros Hc. result_inv. left. eauto. Qed.

(** Other tasks keep the disk configuration and the bounds on what memory and
    disk hold. *)
Definition Respectful (others : RuntimeInner C → RuntimeInner C) : Prop :=
  ∀ s, disk s = d0 → FilesStored s → WarmishTrusted s →
  disk (others s) = d0 ∧ FilesStored (others s) ∧ WarmishTrusted (others s).

Lemma prepare_cold_redirect digest source join others s :
  Respectful others → disk s = d0 → FilesStored s → WarmishTrusted s →
  prepare_cold (H := with_deserialize f) digest source join others s =
    prepare_cold (H := E) digest source join others s ∧
  WarmishTrusted (prepare_cold (H := E) digest source join others s).1.
Proof.
  intros Ho Hd Hfs Ht. destruct (Ho s Hd Hfs Ht) as (Hd1 & _ & Ht1). unfold prepare_cold.
  rewrite compile_redirect. set (s1 := others s) in *.
  destruct (match join with Some e => _ | None => _ end) as [[prepared b]|e] eqn:Hc; [|done].
  assert (Trusted d0 b) as Hb.
  { destruct join; [done|]. by eapply compile_serialized. }
  set (s2 := match disk s1 with None => _ | Some _ => _ end).
  assert (WarmishTrusted s2 ∧ disk s2 = d0) as [Ht2 Hd2].
  { unfold s2. destruct (disk s1) as [dc|] eqn:Hdc; [|by rewrite Hdc].
    destruct (publish _ _ _ _ _) as [w r].
    destruct (is_ok r); cbn; rewrite Hdc; split; try done; intros k e Hk;
      cbn; rewrite Hdc, Hd1, <- Hd1, <- Hdc; by apply (Ht1 k). }
  split; [done|].
  destruct (with_memory_trusted (λ m, (insert_warm digest prepared
      (insert_warmish digest {| aot_bytes := b; aot_profile := prepared_profile prepared |} m), tt)) s2 Ht2)
    as [Ht3 Hd3].
  { intros m' [] [= <-]. apply trusted_insert; [done|]. cbn. by rewrite Hd2. }
  destruct (with_memory _ s2) as [s3 [[]|]]; cbn in *; done.
Qed.

Lemma prepare_locked_redirect digest source join others s :
  Respectful others → disk s = d0 → FilesStored s → WarmishTrusted s →
  prepare_locked (H := with_deserialize f) digest source join others s =
    prepare_locked (H := E) digest source join others s ∧
  WarmishTrusted (prepare_locked (H := E) digest source join others s).1.
Proof.
  intros Ho Hd Hfs Ht. unfold prepare_locked.
  pose proof (with_memory_world (lookup_warm digest) s) as Hw1.
  destruct (with_memory_trusted (lookup_warm digest) s Ht) as [Ht1 Hd1].
  { intros m a Hl. by eapply trusted_lookup_warm. }
  destruct (with_memory (lookup_warm digest) s) as [s1 [[prepared|]|e]]; cbn [io_bind fst] in *;
    [done| |done].
  pose proof (with_memory_world (lookup_warmish digest) s1) as Hw2.
  destruct (with_memory_trusted (lookup_warmish digest) s1 Ht1) as [Ht2 Hd2].
  { intros m a Hl. by apply (trusted_lookup_warmish digest _ _ a). }
  assert (∀ s2 aot, with_memory (lookup_warmish digest) s1 = (s2, Ok (Some aot)) →
    Trusted d0 (aot_bytes aot)) as Haot.
  { intros s2 aot. unfold with_memory. destruct (memory_poisoned s1); [done|].
    destruct (lookup_warmish digest (memory s1)) as [m a] eqn:Hl. intros [= <- ->].
    destruct (trusted_lookup_warmish digest s1 m _ Hl Ht1) as [_ Hx]. rewrite <- Hd, <- Hd1. by apply Hx. }
  destruct (with_memory (lookup_warmish digest) s1) as [s2 [[aot|]|e]]; cbn [io_bind fst] in *; [| |done].
  - rewrite deserialize_component_redirect by (by eapply Hagree, Haot).
    destruct (deserialize_component _) as [prepared|e]; [|done]. split; [done|].
    destruct (with_memory_trusted (λ m, (insert_warm digest prepared m, tt)) s2 Ht2) as [Ht3 _].
    { intros m [] [= <-] k e Hk. by apply (Ht2 k). }
    destruct (with_memory _ s2) as [s3 [[]|]]; cbn in *; done.
  - assert (FilesStored s2) as Hfs2 by (intros path x; rewrite Hw2, Hw1; apply Hfs).
    destruct (disk s2) as [dc|] eqn:Hdc; [|by apply prepare_cold_redirect; [|congruence|..]].
    destruct (load_from_disk_redirect dc digest ALL_PROFILES s2) as (-> & Ht3 & Hd3 & Hfs3);
      [congruence..|done|done|].
    destruct (load_from_disk dc digest ALL_PROFILES s2) as [s3 [[prepared|]|e]]; cbn [io_bind fst] in *;
      [done| |done].
    apply prepare_cold_redirect; [done|congruence|done|done].
Qed.

(** C3: preparing a package deserializes only trusted bytes: an engine whose
    deserializer behaves arbitrarily on every other input prepares every
    package with the same outcome and state, and the artifacts retained in
    memory stay trusted, whatever the directory holds, whichever calls fail
    and whatever other tasks do while it waits. *)
Theorem prepare_deserializes_trusted digest source join during_lock during_compile s :
  Respectful during_lock → Respectful during_compile → disk s = d0 → FilesStored s → WarmishTrusted s →
  prepare (H := with_deserialize f) digest source join during_lock during_compile s =
    prepare (H := E) digest source join during_lock during_compile s ∧
  WarmishTrusted (prepare (H := E) digest source join during_lock during_compile s).1.
Proof.
  intros Hol Hoc Hd Hfs Ht. unfold prepare.
  pose proof (with_memory_world (lookup_warm digest) s) as Hw1.
  destruct (with_memory_trusted (lookup_warm digest) s Ht) as [Ht1 Hd1].
  { intros m a Hl. by eapply trusted_lookup_warm. }
  destruct (with_memory (lookup_warm digest) s) as [s1 [[prepared|]|e]]; cbn [io_bind fst] in *;
    [done| |done].
  destruct (locks_poisoned s1); [done|].
  destruct (Hol (add_lock digest s1)) as (Hd2 & Hfs2 & Ht2);
    [cbn; congruence|intros path x; cbn; rewrite Hw1; apply Hfs|done|].
  by apply prepare_locked_redirect.
Qed.
End redirected.
End trust.

(** ** Outcomes of preparation *)

Section outcomes.
Context {C : Type} `{Engine C} {K : Crypto} {CL : CryptoLaws K} `{Host}.
Context {JI : Json CacheIdentity} {JM : Json CacheMetadata}.
Implicit Types s : RuntimeInner C.

(** The memory cache is healthy and its use counter is [n] below the wrap. *)
Definition MemoryReady (n : Z) s : Prop :=
  memory_poisoned s = false ∧ CacheOk (memory s) ∧ sequence (memory s) + n ≤ u64_max.

Lemma memory_ready_set n m s :
  memory_poisoned s = false → CacheOk m → sequence m + n ≤ u64_max → MemoryReady n (set_memory m s).
Proof. done. Qed.

Lemma cache_op_ready n op s :
  MemoryReady (n + 1) s → 0 ≤ n → MemoryReady n (set_memory (cache_step (memory s) op) s).
Proof.
  intros (Hp & Hok & Hs) Hn. destruct (cache_step_ok (memory s) op Hok) as (Hok1 & Hs1 & _); [lia|].
  apply memory_ready_set; [done|done|lia].
Qed.

Lemma lookup_warm_ready n d s :
  MemoryReady (n + 1) s → 0 ≤ n →
  ∃ s', with_memory (lookup_warm d) s = (s', Ok (value <$> warm (memory s) !! d)) ∧
    MemoryReady n s' ∧ (∀ k, value <$> warm (memory s') !! k = value <$> warm (memory s) !! k) ∧
    warmish (memory s') = warmish (memory s) ∧ disk s' = disk s ∧ disk_world s' = disk_world s ∧
    disk_publish_failures s' = disk_publish_failures s ∧ locks_poisoned s' = locks_poisoned s.
Proof.
  intros Hr Hn. pose proof (cache_op_ready n (LookupWarm d) s Hr Hn) as Hr'. destruct Hr as (Hp & _).
  unfold with_memory. rewrite Hp. cbn [cache_step] in Hr'. unfold lookup_warm in *.
  destruct (warm (memory s) !! d) as [e|] eqn:He; cbn [fst] in Hr'; eexists; (split; [done|]);
    (split_and!; try done).
  intros k. cbn. destruct (decide (k = d)) as [->|]; [by rewrite lookup_insert_eq, He|].
  by rewrite lookup_insert_ne.
Qed.

Lemma lookup_warmish_ready n d s :
  MemoryReady (n + 1) s → 0 ≤ n →
  ∃ s', with_memory (lookup_warmish d) s = (s', Ok (value <$> warmish (memory s) !! d)) ∧
    MemoryReady n s' ∧ warm (memory s') = warm (memory s) ∧
    (∀ k, value <$> warmish (memory s') !! k = value <$> warmish (memory s) !! k) ∧
    disk s' = disk s ∧ disk_world s' = disk_world s ∧
    disk_publish_failures s' = disk_publish_failures s.
Proof.
  intros Hr Hn. pose proof (cache_op_ready n (LookupWarmish d) s Hr Hn) as Hr'. destruct Hr as (Hp & _).
  unfold with_memory. rewrite Hp. cbn [cache_step] in Hr'. unfold lookup_warmish in *.
  destruct (warmish (memory s) !! d) as [e|] eqn:He; cbn [fst] in Hr'; eexists; (split; [done|]);
    (split_and!; try done).
  intros k. cbn. destruct (decide (k = d)) as [->|]; [by rewrite lookup_insert_eq, He|].
  by rewrite lookup_insert_ne.
Qed.

(** Retaining a component, with or without its artifact, leaves it warm. *)
Lemma retain_ready n d prepared ops s :
  ops = [] ∨ (∃ aot, ops = [InsertWarmish d aot]) → MemoryReady (n + 2) s → 0 ≤ n →
  let m := insert_warm d prepared (cache_run (memory s) ops) in
  with_memory (λ m, (insert_warm d prepared (cache_run m ops), tt)) s = (set_memory m s, Ok tt) ∧
  MemoryReady n (set_memory m s) ∧ value <$> warm m !! d = Some prepared.
Proof.
  intros Hops Hr Hn m. pose proof Hr as (Hp & Hok & Hs).
  assert (MemoryReady (n + 1) (set_memory (cache_run (memory s) ops) s)) as Hr1.
  { destruct Hops as [->|[aot ->]].
    - unfold MemoryReady. cbn. split_and!; [done|done|lia].
    - cbn. apply (cache_op_ready (n + 1) (InsertWarmish d aot)); [by replace (n + 1 + 1) with (n + 2) by lia|lia]. }
  unfold with_memory. rewrite Hp. split; [done|].
  pose proof (cache_op_ready n (InsertWarm d prepared) _ Hr1 Hn) as Hr2. cbn in Hr2.
  split; [exact Hr2|]. destruct Hr1 as (_ & Hok1 & Hs1). cbn in Hok1, Hs1.
  destruct (insert_warm_ok d prepared _ Hok1 ltac:(lia)) as (_ & Hv & _). exact Hv.
Qed.

Lemma load_from_disk_ready n dc d l s s' o :
  MemoryReady (n + 2) s → 0 ≤ n → load_from_disk dc d l s = (s', Ok o) →
  match o with
  | Some prepared => MemoryReady n s' ∧ value <$> warm (memory s') !! d = Some prepared
  | None => memory s' = memory s ∧ memory_poisoned s' = memory_poisoned s ∧ disk s' = disk s
  end.
Proof.
  revert s. induction l as [|p l IH]; intros s Hr Hn; cbn [load_from_disk].
  { intros [= <- <-]. done. }
  destruct (load dc d p (disk_world s)) as [w [[b|]|e]]; [| |done].
  2: { intros Hl. apply IH in Hl; done. }
  destruct (deserialize_component _) as [prepared|]; [|done]. destruct (negb _); [done|].
  destruct (retain_ready n d prepared [InsertWarmish d {| aot_bytes := b; aot_profile := p |}]
    (set_disk_world w s)) as (Hw & Hr' & Hv); [eauto|done|done|].
  cbn [cache_run foldl cache_step] in *. rewrite Hw. intros [= <- <-]. done.
Qed.

Lemma prepare_cold_ready n d source join others s s' prepared :
  (∀ s, MemoryReady (n + 2) s → MemoryReady (n + 2) (others s)) →
  MemoryReady (n + 2) s → 0 ≤ n →
  prepare_cold d source join others s = (s', Ok prepared) →
  MemoryReady n s' ∧ value <$> warm (memory s') !! d = Some prepared.
Proof.
  intros Ho Hr Hn. apply Ho in Hr. unfold prepare_cold. set (s1 := others s) in *.
  destruct (match join with Some e => _ | None => _ end) as [[pc b]|e]; [|done].
  set (s2 := match disk s1 with None => _ | Some _ => _ end).
  assert (MemoryReady (n + 2) s2) as Hr2.
  { unfold s2. destruct (disk s1) as [dc|]; [|done]. destruct (publish _ _ _ _ _) as [w r].
    by destruct (is_ok r). }
  destruct (retain_ready n d pc [InsertWarmish d {| aot_bytes := b; aot_profile := prepared_profile pc |}] s2)
    as (Hw & Hr' & Hv); [eauto|done|done|].
  cbn [cache_run foldl cache_step] in *. rewrite Hw. intros [= <- <-]. done.
Qed.

Lemma prepare_locked_ready n d source join others s s' prepared :
  (∀ s, MemoryReady (n + 2) s → MemoryReady (n + 2) (others s)) →
  MemoryReady (n + 4) s → 0 ≤ n →
  prepare_locked d source join others s = (s', Ok prepared) →
  MemoryReady n s' ∧ value <$> warm (memory s') !! d = Some prepared.
Proof.
  intros Ho Hr Hn. unfold prepare_locked.
  destruct (lookup_warm_ready (n + 3) d s) as (s1 & -> & Hr1 & Hw1 & _ & Hd1 & _);
    [by replace (n + 3 + 1) with (n + 4) by lia|lia|].
  cbn [io_bind]. destruct (value <$> warm (memory s) !! d) as [pc|] eqn:Hhit.
  { intros [= <- <-]. rewrite Hw1. split; [|done]. destruct Hr1 as (? & ? & ?). split_and!; [done..|lia]. }
  destruct (lookup_warmish_ready (n + 2) d s1) as (s2 & -> & Hr2 & Hw2 & _ & Hd2 & _);
    [by replace (n + 2 + 1) with (n + 3) by lia|lia|].
  cbn [io_bind]. destruct (value <$> warmish (memory s1) !! d) as [aot|].
  { destruct (deserialize_component aot) as [pc|]; [|done].
    destruct (retain_ready n d pc [] s2) as (Hw & Hr' & Hv); [by left|done|done|].
    cbn [cache_run foldl] in *. rewrite Hw. intros [= <- <-]. done. }
  destruct (disk s2) as [dc|]; [|by apply prepare_cold_ready].
  destruct (load_from_disk dc d ALL_PROFILES s2) as [s3 [o|e]] eqn:Hl; cbn [io_bind]; [|done].
  apply (load_from_disk_ready n) in Hl; [|done..]. destruct o as [pc|].
  - intros [= <- <-]. done.
  - destruct Hl as (Hm & Hp & _). apply prepare_cold_ready; [done| |done].
    unfold MemoryReady in *. by rewrite Hm, Hp.
Qed.

Lemma prepare_ready n d source join during_lock during_compile s s' prepared :
  (∀ s, MemoryReady (n + 4) s → MemoryReady (n + 4) (during_lock s)) →
  (∀ s, MemoryReady (n + 2) s → MemoryReady (n + 2) (during_compile s)) →
  MemoryReady (n + 5) s → 0 ≤ n →
  prepare d source join during_lock during_compile s = (s', Ok prepared) →
  MemoryReady n s' ∧ value <$> warm (memory s') !! d = Some prepared.
Proof.
  intros Hol Hoc Hr Hn. unfold prepare.
  destruct (lookup_warm_ready (n + 4) d s) as (s1 & -> & Hr1 & Hw1 & _);
    [by replace (n + 4 + 1) with (n + 5) by lia|lia|].
  cbn [io_bind]. destruct (value <$> warm (memory s) !! d) as [pc|] eqn:Hhit.
  { intros [= <- <-]. rewrite Hw1. split; [|done]. destruct Hr1 as (? & ? & ?). split_and!; [done..|lia]. }
  destruct (locks_poisoned s1); [done|].
  apply prepare_locked_ready; [done| |lia]. by apply Hol.
Qed.

(** A successful preparation leaves exactly the returned component in the
    warm tier under its digest, with the cache invariant intact, so the package
    is then reported warm; this holds whatever tier served it and whatever
    other tasks did to the caches meanwhile. *)
Theorem prepare_leaves_warm n d source join during_lock during_compile s s' prepared :
  (∀ s, MemoryReady (n + 4) s → MemoryReady (n + 4) (during_lock s)) →
  (∀ s, MemoryReady (n + 2) s → MemoryReady (n + 2) (during_compile s)) →
  MemoryReady (n + 5) s → 1 ≤ n →
  prepare d source join during_lock during_compile s = (s', Ok prepared) →
  CacheOk (memory s') ∧ value <$> warm (memory s') !! d = Some prepared ∧ (tier d s').2 = Warm.
Proof.
  intros Hol Hoc Hr Hn Hprep.
  destruct (prepare_ready n d source join during_lock during_compile s s' prepared) as [Hr' Hw]; [done..|lia|done|].
  destruct Hr' as (Hp & Hok & _). split_and!; [done|done|].
  unfold tier. rewrite Hp. unfold lookup_warm.
  destruct (warm (memory s') !! d); [done|]. done.
Qed.

(** No file of the entry exists. *)
Definition EntryAbsent (dc : DiskCache) d p (w : World) : Prop :=
  files w !! (paths dc d p).1 = None ∧ files w !! (paths dc d p).2 = None ∧
  directories w !! (paths dc d p).1 = None ∧ directories w !! (paths dc d p).2 = None.

Lemma load_absent dc d p w : EntryAbsent dc d p w → load dc d p (quiet w) = (quiet w, Ok None).
Proof.
  unfold EntryAbsent, load. destruct (paths dc d p) as [ap mp]. cbn [fst snd].
  intros (Ha & Hm & Hda & Hdm). rewrite !path_exists_quiet, Ha, Hm, Hda, Hdm.
  rewrite !bool_decide_eq_false_2; [done|intros [[? [=]]|[? [=]]]..].
Qed.

(** The directory holds an authentic entry. *)
Definition HasAuthentic (dc : DiskCache) d p (w : World) : Prop :=
  ∃ m a, content <$> files w !! (paths dc d p).2 = Some m ∧ content <$> files w !! (paths dc d p).1 = Some a
    ∧ AuthenticEntry dc d p m a.

(** Without an authentic entry a load finds none or fails; if a file of the
    entry is there, it is an error of the cache. *)
Lemma load_unauthentic dc d p w :
  ¬ HasAuthentic dc d p w →
  (load dc d p (quiet w) = (quiet w, Ok None)
   ∧ ¬ (is_Some (files w !! (paths dc d p).1) ∨ is_Some (files w !! (paths dc d p).2)))
  ∨ ∃ e, load dc d p (quiet w) = (quiet w, Err e).
Proof.
  intros Hno. destruct (load dc d p (quiet w)) as [w' [[a|]|e]] eqn:Hl.
  { apply load_sound in Hl as (m & Hm & Ha & Hauth). destruct Hno. by exists m, a. }
  all: revert Hl; clear Hno; unfold load; destruct (paths dc d p) as [ap mp]; cbn [fst snd]; rewrite !path_exists_quiet.
  all: destruct (bool_decide (is_Some (files w !! ap) ∨ is_Some (directories w !! ap))) eqn:Hba; cbv iota beta.
  2, 4: destruct (bool_decide (is_Some (files w !! mp) ∨ is_Some (directories w !! mp))) eqn:Hbm; cbn [negb]; cbv iota beta.
  all: try (by intros [=]).
  all: try (by intros [= <-]; left; bool_inv; split; [done|tauto]).
  all: rewrite !fs_read_quiet; destruct (files w !! mp) as [mb|]; cbn [map_err];
    [match goal with |- context [match ?x with Ok _ => _ | Err _ => _ end] => destruct x end|].
  all: rewrite ?fs_read_quiet; intros [= <- Hl]; first [by result_inv|right; by eexists|done].
Qed.

Lemma load_from_disk_tampered dc d l p s :
  schedule (disk_world s) = [] → Forall (λ q, ¬ HasAuthentic dc d q (disk_world s)) l → p ∈ l →
  is_Some (files (disk_world s) !! (paths dc d p).1) ∨ is_Some (files (disk_world s) !! (paths dc d p).2) →
  ∃ e, load_from_disk dc d l s = (s, Err e).
Proof.
  intros Hs Hno Hp Hpres. induction Hno as [|q l Hq _ IH]; [by apply not_elem_of_nil in Hp|]. cbn [load_from_disk].
  assert (disk_world s = quiet (disk_world s)) as Hw by (destruct (disk_world s); cbn in *; by subst).
  assert (set_disk_world (quiet (disk_world s)) s = s) as Hset by (rewrite <- Hw; by destruct s).
  destruct (load_unauthentic dc d q (disk_world s) Hq) as [[Hl Habs]|[e Hl]]; rewrite Hw, Hl, Hset; [|by eexists].
  apply elem_of_cons in Hp as [->|Hp]; [done|by apply IH].
Qed.

(** C38: an entry on disk that does not authenticate fails closed.  In a cache
    directory whose calls all answer, let some file of an entry of the digest
    be there and no entry of the digest under any profile be authentic; then
    preparation of a package the memory does not hold returns an error, the
    same whatever the source is, whatever the compiler would do with it and
    whatever others do meanwhile, so nothing is compiled in its place; nothing
    is retained in either tier, and the directory is left as it was.  (A call
    of [Path::exists] that fails counts as absence: see
    [unanswered_check_replaces].) *)
Theorem prepare_tampered_fails_closed dc d s p :
  MemoryReady 2 s → disk s = Some dc → schedule (disk_world s) = [] →
  warm (memory s) !! d = None → warmish (memory s) !! d = None →
  p ∈ ALL_PROFILES →
  is_Some (files (disk_world s) !! (paths dc d p).1) ∨ is_Some (files (disk_world s) !! (paths dc d p).2) →
  Forall (λ q, ¬ HasAuthentic dc d q (disk_world s)) ALL_PROFILES →
  ∃ s' e, (∀ source join others, prepare_locked d source join others s = (s', Err e)) ∧
    (∀ k, value <$> warm (memory s') !! k = value <$> warm (memory s) !! k) ∧
    (∀ k, value <$> warmish (memory s') !! k = value <$> warmish (memory s) !! k) ∧
    disk_world s' = disk_world s ∧ disk_publish_failures s' = disk_publish_failures s.
Proof.
  intros Hr Hdisk Hsch Hw Hwi Hp Hpres Hno.
  destruct (lookup_warm_ready 1 d s) as (s1 & Hl1 & Hr1 & Hv1 & Hwi1 & Hd1 & Hdw1 & Hf1 & _); [done|lia|].
  destruct (lookup_warmish_ready 0 d s1) as (s2 & Hl2 & Hr2 & Hw2 & Hv2 & Hd2 & Hdw2 & Hf2); [done|lia|].
  destruct (load_from_disk_tampered dc d ALL_PROFILES p s2) as (e & Hl3); [by rewrite ?Hdw2, ?Hdw1..|].
  exists s2, e. split_and!.
  - intros source join others. unfold prepare_locked. rewrite Hl1, Hw. cbn [io_bind fmap option_fmap option_map].
    rewrite Hl2, Hwi1, Hwi. cbn [io_bind fmap option_fmap option_map]. rewrite Hd2, Hd1, Hdisk, Hl3. done.
  - intros k. by rewrite Hw2, Hv1.
  - intros k. by rewrite Hv2, Hwi1.
  - congruence.
  - congruence.
Qed.

(** Once trusted source has compiled, the package is prepared whatever the
    disk cache does: a failed publication is counted and nothing else. *)
Theorem prepare_cold_survives_publish d source s prepared b :
  MemoryReady 2 s → compile source = Ok (prepared, b) →
  ∃ s', prepare_cold d source None id s = (s', Ok prepared) ∧
    value <$> warm (memory s') !! d = Some prepared ∧
    disk_publish_failures s' =
      match disk s with
      | Some dc =>
          if is_ok (publish dc d (prepared_profile prepared) b (disk_world s)).2
          then disk_publish_failures s
          else wrapping_add u64_max (disk_publish_failures s) 1
      | None => disk_publish_failures s
      end.
Proof.
  intros Hr Hc. unfold prepare_cold. rewrite Hc. cbn [id].
  set (s2 := match disk s with None => _ | Some _ => _ end).
  assert (MemoryReady (0 + 2) s2 ∧ disk_publish_failures s2 = match disk s with
      | Some dc => if is_ok (publish dc d (prepared_profile prepared) b (disk_world s)).2
                   then disk_publish_failures s else wrapping_add u64_max (disk_publish_failures s) 1
      | None => disk_publish_failures s end) as [Hr2 Hf].
  { unfold s2, id. destruct (disk s) as [dc|]; [|done]. destruct (publish _ _ _ _ _) as [w r]. cbn [snd].
    by destruct (is_ok r). }
  destruct (retain_ready 0 d prepared
    [InsertWarmish d {| aot_bytes := b; aot_profile := prepared_profile prepared |}] s2)
    as (Hw & Hr' & Hv); [eauto|done|done|].
  cbn [cache_run foldl cache_step] in *. rewrite Hw. cbn [io_bind]. eexists. by split_and!.
Qed.
End outcomes.

Module RuntimeExample.
Import Toy DiskCacheExample.

(** Components are their export names; a binary is one name. *)
#[export] Instance engine : Engine (list string) := {|
  from_binary b := Ok [String.string_of_list_byte b];
  deserialize b := match b with
                   | x01 :: n => Ok [String.string_of_list_byte n]
                   | _ => Err "not native code"
                   end;
  serialize c := match c with [n] => Ok (x01 :: str_bytes n) | _ => Err "unserializable" end;
  exports c := c;
|}.
Definition runtime_config : RuntimeConfig := {|
  max_warm_components := 1; max_warmish_entries := 2; config_max_warmish_bytes := 40;
  background_workers := 1; paused_resident_ttl := 1; epoch_interval := 1;
  disk_cache := Some DiskCacheExample.config; limits := default_limits |}.
Definition source : list byte := str_bytes "wasi:cli/run@0.2.3".
Definition start (w : World) : RuntimeInner (list string) := {|
  memory := memory_cache_new runtime_config; memory_poisoned := false;
  preparation_locks := ∅; locks_poisoned := false; disk := Some cache; disk_world := w;
  disk_publish_failures := 0; Runtime.config := runtime_config |}.
Definition cold : PreparedComponent (list string) :=
  {| component := ["wasi:cli/run@0.2.3"]; prepared_profile := Cli0_2 |}.

Lemma start_ready w n : n ≤ 100 → MemoryReady n (start w).
Proof.
  intros Hn. split_and!; [done| |].
  - apply memory_cache_new_ok; by vm_compute.
  - change (0 + n ≤ u64_max). unfold u64_max. lia.
Qed.

Lemma prepare_leaves_warm_witness :
  let r := prepare digest source None id id (start empty_world) in
  CacheOk (memory r.1) ∧ value <$> warm (memory r.1) !! digest = Some cold ∧ (tier digest r.1).2 = Warm.
Proof.
  set (r := prepare digest source None id id (start empty_world)).
  apply (prepare_leaves_warm 1 digest source None id id (start empty_world) r.1 cold);
    [done|done|by apply start_ready|lia|].
  change (prepare digest source None id id (start empty_world)) with r.
  rewrite (surjective_pairing r) at 1. apply f_equal. by vm_compute.
Defined.

(** A deserializer that runs anything it is given. *)
Definition unsafe_deserialize (b : list byte) : result string (list string) :=
  match b with
  | x01 :: n => Ok [String.string_of_list_byte n]
  | _ => Ok ["attacker code"]
  end.

Lemma prepare_deserializes_trusted_witness :
  prepare (H := with_deserialize unsafe_deserialize) digest source None id id (start empty_world) =
    prepare digest source None id id (start empty_world) ∧
  WarmishTrusted (λ _, False) (prepare digest source None id id (start empty_world)).1.
Proof.
  apply (prepare_deserializes_trusted (λ _, False) unsafe_deserialize (Some cache)); try done.
  intros b [[comp Hb]|(dc & d & p & m & _ & [] & _)].
  cbn in Hb. destruct comp as [|n [|]]; try done. by injection Hb as <-.
Defined.

(** An entry that somebody without the key published: everything about it is
    right but its tag. *)
Definition forger : DiskCache :=
  {| disk_config := {| root := root DiskCacheExample.config; disk_authentication_key := str_bytes "another key 1234";
                       max_entry_bytes := 64 |}; disk_target := disk_target cache |}.
Definition tampered_world : World := (publish forger digest Cli0_2 (x02 :: source) empty_world).1.
Example tampered_tag :
  (load forger digest Cli0_2 tampered_world).2 = Ok (Some (x02 :: source)) ∧
  (load cache digest Cli0_2 tampered_world).2 = Err (Cache "artifact authentication failed").
Proof. vm_compute. done. Qed.
Lemma tampered_unauthentic q : ¬ HasAuthentic cache digest q tampered_world.
Proof.
  intros (m & a & Hm & Ha & Hauth). pose proof (load_complete cache digest q tampered_world m a Hm Ha Hauth) as Hl.
  assert (match (load cache digest q (quiet tampered_world)).2 with Ok (Some _) => false | _ => true end = true) as Hn
    by (destruct q; vm_compute; reflexivity).
  by rewrite Hl in Hn.
Qed.

Lemma prepare_tampered_fails_closed_witness :
  ∃ s' e, (∀ source join others, prepare_locked digest source join others (start tampered_world) = (s', Err e)) ∧
    (∀ k, value <$> warm (memory s') !! k = value <$> warm (memory (start tampered_world)) !! k) ∧
    (∀ k, value <$> warmish (memory s') !! k = value <$> warmish (memory (start tampered_world)) !! k) ∧
    disk_world s' = tampered_world ∧ disk_publish_failures s' = 0.
Proof.
  apply (prepare_tampered_fails_closed cache digest (start tampered_world) Cli0_2);
    [by apply start_ready|done|done|done|done|unfold ALL_PROFILES; set_solver| |].
  - left. vm_compute. by eexists.
  - apply Forall_forall. intros q _. apply tampered_unauthentic.
Defined.

(** If the existence checks of that entry fail, it counts as absent: the
    package is compiled and the entry overwritten. *)
Definition unanswered_world : World :=
  {| files := files tampered_world; directories := ∅; temp_sequence := 9;
     schedule := [None; None; Some {| fault_message := "denied"; fault_written := 0 |};
                  Some {| fault_message := "denied"; fault_written := 0 |}] |}.
Example unanswered_check_replaces :
  let '(s, r) := prepare_locked digest source None id (start unanswered_world) in
  r = Ok cold ∧ content <$> files (disk_world s) !! (paths cache digest Cli0_2).1 = Some (x01 :: source).
Proof. vm_compute. done. Qed.

Lemma prepare_cold_survives_publish_witness :
  ∃ s', prepare_cold digest source None id (start failing_world) = (s', Ok cold) ∧
    value <$> warm (memory s') !! digest = Some cold ∧
    disk_publish_failures s' =
      if is_ok (publish cache digest Cli0_2 (x01 :: source) failing_world).2
      then 0 else wrapping_add u64_max 0 1.
Proof.
  apply (prepare_cold_survives_publish digest source (start failing_world) cold (x01 :: source)).
  - by apply start_ready.
  - by vm_compute.
Defined.
End RuntimeExample.
