(* ===== verification/Preparation.v ===== *)
(** Construction of a runtime and concurrent package preparation
    ([src/src/runtime.rs]: [Runtime::new], [load_file], [metrics],
    [Program::prepare], [schedule_background_promotion]).  A runtime serves any
    number of preparations at once.  Each is a task that advances by the
    sections the source runs without interruption: one section per lock of the
    memory cache, per lookup of the lock map, per disk access, and the
    compilation.  A section may interleave with those of every other task, with
    tier queries and demotions, and with changes other programs make to the
    cache directory.  [run_alone] shows that a task nobody interferes with does
    exactly what [Runtime.prepare] does. *)
From S2P Require Import Prelude Errors Interfaces Streams Types MemoryCache DiskCache Runtime.

Local Open Scope Z_scope.

(** ** Construction *)

Inductive OptLevel := SpeedAndSize.
Record EngineConfig := {
  wasm_component_model : bool; wasm_component_model_async : bool;
  wasm_component_model_more_async_builtins : bool; wasm_component_model_async_stackful : bool;
  wasm_stack_switching : bool; consume_fuel : bool; epoch_interruption : bool;
  wasm_relaxed_simd : bool; wasm_simd : bool;
  memory_reservation : Z; memory_reservation_for_growth : Z;
  cranelift_opt_level : OptLevel; cranelift_nan_canonicalization : bool }.
Definition engine_config : EngineConfig := {|
  wasm_component_model := true; wasm_component_model_async := true;
  wasm_component_model_more_async_builtins := true; wasm_component_model_async_stackful := true;
  wasm_stack_switching := true; consume_fuel := true; epoch_interruption := true;
  wasm_relaxed_simd := false; wasm_simd := false;
  memory_reservation := 0; memory_reservation_for_growth := 0;
  cranelift_opt_level := SpeedAndSize; cranelift_nan_canonicalization := true |}.

(** What the process offers: the engine's constructor, the target's names and
    whether a thread can be spawned. *)
Record Startup := {
  engine_new : EngineConfig → result string unit;
  arch : string; os : string;
  thread_spawn : string → result string unit }.

(** ** Tasks *)

Section preparation.
Context {C : Type} `{Engine C} `{Crypto} `{Host}.
Context {JI : Json CacheIdentity} {JM : Json CacheMetadata}.
Implicit Types s : RuntimeInner C.

(** Where a preparation stands; the states from [PRelookup] to [PRetain] hold
    the digest's lock. *)
Inductive prepare_pc :=
  | PPermit                                             (* a promotion waits for its permit *)
  | PLookup                                             (* the warm tier, first time *)
  | PLockMap                                            (* the digest's entry of the lock map *)
  | PAwaitLock
  | PRelookup                                           (* the warm tier, under the lock *)
  | PWarmish
  | PInsertWarm (prepared : PreparedComponent C)
  | PDisk (profiles : list WasiProfile)                 (* the entries still to try *)
  | PCompile
  | PPublish (prepared : PreparedComponent C) (bytes : list byte)
  | PRetain (aot : PreparedAot) (prepared : PreparedComponent C)
  | PDone (r : Result (PreparedComponent C)).

Definition holds_lock (p : prepare_pc) : bool :=
  match p with
  | PPermit | PLookup | PLockMap | PAwaitLock | PDone _ => false
  | _ => true
  end.

Definition waits_for_permit (p : prepare_pc) : bool := match p with PPermit => true | _ => false end.
Definition is_done (p : prepare_pc) : bool := match p with PDone _ => true | _ => false end.

(** One section of [prepare] for a package; [free] says whether the digest's
    lock is free, [join] is the failure of the compiler task, if it fails.
    [None] means the task has to wait or is over. *)
Definition prepare_step (free : bool) (join : option string) (digest : string) (source : list byte)
    (p : prepare_pc) s : option (RuntimeInner C * prepare_pc) :=
  match p with
  | PPermit | PDone _ => None
  | PLookup =>
      let '(s, r) := with_memory (lookup_warm digest) s in
      Some (s, match r with
               | Ok (Some prepared) => PDone (Ok prepared)
               | Ok None => PLockMap
               | Err e => PDone (Err e)
               end)
  | PLockMap =>
      if locks_poisoned s
      then Some (s, PDone (Err (Preparation "preparation lock map is poisoned")))
      else Some (add_lock digest s, PAwaitLock)
  | PAwaitLock => if free then Some (s, PRelookup) else None
  | PRelookup =>
      let '(s, r) := with_memory (lookup_warm digest) s in
      Some (s, match r with
               | Ok (Some prepared) => PDone (Ok prepared)
               | Ok None => PWarmish
               | Err e => PDone (Err e)
               end)
  | PWarmish =>
      let '(s, r) := with_memory (lookup_warmish digest) s in
      Some (s, match r with
               | Ok (Some aot) => match deserialize_component aot with
                                  | Ok prepared => PInsertWarm prepared
                                  | Err e => PDone (Err e)
                                  end
               | Ok None => match disk s with Some _ => PDisk ALL_PROFILES | None => PCompile end
               | Err e => PDone (Err e)
               end)
  | PInsertWarm prepared =>
      let '(s, r) := with_memory (λ m, (insert_warm digest prepared m, tt)) s in
      Some (s, match r with Ok _ => PDone (Ok prepared) | Err e => PDone (Err e) end)
  | PDisk [] => Some (s, PCompile)
  | PDisk (profile :: l) =>
      match disk s with
      | None => Some (s, PCompile)
      | Some dc =>
          let '(w, r) := load dc digest profile (disk_world s) in
          let s := set_disk_world w s in
          Some (s, match r with
                   | Err e => PDone (Err e)
                   | Ok None => PDisk l
                   | Ok (Some bytes) =>
                       let aot := {| aot_bytes := bytes; aot_profile := profile |} in
                       match deserialize_component aot with
                       | Err e => PDone (Err e)
                       | Ok prepared =>
                           if negb (bool_decide (prepared_profile prepared = profile))
                           then PDone (Err (Cache "serialized artifact profile does not match its identity"))
                           else PRetain aot prepared
                       end
                   end)
      end
  | PCompile =>
      Some (s, match (match join with
                      | Some e => Err (Preparation ("compiler task failed: " +:+ e))
                      | None => compile source
                      end) with
               | Err e => PDone (Err e)
               | Ok (prepared, bytes) => PPublish prepared bytes
               end)
  | PPublish prepared bytes =>
      let aot := {| aot_bytes := bytes; aot_profile := prepared_profile prepared |} in
      Some (match disk s with
            | None => s
            | Some dc =>
                let '(w, r) := publish dc digest (prepared_profile prepared) bytes (disk_world s) in
                let s := set_disk_world w s in
                if is_ok r then s else count_publish_failure s
            end, PRetain aot prepared)
  | PRetain aot prepared =>
      let '(s, r) := with_memory (λ m, (insert_warm digest prepared (insert_warmish digest aot m), tt)) s in
      Some (s, match r with Ok _ => PDone (Ok prepared) | Err e => PDone (Err e) end)
  end.

Record Task := {
  task_program : Program;
  task_background : bool;   (* spawned by [schedule_background_promotion] *)
  task_pc : prepare_pc }.
Definition set_pc (p : prepare_pc) (t : Task) : Task :=
  {| task_program := task_program t; task_background := task_background t; task_pc := p |}.
Definition task_digest (t : Task) : string := program_digest (task_program t).

(** [Runtime]: its shared state, the free permits of the promotion semaphore
    and the preparations of its clients and of its own promotions. *)
Record Runtime := { inner : RuntimeInner C; background : Z; tasks : list Task }.

Definition runtime_new (st : Startup) (c : RuntimeConfig) (w : World) : option (World * Result Runtime) :=
  match (_ ← validate_config c; map_err Configuration (engine_new st engine_config)) with
  | Err e => Some (w, Err e)
  | Ok _ =>
      let target := arch st +:+ "-" +:+ os st in
      let '(w, d) :=
        match disk_cache c with
        | None => (w, Ok None)
        | Some cache => let? (w, dc) := disk_prepare cache target w in (w, Ok (Some dc))
        end in
      match (d ← d;
             _ ← map_err (λ e, Configuration ("epoch watchdog failed: " +:+ e))
                   (thread_spawn st "runtrue-wasm-epoch");
             Ok d) with
      | Err e => Some (w, Err e)
      | Ok d =>
          if max_permits <? background_workers c then None   (* [Semaphore::new] panics *)
          else Some (w, Ok {|
            inner := {| memory := memory_cache_new c; memory_poisoned := false;
                        preparation_locks := ∅; locks_poisoned := false; disk := d; disk_world := w;
                        disk_publish_failures := 0; config := c |};
            background := background_workers c; tasks := [] |})
      end
  end.
Definition runtime_with_defaults (st : Startup) (w : World) : option (World * Result Runtime) :=
  runtime_new st default_config w.
(** [RuntimeBuilder]: the configuration [build] constructs the runtime from. *)
Record RuntimeBuilder := { builder_config : RuntimeConfig }.
Definition builder_new : RuntimeBuilder := {| builder_config := default_config |}.
Definition builder_with_config (c : RuntimeConfig) (b : RuntimeBuilder) : RuntimeBuilder := {| builder_config := c |}.
Definition builder_build (st : Startup) (b : RuntimeBuilder) (w : World) : option (World * Result Runtime) :=
  runtime_new st (builder_config b) w.
Definition runtime_metrics (r : Runtime) : Z := disk_publish_failures (inner r).

Definition set_inner s (r : Runtime) : Runtime :=
  {| inner := s; background := background r; tasks := tasks r |}.

(** [load_bytes], with the promotion it schedules inside a Tokio runtime. *)
Definition runtime_load_bytes (in_tokio : bool) (bytes : list byte) (r : Runtime) : Runtime * Result Program :=
  match load_bytes bytes with
  | Err e => (r, Err e)
  | Ok p =>
      ({| inner := inner r; background := background r;
          tasks := tasks r ++ (if in_tokio then [{| task_program := p; task_background := true;
                                                    task_pc := PPermit |}] else []) |}, Ok p)
  end.
Definition runtime_load_file (in_tokio : bool) (contents : result string (list byte)) (r : Runtime)
    : Runtime * Result Program :=
  match contents with
  | Err e => (r, Err (Io e))
  | Ok bytes => runtime_load_bytes in_tokio bytes r
  end.

(** A call of [Program::prepare], or of [prepare] by a command run. *)
Definition start_prepare (p : Program) (r : Runtime) : Runtime :=
  {| inner := inner r; background := background r;
     tasks := tasks r ++ [{| task_program := p; task_background := false; task_pc := PLookup |}] |}.

Definition lock_free (digest : string) (r : Runtime) : bool :=
  negb (existsb (λ t, bool_decide (task_digest t = digest) && holds_lock (task_pc t)) (tasks r)).

(** A task advances; the permit of a promotion is taken when it starts and
    returned when its preparation is over. *)
Definition task_step (i : nat) (join : option string) (r : Runtime) : option Runtime :=
  t ← tasks r !! i;
  if waits_for_permit (task_pc t) then
    if 0 <? background r
    then Some {| inner := inner r; background := background r - 1;
                 tasks := <[i := set_pc PLookup t]> (tasks r) |}
    else None
  else
    '(s, p) ← prepare_step (lock_free (task_digest t) r) join (task_digest t)
                (program_bytes (task_program t)) (task_pc t) (inner r);
    Some {| inner := s;
            background := background r + (if task_background t && is_done p then 1 else 0);
            tasks := <[i := set_pc p t]> (tasks r) |}.

Inductive runtime_event :=
  | LoadBytes (in_tokio : bool) (bytes : list byte)
  | Prepare (bytes : list byte)             (* on a program loaded from these bytes *)
  | Advance (i : nat) (join : option string)
  | Tier (digest : string)
  | Demote (digest : string)
  | External (w : World).                   (* the cache directory changes *)

Definition runtime_step (e : runtime_event) (r : Runtime) : option Runtime :=
  match e with
  | LoadBytes in_tokio bytes => Some (runtime_load_bytes in_tokio bytes r).1
  | Prepare bytes => match load_bytes bytes with Ok p => Some (start_prepare p r) | Err _ => None end
  | Advance i join => task_step i join r
  | Tier digest => Some (set_inner (tier digest (inner r)).1 r)
  | Demote digest => Some (set_inner (runtime_demote digest (inner r)) r)
  | External w => Some (set_inner (set_disk_world w (inner r)) r)
  end.
Fixpoint runtime_run (l : list runtime_event) (r : Runtime) : option Runtime :=
  match l with
  | [] => Some r
  | e :: l' => r ← runtime_step e r; runtime_run l' r
  end.
End preparation.
Arguments prepare_pc : clear implicits.
Arguments Task : clear implicits.
Arguments Runtime : clear implicits.

Section facts.
Context {C : Type} `{Engine C} {K : Crypto} {CL : CryptoLaws K} `{Host}.
Context {JI : Json CacheIdentity} {JM : Json CacheMetadata}.
Implicit Types s : RuntimeInner C.
Implicit Types r : Runtime C.

(** ** A task alone does what [prepare] does *)

Definition alone (join : option string) (d : string) (source : list byte)
    (x y : RuntimeInner C * prepare_pc C) : Prop := prepare_step true join d source x.2 x.1 = Some y.

Lemma alone_cold join d source s s' res :
  prepare_cold d source join id s = (s', res) → rtc (alone join d source) (s, PCompile) (s', PDone res).
Proof.
  unfold prepare_cold. cbv [id]. destruct (match join with Some e => _ | None => _ end) as [[pc b]|e] eqn:Hc.
  2: { intros [= <- <-]. eapply rtc_l; [|done]. unfold alone. cbn [fst snd prepare_step]. by rewrite Hc. }
  intros Hw. eapply rtc_l; [unfold alone; cbn [fst snd prepare_step]; by rewrite Hc|].
  eapply rtc_l; [done|]. eapply rtc_l; [|done]. unfold alone. cbn [fst snd prepare_step].
  destruct (with_memory _ _) as [s2 [[]|e]]; cbn in Hw; by simplify_eq.
Qed.

Lemma alone_disk join d source dc l s s' o :
  disk s = Some dc → load_from_disk dc d l s = (s', o) →
  match o with
  | Ok (Some pc) => rtc (alone join d source) (s, PDisk l) (s', PDone (Ok pc))
  | Ok None => rtc (alone join d source) (s, PDisk l) (s', PCompile)
  | Err e => rtc (alone join d source) (s, PDisk l) (s', PDone (Err e))
  end.
Proof.
  revert s. induction l as [|p l IH]; intros s Hd; cbn [load_from_disk].
  { intros [= <- <-]. by apply rtc_once. }
  destruct (load dc d p (disk_world s)) as [w [[b|]|e]] eqn:Hl.
  2: { intros Ho. specialize (IH (set_disk_world w s) Hd Ho).
       assert (alone join d source (s, PDisk (p :: l)) (set_disk_world w s, PDisk l)) as Hs
         by (unfold alone; cbn [fst snd prepare_step]; by rewrite Hd, Hl).
       destruct o as [[]|]; by eapply rtc_l. }
  2: { intros [= <- <-]. apply rtc_once. unfold alone. cbn [fst snd prepare_step]. by rewrite Hd, Hl. }
  set (aot := {| aot_bytes := b; aot_profile := p |}).
  destruct (deserialize_component aot) as [pc|e] eqn:Hs.
  2: { intros [= <- <-]. apply rtc_once. unfold alone. cbn [fst snd prepare_step]. rewrite Hd, Hl. fold aot. by rewrite Hs. }
  destruct (negb _) eqn:Hp.
  { intros [= <- <-]. apply rtc_once. unfold alone. cbn [fst snd prepare_step]. rewrite Hd, Hl. fold aot. by rewrite Hs, Hp. }
  assert (alone join d source (s, PDisk (p :: l)) (set_disk_world w s, PRetain aot pc)) as Hst
    by (unfold alone; cbn [fst snd prepare_step]; rewrite Hd, Hl; fold aot; by rewrite Hs, Hp).
  intros Hw. destruct (with_memory _ _) as [s2 [[]|e]] eqn:Hm; cbn in Hw; simplify_eq;
    (eapply rtc_l; [exact Hst|]); apply rtc_once; unfold alone; cbn [fst snd prepare_step]; by rewrite Hm.
Qed.

(** A preparation whose sections nobody interleaves with ends in the state and
    with the result of [prepare]. *)
Lemma run_alone join d source s s' res :
  prepare d source join id id s = (s', res) →
  rtc (alone join d source) (s, PLookup) (s', PDone res).
Proof.
  unfold prepare. destruct (with_memory (lookup_warm d) s) as [s1 o] eqn:Hm1.
  assert (∀ p, (match o with Ok (Some c) => PDone (Ok c) | Ok None => PLockMap | Err e => PDone (Err e) end) = p →
    alone join d source (s, PLookup) (s1, p)) as A1 by (intros p <-; unfold alone; cbn [fst snd prepare_step]; by rewrite Hm1).
  destruct o as [[c|]|e]; cbn [io_bind];
    [intros [= <- <-]; by apply rtc_once, A1| |intros [= <- <-]; by apply rtc_once, A1].
  specialize (A1 _ eq_refl). intros Hp. eapply rtc_l; [exact A1|].
  destruct (locks_poisoned s1) eqn:Hl.
  { simplify_eq. apply rtc_once. unfold alone. cbn [fst snd prepare_step]. by rewrite Hl. }
  eapply rtc_l; [unfold alone; cbn [fst snd prepare_step]; by rewrite Hl|]. eapply rtc_l; [done|].
  cbv [id] in Hp. revert Hp. unfold prepare_locked. set (s2 := add_lock d s1).
  destruct (with_memory (lookup_warm d) s2) as [s3 o3] eqn:Hm3.
  intros Hp.
  eapply rtc_l; [unfold alone; cbn [fst snd prepare_step]; by rewrite Hm3|].
  destruct o3 as [[c|]|e]; cbn [io_bind] in Hp; [by simplify_eq| |by simplify_eq].
  destruct (with_memory (lookup_warmish d) s3) as [s4 o4] eqn:Hm4.
  eapply rtc_l; [unfold alone; cbn [fst snd prepare_step]; by rewrite Hm4|].
  destruct o4 as [[aot|]|e]; cbn [io_bind] in Hp; [| |by simplify_eq].
  - destruct (deserialize_component aot) as [c|e]; [|by simplify_eq].
    destruct (with_memory _ s4) as [s5 [[]|e]] eqn:Hm5; cbn [io_bind] in Hp; simplify_eq;
      apply rtc_once; unfold alone; cbn [fst snd prepare_step]; by rewrite Hm5.
  - destruct (disk s4) as [dc|] eqn:Hd; [|by apply alone_cold].
    destruct (load_from_disk dc d ALL_PROFILES s4) as [s5 o5] eqn:Hm5.
    pose proof (alone_disk join d source dc ALL_PROFILES s4 s5 o5 Hd Hm5) as Hrun.
    destruct o5 as [[c|]|e]; cbn [io_bind] in Hp; [by simplify_eq| |by simplify_eq].
    etrans; [exact Hrun|]. by apply alone_cold.
Qed.

(** ** Where components come from *)

Section origin.
(** The states of the cache directory the runtime has come across. *)
Variable Seen : World → Prop.

(** The directory holds the artifact under the digest and profile, with
    metadata that authenticates it for exactly this digest and profile. *)
Definition StoredEntry (c : DiskCache) (d : string) (aot : PreparedAot) (w : World) : Prop :=
  ∃ m, content <$> files w !! (paths c d (aot_profile aot)).2 = Some m
    ∧ content <$> files w !! (paths c d (aot_profile aot)).1 = Some (aot_bytes aot)
    ∧ AuthenticEntry c d (aot_profile aot) m (aot_bytes aot).

(** An artifact stands for a digest when this process serialized it from a
    component compiled from bytes with that digest, or when the directory held
    it as the authentic entry of that digest. *)
Definition Artifact (dc : option DiskCache) (d : string) (aot : PreparedAot) : Prop :=
  (∃ source prepared, component_digest source = d ∧ compile source = Ok (prepared, aot_bytes aot)
     ∧ prepared_profile prepared = aot_profile aot)
  ∨ (∃ c w, dc = Some c ∧ Seen w ∧ StoredEntry c d aot w).
(** A component stands for a digest when it was compiled from bytes with that
    digest, or deserialized from an artifact that stands for it. *)
Definition Genuine (dc : option DiskCache) (d : string) (prepared : PreparedComponent C) : Prop :=
  (∃ source bytes, component_digest source = d ∧ compile source = Ok (prepared, bytes))
  ∨ (∃ aot, Artifact dc d aot ∧ deserialize_component aot = Ok prepared).

Record Authentic (dc : option DiskCache) s : Prop := {
  au_warm : ∀ k e, warm (memory s) !! k = Some e → Genuine dc k (value e);
  au_warmish : ∀ k e, warmish (memory s) !! k = Some e → Artifact dc k (value e);
}.
Definition op_genuine (dc : option DiskCache) (op : cache_op C) : Prop :=
  match op with
  | InsertWarm k v => Genuine dc k v
  | InsertWarmish k v => Artifact dc k v
  | _ => True
  end.
Definition pc_genuine (dc : option DiskCache) (d : string) (p : prepare_pc C) : Prop :=
  match p with
  | PInsertWarm c | PDone (Ok c) => Genuine dc d c
  | PPublish c b => ∃ source, component_digest source = d ∧ compile source = Ok (c, b)
  | PRetain aot c => Artifact dc d aot ∧ Genuine dc d c
  | _ => True
  end.

Lemma cache_run_authentic dc m ops s s' :
  memory s = m → memory s' = cache_run m ops → Forall (op_genuine dc) ops → Authentic dc s → Authentic dc s'.
Proof.
  intros Hm Hm' Hops [A1 A2]. rewrite Hm in A1, A2. clear Hm.
  assert ((∀ k e, warm (cache_run m ops) !! k = Some e → Genuine dc k (value e))
    ∧ ∀ k e, warmish (cache_run m ops) !! k = Some e → Artifact dc k (value e)) as [B1 B2]; [|by split; rewrite Hm'].
  clear s s' Hm'. revert m A1 A2. induction Hops as [|op ops Hop _ IH]; intros m A1 A2; [done|].
  apply IH; intros k e Hk.
  - apply warm_origin in Hk as [->|(e0 & He0 & <-)]; [done|eauto].
  - apply warmish_origin in Hk as [->|(e0 & He0 & <-)]; [done|eauto].
Qed.

(** ** What a section changes of the shared state *)

Record Evolves (dc : option DiskCache) s s' : Prop := {
  ev_memory : ∃ ops, (length ops ≤ 2)%nat ∧ Forall (op_genuine dc) ops
                     ∧ memory s' = cache_run (memory s) ops;
  ev_poisoned : memory_poisoned s' = memory_poisoned s;
  ev_locks_poisoned : locks_poisoned s' = locks_poisoned s;
  ev_disk : disk s' = disk s;
  ev_config : config s' = config s;
  ev_failures : disk_publish_failures s' = disk_publish_failures s
                ∨ disk_publish_failures s' = wrapping_add u64_max (disk_publish_failures s) 1;
}.

Lemma evolves_same dc s s' :
  memory s' = memory s → memory_poisoned s' = memory_poisoned s → locks_poisoned s' = locks_poisoned s →
  disk s' = disk s → config s' = config s →
  (disk_publish_failures s' = disk_publish_failures s
   ∨ disk_publish_failures s' = wrapping_add u64_max (disk_publish_failures s) 1) → Evolves dc s s'.
Proof. intros E **. split; auto. exists []. cbn. auto. Qed.
Lemma evolves_set dc ops m s :
  (length ops ≤ 2)%nat → Forall (op_genuine dc) ops → m = cache_run (memory s) ops → Evolves dc s (set_memory m s).
Proof. intros ?? ->. split; auto. exists ops. auto. Qed.

Lemma with_memory_evolves {A} dc ops (f : MemoryCache C → MemoryCache C * A) s s' o :
  with_memory f s = (s', o) → (length ops ≤ 2)%nat → Forall (op_genuine dc) ops →
  (∀ m, (f m).1 = cache_run m ops) → Evolves dc s s'.
Proof.
  intros Hw Hl Ho Hf. unfold with_memory in Hw. destruct (memory_poisoned s) eqn:Hp.
  - simplify_eq. by apply evolves_same; auto.
  - specialize (Hf (memory s)). destruct (f (memory s)) as [m a]. simplify_eq. by eapply evolves_set.
Qed.
Lemma lookup_warm_evolves dc d s s' o : with_memory (lookup_warm d) s = (s', o) → Evolves dc s s'.
Proof. intros Hw. eapply (with_memory_evolves dc [LookupWarm d]); eauto. repeat constructor. Qed.
Lemma lookup_warmish_evolves dc d s s' o : with_memory (lookup_warmish d) s = (s', o) → Evolves dc s s'.
Proof. intros Hw. eapply (with_memory_evolves dc [LookupWarmish d]); eauto. repeat constructor. Qed.

Lemma lookup_warm_genuine dc d s s' c :
  Authentic dc s → with_memory (lookup_warm d) s = (s', Ok (Some c)) → Genuine dc d c.
Proof.
  intros A. unfold with_memory. destruct (memory_poisoned s); [done|]. unfold lookup_warm.
  destruct (warm (memory s) !! d) as [e|] eqn:He; intros [= <- <-]. by apply (au_warm _ _ A).
Qed.
Lemma lookup_warmish_artifact dc d s s' aot :
  Authentic dc s → with_memory (lookup_warmish d) s = (s', Ok (Some aot)) → Artifact dc d aot.
Proof.
  intros A. unfold with_memory. destruct (memory_poisoned s); [done|]. unfold lookup_warmish.
  destruct (warmish (memory s) !! d) as [e|] eqn:He; intros [= <- <-]. by apply (au_warmish _ _ A).
Qed.

(** A section works on genuine components only and passes on only such. *)
Lemma prepare_step_sound free join d source p s s' p' :
  component_digest source = d → Seen (disk_world s) → Authentic (disk s) s → pc_genuine (disk s) d p →
  prepare_step free join d source p s = Some (s', p') →
  Evolves (disk s) s s' ∧ pc_genuine (disk s) d p'.
Proof.
  intros Hd Hseen A Hp. destruct p as [| | | | | |c|l| |c b|aot c|]; cbn [prepare_step]; try done.
  - destruct (with_memory _ s) as [s1 o] eqn:Hw. intros [= <- <-].
    split; [by eapply lookup_warm_evolves|]. destruct o as [[c|]|]; try done. by eapply lookup_warm_genuine.
  - destruct (locks_poisoned s) eqn:Hl; intros [= <- <-]; (split; [by apply evolves_same; auto|done]).
  - destruct free; [|done]. intros [= <- <-]. split; [by apply evolves_same; auto|done].
  - destruct (with_memory _ s) as [s1 o] eqn:Hw. intros [= <- <-].
    split; [by eapply lookup_warm_evolves|]. destruct o as [[c|]|]; try done. by eapply lookup_warm_genuine.
  - destruct (with_memory _ s) as [s1 o] eqn:Hw. intros [= <- <-].
    split; [by eapply lookup_warmish_evolves|]. destruct o as [[aot|]|]; try done.
    + destruct (deserialize_component aot) as [c|] eqn:Hc; [|done]. right. exists aot.
      split; [by eapply lookup_warmish_artifact|done].
    + by destruct (disk s1).
  - destruct (with_memory _ s) as [s1 o] eqn:Hw. intros [= <- <-]. split; [|by destruct o].
    eapply (with_memory_evolves _ [InsertWarm d c]); eauto.
  - destruct l as [|pr l]; [intros [= <- <-]; split; [by apply evolves_same; auto|done]|].
    destruct (disk s) as [dc|] eqn:Hdc; [|intros [= <- <-]; split; [by apply evolves_same; auto|done]].
    destruct (load dc d pr (disk_world s)) as [w o] eqn:Hl. intros [= <- <-].
    split; [by apply evolves_same; auto|]. destruct o as [[b|]|]; try done.
    destruct (deserialize_component _) as [c|] eqn:Hc; [|done]. destruct (negb _); [done|].
    apply load_sound in Hl as (m & Hm & Hb & Hauth).
    assert (Artifact (Some dc) d {| aot_bytes := b; aot_profile := pr |}) by (right; exists dc, (disk_world s); split_and!; [done|done|by exists m]).
    split; [done|]. right. by eexists.
  - intros [= <- <-]. split; [by apply evolves_same; auto|].
    destruct join; [done|]. destruct (compile source) as [[c b]|] eqn:Hc; [|done]. by exists source.
  - intros [= <- <-]. destruct Hp as (src & Hsrc & Hc). split.
    + destruct (disk s); [|by apply evolves_same; auto]. destruct (publish _ _ _ _ _) as [w o].
      destruct (is_ok o); by apply evolves_same; auto.
    + split; [left; by exists src, c|left; by exists src, b].
  - destruct (with_memory _ s) as [s1 o] eqn:Hw. intros [= <- <-]. destruct Hp as [Ha Hg].
    split; [|by destruct o].
    eapply (with_memory_evolves _ [InsertWarmish d aot; InsertWarm d c]); eauto.
Qed.

Lemma tier_evolves dc d s : Evolves dc s (tier d s).1.
Proof.
  unfold tier. set (hit := if memory_poisoned s then _ else _).
  assert (Evolves dc s hit.1) as Hev.
  { unfold hit. destruct (memory_poisoned s) eqn:Hp; [by apply evolves_same; auto|].
    destruct (lookup_warm d (memory s)) as [m [c|]] eqn:Hw.
    - apply (evolves_set dc [LookupWarm d]); [auto|by repeat constructor|]. cbn. by rewrite Hw.
    - destruct (lookup_warmish d m) as [m' o] eqn:Hw'.
      apply (evolves_set dc [LookupWarm d; LookupWarmish d]); [auto|by repeat constructor|].
      cbn. by rewrite Hw; cbn; rewrite Hw'. }
  destruct hit as [s1 [t|]]; [done|]. cbn [fst] in Hev. destruct (disk s1) as [dc'|] eqn:Hd; [|done].
  destruct (disk_contains_any _ _ _ _) as [w found]. destruct Hev. split; cbn; auto; congruence.
Qed.
Lemma demote_evolves dc d s : Evolves dc s (runtime_demote d s).
Proof.
  unfold runtime_demote. destruct (memory_poisoned s) eqn:Hp; [by apply evolves_same; auto|].
  apply (evolves_set dc [MemoryCache.Demote d]); [cbn; lia|by repeat constructor|done].
Qed.

(** ** Well-formed runtime state *)

(** The configured limits are the ones in force and respected, the byte count
    is exact, the counters are in range, [n] uses of the memory cache away
    from the end of its use counter, and every entry stands for its digest. *)
Record RuntimeOk (c : RuntimeConfig) (n : Z) s : Prop := {
  rok_config : config s = c;
  rok_memory : memory_poisoned s = false;
  rok_locks : locks_poisoned s = false;
  rok_cache : CacheOk (memory s);
  rok_warm : max_warm (memory s) = max_warm_components c;
  rok_warmish : max_warmish (memory s) = max_warmish_entries c;
  rok_bytes : max_warmish_bytes (memory s) = config_max_warmish_bytes c;
  rok_sequence : sequence (memory s) + n ≤ u64_max;
  rok_failures : 0 ≤ disk_publish_failures s ≤ u64_max;
  rok_authentic : Authentic (disk s) s;
}.

Lemma evolves_ok c n s s' : RuntimeOk c (n + 2) s → 0 ≤ n → Evolves (disk s) s s' → RuntimeOk c n s'.
Proof.
  intros [] Hn [(ops & Hl & Hg & Hm) ?? Hd ? Hf].
  destruct (cache_run_wf (memory s) ops) as (W1 & W2 & W3 & W4 & W5); [done|lia|]. rewrite <- Hm in *.
  split; try congruence.
  - lia.
  - destruct Hf as [->| ->]; [done|]. unfold wrapping_add. pose proof (Z.mod_pos_bound (disk_publish_failures s + 1) (u64_max + 1)).
    unfold u64_max in *. lia.
  - rewrite Hd. by apply (cache_run_authentic _ (memory s) ops s).
Qed.

(** ** All tasks together *)

(** A promotion holds a permit from its start to the end of its preparation. *)
Definition holds_permit (t : Task C) : Z :=
  if task_background t && negb (waits_for_permit (task_pc t) || is_done (task_pc t)) then 1 else 0.
Definition exclusive (l : list (Task C)) : Prop :=
  ∀ i j t u, l !! i = Some t → l !! j = Some u → task_digest t = task_digest u →
    holds_lock (task_pc t) = true → holds_lock (task_pc u) = true → i = j.
(** The digest is that of the bytes; only promotions wait for permits. *)
Record TaskOk (dc : option DiskCache) (t : Task C) : Prop := {
  tk_digest : component_digest (program_bytes (task_program t)) = task_digest t;
  tk_genuine : pc_genuine dc (task_digest t) (task_pc t);
  tk_permit : task_pc t = PPermit → task_background t = true;
}.
Record SystemOk (c : RuntimeConfig) (n : Z) r : Prop := {
  sok_inner : RuntimeOk c n (inner r);
  sok_tasks : Forall (TaskOk (disk (inner r))) (tasks r);
  sok_exclusive : exclusive (tasks r);
  sok_permits : background r + zsum holds_permit (tasks r) = background_workers c;
  sok_available : 0 ≤ background r;
}.

Lemma holds_permit_nonneg t : 0 ≤ holds_permit t.
Proof. unfold holds_permit. repeat case_match; lia. Qed.

Lemma load_bytes_Ok b p : load_bytes b = Ok p → component_digest (program_bytes p) = program_digest p.
Proof. unfold load_bytes. intros. result_inv. done. Qed.

Lemma lock_free_spec d r t i :
  lock_free d r = true → tasks r !! i = Some t → task_digest t = d → holds_lock (task_pc t) = false.
Proof.
  unfold lock_free. rewrite negb_true_iff. intros Hf Hi Hd. destruct (holds_lock (task_pc t)) eqn:Hh; [|done].
  exfalso. apply not_true_iff_false in Hf. apply Hf. apply existsb_exists. exists t.
  split; [by apply list_elem_of_In, (list_elem_of_lookup_2 _ i)|]. by rewrite bool_decide_eq_true_2, Hh.
Qed.

Lemma system_ok_less c n r : SystemOk c (n + 2) r → SystemOk c n r.
Proof. intros [[] ????]. split; auto. split; auto. lia. Qed.

(** Adding a task that is not yet under way. *)
Lemma add_task_ok c n r t :
  SystemOk c n r → TaskOk (disk (inner r)) t → holds_lock (task_pc t) = false → holds_permit t = 0 →
  SystemOk c n {| inner := inner r; background := background r; tasks := tasks r ++ [t] |}.
Proof.
  intros [I T X P A] Ht Hl Hp. split; cbn [inner background tasks set_inner]; auto.
  - apply Forall_app. split; [done|by apply Forall_singleton].
  - intros i j u v Hi Hj Hd Hu Hv.
    apply lookup_snoc_cases in Hi as [Hi|[_ ->]]; apply lookup_snoc_cases in Hj as [Hj|[_ ->]];
      try congruence. by eapply X.
  - rewrite zsum_app. cbn [zsum foldr]. lia.
Qed.

(** Changing the shared state only. *)
Lemma set_inner_ok c n r s :
  SystemOk c (n + 2) r → 0 ≤ n → Evolves (disk (inner r)) (inner r) s → SystemOk c n (set_inner s r).
Proof.
  intros [I T X P A] Hn Hev. split; cbn [inner background tasks set_inner]; auto.
  - by eapply evolves_ok.
  - by rewrite (ev_disk _ _ _ Hev).
Qed.

(** Replacing a task's position. *)
Lemma set_task_ok c n r i t p k s :
  SystemOk c (n + 2) r → 0 ≤ n → tasks r !! i = Some t → Evolves (disk (inner r)) (inner r) s →
  pc_genuine (disk (inner r)) (task_digest t) p → p ≠ PPermit →
  (holds_lock p = true → holds_lock (task_pc t) = false → lock_free (task_digest t) r = true) →
  k = background r + holds_permit t - holds_permit (set_pc p t) → 0 ≤ k →
  SystemOk c n {| inner := s; background := k; tasks := <[i := set_pc p t]> (tasks r) |}.
Proof.
  intros [I T X P A] Hn Hi Hev Hg Hp Hlock Hk Hk0.
  assert (TaskOk (disk (inner r)) t) as [Td Tg Tp] by by eapply Forall_lookup_1.
  split; cbn [inner background tasks set_inner]; auto.
  - by eapply evolves_ok.
  - rewrite (ev_disk _ _ _ Hev). apply Forall_insert; [done|]. by split.
  - assert (∀ j u, tasks r !! j = Some u → j ≠ i → task_digest u = task_digest t →
      holds_lock (task_pc u) = true → holds_lock p = true → False) as Hx.
    { intros j u Hj Hne Hd Hu Hh. destruct (holds_lock (task_pc t)) eqn:Ht.
      - by apply Hne, (X j i u t).
      - pose proof (lock_free_spec _ _ u j (Hlock Hh eq_refl) Hj Hd). congruence. }
    intros j k' u v Hj Hk' Hd Hu Hv.
    apply list_lookup_insert_Some in Hj as [(-> & <- & _)|[Hne Hj]];
      apply list_lookup_insert_Some in Hk' as [(-> & <- & _)|[Hne' Hk']].
    + done.
    + exfalso. by eapply (Hx k' v).
    + exfalso. by eapply (Hx j u).
    + by eapply X.
  - rewrite (zsum_insert _ _ _ _ _ Hi). lia.
Qed.

(** A section that takes the lock found it free; none returns to [PPermit]. *)
Lemma prepare_step_lock free join d source p s s' p' :
  prepare_step free join d source p s = Some (s', p') →
  p' ≠ PPermit ∧ (holds_lock p' = true → holds_lock p = false → free = true) ∧ is_done p = false.
Proof.
  destruct p as [| | | | | |c|[|pr l]| |c b|aot c|]; cbn [prepare_step]; try done; intros Hs;
    repeat case_match; by simplify_eq.
Qed.

Lemma task_step_ok c n r i join r' :
  SystemOk c (n + 2) r → Seen (disk_world (inner r)) → 0 ≤ n → task_step i join r = Some r' → SystemOk c n r'.
Proof.
  intros S Hseen Hn. unfold task_step. destruct (tasks r !! i) as [t|] eqn:Hi; cbn [mbind option_bind]; [|done].
  pose proof (sok_available _ _ _ S). pose proof (Forall_lookup_1 _ _ _ _ (sok_tasks _ _ _ S) Hi) as [Td Tg Tp].
  destruct (waits_for_permit (task_pc t)) eqn:Hwait.
  { destruct (Z.ltb_spec 0 (background r)); [|done]. intros [= <-].
    eapply set_task_ok; eauto; try done; [by apply evolves_same; auto| |lia].
    unfold holds_permit. cbn. rewrite Hwait, Tp by by destruct (task_pc t). cbn. lia. }
  destruct (prepare_step _ _ _ _ _ _) as [[s p]|] eqn:Hs; cbn [mbind option_bind]; [|done]. intros [= <-].
  destruct (prepare_step_lock _ _ _ _ _ _ _ _ Hs) as (Hp1 & Hp2 & Hp3).
  destruct (prepare_step_sound _ _ _ _ _ _ _ _ Td Hseen (rok_authentic _ _ _ (sok_inner _ _ _ S)) Tg Hs) as [Hev Hg].
  eapply set_task_ok; eauto.
  - unfold holds_permit. cbn. rewrite Hwait, Hp3. destruct (task_background t), (waits_for_permit p) eqn:Hw, (is_done p);
      cbn; try lia; by destruct p.
  - destruct (task_background t && is_done p); lia.
Qed.

Lemma runtime_step_ok c n e r r' :
  SystemOk c (n + 2) r → Seen (disk_world (inner r)) → 0 ≤ n → runtime_step e r = Some r' → SystemOk c n r'.
Proof.
  intros S Hseen Hn. destruct e as [tokio b|b|i join|d|d|w]; cbn [runtime_step].
  - intros [= <-]. unfold runtime_load_bytes. destruct (load_bytes b) as [p|] eqn:Hb; cbn [fst].
    + destruct tokio; [|rewrite app_nil_r; destruct r; by apply system_ok_less].
      apply add_task_ok; [by apply system_ok_less|split; cbn; [by apply (load_bytes_Ok b)|done|done]|done|done].
    + by apply system_ok_less.
  - destruct (load_bytes b) as [p|] eqn:Hb; [|done]. intros [= <-].
    apply add_task_ok; [by apply system_ok_less|split; cbn; [by apply (load_bytes_Ok b)|done|done]|done|done].
  - by apply task_step_ok.
  - intros [= <-]. apply set_inner_ok; [done|done|apply tier_evolves].
  - intros [= <-]. apply set_inner_ok; [done|done|apply demote_evolves].
  - intros [= <-]. apply set_inner_ok; [done|done|by apply evolves_same; auto].
Qed.

(** The cache directory before some event of a run, or after its last. *)
Definition Passed (l : list runtime_event) (r0 : Runtime C) (w : World) : Prop :=
  ∃ l1 l2 r1, l = l1 ++ l2 ∧ runtime_run l1 r0 = Some r1 ∧ w = disk_world (inner r1).

Lemma runtime_run_ok c n l r r' :
  SystemOk c (n + 2 * Z.of_nat (length l)) r → (∀ w, Passed l r w → Seen w) → 0 ≤ n →
  runtime_run l r = Some r' → SystemOk c n r'.
Proof.
  revert r. induction l as [|e l IH]; intros r S Hseen Hn; cbn [runtime_run length] in *.
  { intros [= <-]. by rewrite Z.add_0_r in S. }
  destruct (runtime_step e r) as [r1|] eqn:Hs; cbn [mbind option_bind]; [|done].
  apply IH; [| |done].
  2: { intros w (l1 & l2 & r2 & -> & Hr2 & Hw). apply Hseen. exists (e :: l1), l2, r2. split_and!; [done| |done].
       cbn [runtime_run]. by rewrite Hs. }
  eapply runtime_step_ok; [|apply Hseen; by exists [], (e :: l), r|lia|done].
  by replace (n + 2 * Z.of_nat (length l) + 2) with (n + 2 * Z.of_nat (length (e :: l))) by (cbn [length]; lia).
Qed.

(** A runtime that [runtime_new] returns is in order. *)
Lemma runtime_new_ok st c w w' r n :
  runtime_new st c w = Some (w', Ok r) → 2 * config_max_warmish_bytes c ≤ usize_max →
  0 ≤ max_warm_components c → 0 ≤ config_max_warmish_bytes c → 0 ≤ background_workers c →
  n ≤ u64_max → SystemOk c n r ∧ validate_config c = Ok tt ∧ tasks r = [].
Proof.
  intros Hnew Hb Hw Hwb Hbg Hn. unfold runtime_new in Hnew.
  destruct (validate_config c) as [[]|] eqn:Hv; cbn [mbind result_bind] in Hnew; [|done].
  destruct (map_err _ _); [|done]. destruct (match disk_cache c with None => _ | Some _ => _ end) as [w1 d].
  match type of Hnew with match ?x with Ok _ => _ | Err _ => _ end = _ => destruct x end; [|done].
  destruct (max_permits <? background_workers c); simplify_eq. split_and!; [|done|done].
  unfold validate_config in Hv. apply reject_if_Ok in Hv. bool_inv.
  split; cbn; try done; try lia.
  split; cbn; try done; try lia.
  - apply memory_cache_new_ok; lia.
Qed.
End origin.

(** A configuration that asks for more background workers than the semaphore
    supports passes validation and makes construction panic. *)
Lemma runtime_new_panics st c w :
  validate_config c = Ok tt → engine_new st engine_config = Ok tt → disk_cache c = None →
  thread_spawn st "runtrue-wasm-epoch" = Ok tt → max_permits < background_workers c →
  runtime_new (C := C) st c w = None.
Proof.
  intros Hv He Hd Ht Hm. unfold runtime_new. rewrite Hv. cbn [mbind result_bind]. rewrite He. cbn [map_err].
  rewrite Hd. cbn [mbind result_bind]. rewrite Ht. cbn [map_err mbind result_bind].
  by rewrite (proj2 (Z.ltb_lt _ _) Hm).
Qed.

(** ** Every task ends *)

(** The sections a task can still run. *)
Definition rank (p : prepare_pc C) : nat :=
  match p with
  | PDone _ => 0 | PInsertWarm _ | PRetain _ _ => 1 | PPublish _ _ => 2 | PCompile => 3
  | PDisk l => 4 + length l
  | PWarmish => 9 | PRelookup => 10 | PAwaitLock => 11 | PLockMap => 12 | PLookup => 13 | PPermit => 14
  end.
Definition work (r : Runtime C) : Z := zsum (λ t, Z.of_nat (rank (task_pc t))) (tasks r).

Lemma prepare_step_rank free join d source p s s' p' :
  prepare_step free join d source p s = Some (s', p') → (rank p' < rank p)%nat.
Proof.
  destruct p as [| | | | | |c|[|pr l]| |c b|aot c|]; cbn [prepare_step]; try done; intros Hs;
    repeat case_match; simplify_eq; cbn; lia.
Qed.

Lemma task_step_work i join r r' : task_step i join r = Some r' → work r' < work r.
Proof.
  unfold task_step, work. destruct (tasks r !! i) as [t|] eqn:Hi; cbn [mbind option_bind]; [|done].
  destruct (waits_for_permit (task_pc t)) eqn:Hw.
  { destruct (0 <? background r); [|done]. intros [= <-]. cbn [tasks]. rewrite (zsum_insert _ _ _ _ _ Hi).
    destruct (task_pc t); try done. cbn [rank set_pc task_pc]. lia. }
  destruct (prepare_step _ _ _ _ _ _) as [[s p]|] eqn:Hs; cbn [mbind option_bind]; [|done]. intros [= <-].
  cbn [tasks]. rewrite (zsum_insert _ _ _ _ _ Hi). apply prepare_step_rank in Hs. cbn [set_pc task_pc]. lia.
Qed.

Lemma prepare_step_enabled free join d source p s :
  waits_for_permit p = false → is_done p = false → (p = PAwaitLock → free = true) →
  is_Some (prepare_step free join d source p s).
Proof.
  destruct p as [| | | | | |c|[|pr l]| |c b|aot c|]; cbn [prepare_step]; try done; intros _ _ Hf;
    repeat case_match; try done. by specialize (Hf eq_refl).
Qed.

Lemma task_step_enabled i join r t :
  tasks r !! i = Some t → waits_for_permit (task_pc t) = false → is_done (task_pc t) = false →
  (task_pc t = PAwaitLock → lock_free (task_digest t) r = true) → is_Some (task_step i join r).
Proof.
  intros Hi Hw Hd Hl. unfold task_step. rewrite Hi. cbn [mbind option_bind]. rewrite Hw.
  destruct (prepare_step_enabled (lock_free (task_digest t) r) join (task_digest t)
    (program_bytes (task_program t)) (task_pc t) (inner r) Hw Hd Hl) as [[s p] ->]. done.
Qed.

(** Unless it waits for its permit, a task that is not over can run, or one
    that holds the lock it waits for can. *)
Lemma some_task_enabled i join r t :
  tasks r !! i = Some t → waits_for_permit (task_pc t) = false → is_done (task_pc t) = false →
  ∃ j, is_Some (task_step j join r).
Proof.
  intros Hi Hw Hd. destruct (lock_free (task_digest t) r) eqn:Hf.
  { exists i. by eapply task_step_enabled. }
  unfold lock_free in Hf. apply negb_false_iff, existsb_exists in Hf as (u & Hu & Hh).
  apply list_elem_of_In, list_elem_of_lookup in Hu as [j Hj]. apply andb_true_iff in Hh as [_ Hh].
  exists j. eapply task_step_enabled; [done|by destruct (task_pc u)..|]. intros Hp. by rewrite Hp in Hh.
Qed.

Lemma progress Seen c n r join :
  SystemOk Seen c n r → 0 < background_workers c → (∀ i, task_step i join r = None) →
  Forall (λ t, is_done (task_pc t) = true) (tasks r).
Proof.
  intros S Hb Hstuck.
  assert (∀ i t, tasks r !! i = Some t → waits_for_permit (task_pc t) = true ∨ is_done (task_pc t) = true) as Hall.
  { intros i t Hi. destruct (waits_for_permit (task_pc t)) eqn:Hw; [auto|]. destruct (is_done (task_pc t)) eqn:Hd; [auto|].
    destruct (some_task_enabled i join r t Hi Hw Hd) as [j [x Hx]]. by rewrite Hstuck in Hx. }
  apply Forall_lookup. intros i t Hi. destruct (Hall i t Hi) as [Hw|]; [exfalso|done].
  destruct (decide (0 < background r)) as [Hp|Hp].
  { specialize (Hstuck i). unfold task_step in Hstuck. rewrite Hi in Hstuck. cbn [mbind option_bind] in Hstuck.
    by rewrite Hw, (proj2 (Z.ltb_lt _ _) Hp) in Hstuck. }
  pose proof (sok_permits _ _ _ _ S) as Hsum.
  destruct (proj1 (zsum_pos holds_permit (tasks r) holds_permit_nonneg) ltac:(lia)) as (u & Hu & Hpos).
  apply list_elem_of_lookup in Hu as [j Hj]. unfold holds_permit in Hpos.
  destruct (Hall j u Hj) as [E|E]; rewrite E in Hpos; destruct (task_background u); cbn in Hpos; try lia.
  by rewrite orb_true_r in Hpos.
Qed.

Lemma advances_work l r r' :
  Forall (λ e, ∃ i join, e = Advance i join) l → runtime_run l r = Some r' →
  Z.of_nat (length l) + work r' ≤ work r.
Proof.
  intros Hl. revert r. induction Hl as [|e l (i & join & ->) _ IH]; intros r; cbn [runtime_run length runtime_step].
  { intros [= <-]. lia. }
  destruct (task_step i join r) as [r1|] eqn:Hs; cbn [mbind option_bind]; [|done].
  intros Hr%IH. apply task_step_work in Hs. lia.
Qed.

(** ** What holds in every reachable state *)

(** The fields have the range of their types, and the warmish byte limit is
    one a process can address twice. *)
Record config_in_range (c : RuntimeConfig) : Prop := {
  cr_warm : 0 ≤ max_warm_components c;
  cr_bytes : 0 ≤ config_max_warmish_bytes c ∧ 2 * config_max_warmish_bytes c ≤ usize_max;
  cr_workers : 0 ≤ background_workers c;
}.

Definition Reachable (st : Startup) (c : RuntimeConfig) (r : Runtime C) : Prop :=
  ∃ w w' r0 l, runtime_new st c w = Some (w', Ok r0) ∧ 2 * Z.of_nat (length l) ≤ u64_max
    ∧ runtime_run l r0 = Some r.

Lemma passing_ok (Seen : World → Prop) st c w w' r0 l r :
  config_in_range c → runtime_new st c w = Some (w', Ok r0) → 2 * Z.of_nat (length l) ≤ u64_max →
  runtime_run l r0 = Some r → (∀ w, Passed l r0 w → Seen w) → SystemOk Seen c 0 r.
Proof.
  intros [? [? ?] ?] Hnew Hlen Hrun Hseen.
  destruct (runtime_new_ok Seen st c w w' r0 (0 + 2 * Z.of_nat (length l)) Hnew) as (S & _ & _); try done.
  by eapply (runtime_run_ok Seen c 0 l).
Qed.
Lemma reachable_ok st c r :
  config_in_range c → Reachable st c r → SystemOk (λ _, True) c 0 r ∧ validate_config c = Ok tt.
Proof.
  intros Hc (w & w' & r0 & l & Hnew & Hlen & Hrun). split; [by eapply passing_ok|].
  by destruct (runtime_new_ok (λ _, True) st c w w' r0 0 Hnew) as (_ & Hv & _); destruct Hc as [? [? ?] ?].
Qed.

(** C33: a runtime's state is well formed whatever its clients, its promotions
    and the other users of its cache directory do: no lock is poisoned, the
    configuration is the validated one, its cache limits are in force and
    respected, the retained bytes are counted exactly, no entry is newer than
    the use counter and the failure counter stays in its range. *)
Theorem runtime_state_wellformed st c r :
  config_in_range c → Reachable st c r →
  let s := inner r in
  config s = c ∧ validate_config c = Ok tt ∧ memory_poisoned s = false ∧ locks_poisoned s = false
  ∧ CacheOk (memory s)
  ∧ Z.of_nat (size (warm (memory s))) ≤ max_warm_components c
  ∧ Z.of_nat (size (warmish (memory s))) ≤ max_warmish_entries c
  ∧ total_bytes (warmish (memory s)) ≤ config_max_warmish_bytes c
  ∧ 0 ≤ runtime_metrics r ≤ u64_max.
Proof.
  intros Hc Hr s. destruct (reachable_ok st c r Hc Hr) as [[[] _ _ _ _] Hv]. pose proof rok_cache0 as [].
  split_and!; try done; unfold s, runtime_metrics; lia.
Qed.

(** C4: a package gets its own component.  Whatever tasks interleave and
    whatever happens to the cache directory, a preparation that succeeds
    returns, and the warm tier holds under a digest, a component compiled from
    bytes with that digest, or deserialized from an artifact that this process
    serialized from such a component or that the cache directory held, at some
    point of this run, under that digest and profile together with metadata
    that authenticates it for that digest and profile under the runtime's key. *)
Theorem prepared_component_genuine st c w w' r0 l r :
  config_in_range c → runtime_new st c w = Some (w', Ok r0) → 2 * Z.of_nat (length l) ≤ u64_max →
  runtime_run l r0 = Some r →
  (∀ i t prepared, tasks r !! i = Some t → task_pc t = PDone (Ok prepared) →
     task_digest t = component_digest (program_bytes (task_program t))
     ∧ Genuine (Passed l r0) (disk (inner r)) (task_digest t) prepared)
  ∧ (∀ d e, warm (memory (inner r)) !! d = Some e → Genuine (Passed l r0) (disk (inner r)) d (value e))
  ∧ (∀ d e, warmish (memory (inner r)) !! d = Some e → Artifact (Passed l r0) (disk (inner r)) d (value e)).
Proof.
  intros Hc Hnew Hlen Hrun. destruct (passing_ok (Passed l r0) st c w w' r0 l r Hc Hnew Hlen Hrun) as [[] T _ _ _]; [done|].
  destruct rok_authentic0. split; [|done]. intros i t prepared Hi Hp. pose proof (Forall_lookup_1 _ _ _ _ T Hi) as [Td Tg _].
  rewrite Hp in Tg. done.
Qed.

(** C14: one preparation at a time works on a digest, and promotions are
    bounded: two tasks never hold the lock of the same digest, so no package is
    compiled or published twice at once; the free permits and the promotions
    under way always add up to the configured number of background workers. *)
Theorem preparation_single_flight st c r :
  config_in_range c → Reachable st c r →
  (∀ i j t u, tasks r !! i = Some t → tasks r !! j = Some u → task_digest t = task_digest u →
     holds_lock (task_pc t) = true → holds_lock (task_pc u) = true → i = j)
  ∧ 0 ≤ background r ∧ background r + zsum holds_permit (tasks r) = background_workers c.
Proof. intros Hc Hr. by destruct (reachable_ok st c r Hc Hr) as [[] _]. Qed.

(** C28: every preparation ends.  From any reachable state the tasks can take
    only finitely many steps, at most fourteen each unless more profiles are to
    be tried, in any order and with any compiler failures; and when none can
    take a step, all are over: neither the locks nor the permits can block
    them. *)
Theorem preparation_terminates st c r :
  config_in_range c → Reachable st c r →
  (∀ l r', Forall (λ e, ∃ i join, e = Advance i join) l → runtime_run l r = Some r' →
     Z.of_nat (length l) ≤ work r)
  ∧ ∀ join, (∀ i, task_step i join r = None) → Forall (λ t, is_done (task_pc t) = true) (tasks r).
Proof.
  intros Hc Hr. destruct (reachable_ok st c r Hc Hr) as [S Hv]. split.
  - intros l r' Hl Hrun. pose proof (advances_work l r r' Hl Hrun).
    assert (0 ≤ work r') by (apply zsum_nonneg; intros; lia). lia.
  - intros join. eapply progress; [exact S|]. unfold validate_config in Hv. apply reject_if_Ok in Hv.
    bool_inv. pose proof (cr_workers c Hc). lia.
Qed.
End facts.

Module PreparationExample.
Import Toy DiskCacheExample RuntimeExample.

Definition startup : Startup := {|
  engine_new _ := Ok tt; arch := "x86_64"; os := "linux"; thread_spawn _ := Ok tt |}.
Definition two_workers : RuntimeConfig := {|
  max_warm_components := 1; max_warmish_entries := 2; config_max_warmish_bytes := 40;
  background_workers := 2; paused_resident_ttl := 1; epoch_interval := 1;
  disk_cache := Some DiskCacheExample.config; limits := default_limits |}.
Definition start_runtime : Runtime (list string) :=
  match runtime_new startup two_workers empty_world with
  | Some (_, Ok r) => r
  | _ => {| inner := RuntimeExample.start empty_world; background := 0; tasks := [] |}
  end.

(** Two promotions and a call for the same package, interleaved; the cache
    directory is emptied under them; the first one compiles and the others
    find the result. *)
Definition advance (i n : nat) : list runtime_event := repeat (Advance i None) n.
Definition events : list runtime_event :=
  [LoadBytes true source; LoadBytes true source; Prepare source]
  ++ advance 0 3 ++ advance 1 2 ++ advance 2 2 ++ advance 1 1 ++ advance 0 5
  ++ [External empty_world; Tier "x"] ++ advance 0 6.
Definition events_done : list runtime_event :=
  events ++ advance 1 2 ++ advance 2 2.

Lemma two_workers_in_range : config_in_range two_workers.
Proof. split; vm_compute; by repeat split. Qed.
Definition after (l : list runtime_event) : Runtime (list string) :=
  default start_runtime (runtime_run l start_runtime).
Lemma run_reachable l :
  2 * Z.of_nat (length l) ≤ u64_max → bool_decide (is_Some (runtime_run l start_runtime)) = true →
  Reachable startup two_workers (after l).
Proof.
  intros Hl Hr. exists empty_world, (disk_world (inner start_runtime)), start_runtime, l.
  split_and!; [reflexivity|done|]. apply bool_decide_eq_true in Hr as [r Hr]. unfold after. by rewrite Hr.
Qed.
Definition busy : Runtime (list string) := after events.
Definition settled : Runtime (list string) := after events_done.
Lemma busy_reachable : Reachable startup two_workers busy.
Proof. by apply run_reachable; vm_compute. Qed.
Lemma settled_reachable : Reachable startup two_workers settled.
Proof. by apply run_reachable; vm_compute. Qed.

Lemma runtime_state_wellformed_witness :
  CacheOk (memory (inner busy)) ∧ Z.of_nat (size (warm (memory (inner busy)))) ≤ 1
  ∧ 0 ≤ runtime_metrics busy ≤ u64_max.
Proof.
  destruct (runtime_state_wellformed startup two_workers busy two_workers_in_range busy_reachable)
    as (_ & _ & _ & _ & Hok & Hw & _ & _ & Hm). exact (conj Hok (conj Hw Hm)).
Defined.

Definition outcome (r : Runtime (list string)) (i : nat) : option (prepare_pc (list string)) := task_pc <$> tasks r !! i.

(** A second process over the directory the first one left: its preparation
    loads the artifact from there, after the attempts for other profiles. *)
Definition reopened : Runtime (list string) :=
  match runtime_new startup two_workers (disk_world (inner settled)) with
  | Some (_, Ok r) => r
  | _ => start_runtime
  end.
Definition reload (n : nat) : list runtime_event := Prepare source :: advance 0 n.
Definition reloaded (n : nat) : Runtime (list string) := default reopened (runtime_run (reload n) reopened).
Example reloads_from_disk :
  (∃ l, outcome (reloaded 5) 0 = Some (PDisk l)) ∧ (∃ aot, outcome (reloaded 7) 0 = Some (PRetain aot cold)).
Proof. vm_compute. split; by eexists. Qed.
Definition reopened_world : World :=
  match runtime_new (C := list string) startup two_workers (disk_world (inner settled)) with
  | Some (w, _) => w
  | None => empty_world
  end.
Lemma reopened_new :
  runtime_new startup two_workers (disk_world (inner settled)) = Some (reopened_world, Ok reopened).
Proof.
  assert (match runtime_new (C := list string) startup two_workers (disk_world (inner settled)) with
          | Some (_, Ok _) => true | _ => false end = true) as Hok by (vm_compute; reflexivity).
  unfold reopened, reopened_world. by destruct (runtime_new _ _ _) as [[w [r|e]]|].
Qed.
Lemma reload_run : runtime_run (reload 8) reopened = Some (reloaded 8).
Proof.
  assert (bool_decide (is_Some (runtime_run (reload 8) reopened)) = true) as Hr by (vm_compute; reflexivity).
  apply bool_decide_eq_true in Hr as [r Hr]. unfold reloaded. by rewrite Hr.
Qed.
Lemma reload_prepares : outcome (reloaded 8) 0 = Some (PDone (Ok cold)).
Proof. vm_compute. reflexivity. Qed.
Lemma prepared_component_genuine_witness :
  outcome (reloaded 8) 0 = Some (PDone (Ok cold)) ∧
  ∀ t, tasks (reloaded 8) !! 0%nat = Some t →
    Genuine (Passed (reload 8) reopened) (disk (inner (reloaded 8))) (task_digest t) cold.
Proof.
  split; [exact reload_prepares|]. intros t Ht. pose proof reload_prepares as Ho. unfold outcome in Ho. rewrite Ht in Ho. injection Ho as Hp.
  apply (prepared_component_genuine startup two_workers (disk_world (inner settled)) reopened_world reopened
           (reload 8) (reloaded 8) two_workers_in_range) with (i := 0%nat);
    [exact reopened_new|by vm_compute|exact reload_run|exact Ht|exact Hp].
Defined.

Lemma preparation_single_flight_witness :
  outcome busy 0 = Some (PDone (Ok cold)) ∧ outcome busy 1 = Some PAwaitLock ∧ background busy = 1
  ∧ background busy + zsum holds_permit (tasks busy) = 2.
Proof.
  destruct (preparation_single_flight startup two_workers busy two_workers_in_range busy_reachable) as (_ & _ & Hp).
  split; [by vm_compute|]. split; [by vm_compute|]. split; [by vm_compute|]. exact Hp.
Defined.

Lemma preparation_terminates_witness :
  work busy = 22 ∧ Forall (λ t, is_done (task_pc t) = true) (tasks settled).
Proof.
  split; [by vm_compute|].
  apply (preparation_terminates startup two_workers settled two_workers_in_range settled_reachable) with (join := None).
  intros [|[|[|i]]]; by vm_compute.
Defined.
End PreparationExample.
