(* ===== verification/Restart.v ===== *)
(** A package prepared by one process is reused by the next: the artifact a
    runtime published is found, authenticated and deserialized by a runtime
    constructed later over the same directory ([src/src/runtime.rs]
    [Runtime::new], [tier], [prepare]; [src/src/cache.rs] [prepare], [contains],
    [load], [publish]). *)
From S2P Require Import Prelude Errors Interfaces Streams Types MemoryCache DiskCache Runtime Preparation.

Local Open Scope Z_scope.

(** What the engine documents of precompiled components: deserializing what it
    serialized gives the component back. *)
Class EngineLaws (C : Type) (E : Engine C) : Prop :=
  deserialize_serialize : ∀ c b, serialize c = Ok b → deserialize b = Ok c.

Section restart.
Context {C : Type} {E : Engine C} {EL : EngineLaws C E} {K : Crypto} {CL : CryptoLaws K} `{Host}.
Context {JI : Json CacheIdentity} {JM : Json CacheMetadata} {JL : JsonLaws JM}.
Implicit Types s : RuntimeInner C.

(** ** Construction *)

Lemma runtime_new_inner st c w w' r cache :
  runtime_new (C := C) st c w = Some (w', Ok r) → disk_cache c = Some cache →
  let dc := {| disk_config := cache; disk_target := arch st +:+ "-" +:+ os st |} in
  disk_prepare cache (disk_target dc) w = (w', Ok dc) ∧ inner r = {|
    memory := memory_cache_new c; memory_poisoned := false; preparation_locks := ∅;
    locks_poisoned := false; disk := Some dc; disk_world := w'; disk_publish_failures := 0;
    config := c |}.
Proof.
  intros Hnew Hc dc. unfold runtime_new in Hnew. rewrite Hc in Hnew.
  destruct (_ ← validate_config c; _) as [u|]; [|done].
  change (arch st +:+ "-" +:+ os st) with (disk_target dc) in Hnew.
  unfold disk_prepare in *. destruct (max_entry_bytes cache =? 0); [done|].
  destruct (lift_io _) as [w1 [[]|]]; cbn [io_bind] in *; [|done].
  destruct (set_private_directory _ _) as [w2 [[]|]]; cbn [io_bind] in *; [|done].
  cbn [mbind result_bind] in Hnew. destruct (map_err _ (thread_spawn _ _)); [|done].
  cbn [mbind result_bind] in Hnew. destruct (_ <? _); [done|]. by simplify_eq.
Qed.

(** An entry path is not the cache directory itself. *)
Lemma entry_ne_root dc d p :
  Hex64 d → (paths dc d p).1 ≠ root (disk_config dc) ∧ (paths dc d p).2 ≠ root (disk_config dc).
Proof.
  intros Hd. destruct (paths_bytes dc d p Hd) as [Ha Hm]. pose proof (hex64_length d Hd) as Hl.
  assert ((length (str_bytes (root (disk_config dc))) <= length (join_prefix (root (disk_config dc))))%nat).
  { unfold join_prefix. case_bool_decide as He; [by rewrite He|]. case_bool_decide; [done|].
    rewrite length_app. lia. }
  split; intros Heq.
  - apply (f_equal length) in Ha. rewrite Heq in Ha. unfold entry_bytes in Ha. rewrite !length_app in Ha. lia.
  - apply (f_equal length) in Hm. rewrite Heq in Hm. unfold entry_bytes in Hm. rewrite !length_app in Hm. lia.
Qed.

(** Opening the cache directory keeps the content of every file. *)
Lemma disk_prepare_quiet cache target w w' dc :
  disk_prepare cache target (quiet w) = (w', Ok dc) →
  schedule w' = [] ∧ (∀ q, content <$> files w' !! q = content <$> files w !! q) ∧
  ∀ q, q ≠ root cache → directories w' !! q = directories w !! q.
Proof.
  unfold disk_prepare. destruct (max_entry_bytes cache =? 0); [done|].
  unfold fs_create_dir_all, set_private_directory, fs_set_permissions, lift_io. cbn.
  destruct (directories w !! root cache) eqn:Hr; cbn; destruct (files w !! root cache) eqn:Hf; cbn;
    rewrite ?Hr, ?lookup_insert_eq; cbn; intros [= <- <-]; cbn; (split; [done|split]); try done;
    intros q; try (intros Hq; by rewrite !lookup_insert_ne by done).
  - destruct (decide (q = root cache)) as [->|]; [by rewrite lookup_insert_eq, Hf|].
    by rewrite lookup_insert_ne.
  - destruct (decide (q = root cache)) as [->|]; [by rewrite lookup_insert_eq, Hf|].
    by rewrite lookup_insert_ne.
Qed.

(** ** The first process *)

Lemma compile_roundtrip source prepared b :
  compile source = Ok (prepared, b) →
  deserialize_component {| aot_bytes := b; aot_profile := prepared_profile prepared |} = Ok prepared.
Proof.
  unfold compile. intros Hc. result_inv. unfold deserialize_component. cbn [aot_bytes].
  match goal with Hs : serialize _ = Ok _ |- _ => rewrite (deserialize_serialize _ _ Hs) end.
  cbn [map_err mbind result_bind].
  match goal with Hp : detect_profile _ = Ok _ |- _ => rewrite Hp end. cbn.
  by rewrite bool_decide_eq_true_2.
Qed.

(** Without files of the digest every load that does not fail misses. *)
Lemma load_from_disk_absent dc d l s s' o :
  (∀ p, EntryAbsent dc d p (disk_world s)) → load_from_disk dc d l s = (s', Ok o) →
  o = None ∧ memory s' = memory s ∧ memory_poisoned s' = memory_poisoned s ∧ disk s' = disk s ∧
  disk_publish_failures s' = disk_publish_failures s ∧
  files (disk_world s') = files (disk_world s) ∧ directories (disk_world s') = directories (disk_world s).
Proof.
  revert s. induction l as [|p l IH]; intros s Habs; cbn [load_from_disk]; [by intros [= <- <-]|].
  pose proof (load_world dc d p (disk_world s)) as [Hf Hdir].
  destruct (load dc d p (disk_world s)) as [w [[b|]|e]] eqn:Hl; [| |done].
  - apply load_sound in Hl as (m & _ & Ha & _). destruct (Habs p) as (Hn & _). by rewrite Hn in Ha.
  - cbn [fst] in *. intros Ho. apply IH in Ho as (-> & ? & ? & ? & ? & Hf' & Hd').
    + cbn in *. split_and!; congruence.
    + intros q. unfold EntryAbsent in *. cbn. rewrite Hf, Hdir. apply Habs.
Qed.

(** The memory holds nothing under the digest, and no files exist for it. *)
Record Unseen (dc : DiskCache) (d : string) s : Prop := {
  un_ready : MemoryReady 5 s;
  un_locks : locks_poisoned s = false;
  un_disk : disk s = Some dc;
  un_warm : warm (memory s) !! d = None;
  un_warmish : warmish (memory s) !! d = None;
}.

(** [prepare] of such a package reaches the disk. *)
Lemma prepare_unseen dc d source join s :
  Unseen dc d s →
  ∃ s1, prepare d source join id id s =
      (let? (s2, found) := load_from_disk dc d ALL_PROFILES s1 in
       match found with
       | Some prepared => (s2, Ok prepared)
       | None => prepare_cold d source join id s2
       end) ∧
    MemoryReady 2 s1 ∧ disk s1 = Some dc ∧ disk_world s1 = disk_world s ∧
    disk_publish_failures s1 = disk_publish_failures s.
Proof.
  intros [Hr Hlk Hd Hw Hwi]. unfold prepare.
  destruct (lookup_warm_ready 4 d s) as (s1 & -> & Hr1 & Hv1 & Hwi1 & Hd1 & Hw1 & Hf1 & Hl1); [done|lia|].
  rewrite Hw. cbn [fmap option_fmap option_map io_bind]. rewrite Hl1, Hlk. cbv [id]. unfold prepare_locked.
  destruct (lookup_warm_ready 3 d (add_lock d s1)) as (s2 & -> & Hr2 & Hv2 & Hwi2 & Hd2 & Hw2 & Hf2 & _);
    [done|lia|].
  cbn [add_lock memory disk disk_world disk_publish_failures] in *. rewrite Hv1, Hw.
  cbn [fmap option_fmap option_map io_bind].
  destruct (lookup_warmish_ready 2 d s2) as (s3 & -> & Hr3 & _ & _ & Hd3 & Hw3 & Hf3); [done|lia|].
  rewrite Hwi2, Hwi1, Hwi. cbn [fmap option_fmap option_map io_bind]. rewrite Hd3, Hd2, Hd1, Hd.
  exists s3. split_and!; congruence || done.
Qed.

(** A first preparation whose publication is not counted as failed leaves the
    serialized component under the entry of its profile. *)
Lemma first_preparation dc d source s s' prepared :
  Unseen dc d s → (∀ p, EntryAbsent dc d p (disk_world s)) → 0 ≤ disk_publish_failures s →
  prepare d source None id id s = (s', Ok prepared) →
  disk_publish_failures s' = disk_publish_failures s →
  ∃ b w1, compile source = Ok (prepared, b) ∧
    publish dc d (prepared_profile prepared) b w1 = (disk_world s', Ok tt) ∧
    files w1 = files (disk_world s) ∧ directories w1 = directories (disk_world s).
Proof.
  intros Hun Habs Hnn Hp Hf.
  destruct (prepare_unseen dc d source None s Hun) as (s1 & Heq & Hr1 & Hd1 & Hw1 & Hf1).
  rewrite Heq in Hp. clear Heq.
  destruct (load_from_disk dc d ALL_PROFILES s1) as [s2 [o|e]] eqn:Hl; [|done]. cbn [io_bind] in Hp.
  apply load_from_disk_absent in Hl as (-> & Hm2 & Hp2 & Hd2 & Hf2 & Hfi & Hdi); [|by rewrite Hw1].
  unfold prepare_cold in Hp. destruct (compile source) as [[pc b]|e] eqn:Hc; [|done]. cbv [id] in Hp.
  rewrite Hd2, Hd1 in Hp.
  destruct (publish dc d (prepared_profile pc) b (disk_world s2)) as [w3 r3] eqn:Hpub.
  unfold with_memory in Hp. destruct Hr1 as (Hpo & _).
  destruct r3 as [[]|e]; cbn in Hp; rewrite Hp2, Hpo in Hp; simplify_eq/=.
  - exists b, (disk_world s2). rewrite Hfi, Hdi, Hw1. done.
  - exfalso. rewrite Hf2, Hf1 in Hf. unfold wrapping_add in Hf.
    destruct (decide (disk_publish_failures s < u64_max)) as [Hlt|Hge].
    + rewrite Z.mod_small in Hf by lia. lia.
    + pose proof (Z.mod_pos_bound (disk_publish_failures s + 1) (u64_max + 1) ltac:(done)).
      assert (disk_publish_failures s = u64_max) as Hmax by lia. rewrite Hmax in Hf. by vm_compute in Hf.
Qed.

(** ** The second process *)

(** Without faults a load leaves the world as it is. *)
Lemma load_still dc d p w : schedule w = [] → (load dc d p w).1 = w.
Proof.
  intros Hs. assert (next_call w = (w, None)) as Hn by (unfold next_call; by rewrite Hs).
  assert (∀ q, ∃ b, path_exists q w = (w, b)) as Hex by (intros q; unfold path_exists; rewrite Hn; by eexists).
  assert (∀ q, ∃ r, fs_read q w = (w, r)) as Hrd
    by (intros q; unfold fs_read; rewrite Hn; destruct (files w !! q); by eexists).
  unfold load. destruct (paths dc d p) as [ap mp].
  destruct (Hex ap) as [ea ->], (Hex mp) as [em ->], (Hrd mp) as [rm Hrm], (Hrd ap) as [ra Hra].
  assert ((if ea then (w, false) else (w, negb em)) = (w, negb ea && negb em)) as -> by by destruct ea.
  destruct (negb ea && negb em); [done|]. rewrite Hrm. destruct (map_err _ rm); [|done].
  match goal with |- context [match ?x with Ok _ => _ | Err _ => _ end] => destruct x end; [|done].
  by rewrite Hra.
Qed.

Lemma load_from_disk_found dc d pre p post s m b prepared :
  schedule (disk_world s) = [] → MemoryReady 2 s →
  Forall (λ q, EntryAbsent dc d q (disk_world s)) pre →
  content <$> files (disk_world s) !! (paths dc d p).2 = Some m →
  content <$> files (disk_world s) !! (paths dc d p).1 = Some b → AuthenticEntry dc d p m b →
  deserialize_component {| aot_bytes := b; aot_profile := p |} = Ok prepared →
  ∃ s', load_from_disk dc d (pre ++ p :: post) s = (s', Ok (Some prepared)) ∧
    disk_world s' = disk_world s ∧
    disk_publish_failures s' = disk_publish_failures s.
Proof.
  intros Hs Hr Hpre Hm Hb Hauth Hdes.
  assert (disk_world s = quiet (disk_world s)) as Hq by (destruct (disk_world s); cbn in *; by subst).
  revert s Hs Hr Hm Hb Hq Hpre. induction pre as [|q pre IH]; intros s Hs Hr Hm Hb Hq Hpre;
    cbn [app load_from_disk].
  - pose proof (load_complete dc d p (disk_world s) m b Hm Hb Hauth) as Hl. rewrite <- Hq in Hl.
    pose proof (load_still dc d p (disk_world s) Hs) as Hst.
    destruct (load dc d p (disk_world s)) as [w r]. cbn in Hl, Hst. subst r. rewrite Hdes.
    assert (prepared_profile prepared = p) as Hp.
    { unfold deserialize_component in Hdes. result_inv. bool_inv. done. }
    rewrite bool_decide_eq_true_2 by done. cbn [negb]. unfold with_memory. cbn.
    destruct Hr as (-> & _). cbn. by eexists.
  - inversion_clear Hpre as [|?? Hq1 Hpre']. rewrite Hq, (load_absent dc d q) by done. cbv iota beta.
    rewrite <- Hq. destruct (IH (set_disk_world (disk_world s) s)) as (s' & Hl & Hf); eauto.
Qed.

Lemma disk_contains_any_found dc d l p w :
  schedule w = [] → p ∈ l → is_Some (files w !! (paths dc d p).1) → is_Some (files w !! (paths dc d p).2) →
  disk_contains_any dc d l w = (w, true).
Proof.
  intros Hs Hp Ha Hm. assert (w = quiet w) as Hq by (destruct w; cbn in *; by subst).
  assert (∀ q, contains dc d q w = (w, bool_decide (is_Some (files w !! (paths dc d q).1))
    && bool_decide (is_Some (files w !! (paths dc d q).2)))) as Hc.
  { intros q. unfold contains. destruct (paths dc d q) as [a m]. rewrite Hq. unfold path_is_file. cbn.
    by destruct (bool_decide (is_Some (files w !! a))). }
  induction l as [|q l IH]; [by apply not_elem_of_nil in Hp|]. cbn [disk_contains_any]. rewrite Hc.
  destruct (_ && _) eqn:Hb; [done|]. apply elem_of_cons in Hp as [->|Hp]; [|by apply IH].
  by rewrite !bool_decide_eq_true_2 in Hb.
Qed.

Lemma profile_split p : ∃ pre post, ALL_PROFILES = pre ++ p :: post ∧ p ∉ pre.
Proof.
  assert (p ∈ ALL_PROFILES) as Hp by (destruct p; set_solver).
  apply list_elem_of_split_l in Hp as (pre & post & Heq & Hn). eauto.
Qed.

(** Two directories hold the same entries for a digest. *)
Definition SameEntries (dc : DiskCache) (d : string) (w w' : World) : Prop :=
  ∀ p, content <$> files w' !! (paths dc d p).1 = content <$> files w !! (paths dc d p).1 ∧
    content <$> files w' !! (paths dc d p).2 = content <$> files w !! (paths dc d p).2 ∧
    directories w' !! (paths dc d p).1 = directories w !! (paths dc d p).1 ∧
    directories w' !! (paths dc d p).2 = directories w !! (paths dc d p).2.

(** The only entry of the digest is this authenticated artifact. *)
Definition OnlyEntry (dc : DiskCache) (d : string) (p : WasiProfile) (b : list byte) (w : World) : Prop :=
  (∃ m, content <$> files w !! (paths dc d p).2 = Some m ∧
     content <$> files w !! (paths dc d p).1 = Some b ∧ AuthenticEntry dc d p m b) ∧
  ∀ q, q ≠ p → EntryAbsent dc d q w.

Lemma only_entry_same dc d p b w w' :
  OnlyEntry dc d p b w → SameEntries dc d w w' → OnlyEntry dc d p b w'.
Proof.
  intros [(m & Hm & Hb & Hauth) Habs] Hsame. split.
  - exists m. destruct (Hsame p) as (-> & -> & _). done.
  - intros q Hq. destruct (Habs q Hq) as (Ha & Hmq & Hda & Hdm), (Hsame q) as (Ea & Em & Eda & Edm).
    unfold EntryAbsent. rewrite Eda, Edm. rewrite Ha in Ea. rewrite Hmq in Em.
    apply fmap_None in Ea, Em. done.
Qed.

Lemma publish_only_entry dc d p b w w' :
  Hex64 d → (∀ q, EntryAbsent dc d q w) → publish dc d p b w = (w', Ok tt) → OnlyEntry dc d p b w'.
Proof.
  intros Hd Habs Hp. apply publish_effect in Hp as (Hdir & Hkeep & Hok & _); [|done]. split.
  - destruct (Hok eq_refl) as (enc & mb & Henc & Hlen & Hto & Ha & Hm).
    exists mb. rewrite Ha, Hm. split_and!; [done|done|].
    eexists _, enc. split_and!; [by apply from_to|done..|]. cbn. by rewrite hex_decode_encode.
  - intros q Hq. destruct (Hkeep d q Hd) as [Ha Hm]; [congruence|]. destruct (Habs q) as (? & ? & ? & ?).
    unfold EntryAbsent. rewrite Ha, Hm, Hdir. done.
Qed.

(** A runtime over such a directory prepares the package from that artifact. *)
Lemma only_entry_reused dc d p b source join prepared s :
  Unseen dc d s → schedule (disk_world s) = [] → OnlyEntry dc d p b (disk_world s) →
  deserialize_component {| aot_bytes := b; aot_profile := p |} = Ok prepared →
  (tier d s).2 = DiskAot ∧
  ∃ s', prepare d source join id id s = (s', Ok prepared) ∧
    disk_world s' = disk_world s ∧ disk_publish_failures s' = disk_publish_failures s.
Proof.
  intros Hun Hs [(m & Hm & Hb & Hauth) Habs] Hdes. destruct (profile_split p) as (pre & post & Hall & Hpre).
  split.
  - destruct Hun as [(Hpo & _) _ Hd Hw Hwi]. unfold tier, lookup_warm, lookup_warmish.
    rewrite Hpo, Hw. cbn -[disk_contains_any]. rewrite Hwi. cbn -[disk_contains_any]. rewrite Hd.
    apply fmap_Some in Hm as (? & Hm & _), Hb as (? & Hb & _).
    by rewrite (disk_contains_any_found dc d ALL_PROFILES p) by (done || (rewrite ?Hall, ?Hb, ?Hm; done || set_solver)).
  - destruct (prepare_unseen dc d source join s Hun) as (s1 & -> & Hr1 & Hd1 & Hw1 & Hf1).
    rewrite <- Hw1 in *. destruct (load_from_disk_found dc d pre p post s1 m b prepared)
      as (s2 & Hl & Hfi & Hf2); [done..| |done|done|done|done|].
    { apply Forall_forall. intros q Hq. apply Habs. by intros ->. }
    rewrite Hall, Hl. cbn [io_bind]. exists s2. split_and!; congruence || done.
Qed.

(** A runtime over such a directory finds its entries as they were. *)
Lemma runtime_new_entries st c w w' r cache d :
  runtime_new (C := C) st c (quiet w) = Some (w', Ok r) → disk_cache c = Some cache → Hex64 d →
  schedule w' = [] ∧
  SameEntries {| disk_config := cache; disk_target := arch st +:+ "-" +:+ os st |} d w w'.
Proof.
  intros Hnew Hc Hd. destruct (runtime_new_inner _ _ _ _ _ _ Hnew Hc) as [Hprep _].
  apply disk_prepare_quiet in Hprep as (Hs & Hcont & Hdir). split; [done|].
  set (dc := {| disk_config := cache; disk_target := _ |}).
  intros p. destruct (entry_ne_root dc d p Hd) as [Hn1 Hn2]. rewrite !Hcont, !Hdir by done. done.
Qed.

Lemma runtime_new_unseen st c w w' r cache d :
  runtime_new (C := C) st c w = Some (w', Ok r) → disk_cache c = Some cache → config_in_range c →
  Unseen {| disk_config := cache; disk_target := arch st +:+ "-" +:+ os st |} d (inner r)
  ∧ disk_world (inner r) = w' ∧ disk_publish_failures (inner r) = 0.
Proof.
  intros Hnew Hc [? [? ?] ?]. destruct (runtime_new_inner _ _ _ _ _ _ Hnew Hc) as [_ Hi].
  destruct (runtime_new_ok (λ _, True) st c w w' r 5 Hnew) as ([[] _ _ _ _] & _); try done.
  rewrite Hi in *. split_and!; [|done|done]. split; [|done|done|apply lookup_empty|apply lookup_empty].
  split_and!; [done|done|]. cbn. by vm_compute.
Qed.

(** C20: a runtime that prepared a package for the first time and published it
    hands it to the next process: a runtime constructed later for the same
    target over the same cache directory, whatever happened to other entries
    meanwhile, reports the package as stored on disk and prepares exactly the
    same component, without compiling (whatever source it is given, and even
    when every compiler task fails) and without changing a file. *)
Theorem restart_reuses_artifact st c1 c2 cache w0 w1 r1 source s prepared w w2 r2 source2 join2 :
  config_in_range c1 → config_in_range c2 →
  disk_cache c1 = Some cache → disk_cache c2 = Some cache →
  let d := component_digest source in
  let dc := {| disk_config := cache; disk_target := arch st +:+ "-" +:+ os st |} in
  runtime_new (C := C) st c1 w0 = Some (w1, Ok r1) → (∀ p, EntryAbsent dc d p w1) →
  prepare d source None id id (inner r1) = (s, Ok prepared) → disk_publish_failures s = 0 →
  SameEntries dc d (disk_world s) w → runtime_new (C := C) st c2 (quiet w) = Some (w2, Ok r2) →
  (tier d (inner r2)).2 = DiskAot ∧
  ∃ s2, prepare d source2 join2 id id (inner r2) = (s2, Ok prepared) ∧
    disk_world s2 = w2 ∧ disk_publish_failures s2 = 0.
Proof.
  intros Hr1 Hr2 Hc1 Hc2 d dc Hnew1 Habs Hprep Hpf Hsame Hnew2.
  assert (Hex64 d) as Hd by apply sha256_hex_hex64.
  destruct (runtime_new_unseen _ _ _ _ _ _ d Hnew1 Hc1 Hr1) as (Hun1 & Hw1 & Hf1).
  destruct (runtime_new_unseen _ _ _ _ _ _ d Hnew2 Hc2 Hr2) as (Hun2 & Hw2 & Hf2).
  destruct (first_preparation dc d source (inner r1) s prepared Hun1) as (b & wp & Hcomp & Hpub & Hfp & Hdp);
    [by rewrite Hw1|by rewrite Hf1|done|congruence|].
  destruct (runtime_new_entries _ _ _ _ _ _ d Hnew2 Hc2 Hd) as [Hs2 Hsame2]. fold dc in Hsame2.
  assert (OnlyEntry dc d (prepared_profile prepared) b (disk_world s)) as Hone.
  { eapply publish_only_entry; [done| |exact Hpub]. intros q. unfold EntryAbsent. rewrite Hfp, Hdp, Hw1. apply Habs. }
  destruct (only_entry_reused dc d (prepared_profile prepared) b source2 join2 prepared (inner r2))
    as (Ht & s2 & Hp2 & Hfi & Hpf2); [done|by rewrite Hw2| |by eapply compile_roundtrip|].
  { rewrite Hw2. eapply only_entry_same; [|done]. by eapply only_entry_same. }
  split; [done|]. exists s2. rewrite Hfi, Hw2, Hpf2. done.
Qed.
End restart.

Module RestartExample.
Import Toy DiskCacheExample RuntimeExample PreparationExample.

#[export] Instance engine_laws : EngineLaws (list string) engine.
Proof.
  intros [|n [|]] b Hs; try done. injection Hs as <-. cbn. unfold str_bytes. by rewrite String.string_of_list_byte_of_string.
Qed.

Definition package : string := component_digest source.
Definition first : RuntimeInner (list string) * Result (PreparedComponent (list string)) :=
  prepare package source None id id (inner start_runtime).
Definition created (w : World) : Runtime (list string) :=
  match runtime_new startup two_workers w with
  | Some (_, Ok r) => r
  | _ => start_runtime
  end.
Definition succeeds (w : World) : bool :=
  match runtime_new (C := list string) startup two_workers w with Some (_, Ok _) => true | _ => false end.
Lemma created_new w :
  succeeds w = true →
  runtime_new startup two_workers w = Some (disk_world (inner (created w)), Ok (created w)).
Proof.
  unfold succeeds, created. destruct (runtime_new startup two_workers w) as [[w' [r|]]|] eqn:Hn; try done.
  destruct (runtime_new_inner _ _ _ _ _ _ Hn eq_refl) as [_ ->]. done.
Qed.
Definition second : Runtime (list string) := created (quiet (disk_world first.1)).

Lemma start_entries_absent p :
  EntryAbsent {| disk_config := DiskCacheExample.config; disk_target := "x86_64-linux" |} package p
    (disk_world (inner start_runtime)).
Proof. destruct p; vm_compute; done. Qed.

Lemma first_created :
  runtime_new startup two_workers empty_world = Some (disk_world (inner start_runtime), Ok start_runtime).
Proof. vm_compute. reflexivity. Qed.
Lemma first_prepared : first = (first.1, Ok cold).
Proof. rewrite (surjective_pairing first) at 1. apply f_equal. vm_compute. reflexivity. Qed.
Lemma first_published : disk_publish_failures first.1 = 0.
Proof. vm_compute. reflexivity. Qed.
Lemma second_created :
  runtime_new startup two_workers (quiet (disk_world first.1)) =
  Some (disk_world (inner second), Ok second).
Proof. apply (created_new (quiet (disk_world first.1))). vm_compute. reflexivity. Qed.

(** The second process is given other bytes and a compiler that always fails. *)
Lemma restart_reuses_artifact_witness :
  (tier package (inner second)).2 = DiskAot ∧
  ∃ s2, prepare package (str_bytes "other") (Some "no compiler") id id (inner second) = (s2, Ok cold) ∧
    disk_world s2 = disk_world (inner second) ∧ disk_publish_failures s2 = 0.
Proof.
  apply (restart_reuses_artifact startup two_workers two_workers DiskCacheExample.config empty_world
           (disk_world (inner start_runtime)) start_runtime source first.1 cold (disk_world first.1)
           (disk_world (inner second)) second (str_bytes "other") (Some "no compiler"));
    [apply two_workers_in_range|apply two_workers_in_range|reflexivity|reflexivity
    |exact first_created|exact start_entries_absent|exact first_prepared|exact first_published
    |intros p; done|exact second_created].
Defined.

(** Inside Tokio, loading schedules a promotion: after nine of its steps the
    package that was found on disk is reported as warm, before any call of the
    loading task. *)
Example loaded_package_promoted :
  (λ r, (tier package (inner r)).2) <$> runtime_run [LoadBytes true source] second = Some DiskAot ∧
  (λ r, (tier package (inner r)).2) <$> runtime_run (LoadBytes true source :: advance 0 9) second = Some Warm.
Proof. vm_compute. split; reflexivity. Qed.
End RestartExample.
