(* ===== verification/Http.v ===== *)
(** Outbound HTTP capabilities and body limits ([src/src/http.rs]): public
    addresses, grants, [LimitBody], [send_request] and the service
    configuration.  Theorems: the address predicate agrees with a list of
    reserved blocks, limited bodies are exact, the transport is reached only
    under a grant and a public destination, accepted configurations are
    characterised. *)
From Stdlib Require Import ZifyBool.
From S2P Require Import Prelude Errors Streams Types.

Local Open Scope Z_scope.

(** ** Addresses *)

Inductive IpAddr :=
| V4 (a b c d : Z)
| V6 (segments : list Z).

Definition is_public_ip (address : IpAddr) : bool :=
  match address with
  | V4 a b c d =>
      let is_private := (a =? 10) || ((a =? 172) && (16 <=? b) && (b <=? 31))
                        || ((a =? 192) && (b =? 168)) in
      let is_loopback := a =? 127 in
      let is_link_local := (a =? 169) && (b =? 254) in
      let is_broadcast := (a =? 255) && (b =? 255) && (c =? 255) && (d =? 255) in
      let is_documentation := ((a =? 192) && (b =? 0) && (c =? 2))
                              || ((a =? 198) && (b =? 51) && (c =? 100))
                              || ((a =? 203) && (b =? 0) && (c =? 113)) in
      let is_unspecified := (a =? 0) && (b =? 0) && (c =? 0) && (d =? 0) in
      let is_multicast := (224 <=? a) && (a <=? 239) in
      negb ((a =? 0) || is_private || is_loopback || is_link_local || is_broadcast
            || is_documentation || is_unspecified || is_multicast
            || ((a =? 100) && ((64 <=? b) && (b <=? 127)))
            || ((a =? 192) && (b =? 0) && (c =? 0))
            || ((a =? 192) && (b =? 88) && (c =? 99))
            || ((a =? 198) && ((b =? 18) || (b =? 19)))
            || (240 <=? a))
  | V6 segments =>
      (Z.land (segments !!! 0%nat) 0xe000 =? 0x2000)
      && negb ((segments !!! 0%nat =? 0x2001) && (segments !!! 1%nat =? 0x0db8))
  end.

(** ** Grants *)

Record OutboundHttpGrant := {
  scheme : string;
  authority : string;
  methods : list string;
  max_request_bytes : Z;
  max_response_bytes : Z;
  allow_private_network : bool;
}.

Definition grant_new (s a : string) : OutboundHttpGrant :=
  {| scheme := to_ascii_lowercase s; authority := to_ascii_lowercase a; methods := [];
     max_request_bytes := 1024 * 1024; max_response_bytes := 4 * 1024 * 1024;
     allow_private_network := false |}.
Definition with_methods (m : list string) (g : OutboundHttpGrant) : OutboundHttpGrant :=
  {| scheme := scheme g; authority := authority g; methods := m;
     max_request_bytes := max_request_bytes g; max_response_bytes := max_response_bytes g;
     allow_private_network := allow_private_network g |}.
Definition with_body_limits (rq rs : Z) (g : OutboundHttpGrant) : OutboundHttpGrant :=
  {| scheme := scheme g; authority := authority g; methods := methods g;
     max_request_bytes := rq; max_response_bytes := rs;
     allow_private_network := allow_private_network g |}.
Definition grant_allow_private_network (b : bool) (g : OutboundHttpGrant) : OutboundHttpGrant :=
  {| scheme := scheme g; authority := authority g; methods := methods g;
     max_request_bytes := max_request_bytes g; max_response_bytes := max_response_bytes g;
     allow_private_network := b |}.

(** A request's URI parts, method and headers; header names are lowercase and
    keep their order. *)
Record RequestHead := {
  req_scheme : option string;
  req_authority : option string;
  req_method : string;
  req_headers : list (string * list byte);
}.

(** [HeaderValue::to_str]: visible ASCII and tab. *)
Definition header_to_str (v : list byte) : option (list byte) :=
  if forallb (λ b, in_range 32 126 b || bool_decide (b = "009"%byte)) v then Some v else None.

(** [str::parse::<u64>]: an optional plus sign and at least one digit, within
    the type. *)
Definition parse_digits (l : list byte) : option Z :=
  foldl (λ acc b, n ← acc;
           if is_ascii_digit b
           then let m := 10 * n + (byte_val b - 48) in if m <=? u64_max then Some m else None
           else None) (Some 0) l.
Definition parse_u64 (l : list byte) : option Z :=
  match l with
  | [] => None
  | "+"%byte :: [] => None
  | "+"%byte :: l' => parse_digits l'
  | _ => parse_digits l
  end.

Definition header_get (name : string) (h : list (string * list byte)) : option (list byte) :=
  (λ ikv, ikv.2.2) <$> list_find (λ kv, kv.1 = name) h.

Definition content_length_at_most (h : list (string * list byte)) (limit : Z) : bool :=
  match (match header_get "content-length" h with
         | None => Some 0
         | Some v => t ← header_to_str v; parse_u64 t
         end) with
  | Some length => length <=? limit
  | None => false
  end.

Definition grant_matches (r : RequestHead) (s a : string) (g : OutboundHttpGrant) : bool :=
  eq_ignore_ascii_case (scheme g) s
  && eq_ignore_ascii_case (authority g) a
  && existsb (λ m, eq_ignore_ascii_case m (req_method r)) (methods g)
  && content_length_at_most (req_headers r) (max_request_bytes g).

(** [HttpHooks] holds the grants; [deny] holds none. *)
Definition grant_for (grants : list OutboundHttpGrant) (r : RequestHead) : option OutboundHttpGrant :=
  s ← req_scheme r;
  a ← req_authority r;
  List.find (grant_matches r s a) grants.
Definition hooks_deny : list OutboundHttpGrant := [].

(** ** Bodies with a limit *)

Inductive frame (E : Type) :=
| Data (bytes : list byte)
| Trailers (t : list (string * list byte))
| BodyError (e : E).
Arguments Data {E}.
Arguments Trailers {E}.
Arguments BodyError {E}.

Definition data_len {E} (f : frame E) : Z :=
  match f with Data b => blen b | _ => 0 end.

(** One [poll_frame] of [LimitBody] on the frame its inner body is ready with:
    the new budget and the frame it yields. *)
Definition limit_poll {E} (error : Z → E) (remaining : Z) (f : frame E) : Z * frame E :=
  match f with
  | BodyError e => (remaining, BodyError e)
  | _ => let bytes := data_len f in
         if remaining <? bytes then (0, BodyError (error bytes)) else (remaining - bytes, f)
  end.

Fixpoint limit_run {E} (error : Z → E) (remaining : Z) (l : list (frame E)) : list (frame E) :=
  match l with
  | [] => []
  | f :: l' => let '(remaining, out) := limit_poll error remaining f in
               out :: limit_run error remaining l'
  end.

Definition limit_size_hint (remaining : Z) (upper : option Z) : Z :=
  match upper with
  | Some u => if remaining <? u then remaining else u
  | None => remaining
  end.

Definition total_data {E} (l : list (frame E)) : Z := foldr (λ f n, data_len f + n) 0 l.

(** ** Sending an outbound request *)

Inductive ErrorCode :=
| HttpRequestDenied
| DestinationIpProhibited
| HttpRequestBodySize
| HttpResponseBodySize
| TransportError (message : string).

(** [http], [tokio] and [wasmtime-wasi-http]: URI parts, name resolution and
    the default transport. *)
Class HttpLib := {
  method_valid : string → bool;
  origin_valid : string → string → result string unit;
  port_u16 : string → option Z;
  host_of : string → string;
  lookup_host : string → Z → result unit (list IpAddr);
}.
Record response := { resp_headers : list (string * list byte); resp_body : list (frame ErrorCode) }.
Definition transport : Type := RequestHead → list (frame ErrorCode) → result ErrorCode response.

Section send.
Context `{HttpLib}.

Definition validate_network_destination (uri_authority : option string) (g : OutboundHttpGrant)
    : result unit unit :=
  if allow_private_network g then Ok tt
  else
    a ← ok_or uri_authority tt;
    let port := match port_u16 a with
                | Some p => p
                | None => if bool_decide (scheme g = "https") then 443 else 80
                end in
    addresses ← lookup_host (host_of a) port;
    reject_if (bool_decide (addresses = []) || existsb (λ ip, negb (is_public_ip ip)) addresses) tt.

(** [send_request] of both WASI generations: grant, destination, limited
    request body, transport, response header check, limited response body. *)
Definition send_request (grants : list OutboundHttpGrant) (send : transport)
    (r : RequestHead) (body : list (frame ErrorCode)) : result ErrorCode response :=
  g ← ok_or (grant_for grants r) HttpRequestDenied;
  _ ← map_err (λ _, DestinationIpProhibited) (validate_network_destination (req_authority r) g);
  let body := limit_run (λ _, HttpRequestBodySize) (max_request_bytes g) body in
  resp ← send r body;
  _ ← reject_if (negb (content_length_at_most (resp_headers resp) (max_response_bytes g)))
        HttpResponseBodySize;
  Ok {| resp_headers := resp_headers resp;
        resp_body := limit_run (λ _, HttpResponseBodySize) (max_response_bytes g) (resp_body resp) |}.

(** ** Service configuration *)

Record HttpServiceConfig := {
  max_in_flight : Z;
  max_instance_reuse_count : Z;
  max_instance_concurrent_reuse_count : Z;
  idle_worker_ttl : Z;
  request_timeout : Z;
  outbound_grants : list OutboundHttpGrant;
}.
Definition default_http_config : HttpServiceConfig := {|
  max_in_flight := 1000; max_instance_reuse_count := 10000;
  max_instance_concurrent_reuse_count := 32; idle_worker_ttl := secs 30;
  request_timeout := secs 30; outbound_grants := [] |}.

Definition validate_grant (g : OutboundHttpGrant) : Result unit :=
  _ ← reject_if (negb (bool_decide (scheme g = "http") || bool_decide (scheme g = "https")))
        (Configuration "outbound HTTP grant scheme must be http or https");
  _ ← reject_if (bool_decide (authority g = EmptyString)
                 || str_contains "@" (authority g)
                 || bool_decide (methods g = [])
                 || existsb (λ m, negb (method_valid m)) (methods g)
                 || (max_request_bytes g =? 0)
                 || (max_response_bytes g =? 0))
        (Configuration "outbound HTTP grants require an authority, at least one method, and positive body limits");
  map_err (λ e, Configuration ("invalid outbound HTTP origin: " +:+ e))
    (origin_valid (scheme g) (authority g)).

Definition validate_http_config (c : HttpServiceConfig) (runtime_max_timeout : Z) : Result unit :=
  _ ← reject_if ((max_in_flight c =? 0) || (max_instance_reuse_count c =? 0)
                 || (max_instance_concurrent_reuse_count c =? 0)
                 || (idle_worker_ttl c =? 0) || (request_timeout c =? 0))
        (Configuration "HTTP capacities, idle TTL, and request timeout must be positive");
  _ ← reject_if (runtime_max_timeout <? request_timeout c) (Limit "timeout");
  for_each validate_grant (outbound_grants c).
End send.

(** ** Reserved address blocks *)

(** The 32-bit value of an address and membership in a block [net/len]. *)
Definition v4_value (a b c d : Z) : Z := ((a * 256 + b) * 256 + c) * 256 + d.
Definition in_block (width v : Z) (block : Z * Z) : bool :=
  Z.shiftr v (width - block.2) =? Z.shiftr block.1 (width - block.2).
Definition reserved_v4 : list (Z * Z) := [
  (v4_value 0 0 0 0, 8); (v4_value 10 0 0 0, 8); (v4_value 100 64 0 0, 10);
  (v4_value 127 0 0 0, 8); (v4_value 169 254 0 0, 16); (v4_value 172 16 0 0, 12);
  (v4_value 192 0 0 0, 24); (v4_value 192 0 2 0, 24); (v4_value 192 88 99 0, 24);
  (v4_value 192 168 0 0, 16); (v4_value 198 18 0 0, 15); (v4_value 198 51 100 0, 24);
  (v4_value 203 0 113 0, 24); (v4_value 224 0 0 0, 4); (v4_value 240 0 0 0, 4)].

Definition v6_value (segments : list Z) : Z := foldl (λ v s, v * 65536 + s) 0 segments.
Definition global_unicast_v6 : Z * Z := (Z.shiftl 0x2000 112, 3).
Definition documentation_v6 : Z * Z := (Z.shiftl 0x20010db8 96, 32).
(** Special-use blocks inside global unicast that the code does not list:
    Teredo, benchmarking, ORCHIDv2, 6to4 and the second documentation block. *)
Definition unlisted_v6 : list (Z * Z) := [
  (Z.shiftl 0x20010000 96, 32); (Z.shiftl 0x200100020000 80, 48); (Z.shiftl 0x20010020 96, 28);
  (Z.shiftl 0x2002 112, 16); (Z.shiftl 0x3fff 112, 20)].

Definition octet (z : Z) : Prop := 0 ≤ z < 256.
Definition segment (z : Z) : Prop := 0 ≤ z < 65536.

Lemma in_block_div width v net len :
  0 ≤ len ≤ width →
  in_block width v (net, len) = (v / 2 ^ (width - len) =? net / 2 ^ (width - len)).
Proof. intros. unfold in_block; cbn [fst snd]. by rewrite !Z.shiftr_div_pow2 by lia. Qed.

(** Addresses of one block agree on every shorter prefix. *)
Lemma in_block_prefix width v net len net' len' :
  0 ≤ len' ≤ len → len ≤ width → in_block width v (net, len) = true →
  in_block width v (net', len') = in_block width net (net', len').
Proof.
  intros Hl Hw. rewrite !in_block_div by lia. rewrite Z.eqb_eq. intros Hv.
  assert (∀ x, x / 2 ^ (width - len') = x / 2 ^ (width - len) / 2 ^ (len - len')) as Hx.
  { intros x. rewrite Z.div_div by (apply Z.pow_nonzero || apply Z.pow_pos_nonneg; lia).
    rewrite <- Z.pow_add_r by lia. do 2 f_equal. lia. }
  by rewrite (Hx v), (Hx net), Hv.
Qed.
(** Two blocks with different shorter prefixes have no address in common. *)
Lemma in_block_disjoint width v net len net' len' :
  0 ≤ len ≤ width → 0 ≤ len' ≤ width → in_block width net (net', Z.min len len') = false →
  in_block width v (net, len) = true → in_block width v (net', len') = false.
Proof.
  intros Hl Hl' Hd Hv. apply not_true_iff_false. intros Hv'. revert Hd. rewrite <- (in_block_prefix width v net len net' (Z.min len len')) by (done || lia).
  rewrite (in_block_prefix width v net' len' net' (Z.min len len')) by (done || lia).
  rewrite in_block_div by lia. by rewrite Z.eqb_refl.
Qed.

(** The blocks as conditions on octets. *)
Section v4_blocks.
Context (a b c d : Z) (Ha : octet a) (Hb : octet b) (Hc : octet c) (Hd : octet d).
Let v := v4_value a b c d.

Lemma v4_prefixes :
  v / 2 ^ 24 = a ∧ v / 2 ^ 16 = a * 256 + b ∧ v / 2 ^ 8 = (a * 256 + b) * 256 + c
  ∧ v / 2 ^ 22 = a * 4 + b / 64 ∧ v / 2 ^ 20 = a * 16 + b / 16 ∧ v / 2 ^ 17 = a * 128 + b / 2
  ∧ v / 2 ^ 28 = a / 16.
Proof using Ha Hb Hc Hd.
  unfold octet, v in *. unfold v4_value. repeat split; Z.to_euclidean_division_equations; lia.
Qed.

Ltac block_solve :=
  unfold octet in *; rewrite in_block_div by lia;
  destruct v4_prefixes as (E8 & E16 & E24 & E10 & E12 & E15 & E4);
  match goal with |- context [2 ^ (32 - ?n)] =>
    let k := eval vm_compute in (32 - n) in change (32 - n) with k end;
  first [rewrite E8 | rewrite E16 | rewrite E24 | rewrite E10 | rewrite E12 | rewrite E15 | rewrite E4];
  clear E8 E16 E24 E10 E12 E15 E4; unfold v4_value; Z.to_euclidean_division_equations; lia.

Lemma block_8 x : in_block 32 v (v4_value x 0 0 0, 8) = (a =? x).
Proof using Ha Hb Hc Hd. block_solve. Qed.
Lemma block_16 x y : octet y → in_block 32 v (v4_value x y 0 0, 16) = (a =? x) && (b =? y).
Proof using Ha Hb Hc Hd. intros Hy. block_solve. Qed.
Lemma block_24 x y z : octet y → octet z →
  in_block 32 v (v4_value x y z 0, 24) = (a =? x) && (b =? y) && (c =? z).
Proof using Ha Hb Hc Hd. intros Hy Hz. block_solve. Qed.
Lemma block_shared : in_block 32 v (v4_value 100 64 0 0, 10) = (a =? 100) && ((64 <=? b) && (b <=? 127)).
Proof using Ha Hb Hc Hd. block_solve. Qed.
Lemma block_private : in_block 32 v (v4_value 172 16 0 0, 12) = (a =? 172) && (16 <=? b) && (b <=? 31).
Proof using Ha Hb Hc Hd. block_solve. Qed.
Lemma block_benchmark : in_block 32 v (v4_value 198 18 0 0, 15) = (a =? 198) && ((b =? 18) || (b =? 19)).
Proof using Ha Hb Hc Hd. block_solve. Qed.
Lemma block_multicast : in_block 32 v (v4_value 224 0 0 0, 4) = (224 <=? a) && (a <=? 239).
Proof using Ha Hb Hc Hd. block_solve. Qed.
Lemma block_future : in_block 32 v (v4_value 240 0 0 0, 4) = (240 <=? a).
Proof using Ha Hb Hc Hd. block_solve. Qed.

Lemma is_public_ip_v4 : is_public_ip (V4 a b c d) = forallb (λ blk, negb (in_block 32 v blk)) reserved_v4.
Proof using Ha Hb Hc Hd.
  cbn [forallb reserved_v4].
  rewrite !block_8, !block_24, !block_16, block_shared, block_private, block_benchmark, block_multicast,
    block_future by (unfold octet; lia).
  assert (Hbc : 240 <=? a = false → (a =? 255) && (b =? 255) && (c =? 255) && (d =? 255) = false) by lia.
  assert (Hun : a =? 0 = false → (a =? 0) && (b =? 0) && (c =? 0) && (d =? 0) = false) by lia.
  unfold is_public_ip. apply Bool.eq_iff_eq_true.
  rewrite !andb_true_iff, !negb_true_iff, !orb_false_iff.
  split; intros Hx; decompose [and] Hx; repeat split; first [assumption | by apply Hbc | by apply Hun].
Qed.
End v4_blocks.

(** The top three bits of a segment. *)
Lemma land_top3 x : segment x → Z.land x 0xe000 = 0x2000 ↔ x / 2 ^ 13 = 1.
Proof.
  unfold segment; intros Hx.
  assert (E : Z.land x 0xe000 = Z.shiftl (x / 2 ^ 13) 13).
  { rewrite <- Z.shiftr_div_pow2 by lia. apply Z.bits_inj'; intros n Hn.
    rewrite Z.land_spec, Z.shiftl_spec by lia.
    change 0xe000 with (Z.shiftl (Z.ones 3) 13). rewrite Z.shiftl_spec by lia.
    destruct (Z.ltb_spec n 13).
    { rewrite (Z.testbit_neg_r (Z.ones 3)), (Z.testbit_neg_r (Z.shiftr x 13)) by lia. apply andb_false_r. }
    rewrite Z.shiftr_spec by lia. replace (n - 13 + 13) with n by lia.
    rewrite Z.testbit_ones_nonneg by lia. destruct (Z.ltb_spec (n - 13) 3); [apply andb_true_r|].
    rewrite andb_false_r. symmetry. apply Z.bits_above_log2; [lia|].
    assert (Z.log2 x < 16); [|lia]. destruct (Z.eq_dec x 0) as [->|]; [done|].
    apply Z.log2_lt_pow2; lia. }
  rewrite E, Z.shiftl_mul_pow2 by lia. lia.
Qed.

Lemma is_public_ip_v6 a b c d e f g h :
  Forall segment [a; b; c; d; e; f; g; h] →
  let v := v6_value [a; b; c; d; e; f; g; h] in
  is_public_ip (V6 [a; b; c; d; e; f; g; h])
  = in_block 128 v global_unicast_v6 && negb (in_block 128 v documentation_v6).
Proof.
  intros Hs v. rewrite !Forall_cons in Hs. destruct Hs as (Ha & Hb & Hc & Hd & He & Hf & Hg & Hh & _).
  assert (E3 : v / 2 ^ 125 = a / 2 ^ 13).
  { unfold v, v6_value; cbn [foldl]; unfold segment in *. Z.to_euclidean_division_equations; lia. }
  assert (E32 : v / 2 ^ 96 = a * 65536 + b).
  { unfold v, v6_value; cbn [foldl]; unfold segment in *. Z.to_euclidean_division_equations; lia. }
  unfold global_unicast_v6, documentation_v6. rewrite !in_block_div by lia.
  change (128 - 3) with 125. change (128 - 32) with 96. rewrite E3, E32.
  change (Z.shiftl 8192 112 / 2 ^ 125) with 1. change (Z.shiftl 536939960 96 / 2 ^ 96) with (0x2001 * 65536 + 0xdb8).
  cbn [is_public_ip lookup_total list_lookup_total].
  f_equal; [|f_equal; unfold segment in *; lia].
  apply Bool.eq_iff_eq_true. rewrite !Z.eqb_eq. by apply land_top3.
Qed.

Lemma unlisted_v6_public v blk :
  blk ∈ unlisted_v6 → in_block 128 v blk = true →
  in_block 128 v global_unicast_v6 = true ∧ in_block 128 v documentation_v6 = false.
Proof.
  unfold unlisted_v6. rewrite !elem_of_cons. intros Hblk Hv.
  destruct Hblk as [->|[->|[->|[->|[->|[]%not_elem_of_nil]]]]].
  all: split; [unfold global_unicast_v6; by erewrite in_block_prefix; [|split|..|exact Hv]; [vm_compute|..]
              |unfold documentation_v6; eapply in_block_disjoint; [| | |exact Hv]; [lia|lia|by vm_compute]].
Qed.

(** C40: which destinations count as public, for every 32-bit and every
    128-bit address.  An IPv4 address does exactly when it lies outside all of
    the listed special-use blocks.  An IPv6 address does exactly when it lies
    inside the global unicast block 2000::/3 and outside 2001:db8::/32; so the
    other special-use blocks inside global unicast (Teredo, benchmarking,
    ORCHIDv2, 6to4, 3fff::/20) do count as public. *)
Theorem is_public_ip_iff address :
  match address with
  | V4 a b c d => Forall octet [a; b; c; d]
  | V6 s => Forall segment s ∧ length s = 8%nat
  end →
  (is_public_ip address = true ↔
   match address with
   | V4 a b c d => ∀ blk, blk ∈ reserved_v4 → in_block 32 (v4_value a b c d) blk = false
   | V6 s => in_block 128 (v6_value s) global_unicast_v6 = true
             ∧ in_block 128 (v6_value s) documentation_v6 = false
   end)
  ∧ ∀ s blk, address = V6 s → blk ∈ unlisted_v6 → in_block 128 (v6_value s) blk = true → is_public_ip address = true.
Proof.
  destruct address as [a b c d|s].
  - intros Hf. rewrite !Forall_cons in Hf. destruct Hf as (Ha & Hb & Hc & Hd & _). split; [|done].
    rewrite is_public_ip_v4, forallb_forall by done.
    split; intros Hx blk Hin; [apply negb_true_iff, Hx|apply negb_true_iff, Hx];
      by apply list_elem_of_In.
  - intros [Hs Hl]. do 8 (destruct s as [|? s]; [done|]). destruct s; [|done].
    rewrite is_public_ip_v6 by done. rewrite andb_true_iff, negb_true_iff. split; [done|].
    intros s blk [= <-]. rewrite andb_true_iff, negb_true_iff. apply unlisted_v6_public.
Qed.

(** ** Limited bodies *)

Section limited.
Context {E : Type} (error : Z → E).
Implicit Types l : list (frame E).

Lemma data_len_nonneg (f : frame E) : 0 ≤ data_len f.
Proof. destruct f; cbn; blen_lia. Qed.
Lemma total_data_nonneg l : 0 ≤ total_data l.
Proof. induction l as [|f l IH]; cbn; [lia|]. pose proof (data_len_nonneg f). unfold total_data in IH. lia. Qed.
Lemma total_data_cons f l : total_data (f :: l) = data_len f + total_data l.
Proof. done. Qed.

Lemma limit_run_total l r : 0 ≤ r → total_data (limit_run error r l) ≤ r.
Proof.
  revert r. induction l as [|f l IH]; intros r Hr; [cbn; lia|].
  cbn [limit_run]. pose proof (data_len_nonneg f).
  destruct f as [bytes|t|e]; cbn [limit_poll data_len] in *; [|rewrite (proj2 (Z.ltb_ge _ _)) by lia|].
  - destruct (Z.ltb_spec r (blen bytes)); rewrite total_data_cons; cbn [data_len].
    + specialize (IH 0). lia.
    + specialize (IH (r - blen bytes)). lia.
  - rewrite total_data_cons, Z.sub_0_r; cbn [data_len]. by apply IH.
  - rewrite total_data_cons; cbn [data_len]. by apply IH.
Qed.

Lemma limit_run_within l r : total_data l ≤ r → limit_run error r l = l.
Proof.
  revert r. induction l as [|f l IH]; intros r Hr; [done|].
  rewrite total_data_cons in Hr. pose proof (total_data_nonneg l).
  cbn [limit_run]. destruct f; cbn [limit_poll data_len] in *.
  - rewrite (proj2 (Z.ltb_ge _ _)) by lia. rewrite IH by lia. done.
  - rewrite (proj2 (Z.ltb_ge _ _)) by lia. rewrite IH by lia. done.
  - rewrite IH by lia. done.
Qed.

Lemma limit_run_exceeded l r :
  0 ≤ r → r < total_data l →
  ∃ pre f post, l = pre ++ f :: post ∧ total_data pre ≤ r ∧ r < total_data pre + data_len f
    ∧ limit_run error r l = pre ++ BodyError (error (data_len f)) :: limit_run error 0 post.
Proof.
  revert r. induction l as [|f l IH]; intros r Hr Hx; [cbn in Hx; lia|].
  rewrite total_data_cons in Hx. destruct (Z.ltb_spec r (data_len f)) as [Hlt|Hge].
  { exists [], f, l. split_and!; [done|done|cbn; lia|].
    destruct f; cbn [limit_run limit_poll data_len] in *; [|lia|lia].
    by rewrite (proj2 (Z.ltb_lt _ _) Hlt). }
  destruct (IH (r - data_len f)) as (pre & g & post & -> & Hp & Hg & Hrun); [lia|lia|].
  exists (f :: pre), g, post. rewrite total_data_cons. split_and!; [done|lia|lia|].
  destruct f; cbn [limit_run limit_poll data_len] in *;
    try rewrite (proj2 (Z.ltb_ge _ _)) by lia; rewrite ?Z.sub_0_r in *; by rewrite Hrun.
Qed.
End limited.

(** A limited body delivers at most its budget.  A body that fits passes
    unchanged; one that does not is cut at the first frame that exceeds what
    is left, which is replaced by the limit error. *)
Theorem limit_body_exact {E} (error : Z → E) limit (l : list (frame E)) :
  0 ≤ limit →
  total_data (limit_run error limit l) ≤ limit
  ∧ (total_data l ≤ limit → limit_run error limit l = l)
  ∧ (limit < total_data l →
     ∃ pre f post, l = pre ++ f :: post ∧ total_data pre ≤ limit ∧ limit < total_data pre + data_len f
       ∧ limit_run error limit l = pre ++ BodyError (error (data_len f)) :: limit_run error 0 post).
Proof.
  intros Hl. split_and!; [by apply limit_run_total|apply limit_run_within|by apply limit_run_exceeded].
Qed.

(** ** Capabilities *)

Section capabilities.
Context `{HttpLib}.

(** What a grant permits a request to do. *)
Definition permits (r : RequestHead) (g : OutboundHttpGrant) : Prop :=
  ∃ s a, req_scheme r = Some s ∧ req_authority r = Some a
    ∧ eq_ignore_ascii_case (scheme g) s = true ∧ eq_ignore_ascii_case (authority g) a = true
    ∧ (∃ m, m ∈ methods g ∧ eq_ignore_ascii_case m (req_method r) = true)
    ∧ content_length_at_most (req_headers r) (max_request_bytes g) = true.

Definition destination_allowed (r : RequestHead) (g : OutboundHttpGrant) : Prop :=
  allow_private_network g = true
  ∨ ∃ a ips, req_authority r = Some a
      ∧ lookup_host (host_of a) (default (if bool_decide (scheme g = "https") then 443 else 80) (port_u16 a))
        = Ok ips
      ∧ ips ≠ [] ∧ Forall (λ ip, is_public_ip ip = true) ips.

Lemma grant_matches_iff r s a g :
  req_scheme r = Some s → req_authority r = Some a →
  grant_matches r s a g = true ↔ permits r g.
Proof.
  intros Hs Ha. unfold grant_matches, permits. rewrite !andb_true_iff, existsb_exists.
  setoid_rewrite <- list_elem_of_In. split.
  - intros (((? & ?) & ?) & ?). exists s, a. naive_solver.
  - intros (s' & a' & ? & ? & ? & ? & ? & ?). simplify_eq. done.
Qed.

Lemma grant_for_Some grants r g :
  grant_for grants r = Some g → g ∈ grants ∧ permits r g.
Proof.
  unfold grant_for. destruct (req_scheme r) as [s|] eqn:Hs; cbn; [|done].
  destruct (req_authority r) as [a|] eqn:Ha; cbn; [|done].
  intros [Hin Hm]%List.find_some. split; [by apply list_elem_of_In|]. by eapply grant_matches_iff.
Qed.

Lemma grant_for_None grants r :
  grant_for grants r = None → ∀ g, g ∈ grants → ¬ permits r g.
Proof.
  intros Hn g Hin Hp. pose proof Hp as (s & a & Hs & Ha & _). revert Hn. unfold grant_for.
  rewrite Hs; cbn. rewrite Ha; cbn. intros Hn.
  eapply List.find_none in Hn; [|by apply list_elem_of_In]. eapply grant_matches_iff in Hp; [|done..]. congruence.
Qed.

Lemma validate_network_destination_iff r g :
  validate_network_destination (req_authority r) g = Ok tt ↔ destination_allowed r g.
Proof.
  unfold validate_network_destination, destination_allowed.
  destruct (allow_private_network g); [naive_solver|].
  destruct (req_authority r) as [a|]; [|naive_solver]. cbn [ok_or mbind result_bind].
  replace (match port_u16 a with Some p => p | None => _ end)
    with (default (if bool_decide (scheme g = "https") then 443 else 80) (port_u16 a))
    by by destruct (port_u16 a).
  destruct (lookup_host _ _) as [ips|] eqn:Hl; cbn [mbind result_bind];
    [|split; [done|intros [?|(a' & ips & [= <-] & Hl' & _)]; congruence]].
  rewrite reject_if_Ok, orb_false_iff, bool_decide_eq_false, existsb_false.
  setoid_rewrite negb_false_iff. split.
  - intros [? ?]. right. by exists a, ips.
  - intros [?|(a' & ips' & [= <-] & Hl' & ? & ?)]; [done|]. rewrite Hl in Hl'. by simplify_eq.
Qed.

(** C17: the transport is reached only under a grant for the request's
    scheme, authority, method and declared length, with every resolved address
    public unless the grant allows private networks; it then carries at most
    the grant's request bytes and yields at most its response bytes.  In every
    other case the request fails the same way whatever the transport does. *)
Theorem send_request_capability grants r body :
  Forall (λ g, 0 ≤ max_request_bytes g ∧ 0 ≤ max_response_bytes g) grants →
  (∃ e, (e = HttpRequestDenied ∧ (∀ g, g ∈ grants → ¬ permits r g)
         ∨ e = DestinationIpProhibited ∧ ∃ g, g ∈ grants ∧ permits r g ∧ ¬ destination_allowed r g)
        ∧ ∀ send, send_request grants send r body = Err e)
  ∨ ∃ g sent, g ∈ grants ∧ permits r g ∧ destination_allowed r g
      ∧ total_data sent ≤ max_request_bytes g
      ∧ (total_data body ≤ max_request_bytes g → sent = body)
      ∧ (∀ send e, send r sent = Err e → send_request grants send r body = Err e)
      ∧ (∀ send resp, send r sent = Ok resp →
           match send_request grants send r body with
           | Ok out => resp_headers out = resp_headers resp
                       ∧ total_data (resp_body out) ≤ max_response_bytes g
                       ∧ (total_data (resp_body resp) ≤ max_response_bytes g → out = resp)
           | Err e => e = HttpResponseBodySize
                      ∧ content_length_at_most (resp_headers resp) (max_response_bytes g) = false
           end).
Proof.
  intros Hpos. unfold send_request.
  destruct (grant_for grants r) as [g|] eqn:Hg; cbn [ok_or mbind result_bind].
  2:{ left. exists HttpRequestDenied. split; [left; split; [done|by apply grant_for_None]|done]. }
  apply grant_for_Some in Hg as [Hin Hp].
  destruct (proj1 (Forall_forall _ _) Hpos g Hin) as [Hq Hs].
  destruct (validate_network_destination _ g) as [[]|[]] eqn:Hd; cbn [map_err mbind result_bind].
  2:{ left. exists DestinationIpProhibited. split; [|done]. right. split; [done|]. exists g.
      split_and!; [done|done|]. intros Ha%validate_network_destination_iff. congruence. }
  apply validate_network_destination_iff in Hd. right.
  exists g, (limit_run (λ _, HttpRequestBodySize) (max_request_bytes g) body).
  split_and!; [done|done|done|by apply limit_run_total|apply limit_run_within| |].
  - intros send e ->. done.
  - intros send resp ->. cbn [mbind result_bind].
    destruct (content_length_at_most _ _); cbn [negb reject_if mbind result_bind]; [|done].
    cbn [resp_headers resp_body]. split_and!; [done|by apply limit_run_total|].
    intros Hfit. rewrite limit_run_within by done. by destruct resp.
Qed.

(** ** Accepted configurations *)

Definition grant_wf (g : OutboundHttpGrant) : Prop :=
  (scheme g = "http" ∨ scheme g = "https") ∧ authority g ≠ EmptyString
  ∧ str_contains "@" (authority g) = false ∧ methods g ≠ []
  ∧ Forall (λ m, method_valid m = true) (methods g)
  ∧ max_request_bytes g ≠ 0 ∧ max_response_bytes g ≠ 0
  ∧ origin_valid (scheme g) (authority g) = Ok tt.

Lemma validate_grant_iff g : validate_grant g = Ok tt ↔ grant_wf g.
Proof.
  unfold validate_grant, grant_wf. rewrite !reject_bind_Ok, map_err_Ok.
  rewrite negb_false_iff, orb_true_iff, !orb_false_iff, !bool_decide_eq_true, !bool_decide_eq_false,
    existsb_false, !Z.eqb_neq.
  setoid_rewrite negb_false_iff. naive_solver.
Qed.

(** A service configuration is accepted exactly when every capacity,
    the idle time and the request timeout are positive, the timeout is within
    the runtime's, and every grant names one http(s) origin without user
    information, at least one valid method and positive body limits. *)
Theorem validate_http_config_iff c runtime_max_timeout :
  validate_http_config c runtime_max_timeout = Ok tt ↔
  max_in_flight c ≠ 0 ∧ max_instance_reuse_count c ≠ 0 ∧ max_instance_concurrent_reuse_count c ≠ 0
  ∧ idle_worker_ttl c ≠ 0 ∧ request_timeout c ≠ 0 ∧ request_timeout c ≤ runtime_max_timeout
  ∧ Forall grant_wf (outbound_grants c).
Proof.
  unfold validate_http_config. rewrite !reject_bind_Ok.
  rewrite (for_each_iff _ grant_wf) by apply validate_grant_iff.
  rewrite !orb_false_iff, !Z.eqb_neq, Z.ltb_ge. naive_solver.
Qed.
End capabilities.

(** ** Concrete instances *)

Module HttpExample.

Definition lib : HttpLib := {|
  method_valid := λ m, negb (bool_decide (m = EmptyString));
  origin_valid := λ _ _, Ok tt;
  port_u16 := λ _, None;
  host_of := λ a, a;
  lookup_host := λ h _, if bool_decide (h = "api.example") then Ok [V4 93 184 216 34]
                        else Ok [V4 127 0 0 1] |}.
Definition grant : OutboundHttpGrant :=
  with_body_limits 4 8 (with_methods ["GET"] (grant_new "HTTPS" "API.example")).
Definition head : RequestHead :=
  {| req_scheme := Some "https"; req_authority := Some "api.example"; req_method := "GET";
     req_headers := [("content-length", str_bytes "3")] |}.
Definition echo : transport := λ _ body, Ok {| resp_headers := []; resp_body := body |}.

Definition payload : list (frame ErrorCode) := [Data (str_bytes "abc")].

(** 2002:7f00:1::, the 6to4 address of 127.0.0.1. *)
Definition six_to_four : IpAddr := V6 [0x2002; 0x7f00; 1; 0; 0; 0; 0; 0].
Lemma is_public_ip_iff_witness :
  in_block 32 (v4_value 8 8 8 8) (v4_value 10 0 0 0, 8) = false
  ∧ is_public_ip (V6 [0x2606; 0; 0; 0; 0; 0; 0; 1]) = true
  ∧ is_public_ip six_to_four = true.
Proof.
  split_and!.
  - refine (proj1 (proj1 (is_public_ip_iff (V4 8 8 8 8) _)) _ _ _); [|reflexivity|set_solver].
    repeat constructor; unfold octet; lia.
  - refine (proj2 (proj1 (is_public_ip_iff (V6 [0x2606; 0; 0; 0; 0; 0; 0; 1]) _)) _); [|split; reflexivity].
    split; [|reflexivity]. repeat constructor; unfold segment; lia.
  - refine (proj2 (is_public_ip_iff six_to_four _) _ (Z.shiftl 0x2002 112, 16) eq_refl _ _); [| |reflexivity].
    + split; [|reflexivity]. repeat constructor; unfold segment; lia.
    + unfold unlisted_v6. set_solver.
Defined.

Lemma limit_body_exact_witness :
  total_data (limit_run (λ n, n) 3 [Data (str_bytes "ab"); Data (str_bytes "cd"); Data (str_bytes "e")]) ≤ 3.
Proof. refine (proj1 (limit_body_exact _ _ _ _)). lia. Defined.

Lemma send_request_capability_witness :
  (∃ e, (e = HttpRequestDenied ∧ (∀ g, g ∈ [grant] → ¬ permits head g)
         ∨ e = DestinationIpProhibited ∧ ∃ g, g ∈ [grant] ∧ permits head g ∧ ¬ destination_allowed (H := lib) head g)
        ∧ ∀ send, send_request (H := lib) [grant] send head payload = Err e)
  ∨ ∃ g sent, g ∈ [grant] ∧ permits head g ∧ destination_allowed (H := lib) head g
      ∧ total_data sent ≤ max_request_bytes g
      ∧ (total_data payload ≤ max_request_bytes g → sent = payload)
      ∧ (∀ send e, send head sent = Err e →
           send_request (H := lib) [grant] send head payload = Err e)
      ∧ (∀ send resp, send head sent = Ok resp →
           match send_request (H := lib) [grant] send head payload with
           | Ok out => resp_headers out = resp_headers resp
                       ∧ total_data (resp_body out) ≤ max_response_bytes g
                       ∧ (total_data (resp_body resp) ≤ max_response_bytes g → out = resp)
           | Err e => e = HttpResponseBodySize
                      ∧ content_length_at_most (resp_headers resp) (max_response_bytes g) = false
           end).
Proof.
  refine (send_request_capability (H := lib) [grant] head payload _).
  repeat constructor; cbn; lia.
Defined.

(** The granted request reaches the transport; a loopback destination and an
    ungranted method do not. *)
Example send_granted :
  send_request (H := lib) [grant] echo head payload
  = Ok {| resp_headers := []; resp_body := payload |}.
Proof. vm_compute. reflexivity. Qed.
Example send_prohibited :
  send_request (H := lib) [with_methods ["GET"] (grant_new "https" "localhost")] echo
    {| req_scheme := Some "https"; req_authority := Some "localhost"; req_method := "GET"; req_headers := [] |} []
  = Err DestinationIpProhibited.
Proof. vm_compute. reflexivity. Qed.
Example send_denied : send_request (H := lib) hooks_deny echo head [] = Err HttpRequestDenied.
Proof. vm_compute. reflexivity. Qed.

End HttpExample.
