(* ===== verification/HttpService.v ===== *)
(** The reusable HTTP service of [src/src/http.rs]: admission, request
    dispatch, the streaming response body and worker bookkeeping, as threads
    that interleave at every atomic operation on the shared counters.
    Theorems: the admission bound and the exactness of every counter in all
    reachable states, no lost permit, unique request identifiers, response
    size limits, and the streaming body's completion protocol. *)
From Stdlib Require Import ZifyBool.
From S2P Require Import Prelude Errors Interfaces Streams Types MemoryCache DiskCache Runtime Http.

Local Open Scope Z_scope.

(** ** Data *)

Record HttpRequest := {
  hr_method : string; hr_uri : string;
  hr_headers : list (string * list byte); hr_body : list byte }.
Definition http_request_new (method uri : string) (body : list byte) : HttpRequest :=
  {| hr_method := method; hr_uri := uri; hr_headers := []; hr_body := body |}.
Definition with_header (name : string) (value : list byte) (r : HttpRequest) : HttpRequest :=
  {| hr_method := hr_method r; hr_uri := hr_uri r;
     hr_headers := hr_headers r ++ [(name, value)]; hr_body := hr_body r |}.

Record HttpResponse := {
  status : Z; rs_headers : list (string * list byte); rs_body : list byte;
  rs_package_tier : PackageTier; rs_worker_created : bool }.

Record HttpDispatchMetadata := {
  request_id : Z; md_package_tier : PackageTier; md_worker_created : bool }.

Record HttpMetrics := {
  workers_created : Z; live_workers : Z; idle_evictions : Z; in_flight : Z;
  completed_requests : Z }.
Definition default_metrics : HttpMetrics :=
  {| workers_created := 0; live_workers := 0; idle_evictions := 0; in_flight := 0;
     completed_requests := 0 |}.

Inductive HttpServiceState := NoResidentWorker | Active | ServicePausedResident.

Definition package_tier_code (t : PackageTier) : Z :=
  match t with Cold => 0 | DiskAot => 1 | Warmish => 2 | Warm => 3 end.
Definition package_tier_from_code (code : Z) : PackageTier :=
  if code =? 0 then Cold else if code =? 1 then DiskAot else if code =? 2 then Warmish else Warm.

(** ** The streaming response body *)

Record StreamingHttpBody := {
  body_remaining : Z;
  completion : bool;   (* [Option<HttpRequestCompletion>] is [Some] *)
  metadata : HttpDispatchMetadata }.

(** What the inner body is ready with. *)
Inductive inner_poll :=
| InnerPending
| InnerData (bytes : list byte)
| InnerTrailers (t : list (string * list byte))
| InnerError (message : string)
| InnerEnd.

Inductive body_poll :=
| PollPending
| PollFrame (f : frame Error)
| PollEnd.

(** What happens to the completion guard. *)
Inductive guard_effect := GuardKept | GuardDropped | GuardCompleted.

Definition take_guard (completes : bool) (b : StreamingHttpBody) (remaining : Z)
    : StreamingHttpBody * guard_effect :=
  ({| body_remaining := remaining; completion := false; metadata := metadata b |},
   if completion b then (if completes then GuardCompleted else GuardDropped) else GuardKept).

Definition body_poll_frame (b : StreamingHttpBody) (inner : inner_poll)
    : StreamingHttpBody * guard_effect * body_poll :=
  match inner with
  | InnerData data =>
      if body_remaining b <? blen data
      then (take_guard false b 0, PollFrame (BodyError (Limit "output bytes")))
      else ({| body_remaining := body_remaining b - blen data; completion := completion b;
               metadata := metadata b |}, GuardKept, PollFrame (Data data))
  | InnerTrailers t => (b, GuardKept, PollFrame (Trailers t))
  | InnerError e => (take_guard false b (body_remaining b), PollFrame (BodyError (Execution e)))
  | InnerEnd => (take_guard true b (body_remaining b), PollEnd)
  | InnerPending => (b, GuardKept, PollPending)
  end.

(** Dropping the body drops the guard if it is still there. *)
Definition body_drop (b : StreamingHttpBody) : guard_effect := (take_guard false b 0).2.

(** ** Shared state *)

(** The [Limited] body's errors and what the handler is told. *)
Inductive request_error := LengthLimitError | OtherError (message : string).
Inductive request_error_code := RequestBodySize | InternalError (message : string).
Definition streaming_request_error (e : request_error) : request_error_code :=
  match e with LengthLimitError => RequestBodySize | OtherError m => InternalError m end.

(** [http], [http-body-util] and [wasmtime-wasi-http]: building a request, the
    [Limited] request body, collecting a response body, pre-instantiation. *)
Class ProxyLib (C Req Body P : Type) := {
  request_build : HttpRequest → result string Req;
  limited : Z → Body → Body;
  map_body_err : (request_error → request_error_code) → Body → Body;
  request_size_hint : Body → Z * option Z;
  body_collect : Body → result string (list byte);
  body_is_end_stream : Body → bool;
  profile_linker : WasiProfile → Result unit;   (* the runtime's linker of a profile, built once *)
  instantiate_pre : WasiProfile → C → result string P;
}.

Inductive outcome (A : Type) := Returns (r : Result A) | Panics.
Arguments Returns {A}.
Arguments Panics {A}.

Section service.
Context {C Req Body P : Type} `{Engine C} `{Crypto} `{Host} `{HttpLib} `{!ProxyLib C Req Body P}.
Context {JI : Json CacheIdentity} {JM : Json CacheMetadata}.

(** The semaphore, the atomics, the pre-instantiated proxy and the runtime. *)
Record Shared := {
  available : Z;
  metrics : HttpMetrics;
  tier_code : Z;
  pre : option P;
  next_request : Z;
  rt : RuntimeInner C;
}.
Implicit Types s : Shared.

Definition set_available n s : Shared :=
  {| available := n; metrics := metrics s; tier_code := tier_code s; pre := pre s;
     next_request := next_request s; rt := rt s |}.
Definition set_metrics m s : Shared :=
  {| available := available s; metrics := m; tier_code := tier_code s; pre := pre s;
     next_request := next_request s; rt := rt s |}.
Definition set_tier_code c s : Shared :=
  {| available := available s; metrics := metrics s; tier_code := c; pre := pre s;
     next_request := next_request s; rt := rt s |}.
Definition set_pre p s : Shared :=
  {| available := available s; metrics := metrics s; tier_code := tier_code s; pre := p;
     next_request := next_request s; rt := rt s |}.
Definition set_next_request n s : Shared :=
  {| available := available s; metrics := metrics s; tier_code := tier_code s; pre := pre s;
     next_request := n; rt := rt s |}.
Definition set_rt r s : Shared :=
  {| available := available s; metrics := metrics s; tier_code := tier_code s; pre := pre s;
     next_request := next_request s; rt := r |}.

(** Atomic counters wrap at their width. *)
Definition add_workers_created s : Shared := let m := metrics s in set_metrics
  {| workers_created := wrapping_add u64_max (workers_created m) 1; live_workers := live_workers m;
     idle_evictions := idle_evictions m; in_flight := in_flight m;
     completed_requests := completed_requests m |} s.
Definition add_live_workers d s : Shared := let m := metrics s in set_metrics
  {| workers_created := workers_created m; live_workers := wrapping_add usize_max (live_workers m) d;
     idle_evictions := idle_evictions m; in_flight := in_flight m;
     completed_requests := completed_requests m |} s.
Definition add_idle_evictions s : Shared := let m := metrics s in set_metrics
  {| workers_created := workers_created m; live_workers := live_workers m;
     idle_evictions := wrapping_add u64_max (idle_evictions m) 1; in_flight := in_flight m;
     completed_requests := completed_requests m |} s.
Definition add_in_flight d s : Shared := let m := metrics s in set_metrics
  {| workers_created := workers_created m; live_workers := live_workers m;
     idle_evictions := idle_evictions m; in_flight := wrapping_add usize_max (in_flight m) d;
     completed_requests := completed_requests m |} s.
Definition add_completed s : Shared := let m := metrics s in set_metrics
  {| workers_created := workers_created m; live_workers := live_workers m;
     idle_evictions := idle_evictions m; in_flight := in_flight m;
     completed_requests := wrapping_add u64_max (completed_requests m) 1 |} s.

Definition service_state s : HttpServiceState :=
  if 0 <? in_flight (metrics s) then Active
  else if 0 <? live_workers (metrics s) then ServicePausedResident else NoResidentWorker.
Definition package_tier s : PackageTier := package_tier_from_code (tier_code s).

(** ** One request *)

(** A response of the proxy handler. *)
Record proxy_response := {
  pr_status : Z; pr_headers : list (string * list byte); pr_body : Body }.

Inductive handler_request := Built (r : Req) | Limited (b : Body).

(** The caller's view of a request. *)
Inductive reply :=
| Responded (r : HttpResponse)
| Failed (e : Error)
| StreamOver
| Abandoned.

(** Program points of [handle], [handle_streaming] and the returned body. *)
Inductive pc :=
| Buffered (r : HttpRequest)
| Streamed (b : Body)
| BWaiting (r : HttpRequest)
| BPermitted (r : HttpRequest)
| BObserved (r : HttpRequest) (tier : PackageTier)
| BMeasured (r : HttpRequest) (tier : PackageTier) (workers : Z)
| BCounted (r : HttpRequest) (tier : PackageTier) (workers : Z)
| BBuilt (r : Req) (tier : PackageTier) (workers : Z)
| BDispatched (id : Z) (h : handler_request) (tier : PackageTier) (workers : Z)
| BCollecting (resp : proxy_response) (tier : PackageTier) (workers : Z)
| BReplying (resp : HttpResponse) (workers : Z)
| SWaiting (h : handler_request) (tier : PackageTier)
| SPermitted (h : handler_request) (tier : PackageTier)
| SCounted (h : handler_request) (tier : PackageTier)
| SMeasured (h : handler_request) (tier : PackageTier) (workers : Z)
| SDispatched (id : Z) (h : handler_request) (tier : PackageTier) (workers : Z)
| SAnswered (id : Z) (resp : proxy_response) (tier : PackageTier) (workers : Z)
| Streaming (b : StreamingHttpBody)
| Completing (next : pc)
| Releasing (next : pc)
| Unpermit (next : pc)
| Done (r : reply).

(** What the handler and the caller supply; [Cancel] drops the future at an
    await point. *)
Inductive action :=
| Go
| Cancel
| Handled (r : result string proxy_response)
| InnerReady (i : inner_poll)
| DropBody.

Definition limits_of s : RuntimeLimits := limits (config (rt s)).

(** [handle] after the handler answered: collect, check the size, complete. *)
Definition collect_response (resp : proxy_response) (tier : PackageTier) (workers : Z) s : pc :=
  match body_collect (pr_body resp) with
  | Err e => Releasing (Done (Failed (Execution e)))
  | Ok body =>
      if max_output_bytes (limits_of s) <? blen body
      then Releasing (Done (Failed (Limit "output bytes")))
      else Completing (BReplying {| status := pr_status resp; rs_headers := pr_headers resp;
                         rs_body := body; rs_package_tier := tier; rs_worker_created := false |} workers)
  end.

(** The end of [handle_streaming]: an already finished body completes at once. *)
Definition open_body (id : Z) (resp : proxy_response) (tier : PackageTier) (workers : Z) s : pc :=
  let md := {| request_id := id; md_package_tier := tier;
               md_worker_created := workers <? workers_created (metrics s) |} in
  let ended := body_is_end_stream (pr_body resp) in
  let b := {| body_remaining := max_output_bytes (limits_of s); completion := negb ended;
              metadata := md |} in
  if ended then Completing (Streaming b) else Streaming b.

Definition apply_guard (e : guard_effect) (next : pc) : pc :=
  match e with GuardKept => next | GuardDropped => Releasing next | GuardCompleted => Completing next end.

Definition request_step (a : action) (p : pc) s : option (pc * Shared) :=
  match p, a with
  | Buffered r, Go =>
      Some (if max_input_bytes (limits_of s) <? blen (hr_body r)
            then Done (Failed (Limit "input bytes")) else BWaiting r, s)
  | BWaiting r, Go =>
      if 0 <? available s then Some (BPermitted r, set_available (available s - 1) s) else None
  | BPermitted r, Go => Some (BObserved r (package_tier s), s)
  | BObserved r tier, Go => Some (BMeasured r tier (workers_created (metrics s)), s)
  | BMeasured r tier workers, Go => Some (BCounted r tier workers, add_in_flight 1 s)
  | BCounted r tier workers, Go =>
      Some (match request_build r with
            | Ok req => BBuilt req tier workers
            | Err e => Releasing (Done (Failed (Execution ("invalid HTTP request: " +:+ e))))
            end, s)
  | BBuilt req tier workers, Go =>
      Some (BDispatched (next_request s) (Built req) tier workers,
            set_next_request (wrapping_add u64_max (next_request s) 1) s)
  | BDispatched id h tier workers, Handled (Err e) => Some (Releasing (Done (Failed (Execution e))), s)
  | BDispatched id h tier workers, Handled (Ok resp) => Some (BCollecting resp tier workers, s)
  | BCollecting resp tier workers, Go => Some (collect_response resp tier workers s, s)
  | BWaiting _, Cancel | SWaiting _ _, Cancel => Some (Done Abandoned, s)
  | BDispatched _ _ _ _, Cancel | BCollecting _ _ _, Cancel | SDispatched _ _ _ _, Cancel =>
      Some (Releasing (Done Abandoned), s)
  | BReplying resp workers, Go =>
      Some (Done (Responded {| status := status resp; rs_headers := rs_headers resp;
              rs_body := rs_body resp; rs_package_tier := rs_package_tier resp;
              rs_worker_created := workers <? workers_created (metrics s) |}), s)
  | Streamed b, Go =>
      let '(lower, upper) := request_size_hint b in
      let max := max_input_bytes (limits_of s) in
      Some (if (max <? lower) || match upper with Some u => max <? u | None => false end
            then Done (Failed (Limit "input bytes"))
            else SWaiting (Limited (map_body_err streaming_request_error (limited max b)))
                   (package_tier s), s)
  | SWaiting h tier, Go =>
      if 0 <? available s then Some (SPermitted h tier, set_available (available s - 1) s) else None
  | SPermitted h tier, Go => Some (SCounted h tier, add_in_flight 1 s)
  | SCounted h tier, Go => Some (SMeasured h tier (workers_created (metrics s)), s)
  | SMeasured h tier workers, Go =>
      Some (SDispatched (next_request s) h tier workers,
            set_next_request (wrapping_add u64_max (next_request s) 1) s)
  | SDispatched id h tier workers, Handled (Err e) => Some (Releasing (Done (Failed (Execution e))), s)
  | SDispatched id h tier workers, Handled (Ok resp) => Some (SAnswered id resp tier workers, s)
  | SAnswered id resp tier workers, Go => Some (open_body id resp tier workers s, s)
  | Streaming b, InnerReady i =>
      let '(b', e, _) := body_poll_frame b i in Some (apply_guard e (Streaming b'), s)
  | Streaming b, DropBody => Some (apply_guard (body_drop b) (Done StreamOver), s)
  | Completing next, Go => Some (Releasing next, add_completed s)
  | Releasing next, Go => Some (Unpermit next, add_in_flight (-1) s)
  | Unpermit next, Go => Some (next, set_available (available s + 1) s)
  | _, _ => None
  end.

(** ** One worker *)

Inductive WorkerStatus := Idle | Requests | PostReturn.
Inductive ShouldAccept := Never | No | Yes.

Record WorkerLimits := { max_reuse : Z; max_concurrent : Z }.
Definition worker_limits (c : HttpServiceConfig) (profile : WasiProfile) : WorkerLimits :=
  {| max_reuse := max_instance_reuse_count c;
     max_concurrent := if bool_decide (profile = Http0_3)
                       then max_instance_concurrent_reuse_count c else 1 |}.
Definition should_accept_request (w : WorkerLimits) (concurrent_count total_count : Z) : ShouldAccept :=
  if max_reuse w <=? total_count then Never
  else if max_concurrent w <=? concurrent_count then No else Yes.

(** [HttpWorkerExpiration::poll]: whether the worker's time is over.  An
    unrepresentable deadline never comes. *)
Definition expiration_poll (instant_max : Z) (c : HttpServiceConfig) (status : WorkerStatus)
    (start now : Z) : bool :=
  let timeout := match status with Idle => idle_worker_ttl c | _ => request_timeout c end in
  match checked_add instant_max start timeout with
  | None => false
  | Some deadline => deadline <=? now
  end.

(** [make_proxy_pre]; [None] is the [unreachable!] of a command profile. *)
Definition make_proxy_pre (prepared : PreparedComponent C) : option (Result P) :=
  if is_http (prepared_profile prepared)
  then Some (_ ← profile_linker (prepared_profile prepared);
             map_err Preparation (instantiate_pre (prepared_profile prepared) (component prepared)))
  else None.

Inductive worker :=
| WStart
| WPreparing
| WCandidate (prepared : PreparedComponent C)
| WInstantiating (p : P)
| WInstantiated
| WTiered
| WCreated
| WLive (idle_expired : bool)
| WEvicting1
| WEvicting2
| WEvicting3
| WEvicting4
| WGone
| WFailed (e : string)
| WPanicked.

Inductive worker_action :=
| WGo
| WPrepare (join_failure : option string) (others_lock others_compile : RuntimeInner C → RuntimeInner C)
| WInstance (r : result string unit)
| WPoll (status : WorkerStatus) (start now : Z)
| WDrop.

(** The identity and configuration [HttpHandlerState] holds. *)
Record HandlerConfig := {
  h_digest : string; h_bytes : list byte; h_config : HttpServiceConfig; instant_max : Z }.

Definition worker_step (h : HandlerConfig) (a : worker_action) (w : worker) s : option (worker * Shared) :=
  match w, a with
  | WStart, WGo => Some (match pre s with Some p => WInstantiating p | None => WPreparing end, s)
  | WPreparing, WPrepare join o1 o2 =>
      let '(r', res) := prepare (h_digest h) (h_bytes h) join o1 o2 (rt s) in
      Some (match res with Ok prepared => WCandidate prepared | Err e => WFailed (error_display e) end,
            set_rt r' s)
  | WCandidate prepared, WGo =>
      Some (match make_proxy_pre prepared with
            | None => (WPanicked, s)
            | Some (Err e) => (WFailed (error_display e), s)
            | Some (Ok candidate) =>
                let p := default candidate (pre s) in (WInstantiating p, set_pre (Some p) s)
            end)
  | WInstantiating _, WInstance (Ok _) => Some (WInstantiated, s)
  | WInstantiating _, WInstance (Err e) => Some (WFailed e, s)
  | WInstantiated, WGo => Some (WTiered, set_tier_code (package_tier_code Warm) s)
  | WTiered, WGo => Some (WCreated, add_workers_created s)
  | WCreated, WGo => Some (WLive false, add_live_workers 1 s)
  | WLive expired, WPoll status start now =>
      Some (WLive (if expiration_poll (instant_max h) (h_config h) status start now
                   then expired || match status with Idle => true | _ => false end else expired), s)
  | WLive expired, WDrop =>
      let previous_live := live_workers (metrics s) in
      Some (if (previous_live =? 1) && expired then WEvicting1 else WGone, add_live_workers (-1) s)
  | WEvicting1, WGo => Some (WEvicting2, add_idle_evictions s)
  | WEvicting2, WGo => Some (WEvicting3, set_pre None s)
  | WEvicting3, WGo => Some (WEvicting4, set_rt (runtime_demote (h_digest h) (rt s)) s)
  | WEvicting4, WGo => Some (WGone, set_tier_code (package_tier_code Warmish) s)
  | _, _ => None
  end.

(** ** The service *)

Record System := {
  shared : Shared;
  requests : list pc;
  workers : list worker;
}.

Inductive event :=
| NewBuffered (r : HttpRequest)
| NewStreamed (b : Body)
| RequestStep (i : nat) (a : action)
| NewWorker
| WorkerStep (j : nat) (a : worker_action)
| RuntimeStep (f : RuntimeInner C → RuntimeInner C).

Definition system_step (h : HandlerConfig) (e : event) (y : System) : option System :=
  match e with
  | NewBuffered r => Some {| shared := shared y; requests := requests y ++ [Buffered r]; workers := workers y |}
  | NewStreamed b => Some {| shared := shared y; requests := requests y ++ [Streamed b]; workers := workers y |}
  | RequestStep i a =>
      p ← requests y !! i;
      '(p', s) ← request_step a p (shared y);
      Some {| shared := s; requests := <[i := p']> (requests y); workers := workers y |}
  | NewWorker => Some {| shared := shared y; requests := requests y; workers := workers y ++ [WStart] |}
  | WorkerStep j a =>
      w ← workers y !! j;
      '(w', s) ← worker_step h a w (shared y);
      Some {| shared := s; requests := requests y; workers := <[j := w']> (workers y) |}
  | RuntimeStep f =>
      Some {| shared := set_rt (f (rt (shared y))) (shared y); requests := requests y; workers := workers y |}
  end.

Fixpoint system_run (h : HandlerConfig) (l : list event) (y : System) : option System :=
  match l with
  | [] => Some y
  | e :: l' => y' ← system_step h e y; system_run h l' y'
  end.

(** [Program::http_service]: the runtime it leaves, and the service. *)
Definition http_service (p : Program) (c : HttpServiceConfig)
    (prepare : RuntimeInner C → RuntimeInner C * Result (PreparedComponent C)) (r : RuntimeInner C)
    : RuntimeInner C * outcome (System * PackageTier * WasiProfile) :=
  match validate_http_config c (max_timeout (limits (config r))) with
  | Err e => (r, Returns (Err e))
  | Ok _ =>
      let '(r, startup_from) := tier (program_digest p) r in
      let '(r, res) := prepare r in
      match res with
      | Err e => (r, Returns (Err e))
      | Ok prepared =>
          if negb (is_http (prepared_profile prepared))
          then (r, Returns (Err (UnsupportedComponent
                 "expected wasi:http/handler@0.3.x or incoming-handler@0.2.x")))
          else
            match make_proxy_pre prepared with
            | None => (r, Panics)
            | Some (Err e) => (r, Returns (Err e))
            | Some (Ok p0) =>
                if max_permits <? max_in_flight c then (r, Panics)
                else (r, Returns (Ok ({|
                  shared := {| available := max_in_flight c; metrics := default_metrics;
                               tier_code := package_tier_code Warm; pre := Some p0;
                               next_request := 1; rt := r |};
                  requests := []; workers := [] |}, startup_from, prepared_profile prepared)))
            end
      end
  end.

(** ** What a thread holds *)

Fixpoint holds (p : pc) : Z :=
  match p with
  | BPermitted _ | BObserved _ _ | BMeasured _ _ _ | BCounted _ _ _ | BBuilt _ _ _
  | BDispatched _ _ _ _ | BCollecting _ _ _ | SPermitted _ _ | SCounted _ _ | SMeasured _ _ _
  | SDispatched _ _ _ _ | SAnswered _ _ _ _ => 1
  | Streaming b => if completion b then 1 else 0
  | Completing next | Releasing next | Unpermit next => 1 + holds next
  | _ => 0
  end.
Fixpoint counted (p : pc) : Z :=
  match p with
  | BCounted _ _ _ | BBuilt _ _ _ | BDispatched _ _ _ _ | BCollecting _ _ _ | SCounted _ _
  | SMeasured _ _ _ | SDispatched _ _ _ _ | SAnswered _ _ _ _ => 1
  | Streaming b => if completion b then 1 else 0
  | Completing next | Releasing next => 1 + counted next
  | Unpermit next => counted next
  | _ => 0
  end.
Definition finished (p : pc) : bool := match p with Done _ => true | _ => false end.
Definition live (w : worker) : Z := match w with WLive _ => 1 | _ => 0 end.

Lemma counted_bounds p : 0 ≤ counted p ≤ holds p.
Proof. induction p; cbn; try lia. destruct (completion b); lia. Qed.

(** Both effects of a step on the counters: what it adds to a thread's weight
    it takes from the semaphore and adds to the counter. *)
Lemma request_step_weights a p s p' s' :
  request_step a p s = Some (p', s') →
  available s' + holds p' = available s + holds p
  ∧ (0 ≤ available s → 0 ≤ available s')
  ∧ (let d := counted p' - counted p in
     d = 0 ∧ in_flight (metrics s') = in_flight (metrics s)
     ∨ in_flight (metrics s') = wrapping_add usize_max (in_flight (metrics s)) d)
  ∧ live_workers (metrics s') = live_workers (metrics s)
  ∧ rt s' = rt s.
Proof.
  unfold request_step, collect_response, open_body, body_poll_frame, body_drop, take_guard.
  intros Hstep. repeat case_match; simplify_eq; cbn [apply_guard holds counted completion];
    repeat match goal with Hc : completion _ = _ |- _ => rewrite Hc end; bool_inv;
    (split_and!; cbn; [lia|lia| |done|done]); first [left; lia | right; f_equal; lia].
Qed.

Lemma worker_step_weights h a w s w' s' :
  worker_step h a w s = Some (w', s') →
  available s' = available s ∧ in_flight (metrics s') = in_flight (metrics s)
  ∧ next_request s' = next_request s
  ∧ (let d := live w' - live w in
     d = 0 ∧ live_workers (metrics s') = live_workers (metrics s)
     ∨ live_workers (metrics s') = wrapping_add usize_max (live_workers (metrics s)) d).
Proof.
  unfold worker_step. intros Hstep. repeat case_match; simplify_eq; cbn; split_and!; try done;
    first [left; split; [lia|done] | right; f_equal; lia].
Qed.

(** ** The service invariant *)

Record ServiceInv (n : Z) (y : System) : Prop := {
  inv_permits : available (shared y) + zsum holds (requests y) = n;
  inv_available : 0 ≤ available (shared y);
  inv_in_flight : in_flight (metrics (shared y)) = zsum counted (requests y);
  inv_live : live_workers (metrics (shared y)) = zsum live (workers y) mod (usize_max + 1);
}.

Lemma counted_le_max n y : ServiceInv n y → 0 ≤ zsum counted (requests y) ≤ n.
Proof.
  intros I. split; [apply zsum_nonneg; intros; apply counted_bounds|].
  pose proof (zsum_le counted holds (requests y) (λ p, proj2 (counted_bounds p))).
  destruct I. lia.
Qed.

Lemma request_step_inv n h i a y y' :
  n ≤ usize_max → ServiceInv n y → system_step h (RequestStep i a) y = Some y' → ServiceInv n y'.
Proof.
  intros Hn I Hs. cbn in Hs.
  destruct (requests y !! i) as [p|] eqn:Hi; cbn in Hs; [|done].
  destruct (request_step a p (shared y)) as [[p' s]|] eqn:Hp; cbn in Hs; simplify_eq.
  apply request_step_weights in Hp as (Ha & Hpos & Hf & Hl & Hr).
  assert (Hh : available s + zsum holds (<[i:=p']> (requests y)) = n).
  { rewrite (zsum_insert _ _ _ _ _ Hi). destruct I. lia. }
  assert (Hc : 0 ≤ zsum counted (<[i:=p']> (requests y)) ≤ n).
  { split; [apply zsum_nonneg; intros; apply counted_bounds|].
    pose proof (zsum_le counted holds (<[i:=p']> (requests y)) (λ p, proj2 (counted_bounds p))).
    destruct I. specialize (Hpos inv_available0). lia. }
  pose proof (counted_le_max n y I). destruct I as [I1 I2 I3 I4].
  split; cbn [shared requests workers]; [done|auto| |congruence].
  rewrite (zsum_insert _ _ _ _ _ Hi) in *. rewrite I3 in Hf.
  destruct Hf as [[? ->]| ->]; [lia|]. unfold wrapping_add. rewrite Z.mod_small; lia.
Qed.

Lemma worker_step_inv n h j a y y' :
  ServiceInv n y → system_step h (WorkerStep j a) y = Some y' → ServiceInv n y'.
Proof.
  intros [I1 I2 I3 I4] Hs. cbn in Hs.
  destruct (workers y !! j) as [w|] eqn:Hj; cbn in Hs; [|done].
  destruct (worker_step h a w (shared y)) as [[w' s]|] eqn:Hw; cbn in Hs; simplify_eq.
  apply worker_step_weights in Hw as (Ha & Hf & _ & Hl).
  split; cbn [shared requests workers]; rewrite ?Ha, ?Hf; [done..|].
  rewrite (zsum_insert _ _ _ _ _ Hj). rewrite I4 in Hl.
  destruct Hl as [[? ->]| ->]; [f_equal; lia|]. unfold wrapping_add.
  rewrite Zplus_mod_idemp_l. f_equal. lia.
Qed.

Lemma system_step_inv n h e y y' :
  n ≤ usize_max → ServiceInv n y → system_step h e y = Some y' → ServiceInv n y'.
Proof.
  intros Hn I Hs. destruct e; [..|by eapply request_step_inv| |by eapply worker_step_inv|];
    cbn in Hs; simplify_eq; destruct I as [I1 I2 I3 I4]; split; cbn [shared requests workers];
    rewrite ?zsum_app; cbn; rewrite ?Z.add_0_r; done.
Qed.

Lemma system_run_inv n h l y y' :
  n ≤ usize_max → ServiceInv n y → system_run h l y = Some y' → ServiceInv n y'.
Proof.
  intros Hn. revert y. induction l as [|e l IH]; intros y I Hr; cbn in Hr; [by simplify_eq|].
  destruct (system_step h e y) as [y1|] eqn:He; cbn in Hr; [|done].
  eapply IH; [|done]. by eapply system_step_inv.
Qed.

Lemma http_service_start p c prep r r' y from profile :
  http_service p c prep r = (r', Returns (Ok (y, from, profile))) →
  validate_http_config c (max_timeout (limits (config r))) = Ok tt ∧ max_in_flight c ≤ max_permits
  ∧ is_http profile = true ∧ requests y = [] ∧ workers y = []
  ∧ (0 ≤ max_in_flight c → ServiceInv (max_in_flight c) y) ∧ next_request (shared y) = 1.
Proof.
  unfold http_service. intros Hh. repeat case_match; simplify_eq; bool_inv.
  match goal with u : unit |- _ => destruct u end.
  split_and!; try done. intros ?. split; cbn; [lia|lia|done|done].
Qed.

(** C18: whatever the interleaving of requests, streaming bodies, worker
    creation, worker drops, cancelled calls and other users of the runtime, at
    most [max_in_flight] requests are admitted, the [in_flight] counter is
    exactly the number of admitted requests, and every permit is either
    available or held by one request. *)
Theorem admission_bounded p c prep r r' y0 from profile h events y :
  0 ≤ max_in_flight c →
  http_service p c prep r = (r', Returns (Ok (y0, from, profile))) →
  system_run h events y0 = Some y →
  in_flight (metrics (shared y)) = zsum counted (requests y)
  ∧ 0 ≤ in_flight (metrics (shared y)) ≤ max_in_flight c
  ∧ 0 ≤ available (shared y)
  ∧ available (shared y) + zsum holds (requests y) = max_in_flight c.
Proof.
  intros Hc Hs Hr. apply http_service_start in Hs as (_ & Hm & _ & _ & _ & I & _).
  assert (I' : ServiceInv (max_in_flight c) y).
  { eapply system_run_inv; [|by apply I|done]. transitivity max_permits; [done|]. vm_compute. done. }
  pose proof (counted_le_max _ _ I'). destruct I' as [-> ? -> _]. lia.
Qed.

(** No path loses a permit: in every reachable state where all requests
    are over (answered, failed, abandoned, or their body dropped), all
    [max_in_flight] permits are available again and [in_flight] is zero. *)
Theorem permits_return p c prep r r' y0 from profile h events y :
  0 ≤ max_in_flight c →
  http_service p c prep r = (r', Returns (Ok (y0, from, profile))) →
  system_run h events y0 = Some y →
  forallb finished (requests y) = true →
  available (shared y) = max_in_flight c ∧ in_flight (metrics (shared y)) = 0.
Proof.
  intros Hc Hs Hr Hf. apply http_service_start in Hs as (_ & Hm & _ & _ & _ & I & _).
  assert (I' : ServiceInv (max_in_flight c) y).
  { eapply system_run_inv; [|by apply I|done]. transitivity max_permits; [done|]. vm_compute. done. }
  assert (Hz : zsum holds (requests y) = 0 ∧ zsum counted (requests y) = 0).
  { clear -Hf. induction (requests y) as [|q l IH]; [done|]. cbn in Hf |- *. bool_inv.
    destruct q; try done. cbn. by apply IH. }
  destruct I' as [? ? -> _], Hz. lia.
Qed.

(** The reported service state is exact in every reachable state: active
    exactly when a request is admitted, paused resident exactly when none is
    and a live worker is retained. *)
Theorem service_state_exact p c prep r r' y0 from profile h events y :
  0 ≤ max_in_flight c →
  http_service p c prep r = (r', Returns (Ok (y0, from, profile))) →
  system_run h events y0 = Some y →
  blen (workers y) ≤ usize_max →
  match service_state (shared y) with
  | Active => ∃ q, q ∈ requests y ∧ 0 < counted q
  | ServicePausedResident => (∀ q, q ∈ requests y → counted q = 0) ∧ ∃ w, w ∈ workers y ∧ live w = 1
  | NoResidentWorker => (∀ q, q ∈ requests y → counted q = 0) ∧ ∀ w, w ∈ workers y → live w = 0
  end.
Proof.
  intros Hc Hs Hr Hw. apply http_service_start in Hs as (_ & Hm & _ & _ & _ & I & _).
  assert (I' : ServiceInv (max_in_flight c) y).
  { eapply system_run_inv; [|by apply I|done]. transitivity max_permits; [done|]. vm_compute. done. }
  assert (Hlive : ∀ w, 0 ≤ live w ≤ 1) by (intros []; cbn; lia).
  assert (Hl : 0 ≤ zsum live (workers y) ≤ blen (workers y)).
  { clear -Hlive. induction (workers y) as [|w l IH]; cbn; [blen_lia|]. specialize (Hlive w).
    unfold zsum in IH. blen_lia. }
  assert (Hcnt : ∀ q, 0 ≤ counted q) by (intros; apply counted_bounds).
  pose proof (zsum_pos counted (requests y) Hcnt) as Hpos.
  pose proof (zsum_pos live (workers y) (λ w, proj1 (Hlive w))) as Hlpos.
  destruct I' as [_ _ If Il]. rewrite Z.mod_small in Il by lia.
  unfold service_state. rewrite If, Il.
  destruct (Z.ltb_spec 0 (zsum counted (requests y))); [by apply Hpos|].
  assert (Hq : ∀ q, q ∈ requests y → counted q = 0).
  { intros q Hq. destruct (decide (counted q = 0)); [done|]. specialize (Hcnt q).
    assert (0 < zsum counted (requests y)); [apply Hpos; exists q; split; [done|lia]|lia]. }
  destruct (Z.ltb_spec 0 (zsum live (workers y))); (split; [done|]).
  - destruct (proj1 Hlpos) as (w & ? & ?); [done|]. exists w. specialize (Hlive w). split; [done|lia].
  - intros w Hin. specialize (Hlive w). destruct (decide (live w = 0)); [done|].
    assert (0 < zsum live (workers y)); [apply Hlpos; exists w; split; [done|lia]|lia].
Qed.

(** ** Request identifiers *)

(** The identifier a thread's step hands to the handler. *)
Definition taken_id (p p' : pc) : list Z :=
  match p, p' with
  | BBuilt _ _ _, BDispatched id _ _ _ | SMeasured _ _ _, SDispatched id _ _ _ => [id]
  | _, _ => []
  end.
Definition event_ids (e : event) (y y' : System) : list Z :=
  match e with
  | RequestStep i _ =>
      match requests y !! i, requests y' !! i with Some p, Some p' => taken_id p p' | _, _ => [] end
  | _ => []
  end.
Fixpoint run_ids (h : HandlerConfig) (l : list event) (y : System) : list Z :=
  match l with
  | [] => []
  | e :: l' => match system_step h e y with
               | Some y' => event_ids e y y' ++ run_ids h l' y'
               | None => []
               end
  end.

Lemma request_step_ids a p s p' s' :
  request_step a p s = Some (p', s') →
  taken_id p p' = [] ∧ next_request s' = next_request s
  ∨ taken_id p p' = [next_request s] ∧ next_request s' = wrapping_add u64_max (next_request s) 1.
Proof.
  unfold request_step, collect_response, open_body, body_poll_frame, body_drop, take_guard.
  intros Hstep. repeat case_match; simplify_eq; cbn; auto.
Qed.

Lemma system_step_ids h e y y' :
  system_step h e y = Some y' →
  event_ids e y y' = [] ∧ next_request (shared y') = next_request (shared y)
  ∨ event_ids e y y' = [next_request (shared y)]
    ∧ next_request (shared y') = wrapping_add u64_max (next_request (shared y)) 1.
Proof.
  destruct e; cbn; intros Hs; simplify_eq; auto.
  - destruct (requests y !! i) as [q|] eqn:Hi; cbn in Hs; [|done].
    destruct (request_step a q (shared y)) as [[q' s]|] eqn:Hq; cbn in Hs; simplify_eq; cbn.
    rewrite list_lookup_insert_eq by by eapply lookup_lt_Some. by eapply request_step_ids.
  - destruct (workers y !! j) as [w|] eqn:Hj; cbn in Hs; [|done].
    destruct (worker_step h a w (shared y)) as [[w' s]|] eqn:Hw; cbn in Hs; simplify_eq.
    apply worker_step_weights in Hw as (_ & _ & Hn & _). auto.
Qed.

Lemma run_ids_seq h l y y' :
  system_run h l y = Some y' → 0 ≤ next_request (shared y) → next_request (shared y) + blen l ≤ u64_max →
  run_ids h l y = seqZ (next_request (shared y)) (blen (run_ids h l y)).
Proof.
  revert y. induction l as [|e l IH]; intros y Hr H0' Hb; [done|]. cbn in Hr |- *.
  destruct (system_step h e y) as [y1|] eqn:He; cbn in Hr; [|done].
  rewrite blen_cons in Hb. pose proof (blen_nonneg l).
  specialize (IH y1 Hr). pose proof (system_step_ids _ _ _ _ He) as Hid.
  destruct Hid as [[-> Hn]|[-> Hn]]; cbn [app].
  - rewrite Hn in IH. apply IH; lia.
  - unfold wrapping_add in Hn. rewrite Z.mod_small in Hn by lia.
    rewrite Hn in IH. pose proof (blen_nonneg (run_ids h l y1)).
    rewrite blen_cons, seqZ_cons by lia. f_equal. rewrite IH at 1 by lia.
    unfold Z.succ, Z.pred. f_equal. lia.
Qed.

(** The identifiers handed to the guest handler are 1, 2, 3, ... in
    dispatch order over the whole life of a service, so they increase and are
    unique, for any interleaving of fewer than 2^64 - 1 events. *)
Theorem request_ids_sequential p c prep r r' y0 from profile h events y :
  http_service p c prep r = (r', Returns (Ok (y0, from, profile))) →
  system_run h events y0 = Some y →
  blen events < u64_max →
  run_ids h events y0 = seqZ 1 (blen (run_ids h events y0)) ∧ NoDup (run_ids h events y0).
Proof.
  intros Hs Hr Hb. apply http_service_start in Hs as (_ & _ & _ & _ & _ & _ & Hn).
  assert (E : run_ids h events y0 = seqZ 1 (blen (run_ids h events y0))).
  { rewrite <- Hn at 1. eapply run_ids_seq; [done|lia|lia]. }
  split; [done|]. rewrite E. apply NoDup_seqZ.
Qed.
End service.

(** ** The streaming body's protocol *)

Fixpoint body_run (b : StreamingHttpBody) (l : list inner_poll)
    : StreamingHttpBody * list guard_effect * list body_poll :=
  match l with
  | [] => (b, [], [])
  | i :: l' =>
      let '(b', e, o) := body_poll_frame b i in
      let '(b'', es, os) := body_run b' l' in
      (b'', e :: es, o :: os)
  end.

Definition poll_len (o : body_poll) : Z := match o with PollFrame f => data_len f | _ => 0 end.
Definition inner_len (i : inner_poll) : Z := match i with InnerData d => blen d | _ => 0 end.
Definition quiet_poll (i : inner_poll) : Prop :=
  match i with InnerError _ | InnerEnd => False | _ => True end.
Definition used (e : guard_effect) : bool := match e with GuardKept => false | _ => true end.

(** The inner body ended before an error and within the limit. *)
Definition ends_within (n : Z) (l : list inner_poll) : Prop :=
  ∃ pre post, l = pre ++ InnerEnd :: post ∧ Forall quiet_poll pre ∧ zsum inner_len pre ≤ n.

Lemma inner_len_nonneg i : 0 ≤ inner_len i.
Proof. destruct i; cbn; blen_lia. Qed.

Lemma body_run_delivers b l :
  0 ≤ body_remaining b →
  zsum poll_len (body_run b l).2 ≤ body_remaining b.
Proof.
  revert b. induction l as [|i l IH]; intros b Hb; cbn; [done|].
  destruct (body_poll_frame b i) as [[b' e] o] eqn:Hp.
  specialize (IH b'). destruct (body_run b' l) as [[b'' es] os]. unfold zsum in *. cbn in *.
  unfold body_poll_frame, take_guard in Hp. repeat case_match; simplify_eq; cbn in *; bool_inv; lia.
Qed.

Lemma body_run_guard_gone b l :
  completion b = false →
  completion (body_run b l).1.1 = false ∧ List.filter used (body_run b l).1.2 = [].
Proof.
  revert b. induction l as [|i l IH]; intros b Hb; cbn; [done|].
  destruct (body_poll_frame b i) as [[b' e] o] eqn:Hp.
  specialize (IH b'). destruct (body_run b' l) as [[b'' es] os]. cbn in *.
  unfold body_poll_frame, take_guard in Hp. repeat case_match; simplify_eq; cbn in *; auto; congruence.
Qed.

Lemma ends_within_cons n i l :
  ends_within n (i :: l) ↔
  (i = InnerEnd ∧ 0 ≤ n) ∨ (quiet_poll i ∧ inner_len i ≤ n ∧ ends_within (n - inner_len i) l).
Proof.
  split.
  - intros ([|j pre] & post & E & Hq & Hn); simplify_eq/=; [by left|]. right.
    apply Forall_cons in Hq as [Hj Hq]. cbn in Hn. fold (zsum inner_len pre) in Hn.
    pose proof (zsum_nonneg inner_len pre inner_len_nonneg).
    split_and!; [done|lia|]. exists pre, post. split_and!; [done|done|lia].
  - intros [[-> ?]|(Hq & Hn & pre & post & -> & Hf & Hs)].
    + exists [], l. by split_and!.
    + exists (i :: pre), post. split_and!; [done|by constructor|]. cbn. fold (zsum inner_len pre). lia.
Qed.

Lemma body_run_guard b l :
  completion b = true → 0 ≤ body_remaining b →
  ∃ e, List.filter used ((body_run b l).1.2 ++ [body_drop (body_run b l).1.1]) = [e]
    ∧ (e = GuardCompleted ↔ ends_within (body_remaining b) l)
    ∧ (e = GuardDropped ↔ ¬ ends_within (body_remaining b) l).
Proof.
  revert b. induction l as [|i l IH]; intros b Hc Hr.
  { exists GuardDropped. unfold body_drop, take_guard. cbn. rewrite Hc. split; [done|].
    assert (¬ ends_within (body_remaining b) []) by by intros ([] & ? & ? & _). naive_solver. }
  setoid_rewrite ends_within_cons. cbn [body_run].
  destruct (body_poll_frame b i) as [[b' e] o] eqn:Hp.
  specialize (IH b'). pose proof (body_run_guard_gone b' l) as Hgone.
  destruct (body_run b' l) as [[b'' es] os]. cbn [fst snd] in *.
  unfold body_poll_frame, take_guard in Hp. rewrite Hc in Hp.
  destruct i as [|d|t|m|]; [| destruct (Z.ltb_spec (body_remaining b) (blen d)) | | | ]; simplify_eq;
    cbn [body_remaining completion inner_len quiet_poll] in *.
  1,3,4: destruct IH as (e & E & Hi & Hn); [done|lia|]; exists e; cbn [app List.filter used];
    split; [done|]; rewrite ?Z.sub_0_r; split; naive_solver lia.
  all: destruct Hgone as [Hg Hes]; [done|]; eexists; cbn [app List.filter used];
    rewrite List.filter_app, Hes; unfold body_drop, take_guard; cbn; rewrite Hg; cbn; (split; [done|]);
    split; naive_solver lia.
Qed.

(** C39: a streaming body releases its admission exactly once over any sequence
    of polls followed by its drop, counts as completed exactly when the inner
    body ended before an error and within the output limit, and never delivers
    more bytes than the limit. *)
Theorem streaming_body_protocol b l :
  completion b = true → 0 ≤ body_remaining b →
  let '(b', effects, polls) := body_run b l in
  zsum poll_len polls ≤ body_remaining b
  ∧ ∃ e, List.filter used (effects ++ [body_drop b']) = [e]
      ∧ (e = GuardCompleted ↔ ends_within (body_remaining b) l)
      ∧ (e = GuardDropped ↔ ¬ ends_within (body_remaining b) l).
Proof.
  intros Hc Hr. pose proof (body_run_guard b l Hc Hr) as Hg. pose proof (body_run_delivers b l Hr) as Hd.
  by destruct (body_run b l) as [[b' es] os].
Qed.

Lemma package_tier_roundtrip t : package_tier_from_code (package_tier_code t) = t.
Proof. by destruct t. Qed.

(** ** Two surprises *)

Section surprises.
Context {C Req Body P : Type} `{Engine C} `{Crypto} `{Host} `{HttpLib} {PL : ProxyLib C Req Body P}.
Context {JI : Json CacheIdentity} {JM : Json CacheMetadata}.

(** A worker whose idle time expired is not counted as an idle eviction while
    another worker is live. *)
Lemma expired_worker_not_counted h (s : @Shared C P) w' s' :
  worker_step h WDrop (WLive true) s = Some (w', s') →
  live_workers (metrics s) ≠ 1 →
  w' = WGone ∧ idle_evictions (metrics s') = idle_evictions (metrics s).
Proof. cbn. intros Hs Hl. rewrite (proj2 (Z.eqb_neq _ _) Hl) in Hs. by simplify_eq. Qed.

(** A configuration the validation accepts makes service construction panic
    when it asks for more permits than the semaphore supports. *)
Lemma http_service_panics p c (prep : RuntimeInner C → RuntimeInner C * Result (PreparedComponent C))
    r r' prepared p0 :
  validate_http_config c (max_timeout (limits (config r))) = Ok tt →
  prep (tier (program_digest p) r).1 = (r', Ok prepared) →
  is_http (prepared_profile prepared) = true →
  profile_linker (prepared_profile prepared) = Ok tt →
  instantiate_pre (prepared_profile prepared) (component prepared) = Ok p0 →
  max_permits < max_in_flight c →
  http_service p c prep r = (r', Panics).
Proof.
  intros Hv Hp Hh Hl Hi Hm. unfold http_service, make_proxy_pre. rewrite Hv.
  destruct (tier _ r) as [r1 from]. cbn [fst] in Hp. rewrite Hp, Hh, Hl, Hi. cbn [map_err negb mbind result_bind].
  by rewrite (proj2 (Z.ltb_lt _ _) Hm).
Qed.
End surprises.

(** ** Concrete instances *)

Module HttpServiceExample.
Import Toy DiskCacheExample RuntimeExample.

#[export] Instance http_lib : HttpLib := HttpExample.lib.

(** Requests are themselves; a body is its bytes and its size hint. *)
#[export] Instance proxy : ProxyLib (list string) HttpRequest (list byte) unit := {|
  request_build r := if bool_decide (hr_method r = EmptyString) then Err "no method" else Ok r;
  limited n b := take (Z.to_nat n) b;
  map_body_err _ b := b;
  request_size_hint b := (blen b, Some (blen b));
  body_collect b := Ok b;
  body_is_end_stream b := bool_decide (b = []);
  profile_linker _ := Ok tt;
  instantiate_pre _ _ := Ok tt |}.

Definition runtime : RuntimeInner (list string) := {|
  memory := memory_cache_new default_config; memory_poisoned := false;
  preparation_locks := ∅; locks_poisoned := false; disk := None; disk_world := empty_world;
  disk_publish_failures := 0; Runtime.config := default_config |}.
Definition service_config : HttpServiceConfig :=
  {| max_in_flight := 1; max_instance_reuse_count := 10; max_instance_concurrent_reuse_count := 2;
     idle_worker_ttl := 5; request_timeout := 9; outbound_grants := [] |}.
Definition program : Program := {| program_digest := "d"; program_bytes := [] |}.
Definition prepared_http : PreparedComponent (list string) :=
  {| component := []; prepared_profile := Http0_3 |}.
Definition prep (r : RuntimeInner (list string)) : RuntimeInner (list string) * Result (PreparedComponent (list string)) :=
  (r, Ok prepared_http).
Definition handler : HandlerConfig :=
  {| h_digest := "d"; h_bytes := []; h_config := service_config; instant_max := 1000 |}.

Definition started := http_service program service_config prep runtime.
Definition sys0 : @System (list string) HttpRequest (list byte) unit :=
  match started.2 with Returns (Ok (y, _, _)) => y | _ => {|
    shared := {| available := 0; metrics := default_metrics; tier_code := 0; pre := None;
                 next_request := 0; rt := runtime |}; requests := []; workers := [] |} end.
Lemma started_ok : started = (started.1, Returns (Ok (sys0, Cold, Http0_3))).
Proof. vm_compute. reflexivity. Qed.

(** A buffered request is answered, then a streamed one has a frame polled;
    a worker is created on the way. *)
Definition req : HttpRequest := http_request_new "GET" "/" (str_bytes "hi").
Definition go (i : nat) : @event (list string) (list byte) := RequestStep i Go.
Definition answer : action := Handled (Ok {| pr_status := 200; pr_headers := []; pr_body := str_bytes "ok" |}).
Definition events : list event :=
  [NewBuffered req] ++ repeat (go 0) 7
  ++ [NewWorker; WorkerStep 0 WGo; WorkerStep 0 (WInstance (Ok tt)); WorkerStep 0 WGo; WorkerStep 0 WGo;
      WorkerStep 0 WGo; RequestStep 0 answer] ++ repeat (go 0) 5
  ++ [NewStreamed (str_bytes "up")] ++ repeat (go 1) 5
  ++ [RequestStep 1 answer; go 1; RequestStep 1 (InnerReady (InnerData (str_bytes "ok")))].
Definition closing : list event :=
  [RequestStep 1 (InnerReady InnerEnd); go 1; go 1; go 1; RequestStep 1 DropBody].

Definition sys (l : list event) : @System (list string) HttpRequest (list byte) unit :=
  default sys0 (system_run handler l sys0).
Lemma run_ok : system_run handler events sys0 = Some (sys events).
Proof. vm_compute. reflexivity. Qed.
Lemma closed_ok : system_run handler (events ++ closing) sys0 = Some (sys (events ++ closing)).
Proof. vm_compute. reflexivity. Qed.

Lemma admission_bounded_witness :
  in_flight (metrics (shared (sys events))) = zsum counted (requests (sys events))
  ∧ 0 ≤ in_flight (metrics (shared (sys events))) ≤ 1
  ∧ 0 ≤ available (shared (sys events))
  ∧ available (shared (sys events)) + zsum holds (requests (sys events)) = 1.
Proof.
  refine (admission_bounded program service_config prep runtime _ sys0 Cold Http0_3 handler events _ _ started_ok run_ok).
  by vm_compute.
Defined.

Lemma permits_return_witness :
  available (shared (sys (events ++ closing))) = 1
  ∧ in_flight (metrics (shared (sys (events ++ closing)))) = 0.
Proof.
  refine (permits_return program service_config prep runtime _ sys0 Cold Http0_3 handler (events ++ closing) _ _ started_ok closed_ok _).
  - by vm_compute.
  - vm_compute. reflexivity.
Defined.

Lemma service_state_exact_witness :
  match service_state (shared (sys events)) with
  | Active => ∃ q, q ∈ requests (sys events) ∧ 0 < counted q
  | ServicePausedResident =>
      (∀ q, q ∈ requests (sys events) → counted q = 0) ∧ ∃ w, w ∈ workers (sys events) ∧ live w = 1
  | NoResidentWorker =>
      (∀ q, q ∈ requests (sys events) → counted q = 0) ∧ ∀ w, w ∈ workers (sys events) → live w = 0
  end.
Proof.
  refine (service_state_exact program service_config prep runtime _ sys0 Cold Http0_3 handler events _ _ started_ok run_ok _).
  - by vm_compute.
  - vm_compute. discriminate.
Defined.

Lemma request_ids_sequential_witness :
  run_ids handler events sys0 = seqZ 1 (blen (run_ids handler events sys0))
  ∧ NoDup (run_ids handler events sys0).
Proof.
  refine (request_ids_sequential program service_config prep runtime _ sys0 Cold Http0_3 handler events _ started_ok run_ok _).
  by vm_compute.
Defined.

Example states :
  (service_state (shared sys0), service_state (shared (sys events)),
   service_state (shared (sys (events ++ closing))),
   completed_requests (metrics (shared (sys (events ++ closing)))), run_ids handler events sys0)
  = (NoResidentWorker, Active, ServicePausedResident, 2, [1; 2]).
Proof. vm_compute. reflexivity. Qed.

Definition open_stream : StreamingHttpBody :=
  {| body_remaining := 3; completion := true;
     metadata := {| request_id := 1; md_package_tier := Warm; md_worker_created := false |} |}.
Definition polls : list inner_poll := [InnerData (str_bytes "ab"); InnerPending; InnerEnd].

Lemma streaming_body_protocol_witness :
  let '(b', effects, out) := body_run open_stream polls in
  zsum poll_len out ≤ 3
  ∧ ∃ e, List.filter used (effects ++ [body_drop b']) = [e]
      ∧ (e = GuardCompleted ↔ ends_within 3 polls) ∧ (e = GuardDropped ↔ ¬ ends_within 3 polls).
Proof. refine (streaming_body_protocol open_stream polls _ _); by vm_compute. Defined.

(** Two workers expire idle; one eviction is counted. *)
Definition worker_up (j : nat) : list (@event (list string) (list byte)) :=
  [NewWorker; WorkerStep j WGo; WorkerStep j (WInstance (Ok tt)); WorkerStep j WGo; WorkerStep j WGo; WorkerStep j WGo].
Definition worker_down (j : nat) : list (@event (list string) (list byte)) :=
  [WorkerStep j (WPoll Idle 0 5); WorkerStep j WDrop].
Example idle_evictions_undercounted :
  (λ y, (live_workers (metrics (shared y)), idle_evictions (metrics (shared y)), workers y))
    <$> system_run handler (worker_up 0 ++ worker_up 1 ++ worker_down 0 ++ worker_down 1
                             ++ repeat (WorkerStep 1 WGo) 4) sys0
  = Some (0, 1, [WGone; WGone]).
Proof. vm_compute. reflexivity. Qed.

(** The eviction is counted before the package is reported as warmish: whoever
    waits for the count can still see the old tier. *)
Example eviction_counted_before_tier :
  (λ y, (idle_evictions (metrics (shared y)), package_tier (shared y)))
    <$> system_run handler (worker_up 0 ++ worker_down 0 ++ [WorkerStep 0 WGo]) sys0
  = Some (1, Warm).
Proof. vm_compute. reflexivity. Qed.

(** A worker that comes up while another is evicted: the eviction reports the
    package as warmish although the new worker is live. *)
Example live_worker_reported_warmish :
  (λ y, (live_workers (metrics (shared y)), package_tier (shared y)))
    <$> system_run handler (worker_up 0 ++ [NewWorker; WorkerStep 1 WGo] ++ worker_down 0
          ++ repeat (WorkerStep 0 WGo) 3 ++ [WorkerStep 1 (WInstance (Ok tt))] ++ repeat (WorkerStep 1 WGo) 3
          ++ [WorkerStep 0 WGo]) sys0
  = Some (1, Warmish).
Proof. vm_compute. reflexivity. Qed.
End HttpServiceExample.
