(* ===== verification/HttpProgress.v ===== *)
(** Progress of the HTTP service ([src/src/http.rs]): the requests of
    [HttpService] cannot deadlock on the admission semaphore, each one ends
    after a bounded number of its own steps, frames of a response body apart,
    and when all are over every permit is back. *)
From Stdlib Require Import ZifyBool.
From S2P Require Import Prelude Errors Interfaces Streams Types MemoryCache DiskCache Runtime Http HttpService.

Local Open Scope Z_scope.

Section progress.
Context {C Req Body P : Type} `{Engine C} `{Crypto} `{Host} `{HttpLib} {PL : ProxyLib C Req Body P}.
Context {JI : Json CacheIdentity} {JM : Json CacheMetadata}.
Implicit Types (q : @pc Req Body) (y : @System C Req Body P).

(** A request that waits for a permit. *)
Definition waiting q : bool := match q with BWaiting _ | SWaiting _ _ => true | _ => false end.

(** What the next step of a request depends on: the answer of the handler, a
    frame of the response body, or nothing but its turn. *)
Definition awaited q (a : @action Body) : bool :=
  match q, a with
  | BDispatched _ _ _ _, Handled _ | SDispatched _ _ _ _, Handled _ | Streaming _, InnerReady _ => true
  | BDispatched _ _ _ _, _ | SDispatched _ _ _ _, _ | Streaming _, _ | Done _, _ => false
  | _, Go => true
  | _, _ => false
  end.

(** An upper bound of the steps a request still takes, polls of its response
    body apart. *)
Fixpoint steps_left q : nat :=
  match q with
  | Buffered _ => 14
  | BWaiting _ => 13
  | BPermitted _ => 12
  | BObserved _ _ => 11
  | BMeasured _ _ _ => 10
  | BCounted _ _ _ => 9
  | BBuilt _ _ _ => 8
  | BDispatched _ _ _ _ => 7
  | BCollecting _ _ _ => 6
  | BReplying _ _ => 1
  | Streamed _ => 12
  | SWaiting _ _ => 11
  | SPermitted _ _ => 10
  | SCounted _ _ => 9
  | SMeasured _ _ _ => 8
  | SDispatched _ _ _ _ => 7
  | SAnswered _ _ _ _ => 6
  | Streaming b => if completion b then 5 else 1
  | Completing next => 3 + steps_left next
  | Releasing next => 2 + steps_left next
  | Unpermit next => 1 + steps_left next
  | Done _ => 0
  end.

Definition own_step (i : nat) (e : @event C Body) : nat :=
  match e with
  | RequestStep _ (InnerReady _) => 0
  | RequestStep j _ => if bool_decide (j = i) then 1 else 0
  | _ => 0
  end.

(** ** One request *)

Lemma awaited_steps q a s :
  awaited q a = true → waiting q = false ∨ 0 < available s → is_Some (request_step a q s).
Proof.
  intros Ha [Hw|Hav]; destruct q, a; cbn in *; try done; try (eexists; reflexivity); repeat case_match; eauto; lia.
Qed.

Lemma unfinished_awaits q : finished q = false → ∃ a, awaited q a = true.
Proof.
  intros Hf. destruct q; try done; first [by exists Go | by exists (Handled (Err EmptyString)) | by exists (InnerReady InnerEnd)].
Qed.

Lemma holder_goes_on q : 0 < holds q → waiting q = false ∧ finished q = false.
Proof. destruct q; cbn; done || lia. Qed.

Lemma holds_nonneg q : 0 ≤ holds q.
Proof. pose proof (counted_bounds q). lia. Qed.

Lemma request_step_left a q s q' s' :
  request_step a q s = Some (q', s') →
  (steps_left q' + match a with InnerReady _ => 0 | _ => 1 end <= steps_left q)%nat.
Proof.
  unfold request_step, collect_response, open_body, body_poll_frame, body_drop, take_guard.
  intros Hs. repeat case_match; simplify_eq; cbn [apply_guard snd steps_left completion negb];
    repeat match goal with Hc : completion _ = _ |- _ => rewrite Hc end; repeat case_match; lia.
Qed.

(** ** All requests *)

Lemma system_step_left h e y y' i q :
  system_step h e y = Some y' → requests y !! i = Some q →
  ∃ q', requests y' !! i = Some q' ∧ (steps_left q' + own_step i e <= steps_left q)%nat.
Proof.
  intros Hs Hi. destruct e as [r|b|j a| |j a|f]; cbn in Hs; simplify_eq; cbn [requests own_step].
  - exists q. split; [by apply lookup_app_l_Some|lia].
  - exists q. split; [by apply lookup_app_l_Some|lia].
  - destruct (requests y !! j) as [p|] eqn:Hj; [|done]. cbn in Hs.
    destruct (request_step a p (shared y)) as [[p' s]|] eqn:Hp; simplify_eq/=.
    apply request_step_left in Hp. destruct (decide (j = i)) as [->|Hne].
    + rewrite Hi in Hj. injection Hj as ->. exists p'.
      rewrite list_lookup_insert_eq by by eapply lookup_lt_Some. split; [done|].
      rewrite bool_decide_eq_true_2 by done. by destruct a.
    + exists q. rewrite list_lookup_insert_ne by done. split; [done|].
      rewrite bool_decide_eq_false_2 by done. destruct a; lia.
  - exists q. split; [done|lia].
  - destruct (workers y !! j) as [w|]; [|done]. cbn in Hs.
    destruct (worker_step h a w (shared y)) as [[w' s]|]; simplify_eq/=. exists q. split; [done|lia].
  - exists q. split; [done|lia].
Qed.

Lemma system_run_left h l y y' i q :
  system_run h l y = Some y' → requests y !! i = Some q →
  ∃ q', requests y' !! i = Some q' ∧ (steps_left q' + count (own_step i) l <= steps_left q)%nat.
Proof.
  revert y q. induction l as [|e l IH]; intros y q Hr Hi; cbn in Hr.
  { simplify_eq. exists q. split; [done|]. unfold count. cbn. lia. }
  destruct (system_step h e y) as [y1|] eqn:Hs; [|done]. cbn in Hr.
  destruct (system_step_left _ _ _ _ _ _ Hs Hi) as (q1 & Hi1 & Hl1).
  destruct (IH _ _ Hr Hi1) as (q2 & Hi2 & Hl2). exists q2. split; [done|]. unfold count in *. cbn. lia.
Qed.

(** C27: requests go on and end.  In every reachable state a request that is not
    over takes its next step on its turn, on any answer of its handler or on any
    frame of its response body; only a request that waits for admission may have
    to wait, and then for a request that holds a permit and can itself take its
    next step.  Whatever happens afterwards, a request takes at most the steps
    it has left, 14 for one that begins, frames of its response body apart; and
    once all are over, all [max_in_flight] permits are available and [in_flight]
    is zero. *)
Theorem requests_complete p c prep r r' y0 from profile h events y :
  0 ≤ max_in_flight c →
  http_service p c prep r = (r', Returns (Ok (y0, from, profile))) →
  system_run h events y0 = Some y →
  (∀ i q, requests y !! i = Some q → finished q = false →
     (∃ a, awaited q a = true) ∧
     ((∀ a, awaited q a = true → is_Some (request_step a q (shared y))) ∨
      waiting q = true ∧ ∃ j q', requests y !! j = Some q' ∧ 0 < holds q' ∧ finished q' = false ∧
        ∀ a, awaited q' a = true → is_Some (request_step a q' (shared y)))) ∧
  (∀ l y' i q, system_run h l y = Some y' → requests y !! i = Some q →
     ∃ q', requests y' !! i = Some q' ∧ (steps_left q' + count (own_step i) l <= steps_left q)%nat) ∧
  (forallb finished (requests y) = true →
     available (shared y) = max_in_flight c ∧ in_flight (metrics (shared y)) = 0).
Proof.
  intros Hc Hs Hr. split_and!; [|intros l y' i q; apply system_run_left|by eapply permits_return].
  pose proof Hs as (Hv & Hm & _ & _ & _ & I & _)%http_service_start.
  assert (ServiceInv (max_in_flight c) y) as [Hp _ _ _].
  { eapply system_run_inv; [|by apply I|done]. transitivity max_permits; [done|]. vm_compute. done. }
  assert (0 < max_in_flight c) as Hpos.
  { unfold validate_http_config in Hv. result_inv. bool_inv. lia. }
  intros i q Hi Hf. split; [by apply unfinished_awaits|].
  destruct (decide (0 < available (shared y))) as [Hav|Hav].
  { left. intros a Ha. by apply awaited_steps; [|right]. }
  destruct (waiting q) eqn:Hw; [right; split; [done|]|left; intros a Ha; by apply awaited_steps; [|left]].
  destruct (proj1 (zsum_pos holds (requests y) holds_nonneg)) as (q' & Hin & Hq'); [lia|].
  apply list_elem_of_lookup in Hin as [j Hj]. destruct (holder_goes_on q' Hq') as [Hw' Hf'].
  exists j, q'. split_and!; [done|done|done|]. intros a Ha. by apply awaited_steps; [|left].
Qed.
End progress.

Module HttpProgressExample.
Import Toy DiskCacheExample RuntimeExample HttpServiceExample.

(** Two requests for one permit: the second waits for the first. *)
Definition contending : list event :=
  [NewBuffered req; NewBuffered req] ++ repeat (go 0) 7 ++ [go 1].
Lemma contending_ok : system_run handler contending sys0 = Some (sys contending).
Proof. vm_compute. reflexivity. Qed.
Lemma second_waits : requests (sys contending) !! 1%nat = Some (BWaiting req).
Proof. vm_compute. reflexivity. Qed.

Lemma requests_complete_witness :
  request_step Go (BWaiting req) (shared (sys contending)) = None ∧
  (∃ j q', requests (sys contending) !! j = Some q' ∧ finished q' = false ∧
     ∀ a, awaited q' a = true → is_Some (request_step a q' (shared (sys contending)))) ∧
  available (shared (sys (events ++ closing))) = 1.
Proof.
  split; [vm_compute; reflexivity|]. split.
  - destruct (requests_complete program service_config prep runtime _ sys0 Cold Http0_3 handler contending _
      ltac:(by vm_compute) started_ok contending_ok) as [Hgo _].
    destruct (Hgo 1%nat (BWaiting req) second_waits eq_refl) as [_ [Hs|(_ & j & q' & Hj & _ & Hf & Hq)]].
    + destruct (Hs Go eq_refl) as [x Hx]. vm_compute in Hx. discriminate Hx.
    + exists j, q'. exact (conj Hj (conj Hf Hq)).
  - destruct (requests_complete program service_config prep runtime _ sys0 Cold Http0_3 handler (events ++ closing) _
      ltac:(by vm_compute) started_ok closed_ok) as (_ & _ & Hend).
    apply Hend. vm_compute. reflexivity.
Defined.
End HttpProgressExample.
