(* ===== verification/Pause.v ===== *)
(** Cooperative pause, resume, eviction and cancellation of a command
    ([src/src/types.rs]: [PauseToken], [CancellationToken];
    [src/src/runtime.rs]: the epoch callback of [invoke], [RunningCommand]).
    The first half gives each operation its effect on the shared state and
    proves that paused time is measured exactly and never counts against a
    call's timeout.  The second half splits the operations into their atomic
    loads and stores and proves what survives every interleaving. *)
From S2P Require Import Prelude Errors Types.

Local Open Scope Z_scope.

(** ** Shared state *)

Record PauseTiming := { completed : Z; paused_at : option Z }.
Record PauseState := {
  paused : bool; resident : bool; evicted : bool; timing : PauseTiming;
  cancelled_flag : bool;   (* the invocation's [CancellationToken] *)
}.
Definition pause_new : PauseState :=
  {| paused := false; resident := false; evicted := false;
     timing := {| completed := 0; paused_at := None |}; cancelled_flag := false |}.

Definition set_paused b s : PauseState :=
  {| paused := b; resident := resident s; evicted := evicted s; timing := timing s;
     cancelled_flag := cancelled_flag s |}.
Definition set_resident b s : PauseState :=
  {| paused := paused s; resident := b; evicted := evicted s; timing := timing s;
     cancelled_flag := cancelled_flag s |}.
Definition set_evicted b s : PauseState :=
  {| paused := paused s; resident := resident s; evicted := b; timing := timing s;
     cancelled_flag := cancelled_flag s |}.
Definition set_timing t s : PauseState :=
  {| paused := paused s; resident := resident s; evicted := evicted s; timing := t;
     cancelled_flag := cancelled_flag s |}.
Definition cancel s : PauseState :=
  {| paused := paused s; resident := resident s; evicted := evicted s; timing := timing s;
     cancelled_flag := true |}.

(** [Instant::elapsed] and [Duration] addition. *)
Definition elapsed (now start : Z) : Z := saturating_sub now start.
Definition duration_add (a b : Z) : Z := saturating_add duration_max a b.

(** ** Operations *)

Definition stamp (now : Z) s : PauseState :=
  set_timing {| completed := completed (timing s); paused_at := Some now |} s.
(** [timing.paused_at.take()] and the addition. *)
Definition settle (now : Z) s : PauseState :=
  match paused_at (timing s) with
  | Some started =>
      set_timing {| completed := duration_add (completed (timing s)) (elapsed now started);
                    paused_at := None |} s
  | None => s
  end.

Definition pause (now : Z) s : PauseState :=
  if paused s then s else stamp now (set_resident false (set_paused true s)).

Definition resume (now : Z) s : PauseState * bool :=
  if evicted s then (s, false)
  else if paused s then (settle now (set_resident false (set_paused false s)), true)
  else (s, true).

Definition mark_resident s : PauseState :=
  if paused s && negb (evicted s) then set_resident true s else s.

Definition total_paused (now : Z) s : Z :=
  duration_add (completed (timing s))
    (match paused_at (timing s) with Some started => elapsed now started | None => 0 end).

Definition evict s : PauseState := cancel (set_resident false (set_evicted true s)).

(** One turn of [PauseToken::wait]: return, evict and return, or sleep. *)
Inductive wait_turn := WaitReturn | WaitEvict | WaitSleep (remaining : Z).
Definition wait_remaining (resident_ttl now : Z) s : Z :=
  match paused_at (timing s) with
  | Some started => saturating_sub resident_ttl (elapsed now started)
  | None => resident_ttl
  end.
Definition wait_check (resident_ttl now : Z) s : wait_turn :=
  if negb (paused s) || cancelled_flag s then WaitReturn
  else let remaining := wait_remaining resident_ttl now s in
       if remaining =? 0 then WaitEvict else WaitSleep remaining.

(** The epoch callback installed by [invoke].  It reads the clock twice: for
    the paused time, [total], and afterwards, at [now], for the time since the
    call started. *)
Inductive UpdateDeadline := Interrupt (timed_out : bool) | YieldCustom | Yield.
Definition epoch_callback (timeout invocation_started pause_baseline total now : Z) s
    : PauseState * UpdateDeadline :=
  let suspended := saturating_sub total pause_baseline in
  let active := saturating_sub (elapsed now invocation_started) suspended in
  if evicted s || cancelled_flag s then (s, Interrupt false)
  else if timeout <=? active then (s, Interrupt true)
  else if paused s then (mark_resident s, YieldCustom)
  else (s, Yield).

(** [RunningCommand]; [finished] is the join handle's answer. *)
Definition running_state (finished : bool) s : InvocationState :=
  if evicted s then Evicted
  else if finished then Finished
  else if resident s then PausedResident
  else if paused s then PauseRequested
  else Running.
Definition running_pause (finished : bool) (now : Z) s : PauseState * Result unit :=
  match running_state finished s with
  | Running | PauseRequested | PausedResident => (pause now s, Ok tt)
  | Evicted => (s, Err IdleEvicted)
  | Finished => (s, Err (InvalidState "invocation already finished"))
  end.
Definition running_resume (finished : bool) (now : Z) s : PauseState * Result unit :=
  match running_state finished s with
  | Running => (s, Ok tt)
  | PauseRequested | PausedResident =>
      let '(s, resumed) := resume now s in (s, if resumed then Ok tt else Err IdleEvicted)
  | Evicted => (s, Err IdleEvicted)
  | Finished => (s, Err (InvalidState "invocation already finished"))
  end.
Definition running_drop (task_present : bool) (now : Z) s : PauseState :=
  if task_present then (resume now (cancel s)).1 else s.

(** ** Timed histories *)

(** A history: the time that passes, then an operation. *)
Inductive timed_op := OpPause | OpResume | OpCallback (timeout started baseline total : Z).
Definition timed_step (x : Z * PauseState) (e : Z * timed_op) : Z * PauseState :=
  let now := x.1 + e.1 in
  (now, match e.2 with
        | OpPause => pause now x.2
        | OpResume => (resume now x.2).1
        | OpCallback timeout started baseline total => (epoch_callback timeout started baseline total now x.2).1
        end).
Definition timed_run (x : Z * PauseState) (l : list (Z * timed_op)) : Z * PauseState :=
  foldl timed_step x l.

(** Time during which a pause is in force, and time during which none is. *)
Definition next_flag (f : bool) (o : timed_op) : bool :=
  match o with OpPause => true | OpResume => false | OpCallback _ _ _ _ => f end.
Fixpoint paused_time (f : bool) (l : list (Z * timed_op)) (last : Z) : Z :=
  match l with
  | [] => if f then last else 0
  | (d, o) :: l' => (if f then d else 0) + paused_time (next_flag f o) l' last
  end.
Fixpoint running_time (f : bool) (l : list (Z * timed_op)) (last : Z) : Z :=
  match l with
  | [] => if f then 0 else last
  | (d, o) :: l' => (if f then 0 else d) + running_time (next_flag f o) l' last
  end.
Definition forward (l : list (Z * timed_op)) : Prop := Forall (λ e, 0 ≤ e.1) l.

(** Paused time accumulated so far. *)
Definition accrued (x : Z * PauseState) : Z :=
  completed (timing x.2) + match paused_at (timing x.2) with Some t => x.1 - t | None => 0 end.

(** The timing record agrees with the flag, and nothing was evicted. *)
Record TimingOk (x : Z * PauseState) : Prop := {
  tok_evicted : evicted x.2 = false;
  tok_completed : 0 ≤ completed (timing x.2);
  tok_open : match paused_at (timing x.2) with
             | Some t => paused x.2 = true ∧ completed (timing x.2) ≤ t ≤ x.1
             | None => paused x.2 = false ∧ completed (timing x.2) ≤ x.1
             end;
}.

Lemma callback_keeps timeout started baseline total now s :
  let s' := (epoch_callback timeout started baseline total now s).1 in
  paused s' = paused s ∧ timing s' = timing s ∧ evicted s' = evicted s
  ∧ cancelled_flag s' = cancelled_flag s.
Proof. unfold epoch_callback, mark_resident. repeat case_match; done. Qed.

Lemma total_paused_accrued x last :
  TimingOk x → 0 ≤ last → x.1 + last ≤ duration_max →
  total_paused (x.1 + last) x.2 = accrued x + (if paused x.2 then last else 0).
Proof.
  intros [_ Hc Ho] Hl Hm. unfold total_paused, accrued, duration_add, saturating_add, elapsed, saturating_sub.
  destruct (paused_at (timing x.2)); destruct Ho as [-> Ho]; lia.
Qed.

Lemma timed_step_ok x e :
  TimingOk x → 0 ≤ e.1 → x.1 + e.1 ≤ duration_max →
  TimingOk (timed_step x e)
  ∧ paused (timed_step x e).2 = next_flag (paused x.2) e.2
  ∧ accrued (timed_step x e) = accrued x + (if paused x.2 then e.1 else 0).
Proof.
  destruct x as [t s], e as [d o]. intros [He Hc Ho] Hd Hm. cbn [fst snd] in *.
  unfold timed_step, accrued; cbn [fst snd].
  destruct o as [| |timeout started baseline total].
  - unfold pause, stamp. destruct (paused_at (timing s)) eqn:Hp; destruct Ho as [Hf Ho]; rewrite Hf.
    + split_and!; [split; cbn; rewrite ?Hp; auto with lia|done|rewrite Hp; lia].
    + split_and!; [split; cbn; auto with lia|done|cbn; lia].
  - unfold resume, settle. rewrite He. cbn [timing set_resident set_paused].
    destruct (paused_at (timing s)) eqn:Hp; destruct Ho as [Hf Ho]; rewrite Hf; cbn [fst].
    + unfold duration_add, saturating_add, elapsed, saturating_sub.
      split_and!; [split; cbn; auto with lia|done|cbn; lia].
    + split_and!; [split; cbn; rewrite ?Hp; auto with lia|done|rewrite Hp; lia].
  - destruct (callback_keeps timeout started baseline total (t + d) s) as (E1 & E2 & E3 & _).
    rewrite E1, E2. split_and!; [|done|].
    + split; cbn [fst snd]; rewrite ?E1, ?E2, ?E3; [done|done|].
      destruct (paused_at (timing s)); destruct Ho as [? ?]; (split; [done|lia]).
    + destruct (paused_at (timing s)); destruct Ho as [-> Ho]; lia.
Qed.

Fixpoint span (l : list (Z * timed_op)) : Z :=
  match l with [] => 0 | e :: l' => e.1 + span l' end.

Lemma span_nonneg l : forward l → 0 ≤ span l.
Proof. induction 1; cbn; lia. Qed.

Lemma timed_run_ok l x last :
  TimingOk x → forward l → 0 ≤ last → x.1 + span l + last ≤ duration_max →
  TimingOk (timed_run x l)
  ∧ (timed_run x l).1 = x.1 + span l
  ∧ accrued (timed_run x l) + (if paused (timed_run x l).2 then last else 0)
    = accrued x + paused_time (paused x.2) l last.
Proof.
  revert x. induction l as [|[d o] l IH]; intros x Hx Hf Hl Hm; cbn [timed_run foldl].
  { split_and!; [done|cbn; lia|done]. }
  apply Forall_cons in Hf as [Hd Hf]. pose proof (span_nonneg l Hf). cbn [span fst] in *.
  destruct (timed_step_ok x (d, o) Hx) as (Hx' & Hp & Ha); [done|cbn; lia|].
  destruct (IH (timed_step x (d, o)) Hx' Hf Hl) as (IH1 & IH2 & IH3); [cbn; lia|].
  unfold timed_run in *. rewrite IH2. split_and!; [done|cbn; lia|].
  rewrite IH3, Ha, Hp. cbn [paused_time fst snd]. lia.
Qed.

Lemma pause_new_ok t : 0 ≤ t → TimingOk (t, pause_new).
Proof. intros. split; cbn; auto with lia. Qed.

Lemma times_add f l last : paused_time f l last + running_time f l last = span l + last.
Proof.
  revert f. induction l as [|[d o] l IH]; intros f; cbn; [destruct f; lia|].
  specialize (IH (next_flag f o)). destruct f; lia.
Qed.

(** The suspended time a command reports is exactly the time during
    which a pause was in force, for any history of (repeated) pauses and
    resumes and epoch callbacks. *)
Theorem total_paused_exact t0 l last :
  0 ≤ t0 → forward l → 0 ≤ last → t0 + span l + last ≤ duration_max →
  let x := timed_run (t0, pause_new) l in
  x.1 = t0 + span l ∧ total_paused (x.1 + last) x.2 = paused_time false l last.
Proof.
  intros H0 Hf Hl Hm x.
  destruct (timed_run_ok l (t0, pause_new) last (pause_new_ok t0 H0) Hf Hl Hm) as (Hx & Ht & Ha).
  split; [done|]. unfold x. rewrite total_paused_accrued by (done || rewrite ?Ht; cbn [fst]; lia).
  rewrite Ha. done.
Qed.

(** Only running time counts against a call's timeout, up to the time between
    the callback's two readings of the clock: at any epoch of an invocation
    that was neither evicted nor cancelled, with the paused time read at
    [first] and the clock again at [last], the callback interrupts the call
    exactly when the time it was not paused, and the time between the readings
    if a pause is in force, has reached the timeout; it parks the call when a
    pause is in force and otherwise lets it run. *)
Theorem epoch_callback_counts_running_time timeout t0 l first last :
  0 ≤ t0 → forward l → 0 ≤ first ≤ last → t0 + span l + last ≤ duration_max →
  let x := timed_run (t0, pause_new) l in
  (epoch_callback timeout t0 (total_paused t0 pause_new) (total_paused (x.1 + first) x.2) (x.1 + last) x.2).2
  = if timeout <=? running_time false l last + (if paused x.2 then last - first else 0) then Interrupt true
    else if paused x.2 then YieldCustom else Yield.
Proof.
  intros H0 Hf Hl Hm x.
  destruct (timed_run_ok l (t0, pause_new) last (pause_new_ok t0 H0) Hf) as (Hx & Ht & Ha); [lia|done|].
  assert (Hcf : cancelled_flag x.2 = false).
  { unfold x, timed_run. clear. assert (Hp : cancelled_flag (t0, pause_new).2 = false) by done. revert Hp.
    generalize (t0, pause_new). induction l as [|[d o] l IH]; intros y Hy; [done|]. cbn [foldl]. apply IH.
    cbn [timed_step snd]. destruct o as [| |a b c e].
    - unfold pause. by case_match.
    - unfold resume, settle. by repeat case_match.
    - destruct (callback_keeps a b c e (y.1 + (d, OpCallback a b c e).1) y.2) as (_ & _ & _ & E). cbn in E |- *. by rewrite E. }
  unfold epoch_callback. rewrite (tok_evicted _ Hx : evicted x.2 = false), Hcf. cbn [orb].
  assert (Etot : total_paused (x.1 + first) x.2 = paused_time false l last - (if paused x.2 then last - first else 0)).
  { unfold x. rewrite total_paused_accrued by (done || rewrite ?Ht; cbn [fst]; lia).
    cbn [fst snd pause_new paused] in Ha. change (accrued (t0, pause_new)) with 0 in Ha.
    destruct (paused (timed_run (t0, pause_new) l).2); lia. }
  rewrite Etot, (Ht : x.1 = t0 + span l). change (total_paused t0 pause_new) with 0.
  pose proof (times_add false l last).
  assert (0 ≤ running_time false l last ∧ 0 ≤ paused_time false l last - (if paused x.2 then last - first else 0)) as Hpos.
  { rewrite <- Etot. split; [|unfold total_paused, duration_add, saturating_add, elapsed, saturating_sub].
    - assert (Hl0 : 0 ≤ last) by lia. clear -Hf Hl0.
      generalize false. induction Hf as [|[d o] l Hd Hf IH]; intros f; cbn in *; [by destruct f|].
      specialize (IH (next_flag f o)). destruct f; lia.
    - pose proof (tok_completed _ Hx : 0 ≤ completed (timing x.2)).
      apply Z.min_glb; [done|]. destruct (paused_at (timing x.2)); lia. }
  replace (saturating_sub (elapsed _ t0) _)
    with (running_time false l last + (if paused x.2 then last - first else 0)); [by repeat case_match|].
  unfold elapsed, saturating_sub. destruct (paused x.2); lia.
Qed.

(** ** Atomic steps *)

(** The shared cell: the state above, the timing mutex, the clock and whether
    the invocation's task has finished. *)
Record Cell := { st : PauseState; locked : bool; clock : Z; task_finished : bool }.
Definition set_st s (c : Cell) : Cell :=
  {| st := s; locked := locked c; clock := clock c; task_finished := task_finished c |}.
Definition set_locked b (c : Cell) : Cell :=
  {| st := st c; locked := b; clock := clock c; task_finished := task_finished c |}.

Inductive caller := ByResume | ByDrop.
Inductive command := CmdPause | CmdResume | CmdState.

(** Program points: [RunningCommand]'s methods, [PauseToken::pause] and
    [resume], the epoch callback, [mark_resident], [wait] and [evict]. *)
Inductive pc :=
| LoadEvicted (k : command)
| LoadFinished (k : command)
| LoadResident (k : command)
| LoadPaused (k : command)
| PauseLock | PauseSwap | PauseResident | PauseStamp | PauseUnlock
| ResumeEvicted (r : caller) | ResumeLock (r : caller) | ResumeSwap (r : caller)
| ResumeResident (r : caller) | ResumeSettle (r : caller) | ResumeUnlock (r : caller)
| CancelStore (next : option caller)
| Epoch | EpochTotal | EpochEvicted (total : Z) | EpochCancelled (active : Z) | EpochPaused
| MarkPaused | MarkEvicted | MarkStore
| WaitPaused | WaitCancelled | WaitLock | WaitRemaining | WaitSelect (deadline : Z) | WaitExpired
| EvictStore | EvictResident | EvictCancel
| Interrupted (timed_out : bool)
| Answer (r : Result unit)
| Answered (s : InvocationState).

Definition after_state (k : command) (s : InvocationState) : pc :=
  match k, s with
  | CmdState, _ => Answered s
  | CmdPause, (Running | PauseRequested | PausedResident) => PauseLock
  | CmdResume, Running => Answer (Ok tt)
  | CmdResume, (PauseRequested | PausedResident) => ResumeEvicted ByResume
  | _, Evicted => Answer (Err IdleEvicted)
  | _, Finished => Answer (Err (InvalidState "invocation already finished"))
  end.

(** What wakes the [select!] of [wait]. *)
Inductive wake := Notified | CancelledReady | SleepElapsed.

(** Parameters of one invocation. *)
Record Invocation := { call_timeout : Z; call_started : Z; call_baseline : Z; resident_ttl : Z }.

Definition token_step (v : Invocation) (w : wake) (p : pc) (c : Cell) : option (pc * Cell) :=
  let s := st c in
  match p with
  | LoadEvicted k => Some (if evicted s then after_state k Evicted else LoadFinished k, c)
  | LoadFinished k => Some (if task_finished c then after_state k Finished else LoadResident k, c)
  | LoadResident k => Some (if resident s then after_state k PausedResident else LoadPaused k, c)
  | LoadPaused k => Some (after_state k (if paused s then PauseRequested else Running), c)
  | PauseLock => if locked c then None else Some (PauseSwap, set_locked true c)
  | PauseSwap => Some (if paused s then PauseUnlock else PauseResident, set_st (set_paused true s) c)
  | PauseResident => Some (PauseStamp, set_st (set_resident false s) c)
  | PauseStamp => Some (PauseUnlock, set_st (stamp (clock c) s) c)
  | PauseUnlock => Some (Answer (Ok tt), set_locked false c)
  | ResumeEvicted r => Some (if evicted s then Answer (Err IdleEvicted) else ResumeLock r, c)
  | ResumeLock r => if locked c then None else Some (ResumeSwap r, set_locked true c)
  | ResumeSwap r => Some (if paused s then ResumeResident r else ResumeUnlock r, set_st (set_paused false s) c)
  | ResumeResident r => Some (ResumeSettle r, set_st (set_resident false s) c)
  | ResumeSettle r => Some (ResumeUnlock r, set_st (settle (clock c) s) c)
  | ResumeUnlock r => Some (Answer (Ok tt), set_locked false c)
  | CancelStore next =>
      Some (match next with Some r => ResumeEvicted r | None => Answer (Ok tt) end, set_st (cancel s) c)
  | Epoch => if locked c then None else Some (EpochTotal, set_locked true c)
  | EpochTotal => Some (EpochEvicted (total_paused (clock c) s), set_locked false c)
  | EpochEvicted total =>
      let active := saturating_sub (elapsed (clock c) (call_started v))
                      (saturating_sub total (call_baseline v)) in
      Some (if evicted s then Interrupted false else EpochCancelled active, c)
  | EpochCancelled active =>
      Some (if cancelled_flag s then Interrupted false
            else if call_timeout v <=? active then Interrupted true else EpochPaused, c)
  | EpochPaused => Some (if paused s then MarkPaused else Epoch, c)
  | MarkPaused => Some (if paused s then MarkEvicted else WaitPaused, c)
  | MarkEvicted => Some (if evicted s then WaitPaused else MarkStore, c)
  | MarkStore => Some (WaitPaused, set_st (set_resident true s) c)
  | WaitPaused => Some (if paused s then WaitCancelled else Epoch, c)
  | WaitCancelled => Some (if cancelled_flag s then Epoch else WaitLock, c)
  | WaitLock => if locked c then None else Some (WaitRemaining, set_locked true c)
  | WaitRemaining =>
      let remaining := wait_remaining (resident_ttl v) (clock c) s in
      Some (if remaining =? 0 then EvictStore else WaitSelect (clock c + remaining), set_locked false c)
  | WaitSelect deadline =>
      match w with
      | Notified => Some (WaitPaused, c)
      | CancelledReady => if cancelled_flag s then Some (Epoch, c) else None
      | SleepElapsed => if deadline <=? clock c then Some (WaitExpired, c) else None
      end
  | WaitExpired => Some (if paused s then EvictStore else Epoch, c)
  | EvictStore => Some (EvictResident, set_st (set_evicted true s) c)
  | EvictResident => Some (EvictCancel, set_st (set_resident false s) c)
  | EvictCancel => Some (Epoch, set_st (cancel s) c)
  | Interrupted _ | Answer _ | Answered _ => None
  end.

(** Events: a thread starts a call, a thread takes a step, time passes, the
    interrupted task finishes. *)
Inductive event :=
| Start (p : pc)
| Step (i : nat) (w : wake)
| Tick (d : Z)
| TaskDone.

Definition entry_point (p : pc) : bool :=
  match p with LoadEvicted _ | CancelStore _ | Epoch => true | _ => false end.

Record Machine := { cell : Cell; threads : list pc }.
Definition machine_step (v : Invocation) (e : event) (m : Machine) : option Machine :=
  match e with
  | Start p => if entry_point p then Some {| cell := cell m; threads := threads m ++ [p] |} else None
  | Step i w =>
      p ← threads m !! i;
      '(p', c) ← token_step v w p (cell m);
      Some {| cell := c; threads := <[i := p']> (threads m) |}
  | Tick d =>
      if 0 <=? d then
        Some {| cell := {| st := st (cell m); locked := locked (cell m); clock := clock (cell m) + d;
                           task_finished := task_finished (cell m) |}; threads := threads m |}
      else None
  | TaskDone =>
      Some {| cell := {| st := st (cell m); locked := locked (cell m); clock := clock (cell m);
                         task_finished := true |}; threads := threads m |}
  end.
Fixpoint machine_run (v : Invocation) (l : list event) (m : Machine) : option Machine :=
  match l with
  | [] => Some m
  | e :: l' => m' ← machine_step v e m; machine_run v l' m'
  end.
Definition machine_new (t : Z) : Machine :=
  {| cell := {| st := pause_new; locked := false; clock := t; task_finished := false |}; threads := [] |}.

(** ** What every interleaving preserves *)

(** Program points inside the timing mutex, and what holds there. *)
Definition in_section (p : pc) : bool :=
  match p with
  | PauseSwap | PauseResident | PauseStamp | PauseUnlock | ResumeSwap _ | ResumeResident _
  | ResumeSettle _ | ResumeUnlock _ | EpochTotal | WaitRemaining => true
  | _ => false
  end.
Definition consistent (s : PauseState) : Prop := is_Some (paused_at (timing s)) ↔ paused s = true.
Definition section_inv (p : pc) (s : PauseState) : Prop :=
  match p with
  | PauseResident | PauseStamp => paused s = true ∧ paused_at (timing s) = None
  | ResumeResident _ | ResumeSettle _ => paused s = false ∧ is_Some (paused_at (timing s))
  | _ => consistent s
  end.
Definition evicting (p : pc) : bool :=
  match p with EvictResident | EvictCancel => true | _ => false end.

Record MachineInv (m : Machine) : Prop := {
  minv_free : locked (cell m) = false →
              consistent (st (cell m)) ∧ ∀ i p, threads m !! i = Some p → in_section p = false;
  minv_section : ∀ i p, threads m !! i = Some p → in_section p = true → section_inv p (st (cell m));
  minv_unique : ∀ i j p q, threads m !! i = Some p → threads m !! j = Some q →
                in_section p = true → in_section q = true → i = j;
  minv_evicted : evicted (st (cell m)) = true →
                 cancelled_flag (st (cell m)) = true ∨ ∃ i p, threads m !! i = Some p ∧ evicting p = true;
}.

(** One step, seen from the lock: it takes it, keeps it, releases it, or stays
    outside and leaves the pause flag and the timing alone. *)
Lemma token_step_section v w p c p' c' :
  token_step v w p c = Some (p', c') →
  (in_section p = false → in_section p' = true →
     locked c = false ∧ locked c' = true ∧ st c' = st c ∧ section_inv p' = consistent)
  ∧ (in_section p = false → in_section p' = false →
     locked c' = locked c ∧ paused (st c') = paused (st c) ∧ timing (st c') = timing (st c))
  ∧ (in_section p = true → section_inv p (st c) →
     section_inv p' (st c')
     ∧ (in_section p' = true → locked c' = locked c)
     ∧ (in_section p' = false → locked c' = false ∧ consistent (st c'))).
Proof.
  unfold token_step. intros Hs.
  repeat case_match; simplify_eq; cbn; (split_and!; [try done..|]); try (intros; by split_and!).
  all: unfold consistent, after_state, settle, stamp in *; repeat case_match; cbn in *; try naive_solver.
  - intros _ Hc. split_and!; [done| |done|done]. apply eq_None_not_Some. rewrite Hc. congruence.
  - intros _ [-> _]. split_and!; [|done|done]. split; [by intros [? ?]|done].
Qed.

Lemma token_step_evicts v w p c p' c' :
  token_step v w p c = Some (p', c') →
  (evicted (st c) = true → evicted (st c') = true)
  ∧ (cancelled_flag (st c) = true → cancelled_flag (st c') = true)
  ∧ (evicted (st c') = true → evicted (st c) = true ∨ evicting p' = true)
  ∧ (evicting p = true → cancelled_flag (st c') = true ∨ evicting p' = true).
Proof.
  unfold token_step, settle, stamp, after_state. intros Hs. repeat case_match; simplify_eq; cbn; naive_solver.
Qed.

(** A thread inside the section is not disturbed by another thread's step. *)
Lemma step_others v w i p m p' c j q :
  MachineInv m → threads m !! i = Some p → token_step v w p (cell m) = Some (p', c) →
  j ≠ i → threads m !! j = Some q → in_section q = true →
  locked (cell m) = true ∧ in_section p = false ∧ in_section p' = false ∧ section_inv q (st c).
Proof.
  intros [If Is Iu _] Hi Hp Hj Hq Hsec.
  pose proof (token_step_section _ _ _ _ _ _ Hp) as (Hacq & Hout & _).
  assert (Hl : locked (cell m) = true).
  { destruct (locked (cell m)) eqn:Hl; [done|]. destruct (If eq_refl) as [_ Hn]. rewrite (Hn _ _ Hq) in Hsec. done. }
  assert (Hps : in_section p = false).
  { destruct (in_section p) eqn:Hps; [|done]. destruct Hj. by eapply Iu. }
  assert (Hps' : in_section p' = false).
  { destruct (in_section p') eqn:E; [|done]. destruct (Hacq Hps eq_refl) as (? & _). congruence. }
  destruct (Hout Hps Hps') as (_ & E1 & E2). split_and!; [done..|].
  pose proof (Is _ _ Hq Hsec) as Hsi. unfold section_inv, consistent in *. destruct q; by rewrite ?E1, ?E2.
Qed.

(** If the lock is free after a step, the stepping thread is outside. *)
Lemma step_free v w i p m p' c :
  MachineInv m → threads m !! i = Some p → token_step v w p (cell m) = Some (p', c) →
  locked c = false → in_section p' = false ∧ consistent (st c).
Proof.
  intros [If Is _ _] Hi Hp Hl. pose proof (token_step_section _ _ _ _ _ _ Hp) as (Hacq & Hout & Hin).
  destruct (in_section p) eqn:Hps.
  - destruct (Hin eq_refl (Is _ _ Hi Hps)) as (_ & Hk & Hrel).
    destruct (in_section p') eqn:E; [|split; [done|by apply Hrel]].
    rewrite Hk in Hl by done. destruct (If Hl) as [_ Hn]. rewrite (Hn _ _ Hi) in Hps. done.
  - destruct (in_section p') eqn:E; [destruct (Hacq eq_refl eq_refl) as (_ & ? & _); congruence|].
    destruct (Hout eq_refl eq_refl) as (E0 & E1 & E2). split; [done|]. rewrite E0 in Hl.
    destruct (If Hl) as [Hc _]. unfold consistent in *. by rewrite E1, E2.
Qed.

Lemma step_inv v i w m m' :
  MachineInv m → machine_step v (Step i w) m = Some m' → MachineInv m'.
Proof.
  intros I Hs. cbn in Hs. destruct (threads m !! i) as [p|] eqn:Hi; cbn in Hs; [|done].
  destruct (token_step v w p (cell m)) as [[p' c]|] eqn:Hp; cbn in Hs; simplify_eq.
  pose proof (token_step_section _ _ _ _ _ _ Hp) as (Hacq & Hout & Hin).
  pose proof (token_step_evicts _ _ _ _ _ _ Hp) as (_ & Hcm & Hev & Hec).
  pose proof (λ j q, step_others _ _ _ _ _ _ _ j q I Hi Hp) as Hother.
  pose proof (step_free _ _ _ _ _ _ _ I Hi Hp) as Hfree. destruct I as [If Is Iu Ie].
  assert (Hlen : (i < length (threads m))%nat) by by eapply lookup_lt_Some.
  split; cbn [cell threads].
  - intros Hl. destruct (Hfree Hl) as [Hps' Hc]. split; [done|].
    intros j q. destruct (decide (j = i)) as [->|Hj]; [rewrite list_lookup_insert_eq by done; naive_solver|].
    rewrite list_lookup_insert_ne by done. intros Hq. destruct (in_section q) eqn:Hsec; [|done].
    destruct (Hother j q Hj Hq Hsec) as (Hlk & Hps & _ & _). destruct (Hout Hps Hps') as (E0 & _). congruence.
  - intros j q. destruct (decide (j = i)) as [->|Hj].
    + rewrite list_lookup_insert_eq by done. intros [= <-] Hsec. destruct (in_section p) eqn:Hps.
      * by destruct (Hin eq_refl (Is _ _ Hi Hps)).
      * destruct (Hacq eq_refl Hsec) as (Hl & _ & -> & ->). by apply If.
    + rewrite list_lookup_insert_ne by done. intros Hq Hsec. by destruct (Hother j q Hj Hq Hsec) as (_ & _ & _ & ?).
  - intros j k q r. destruct (decide (j = i)) as [->|Hj], (decide (k = i)) as [->|Hk];
      rewrite ?list_lookup_insert_eq, ?list_lookup_insert_ne by done; intros Hq Hr Hsq Hsr; [done|..]; simplify_eq.
    + destruct (Hother k r Hk Hr Hsr) as (_ & _ & ? & _). congruence.
    + destruct (Hother j q Hj Hq Hsq) as (_ & _ & ? & _). congruence.
    + by eapply Iu.
  - intros He. destruct (Hev He) as [He'|He'].
    + destruct (Ie He') as [Hc|(j & q & Hq & Hevq)]; [left; auto|].
      destruct (decide (j = i)) as [->|Hj].
      * simplify_eq. destruct (Hec Hevq); [by left|right]. exists i, p'. by rewrite list_lookup_insert_eq.
      * right. exists j, q. by rewrite list_lookup_insert_ne.
    + right. exists i, p'. by rewrite list_lookup_insert_eq.
Qed.

Lemma start_inv v p m m' :
  MachineInv m → machine_step v (Start p) m = Some m' → MachineInv m'.
Proof.
  intros [If Is Iu Ie] Hs. cbn in Hs. destruct (entry_point p) eqn:Hp; simplify_eq.
  assert (Hn : in_section p = false ∧ evicting p = false) by by destruct p.
  destruct Hn as [Hn _]. split; cbn [cell threads].
  - intros Hl. destruct (If Hl) as [Hc Ho]. split; [done|].
    intros j q [Hq|[_ ->]]%lookup_snoc_cases; [by eapply Ho|done].
  - intros j q [Hq|[_ ->]]%lookup_snoc_cases Hsec; [by eapply Is|congruence].
  - intros j k q r [Hq|[_ ->]]%lookup_snoc_cases [Hr|[_ ->]]%lookup_snoc_cases Hsq Hsr;
      [by eapply Iu|congruence..].
  - intros He. destruct (Ie He) as [?|(j & q & Hq & Hx)]; [by left|right].
    exists j, q. split; [|done]. by apply lookup_app_l_Some.
Qed.

Lemma machine_step_inv v e m m' : MachineInv m → machine_step v e m = Some m' → MachineInv m'.
Proof.
  destruct e; [apply start_inv|apply step_inv|..]; intros [If Is Iu Ie] Hs; cbn in Hs;
    try case_match; simplify_eq; split; done.
Qed.

Lemma machine_run_inv v l m m' : MachineInv m → machine_run v l m = Some m' → MachineInv m'.
Proof.
  revert m. induction l as [|e l IH]; intros m I Hr; cbn in Hr; [by simplify_eq|].
  destruct (machine_step v e m) as [m1|] eqn:He; cbn in Hr; [|done].
  eapply IH; [by eapply machine_step_inv|done].
Qed.

Lemma machine_new_inv t : MachineInv (machine_new t).
Proof. split; cbn; try done. intros _. split; [|done]. split; [by intros [? ?]|done]. Qed.

Lemma machine_step_evicted v e m m' :
  machine_step v e m = Some m' → evicted (st (cell m)) = true → evicted (st (cell m')) = true.
Proof.
  intros Hs He. destruct e; cbn in Hs; try case_match; simplify_eq; try done.
  destruct (threads m !! i) as [p|]; cbn in Hs; [|done].
  destruct (token_step v w p (cell m)) as [[p' c]|] eqn:Hp; cbn in Hs; simplify_eq.
  by apply token_step_evicts in Hp as (Hm & _); apply Hm.
Qed.

(** However pauses, resumes, cancellations, drops, epochs and evictions
    interleave, whenever the timing mutex is free the open pause interval and
    the pause flag agree, so the paused time measured from it is that of the
    pauses in force; and two critical sections never overlap. *)
Theorem pause_timing_consistent v t l m :
  machine_run v l (machine_new t) = Some m →
  (locked (cell m) = false → consistent (st (cell m)))
  ∧ ∀ i j p q, threads m !! i = Some p → threads m !! j = Some q →
      in_section p = true → in_section q = true → i = j.
Proof.
  intros Hr. destruct (machine_run_inv _ _ _ _ (machine_new_inv t) Hr) as [If _ Iu _].
  split; [by intros [? _]%If|done].
Qed.

(** C34: eviction is final and complete: once an invocation is evicted it is
    reported as evicted in every later state, its cancellation is requested
    unless the eviction is still under way, and pause and resume calls that
    begin afterwards are refused. *)
Theorem eviction_final v t l m l' m' finished w c k :
  machine_run v l (machine_new t) = Some m →
  evicted (st (cell m)) = true →
  machine_run v l' m = Some m' →
  running_state finished (st (cell m')) = Evicted
  ∧ (cancelled_flag (st (cell m')) = true
     ∨ ∃ i p, threads m' !! i = Some p ∧ (p = EvictResident ∨ p = EvictCancel))
  ∧ (k ≠ CmdState → st c = st (cell m') →
     token_step v w (LoadEvicted k) c = Some (Answer (Err IdleEvicted), c)).
Proof.
  intros Hr He Hr'. assert (I : MachineInv m) by by eapply machine_run_inv, Hr; apply machine_new_inv.
  pose proof (machine_run_inv _ _ _ _ I Hr') as [_ _ _ Ie].
  assert (He' : evicted (st (cell m')) = true).
  { clear -He Hr'. revert m He Hr'. induction l' as [|e l' IH]; intros m He Hr; cbn in Hr; [by simplify_eq|].
    destruct (machine_step v e m) as [m1|] eqn:Hs; cbn in Hr; [|done].
    eapply IH; [by eapply machine_step_evicted|done]. }
  unfold running_state. rewrite He'. split_and!; [done| |].
  - destruct (Ie He') as [?|(i & p & Hp & Hx)]; [by left|right]. exists i, p. split; [done|]. destruct p; auto; done.
  - intros Hk Hc. cbn. rewrite Hc, He'. by destruct k.
Qed.

(** ** Concrete instances *)

Module PauseExample.
Definition call : Invocation :=
  {| call_timeout := 100; call_started := 0; call_baseline := 0; resident_ttl := 10 |}.
Definition history : list (Z * timed_op) :=
  [(5, OpPause); (2, OpPause); (8, OpResume); (1, OpResume); (4, OpCallback 100 0 0 10)].

Lemma total_paused_exact_witness :
  (timed_run (0, pause_new) history).1 = 20
  ∧ total_paused 23 (timed_run (0, pause_new) history).2 = 10.
Proof.
  refine (total_paused_exact 0 history 3 _ _ _ _); [done| |done|by vm_compute].
  repeat constructor; cbn; lia.
Defined.

Lemma epoch_callback_counts_running_time_witness :
  (epoch_callback 13 0 0 10 23 (timed_run (0, pause_new) history).2).2 = Interrupt true.
Proof.
  refine (epoch_callback_counts_running_time 13 0 history 2 3 _ _ _ _); [done| |done|by vm_compute].
  repeat constructor; cbn; lia.
Defined.

Definition steps (i n : nat) : list event := repeat (Step i Notified) n.
Definition run (l : list event) : option Machine := machine_run call l (machine_new 0).
Definition summary (m : Machine) : bool * bool * bool * InvocationState * list pc :=
  (paused (st (cell m)), resident (st (cell m)), evicted (st (cell m)),
   running_state false (st (cell m)), threads m).

(** Pause, park at an epoch, expire, evict. *)
Definition to_eviction : list event :=
  [Start (LoadEvicted CmdPause)] ++ steps 0 9 ++ [Start Epoch] ++ steps 1 12
  ++ [Tick 10; Step 1 SleepElapsed] ++ steps 1 4.
Definition evicted_machine : Machine := default (machine_new 0) (run to_eviction).

Lemma pause_timing_consistent_witness :
  locked (cell evicted_machine) = false ∧ consistent (st (cell evicted_machine)).
Proof.
  split; [by vm_compute|].
  refine (proj1 (pause_timing_consistent call 0 to_eviction evicted_machine _) _); by vm_compute.
Defined.

Lemma eviction_final_witness :
  running_state true (st (cell evicted_machine)) = Evicted
  ∧ (cancelled_flag (st (cell evicted_machine)) = true
     ∨ ∃ i p, threads evicted_machine !! i = Some p ∧ (p = EvictResident ∨ p = EvictCancel))
  ∧ (CmdResume ≠ CmdState → st (cell evicted_machine) = st (cell evicted_machine) →
     token_step call Notified (LoadEvicted CmdResume) (cell evicted_machine)
     = Some (Answer (Err IdleEvicted), cell evicted_machine)).
Proof.
  refine (eviction_final call 0 to_eviction evicted_machine [] evicted_machine true Notified
            (cell evicted_machine) CmdResume _ _ _); by vm_compute.
Defined.

(** A call that is paused when the callback reads the paused time, and whose
    thread does not run again until much later, is interrupted as timed out
    although it was never running. *)
Example paused_reported_timed_out :
  summary <$> run ([Start (LoadEvicted CmdPause)] ++ steps 0 9 ++ [Start Epoch] ++ steps 1 2
                    ++ [Tick 100] ++ steps 1 2)
  = Some (true, false, false, PauseRequested, [Answer (Ok tt); Interrupted true]).
Proof. vm_compute. reflexivity. Qed.

(** A resume between the check and the store of [mark_resident] leaves a
    running invocation reported as paused. *)
Example resumed_reported_paused :
  summary <$> run ([Start (LoadEvicted CmdPause)] ++ steps 0 9 ++ [Start Epoch] ++ steps 1 7
                    ++ [Start (LoadEvicted CmdResume)] ++ steps 2 10 ++ steps 1 2)
  = Some (false, true, false, PausedResident, [Answer (Ok tt); Epoch; Answer (Ok tt)]).
Proof. vm_compute. reflexivity. Qed.

(** A resume that passed its eviction check succeeds although the invocation
    is evicted before it takes the lock. *)
Example resume_ok_after_eviction :
  summary <$> run ([Start (LoadEvicted CmdPause)] ++ steps 0 9 ++ [Start Epoch] ++ steps 1 12 ++ [Tick 10]
                    ++ [Start (LoadEvicted CmdResume)] ++ steps 2 4
                    ++ [Step 1 SleepElapsed] ++ steps 1 4 ++ steps 2 5)
  = Some (false, false, true, Evicted, [Answer (Ok tt); Epoch; Answer (Ok tt)]).
Proof. vm_compute. reflexivity. Qed.
End PauseExample.
