(* ===== verification/Wakeups.v ===== *)
(** Waiting and waking ([src/src/types.rs]: [CancellationToken::cancel] and
    [cancelled], [PauseToken::wait], [resume], [mark_resident], [evict]).

    [Pause] lets a waiter wake at any time.  Here the two [Notify] objects are
    explicit: [notified()] remembers how many [notify_waiters] calls came
    before it and completes once there was another one, as tokio documents.
    Every call of [notify_waiters] is a step of its own, between the steps of
    the other threads.  The machine refines the one of [Pause], so what is
    proved there holds here, and no wake-up is lost: a waiter that sleeps on
    after a resume or a cancellation sleeps only until the notification that
    is still under way. *)
From S2P Require Import Prelude Errors Types Pause.

Local Open Scope Z_scope.

(** ** Threads *)

(** A thread that runs the operations of [Pause], with the points the wait
    loop and the notifications add.  [g] and [k] are the tickets of the
    [notified()] futures of the pause and of the cancellation. *)
Inductive wpc :=
| At (p : pc)
| NotifyPause (next : wpc)
| NotifyCancel (next : wpc)
| WaitStart
| InWait (g : Z) (p : pc)
| SelectStart (g deadline : Z)
| SelectCheck (g deadline k : Z)
| Parked (g deadline k : Z).

(** A task in [CancellationToken::cancelled]. *)
Inductive cpc := CStart | CCheck (k : Z) | CParked (k : Z) | CReturned.

Record Signals := { wcell : Cell; pause_calls : Z; cancel_calls : Z }.
Definition set_cell c (s : Signals) : Signals :=
  {| wcell := c; pause_calls := pause_calls s; cancel_calls := cancel_calls s |}.
Definition cancelled_now (s : Signals) : bool := cancelled_flag (st (wcell s)).

(** The points of [Pause] that belong to the body of the wait loop. *)
Definition wait_point (p : pc) : bool :=
  match p with
  | WaitPaused | WaitCancelled | WaitLock | WaitRemaining | WaitSelect _ => true
  | _ => false
  end.

(** Where a step of [Pause] leads: stores that wake waiters are followed by
    their notifications. *)
Definition continue (p p' : pc) : wpc :=
  match p with
  | CancelStore _ => NotifyCancel (At p')
  | ResumeSettle _ => NotifyPause (At p')
  | MarkStore => NotifyPause WaitStart
  | EvictCancel => NotifyCancel (NotifyPause (At p'))
  | _ => if wait_point p' then WaitStart else At p'
  end.
Definition continue_wait (g : Z) (p' : pc) : wpc :=
  match p' with
  | WaitSelect deadline => SelectStart g deadline
  | _ => if wait_point p' then InWait g p' else At p'
  end.

(** The branches of [select!] that do not depend on the cancellation; [None]
    when the chosen one is not ready. *)
Definition select_other (w : wake) (g deadline : Z) (s : Signals) : option wpc :=
  match w with
  | Notified => if g =? pause_calls s then None else Some WaitStart
  | SleepElapsed => if deadline <=? clock (wcell s) then Some (At WaitExpired) else None
  | CancelledReady => None
  end.

Definition wake_step (v : Invocation) (w : wake) (t : wpc) (s : Signals) : option (wpc * Signals) :=
  match t with
  | At p =>
      if wait_point p then None
      else '(p', c) ← token_step v w p (wcell s); Some (continue p p', set_cell c s)
  | NotifyPause next =>
      Some (next, {| wcell := wcell s; pause_calls := pause_calls s + 1; cancel_calls := cancel_calls s |})
  | NotifyCancel next =>
      Some (next, {| wcell := wcell s; pause_calls := pause_calls s; cancel_calls := cancel_calls s + 1 |})
  | WaitStart => Some (InWait (pause_calls s) WaitPaused, s)
  | InWait g p =>
      match p with
      | WaitPaused | WaitCancelled | WaitLock | WaitRemaining =>
          '(p', c) ← token_step v w p (wcell s); Some (continue_wait g p', set_cell c s)
      | _ => None
      end
  | SelectStart g deadline =>
      match w with
      | CancelledReady => Some (SelectCheck g deadline (cancel_calls s), s)
      | _ => t' ← select_other w g deadline s; Some (t', s)
      end
  | SelectCheck g deadline k =>
      Some (if cancelled_now s then At Epoch else Parked g deadline k, s)
  | Parked g deadline k =>
      match w with
      | CancelledReady => if k =? cancel_calls s then None else Some (SelectStart g deadline, s)
      | _ => t' ← select_other w g deadline s; Some (t', s)
      end
  end.

(** [CancellationToken::cancelled]. *)
Definition cancelled_step (c : cpc) (s : Signals) : option cpc :=
  match c with
  | CStart => Some (CCheck (cancel_calls s))
  | CCheck k => Some (if cancelled_now s then CReturned else CParked k)
  | CParked k => if k =? cancel_calls s then None else Some CStart
  | CReturned => None
  end.

(** ** The machine *)

Inductive wake_event :=
| WStart (p : pc)
| WStep (i : nat) (w : wake)
| CSpawn
| CStep (i : nat)
| WTick (d : Z)
| WTaskDone.

Record WakeMachine := { signals : Signals; wthreads : list wpc; cwaiters : list cpc }.

(** The event of [Pause]'s machine for time and completion. *)
Definition with_event (v : Invocation) (e : event) (m : WakeMachine) : option WakeMachine :=
  m' ← machine_step v e {| cell := wcell (signals m); threads := [] |};
  Some {| signals := set_cell (cell m') (signals m); wthreads := wthreads m; cwaiters := cwaiters m |}.

Definition wake_machine_step (v : Invocation) (e : wake_event) (m : WakeMachine) : option WakeMachine :=
  match e with
  | WStart p =>
      if entry_point p then
        Some {| signals := signals m; wthreads := wthreads m ++ [At p]; cwaiters := cwaiters m |}
      else None
  | WStep i w =>
      t ← wthreads m !! i;
      '(t', s) ← wake_step v w t (signals m);
      Some {| signals := s; wthreads := <[i := t']> (wthreads m); cwaiters := cwaiters m |}
  | CSpawn => Some {| signals := signals m; wthreads := wthreads m; cwaiters := cwaiters m ++ [CStart] |}
  | CStep i =>
      c ← cwaiters m !! i;
      c' ← cancelled_step c (signals m);
      Some {| signals := signals m; wthreads := wthreads m; cwaiters := <[i := c']> (cwaiters m) |}
  | WTick d => with_event v (Tick d) m
  | WTaskDone => with_event v TaskDone m
  end.
Fixpoint wake_run (v : Invocation) (l : list wake_event) (m : WakeMachine) : option WakeMachine :=
  match l with
  | [] => Some m
  | e :: l' => m' ← wake_machine_step v e m; wake_run v l' m'
  end.
Definition wake_new (t : Z) : WakeMachine :=
  {| signals := {| wcell := cell (machine_new t); pause_calls := 0; cancel_calls := 0 |};
     wthreads := []; cwaiters := [] |}.

(** ** The machine refines the one of [Pause] *)

Fixpoint view (t : wpc) : pc :=
  match t with
  | At p | InWait _ p => p
  | NotifyPause next | NotifyCancel next => view next
  | WaitStart => WaitPaused
  | SelectStart _ d | SelectCheck _ d _ | Parked _ d _ => WaitSelect d
  end.
Definition machine_view (m : WakeMachine) : Machine :=
  {| cell := wcell (signals m); threads := view <$> wthreads m |}.

Lemma view_continue p p' w v c c' :
  wait_point p = false → token_step v w p c = Some (p', c') → view (continue p p') = p'.
Proof.
  intros Hw Hs. destruct p; try done; cbn in Hs |- *; unfold after_state in *; repeat case_match; simplify_eq; done.
Qed.
Lemma view_continue_wait g p p' w v c c' :
  wait_point p = true → token_step v w p c = Some (p', c') → view (continue_wait g p') = p'.
Proof. intros Hw Hs. destruct p; try done; cbn in Hs |- *; repeat case_match; simplify_eq; done. Qed.

(** Every step is one of [Pause] or leaves its view alone. *)
Lemma wake_step_view v w t s t' s' :
  wake_step v w t s = Some (t', s') →
  token_step v w (view t) (wcell s) = Some (view t', wcell s')
  ∨ view t' = view t ∧ wcell s' = wcell s
  ∨ token_step v CancelledReady (view t) (wcell s) = Some (view t', wcell s').
Proof.
  destruct t as [p|n|n| |g p|g d|g d k|g d k]; cbn [wake_step view]; intros Hs; simplify_eq/=; auto.
  - destruct (wait_point p) eqn:Hp; [done|].
    destruct (token_step v w p (wcell s)) as [[p' c]|] eqn:Ht; simplify_eq/=.
    left. by rewrite (view_continue _ _ _ _ _ _ Hp Ht).
  - destruct (match p with WaitPaused => _ | _ => _ end) as [[p1 s1]|] eqn:Hm; [|done]. simplify_eq.
    assert (wait_point p = true ∧
      ('(p', c) ← token_step v w p (wcell s); Some (continue_wait g p', set_cell c s)) = Some (t', s'))
      as [Hp Ht] by by destruct p.
    destruct (token_step v w p (wcell s)) as [[p' c]|] eqn:Hs; simplify_eq/=.
    left. by rewrite (view_continue_wait _ _ _ _ _ _ _ Hp Hs).
  - destruct w; cbn in Hs; repeat case_match; simplify_eq/=; auto.
  - unfold cancelled_now. destruct (cancelled_flag _) eqn:Hc; cbn; [|auto]. right; right. done.
  - destruct w; cbn in Hs; repeat case_match; simplify_eq/=; auto.
Qed.

Lemma wake_machine_step_view v e m m' :
  wake_machine_step v e m = Some m' →
  machine_view m' = machine_view m ∨ ∃ e', machine_step v e' (machine_view m) = Some (machine_view m').
Proof.
  destruct e as [p|i w| |i|d|]; cbn [wake_machine_step]; intros Hs.
  - destruct (entry_point p) eqn:Hp; simplify_eq. right. exists (Start p). cbn. rewrite Hp.
    unfold machine_view. cbn. by rewrite fmap_app.
  - destruct (wthreads m !! i) as [t|] eqn:Hi; [|done]. cbn in Hs.
    destruct (wake_step v w t (signals m)) as [[t' s]|] eqn:Ht; simplify_eq/=.
    assert (∀ w', token_step v w' (view t) (wcell (signals m)) = Some (view t', wcell s) →
      machine_step v (Step i w') (machine_view m) =
        Some (machine_view {| signals := s; wthreads := <[i := t']> (wthreads m); cwaiters := cwaiters m |})) as Hstep.
    { intros w' Hw. unfold machine_view. cbn. rewrite list_lookup_fmap, Hi. cbn. rewrite Hw. cbn.
      by rewrite list_fmap_insert. }
    apply wake_step_view in Ht as [Ht|[[Hv Hc]|Ht]]; [by eauto| |by eauto]. left.
    unfold machine_view. cbn. rewrite list_fmap_insert, Hv, Hc, list_insert_id; [done|].
    by rewrite list_lookup_fmap, Hi.
  - simplify_eq. by left.
  - destruct (cwaiters m !! i) as [c|]; [|done]. cbn in Hs. destruct (cancelled_step c _); simplify_eq/=. by left.
  - right. exists (Tick d). unfold with_event in Hs. cbn in *. destruct (0 <=? d); by simplify_eq/=.
  - right. exists TaskDone. unfold with_event in Hs. cbn in *. by simplify_eq/=.
Qed.

(** The properties of [Pause] that its steps preserve hold of the view. *)
Lemma wake_run_inv v l m m' :
  MachineInv (machine_view m) → wake_run v l m = Some m' → MachineInv (machine_view m').
Proof.
  revert m. induction l as [|e l IH]; intros m I; cbn [wake_run]; [by intros [= <-]|].
  destruct (wake_machine_step v e m) as [m1|] eqn:Hs; [|done]. cbn. apply IH.
  apply wake_machine_step_view in Hs as [->|[e' He]]; [done|by eapply machine_step_inv].
Qed.

(** ** Tickets *)

(** The ticket of a waiter that has seen the pause in force. *)
Definition pause_ticket (t : wpc) : option Z :=
  match t with
  | InWait g WaitPaused => None
  | InWait g _ | SelectStart g _ | SelectCheck g _ _ | Parked g _ _ => Some g
  | _ => None
  end.
(** The ticket of a waiter that has seen the token uncancelled. *)
Definition cancel_ticket (t : wpc) : option Z :=
  match t with Parked _ _ k => Some k | _ => None end.
Definition waiter_ticket (c : cpc) : option Z :=
  match c with CParked k => Some k | _ => None end.

(** A resume or a cancellation has stored its flag and not yet notified. *)
Definition resume_pending (t : wpc) : bool :=
  match t with
  | At (ResumeResident _ | ResumeSettle _) | NotifyPause _ => true
  | _ => false
  end.
Definition cancel_pending (t : wpc) : bool := match t with NotifyCancel _ => true | _ => false end.
Definition under_way (f : wpc → bool) (m : WakeMachine) : Prop := ∃ i t, wthreads m !! i = Some t ∧ f t = true.

(** Steps the task can still take once it is cancelled. *)
Definition point_rank (p : pc) : nat :=
  match p with
  | EpochCancelled _ => 1 | EpochEvicted _ => 2 | EpochTotal => 3 | Epoch => 4
  | EvictCancel => 7 | EvictResident => 8 | EvictStore => 9 | WaitExpired => 10
  | WaitCancelled => 11 | WaitPaused => 12 | MarkStore => 15 | MarkEvicted => 16
  | MarkPaused | WaitRemaining => 17 | EpochPaused | WaitLock => 18
  | _ => 0
  end.
Fixpoint stop_rank (t : wpc) : nat :=
  match t with
  | At p | InWait _ p => point_rank p
  | NotifyPause next | NotifyCancel next => S (stop_rank next)
  | WaitStart => 13 | SelectCheck _ _ _ => 14 | SelectStart _ _ => 15 | Parked _ _ _ => 16
  end.

(** A notification is followed by points without tickets, at most by the
    start of the wait loop. *)
Fixpoint ticketless (t : wpc) : bool :=
  match t with
  | At p => negb (wait_point p)
  | WaitStart => true
  | NotifyPause next | NotifyCancel next => ticketless next && (stop_rank next <=? 13)%nat
  | _ => false
  end.
(** The points of the loop body before [select!]. *)
Definition loop_point (p : pc) : bool :=
  match p with WaitPaused | WaitCancelled | WaitLock | WaitRemaining => true | _ => false end.
(** Every ticket a thread holds is at most the current count. *)
Definition ticket_bound (t : wpc) (s : Signals) : Prop :=
  match t with
  | InWait g p => g ≤ pause_calls s ∧ loop_point p = true
  | SelectStart g _ => g ≤ pause_calls s
  | SelectCheck g _ k | Parked g _ k => g ≤ pause_calls s ∧ k ≤ cancel_calls s
  | _ => ticketless t = true
  end.
Definition waiter_bound (c : cpc) (s : Signals) : Prop :=
  match c with CCheck k | CParked k => k ≤ cancel_calls s | _ => True end.

Record WakeInv (m : WakeMachine) : Prop := {
  winv_bound : ∀ i t, wthreads m !! i = Some t → ticket_bound t (signals m);
  winv_waiters : ∀ i c, cwaiters m !! i = Some c → waiter_bound c (signals m);
  winv_pause : ∀ i t g, wthreads m !! i = Some t → pause_ticket t = Some g → g = pause_calls (signals m) →
    paused (st (wcell (signals m))) = true ∨ under_way resume_pending m;
  winv_cancel : ∀ i t k, wthreads m !! i = Some t → cancel_ticket t = Some k → k = cancel_calls (signals m) →
    cancelled_now (signals m) = false ∨ under_way cancel_pending m;
  winv_cancelled : ∀ i c k, cwaiters m !! i = Some c → waiter_ticket c = Some k → k = cancel_calls (signals m) →
    cancelled_now (signals m) = false ∨ under_way cancel_pending m;
}.

(** Only [ResumeSwap] clears the pause, and only two stores cancel. *)
Lemma token_step_flags v w p c p' c' :
  token_step v w p c = Some (p', c') →
  (paused (st c) = true → paused (st c') = false → ∃ r, p' = ResumeResident r ∧ p = ResumeSwap r)
  ∧ (cancelled_flag (st c) = false → cancelled_flag (st c') = true →
     (∃ next, p = CancelStore next) ∨ p = EvictCancel).
Proof.
  unfold token_step, settle, stamp. intros Hs. repeat case_match; simplify_eq; cbn; (split; [try congruence|]);
    try congruence; eauto.
Qed.

Lemma continue_pending p p' v w c c' :
  token_step v w p c = Some (p', c') →
  (resume_pending (At p) = true → resume_pending (continue p p') = true)
  ∧ ((∃ r, p' = ResumeResident r ∧ p = ResumeSwap r) → resume_pending (continue p p') = true)
  ∧ ((∃ next, p = CancelStore next) ∨ p = EvictCancel → cancel_pending (continue p p') = true).
Proof.
  intros Hs. split_and!.
  - destruct p; try done; cbn in *; by simplify_eq.
  - by intros (r & -> & ->).
  - by intros [[next ->]| ->].
Qed.

(** What one step does to the flags and the counts. *)
Record StepSignals (t t' : wpc) (s s' : Signals) : Prop := {
  ss_pause_calls : pause_calls s ≤ pause_calls s';
  ss_cancel_calls : cancel_calls s ≤ cancel_calls s';
  ss_resume : resume_pending t = true → resume_pending t' = true ∨ pause_calls s < pause_calls s';
  ss_cleared : paused (st (wcell s)) = true → paused (st (wcell s')) = false → resume_pending t' = true;
  ss_cancel : cancel_pending t = true → cancel_calls s < cancel_calls s';
  ss_cancelled : cancelled_now s = false → cancelled_now s' = true → cancel_pending t' = true;
}.
Lemma step_signals_quiet t t' s :
  resume_pending t = false → cancel_pending t = false → StepSignals t t' s s.
Proof. intros Hr Hc. split; lia || congruence. Qed.

Lemma wake_step_signals v w t s t' s' : wake_step v w t s = Some (t', s') → StepSignals t t' s s'.
Proof.
  destruct t as [p|n|n| |g p|g d|g d k|g d k]; cbn [wake_step]; intros Hs.
  - destruct (wait_point p) eqn:Hp; [done|].
    destruct (token_step v w p (wcell s)) as [[p' c]|] eqn:Ht; simplify_eq/=.
    destruct (token_step_flags _ _ _ _ _ _ Ht) as [Hpa Hca].
    destruct (continue_pending _ _ _ _ _ _ Ht) as (C1 & C2 & C3).
    split; cbn [wcell pause_calls cancel_calls set_cell cancelled_now]; [lia|lia|auto|auto|done|auto].
  - simplify_eq. split; unfold cancelled_now; cbn; lia || congruence || auto with lia.
  - simplify_eq. split; unfold cancelled_now; cbn; lia || congruence || auto with lia.
  - simplify_eq. by apply step_signals_quiet.
  - assert (wait_point p = true ∧ ∃ p' c, token_step v w p (wcell s) = Some (p', c) ∧ s' = set_cell c s)
      as (Hp & p' & c & Ht & ->).
    { destruct p; try done; (split; [done|]); destruct (token_step _ _ _ _) as [[p' c]|]; simplify_eq/=; eauto. }
    destruct (token_step_flags _ _ _ _ _ _ Ht) as [Hpa Hca].
    split; cbn [wcell pause_calls cancel_calls set_cell cancelled_now]; try lia; try done.
    + intros H1 H2. destruct (Hpa H1 H2) as (r & _ & ->). done.
    + intros H1 H2. destruct (Hca H1 H2) as [[n ->]| ->]; done.
  - assert (s' = s) as -> by (destruct w; cbn in Hs; repeat case_match; by simplify_eq/=).
    by apply step_signals_quiet.
  - simplify_eq. by apply step_signals_quiet.
  - assert (s' = s) as -> by (destruct w; cbn in Hs; repeat case_match; by simplify_eq/=).
    by apply step_signals_quiet.
Qed.

Lemma continue_ticketless v w p c p' c' :
  token_step v w p c = Some (p', c') → ticketless (continue p p') = true.
Proof.
  intros Hs. unfold continue.
  assert (ticketless (if wait_point p' then WaitStart else At p') = true) as Hd
    by (destruct (wait_point p') eqn:E; [done|]; cbn; by rewrite E).
  destruct p; try exact Hd; cbn in *; repeat case_match; by simplify_eq.
Qed.
Lemma stop_rank_bound t s : ticket_bound t s → (stop_rank t <= 18)%nat.
Proof.
  destruct t as [p|n|n| |g p|g d|g d k|g d k]; cbn; try lia.
  - destruct p; cbn; lia.
  - intros [_ Hn%Nat.leb_le]%andb_prop. lia.
  - intros [_ Hn%Nat.leb_le]%andb_prop. lia.
  - destruct p; cbn; lia.
Qed.
Lemma ticketless_spec t s :
  ticketless t = true → ticket_bound t s ∧ pause_ticket t = None ∧ cancel_ticket t = None.
Proof. by destruct t. Qed.
Lemma ticket_bound_mono t s s' :
  pause_calls s ≤ pause_calls s' → cancel_calls s ≤ cancel_calls s' → ticket_bound t s → ticket_bound t s'.
Proof. destruct t; cbn; try done; intros; destruct_and?; split_and?; lia || done. Qed.

(** Tickets are current when they are taken, and the flags are seen after. *)
Lemma wake_step_tickets v w t s t' s' :
  wake_step v w t s = Some (t', s') → ticket_bound t s →
  ticket_bound t' s'
  ∧ (∀ g, pause_ticket t' = Some g → pause_ticket t = Some g ∧ paused (st (wcell s')) = paused (st (wcell s))
       ∨ paused (st (wcell s')) = true)
  ∧ (∀ k, cancel_ticket t' = Some k → cancelled_now s' = false).
Proof.
  intros Hs Hb.
  assert (ticketless t' = true → ticket_bound t' s'
    ∧ (∀ g, pause_ticket t' = Some g → pause_ticket t = Some g ∧ paused (st (wcell s')) = paused (st (wcell s))
       ∨ paused (st (wcell s')) = true)
    ∧ (∀ k, cancel_ticket t' = Some k → cancelled_now s' = false)) as Hless.
  { intros Ht. destruct (ticketless_spec t' s' Ht) as (? & -> & ->). done. }
  destruct t as [p|n|n| |g p|g d|g d k|g d k]; cbn [wake_step] in Hs.
  - destruct (wait_point p) eqn:Hp; [done|].
    destruct (token_step v w p (wcell s)) as [[p' c]|] eqn:Ht; simplify_eq/=.
    apply Hless. by eapply continue_ticketless.
  - simplify_eq. cbn in Hb. apply andb_prop in Hb as [Hb _]. by apply Hless.
  - simplify_eq. cbn in Hb. apply andb_prop in Hb as [Hb _]. by apply Hless.
  - simplify_eq/=. done.
  - destruct p; try done; cbn in Hs; repeat case_match; simplify_eq/=; try (by apply Hless);
      destruct Hb as [Hb _]; (split; [done|split; [|done]]); intros; simplify_eq; auto.
  - destruct w; cbn in Hs; repeat case_match; simplify_eq/=; try (by apply Hless).
    split; [lia|]. split; [auto|done].
  - simplify_eq. destruct (cancelled_now s') eqn:Hc; [by apply Hless|]. cbn in *. auto.
  - destruct w; cbn in Hs; repeat case_match; simplify_eq/=; try (by apply Hless).
    split; [lia|]. split; [auto|done].
Qed.

(** Another thread's step keeps a notification under way or counts it. *)
Lemma under_way_step f m i t t' s :
  wthreads m !! i = Some t → under_way f m → (f t = true → f t' = true) →
  under_way f {| signals := s; wthreads := <[i := t']> (wthreads m); cwaiters := cwaiters m |}.
Proof.
  intros Hi (j & u & Hj & Hu) Hf. destruct (decide (j = i)) as [->|Hne].
  - simplify_eq. exists i, t'. cbn. rewrite list_lookup_insert_eq by by eapply lookup_lt_Some. auto.
  - exists j, u. cbn. by rewrite list_lookup_insert_ne.
Qed.
Lemma under_way_self f m i t t' s :
  wthreads m !! i = Some t → f t' = true →
  under_way f {| signals := s; wthreads := <[i := t']> (wthreads m); cwaiters := cwaiters m |}.
Proof. intros Hi Hf. exists i, t'. cbn. by rewrite list_lookup_insert_eq by by eapply lookup_lt_Some. Qed.

Section step.
Context (v : Invocation) (w : wake) (m : WakeMachine) (i : nat) (t t' : wpc) (s' : Signals).
Context (I : WakeInv m) (Hi : wthreads m !! i = Some t) (Hstep : wake_step v w t (signals m) = Some (t', s')).
Let m' : WakeMachine := {| signals := s'; wthreads := <[i := t']> (wthreads m); cwaiters := cwaiters m |}.

(** A waiter that the old state justified is justified in the new one. *)
Lemma pause_justified g :
  g ≤ pause_calls (signals m) → g = pause_calls s' →
  paused (st (wcell (signals m))) = true ∨ under_way resume_pending m →
  paused (st (wcell s')) = true ∨ under_way resume_pending m'.
Proof.
  intros Hle Hg Hj. destruct (wake_step_signals _ _ _ _ _ _ Hstep) as [Hpc _ Hr Hcl _ _].
  destruct Hj as [Hp|Hu].
  - destruct (paused (st (wcell s'))) eqn:Hp'; [by left|right]. by eapply under_way_self; [|apply Hcl].
  - right. eapply under_way_step; [done|done|]. intros Ht. destruct (Hr Ht); [done|lia].
Qed.
Lemma cancel_justified k :
  k ≤ cancel_calls (signals m) → k = cancel_calls s' →
  cancelled_now (signals m) = false ∨ under_way cancel_pending m →
  cancelled_now s' = false ∨ under_way cancel_pending m'.
Proof.
  intros Hle Hk Hj. destruct (wake_step_signals _ _ _ _ _ _ Hstep) as [_ Hcc _ _ Hc Hca].
  destruct Hj as [Hn|Hu].
  - destruct (cancelled_now s') eqn:Hn'; [right|by left]. by eapply under_way_self; [|apply Hca].
  - right. eapply under_way_step; [done|done|]. intros Ht. pose proof (Hc Ht). lia.
Qed.

Lemma pause_ticket_bound u g s : pause_ticket u = Some g → ticket_bound u s → g ≤ pause_calls s.
Proof. destruct u as [| | | |? []| | |]; cbn; intros; simplify_eq; lia || done. Qed.
Lemma cancel_ticket_bound u k s : cancel_ticket u = Some k → ticket_bound u s → k ≤ cancel_calls s.
Proof. destruct u; cbn; intros; simplify_eq; lia. Qed.

Lemma step_wake_inv : WakeInv m'.
Proof.
  destruct I as [Ib Iw Ip Ic Ik]. pose proof (Ib _ _ Hi) as Hb.
  destruct (wake_step_tickets _ _ _ _ _ _ Hstep Hb) as (Hb' & Htp & Htc).
  destruct (wake_step_signals _ _ _ _ _ _ Hstep) as [Hpc Hcc _ _ _ _].
  assert (∀ j u, <[i := t']> (wthreads m) !! j = Some u → u = t' ∧ j = i ∨ wthreads m !! j = Some u) as Hcase.
  { intros j u [(-> & -> & _)|[? ?]]%list_lookup_insert_Some; auto. }
  unfold m'. split; cbn [signals cwaiters wthreads]; fold m'.
  - intros j u [[-> _]|Hu]%Hcase; [done|]. by eapply ticket_bound_mono; [| |eapply Ib].
  - intros j c Hc. pose proof (Iw j c Hc). destruct c; cbn in *; lia || done.
  - intros j u g [[-> ->]|Hu]%Hcase Hg Heq.
    + destruct (Htp g Hg) as [[Hg0 Hp]|]; [|by left].
      eapply pause_justified; [by eapply pause_ticket_bound|done|]. eapply Ip; [done|done|].
      pose proof (pause_ticket_bound _ _ _ Hg0 Hb). lia.
    + pose proof (pause_ticket_bound _ _ _ Hg (Ib _ _ Hu)).
      eapply pause_justified; [done|done|]. eapply Ip; [done|done|lia].
  - intros j u k [[-> ->]|Hu]%Hcase Hk Heq; [left; by eapply Htc|].
    pose proof (cancel_ticket_bound _ _ _ Hk (Ib _ _ Hu)).
    eapply cancel_justified; [done|done|]. eapply Ic; [done|done|lia].
  - intros j c k Hc Hk Heq. pose proof (Iw j c Hc) as Hwb. destruct c; cbn in Hk; simplify_eq. cbn in Hwb.
    eapply cancel_justified; [done|done|]. eapply Ik; [done|done|lia].
Qed.
End step.

(** The invariant speaks of the flags, the counts and the threads only. *)
Lemma wake_inv_same m m' :
  WakeInv m → wthreads m' = wthreads m → cwaiters m' = cwaiters m →
  st (wcell (signals m')) = st (wcell (signals m)) →
  pause_calls (signals m') = pause_calls (signals m) →
  cancel_calls (signals m') = cancel_calls (signals m) → WakeInv m'.
Proof.
  intros [Ib Iw Ip Ic Ik] Ht Hc Hs Hp Hk.
  split; unfold under_way, cancelled_now in *; rewrite ?Ht, ?Hc, ?Hs, ?Hp, ?Hk in *; try done.
  - intros i t Hi. apply (ticket_bound_mono t (signals m)); [lia|lia|by eapply Ib].
  - intros i c Hi. pose proof (Iw i c Hi). destruct c; cbn in *; lia || done.
Qed.

Lemma under_way_snoc f m p :
  under_way f m →
  under_way f {| signals := signals m; wthreads := wthreads m ++ [p]; cwaiters := cwaiters m |}.
Proof. intros (i & t & Hi & Ht). exists i, t. split; [by apply lookup_app_l_Some|done]. Qed.

Lemma start_wake_inv m p :
  WakeInv m → entry_point p = true →
  WakeInv {| signals := signals m; wthreads := wthreads m ++ [At p]; cwaiters := cwaiters m |}.
Proof.
  intros [Ib Iw Ip Ic Ik] Hp. split; cbn [signals wthreads cwaiters].
  - intros i t [Hi|[_ ->]]%lookup_snoc_cases; [by eapply Ib|by destruct p].
  - done.
  - intros i t g [Hi|[_ ->]]%lookup_snoc_cases Hg Heq; [|done].
    destruct (Ip i t g Hi Hg Heq); [by left|right; by apply under_way_snoc].
  - intros i t k [Hi|[_ ->]]%lookup_snoc_cases Hk Heq; [|done].
    destruct (Ic i t k Hi Hk Heq); [by left|right; by apply under_way_snoc].
  - intros i c k Hi Hk Heq. destruct (Ik i c k Hi Hk Heq); [by left|right; by apply under_way_snoc].
Qed.

(** A new or advanced task in [cancelled]. *)
Lemma waiter_wake_inv m l :
  WakeInv m →
  (∀ i c, l !! i = Some c → cwaiters m !! i = Some c ∨ waiter_bound c (signals m) ∧
     (∀ k, waiter_ticket c = Some k → cancelled_now (signals m) = false)) →
  WakeInv {| signals := signals m; wthreads := wthreads m; cwaiters := l |}.
Proof.
  intros [Ib Iw Ip Ic Ik] Hl. split; cbn [signals wthreads cwaiters]; try done.
  - intros i c [Hc|[Hb _]]%Hl; [by eapply Iw|done].
  - intros i c k [Hc|[_ Hn]]%Hl Hk Heq; [by eapply Ik|left; by eapply Hn].
Qed.

Lemma wake_machine_step_inv v e m m' : WakeInv m → wake_machine_step v e m = Some m' → WakeInv m'.
Proof.
  intros I. destruct e as [p|i w| |i|d|]; cbn [wake_machine_step]; intros Hs.
  - destruct (entry_point p) eqn:Hp; simplify_eq. by apply start_wake_inv.
  - destruct (wthreads m !! i) as [t|] eqn:Hi; [|done]. cbn in Hs.
    destruct (wake_step v w t (signals m)) as [[t' s]|] eqn:Ht; simplify_eq/=. by eapply step_wake_inv.
  - simplify_eq. apply waiter_wake_inv; [done|]. intros i c [Hc|[_ ->]]%lookup_snoc_cases; [by left|by right].
  - destruct (cwaiters m !! i) as [c|] eqn:Hi; [|done]. cbn in Hs.
    destruct (cancelled_step c (signals m)) as [c'|] eqn:Hc; simplify_eq/=.
    apply waiter_wake_inv; [done|].
    intros j u [(-> & -> & _)|[_ Hu]]%list_lookup_insert_Some; [right|by left].
    pose proof (winv_waiters m I _ _ Hi) as Hb.
    destruct c as [|k|k|]; cbn in Hc; repeat case_match; simplify_eq/=; try done.
  - unfold with_event in Hs. cbn in Hs. destruct (0 <=? d); simplify_eq/=. by eapply wake_inv_same.
  - unfold with_event in Hs. cbn in Hs. simplify_eq/=. by eapply wake_inv_same.
Qed.

Lemma wake_run_wake_inv v l m m' : WakeInv m → wake_run v l m = Some m' → WakeInv m'.
Proof.
  revert m. induction l as [|e l IH]; intros m I; cbn [wake_run]; [by intros [= <-]|].
  destruct (wake_machine_step v e m) as [m1|] eqn:Hs; [|done]. cbn. apply IH. by eapply wake_machine_step_inv.
Qed.
Lemma wake_new_inv t : WakeInv (wake_new t).
Proof. by split. Qed.

(** ** Nobody sleeps through a signal *)

(** No choice of the scheduler lets the thread take a step. *)
Definition blocked (v : Invocation) (m : WakeMachine) (t : wpc) : Prop :=
  ∀ w, wake_step v w t (signals m) = None.

Lemma parked_blocked v m g d k :
  blocked v m (Parked g d k) →
  g = pause_calls (signals m) ∧ k = cancel_calls (signals m) ∧ clock (wcell (signals m)) < d.
Proof.
  intros Hb. pose proof (Hb Notified) as H1. pose proof (Hb CancelledReady) as H2.
  pose proof (Hb SleepElapsed) as H3. cbn in H1, H2, H3. repeat case_match; simplify_eq/=; lia.
Qed.

(** ** A cancelled command stops *)

(** The points of the invocation's own task: the epoch callback and the wait. *)
Definition guest_point (p : pc) : bool :=
  match p with
  | Interrupted _ | EpochCancelled _ | EpochEvicted _ | EpochTotal | Epoch | EpochPaused
  | EvictCancel | EvictResident | EvictStore | WaitExpired | MarkStore | MarkEvicted | MarkPaused => true
  | _ => false
  end.
Fixpoint guest (t : wpc) : bool :=
  match t with
  | At p => guest_point p
  | NotifyPause next | NotifyCancel next => guest next
  | WaitStart | SelectStart _ _ | SelectCheck _ _ _ | Parked _ _ _ => true
  | InWait _ p => loop_point p
  end.

Lemma guest_step v w t s t' s' :
  guest t = true → cancelled_now s = true → wake_step v w t s = Some (t', s') →
  guest t' = true ∧ (stop_rank t' < stop_rank t)%nat ∧ cancelled_now s' = true.
Proof.
  unfold cancelled_now. intros Hg Hc.
  destruct t as [p|n|n| |g p|g d|g d k|g d k]; cbn [wake_step]; unfold cancelled_now; intros Hs.
  - destruct p; try done; cbn in Hs; repeat case_match; simplify_eq/=; split_and!; done || lia.
  - simplify_eq/=. split_and!; done || lia.
  - simplify_eq/=. split_and!; done || lia.
  - simplify_eq/=. split_and!; done || lia.
  - destruct p; try done; cbn in Hs; repeat case_match; simplify_eq/=; split_and!; done || lia.
  - destruct w; cbn in Hs; repeat case_match; simplify_eq/=; split_and!; done || lia.
  - rewrite Hc in Hs. simplify_eq/=. split_and!; done || lia.
  - destruct w; cbn in Hs; repeat case_match; simplify_eq/=; split_and!; done || lia.
Qed.

(** A cancelled token stays cancelled. *)
Lemma cancelled_stays v e m m' :
  wake_machine_step v e m = Some m' → cancelled_now (signals m) = true → cancelled_now (signals m') = true.
Proof.
  intros Hs Hc. apply wake_machine_step_view in Hs as [Hv|[e' He]].
  - unfold cancelled_now in *. apply (f_equal cell) in Hv. cbn in Hv. by rewrite Hv.
  - unfold cancelled_now in *. destruct e' as [p|i w|d|]; cbn in He.
    + destruct (entry_point p); [|done]. injection He as Hcell _. by rewrite <- Hcell.
    + destruct ((view <$> wthreads m) !! i) as [p|]; [|done]. cbn in He.
      destruct (token_step _ _ _ _) as [[p' c]|] eqn:Ht; [|done]. injection He as Hcell _.
      rewrite <- Hcell. by apply (token_step_evicts _ _ _ _ _ _ Ht).
    + destruct (0 <=? d); [|done]. injection He as Hcell _. by rewrite <- Hcell.
    + injection He as Hcell _. by rewrite <- Hcell.
Qed.

(** Steps of one thread, and of one task in [cancelled], in a run. *)
Definition own_step (i : nat) (e : wake_event) : nat :=
  match e with WStep j _ => if bool_decide (j = i) then 1 else 0 | _ => 0 end.
Definition own_cstep (i : nat) (e : wake_event) : nat :=
  match e with CStep j => if bool_decide (j = i) then 1 else 0 | _ => 0 end.

Definition wait_rank (c : cpc) : nat :=
  match c with CStart => 2 | CCheck _ => 1 | CParked _ => 3 | CReturned => 0 end.

Lemma own_step_rank v e m m' i t :
  wake_machine_step v e m = Some m' → cancelled_now (signals m) = true →
  wthreads m !! i = Some t → guest t = true →
  ∃ t', wthreads m' !! i = Some t' ∧ guest t' = true ∧ (stop_rank t' + own_step i e <= stop_rank t)%nat.
Proof.
  intros Hs Hc Hi Hg. destruct e as [p|j w| |j|d|]; cbn [wake_machine_step own_step] in *.
  - destruct (entry_point p); simplify_eq. exists t. cbn. split_and!; [by apply lookup_app_l_Some|done|lia].
  - destruct (wthreads m !! j) as [u|] eqn:Hj; [|done]. cbn in Hs.
    destruct (wake_step v w u (signals m)) as [[u' s]|] eqn:Hu; simplify_eq/=.
    case_bool_decide as Hji; [subst j; simplify_eq|].
    + destruct (guest_step _ _ _ _ _ _ Hg Hc Hu) as (Hg' & Hr & _). exists u'.
      rewrite list_lookup_insert_eq by by eapply lookup_lt_Some. split_and!; [done|done|lia].
    + exists t. rewrite list_lookup_insert_ne by done. split_and!; [done|done|lia].
  - simplify_eq. exists t. split_and!; [done|done|lia].
  - destruct (cwaiters m !! j); [|done]. cbn in Hs. destruct (cancelled_step _ _); simplify_eq/=.
    exists t. split_and!; [done|done|lia].
  - unfold with_event in Hs. cbn in Hs. destruct (0 <=? d); simplify_eq/=. exists t. split_and!; [done|done|lia].
  - unfold with_event in Hs. cbn in Hs. simplify_eq/=. exists t. split_and!; [done|done|lia].
Qed.

Lemma own_cstep_rank v e m m' i c :
  wake_machine_step v e m = Some m' → cancelled_now (signals m) = true → cwaiters m !! i = Some c →
  ∃ c', cwaiters m' !! i = Some c' ∧ (wait_rank c' + own_cstep i e <= wait_rank c)%nat.
Proof.
  intros Hs Hc Hi. destruct e as [p|j w| |j|d|]; cbn [wake_machine_step own_cstep] in *.
  - destruct (entry_point p); simplify_eq. exists c. split; [done|lia].
  - destruct (wthreads m !! j) as [u|]; [|done]. cbn in Hs. destruct (wake_step _ _ _ _) as [[]|]; simplify_eq/=.
    exists c. split; [done|lia].
  - simplify_eq. exists c. split; [by apply lookup_app_l_Some|lia].
  - destruct (cwaiters m !! j) as [u|] eqn:Hj; [|done]. cbn in Hs.
    destruct (cancelled_step u (signals m)) as [u'|] eqn:Hu; simplify_eq/=.
    case_bool_decide as Hji; [subst j; assert (u = c) as -> by congruence|].
    + exists u'. rewrite list_lookup_insert_eq by by eapply lookup_lt_Some. split; [done|].
      destruct c; cbn in Hu; rewrite ?Hc in Hu; repeat case_match; simplify_eq/=; lia.
    + exists c. rewrite list_lookup_insert_ne by done. split; [done|lia].
  - unfold with_event in Hs. cbn in Hs. destruct (0 <=? d); simplify_eq/=. exists c. split; [done|lia].
  - unfold with_event in Hs. cbn in Hs. simplify_eq/=. exists c. split; [done|lia].
Qed.

(** Over a run the ranks fall by the steps taken. *)
Lemma cancelled_run v l m m' :
  wake_run v l m = Some m' → cancelled_now (signals m) = true →
  (∀ i t, wthreads m !! i = Some t → guest t = true →
     ∃ t', wthreads m' !! i = Some t' ∧ guest t' = true ∧
       (stop_rank t' + count (own_step i) l <= stop_rank t)%nat) ∧
  (∀ i c, cwaiters m !! i = Some c →
     ∃ c', cwaiters m' !! i = Some c' ∧ (wait_rank c' + count (own_cstep i) l <= wait_rank c)%nat).
Proof.
  revert m. induction l as [|e l IH]; intros m; cbn [wake_run].
  { intros [= <-] _. split; [intros i t Hi Hg; exists t|intros i c Hi; exists c];
      unfold count; cbn; split_and?; done || lia. }
  destruct (wake_machine_step v e m) as [m1|] eqn:Hs; [|done]. cbn [mbind option_bind]. intros Hr Hc.
  destruct (IH m1 Hr (cancelled_stays _ _ _ _ Hs Hc)) as [Ht Hw]. unfold count in *. cbn. split.
  - intros i t Hi Hg. destruct (own_step_rank _ _ _ _ _ _ Hs Hc Hi Hg) as (t1 & Hi1 & Hg1 & Hr1).
    destruct (Ht i t1 Hi1 Hg1) as (t' & Hi' & Hg' & Hr'). exists t'. split_and!; [done|done|lia].
  - intros i c Hi. destruct (own_cstep_rank _ _ _ _ _ _ Hs Hc Hi) as (c1 & Hi1 & Hr1).
    destruct (Hw i c1 Hi1) as (c' & Hi' & Hr'). exists c'. split; [done|lia].
Qed.

(** ** The lock is held by a thread that can go on *)

Definition LockHeld (m : Machine) : Prop :=
  locked (cell m) = true → ∃ i p, threads m !! i = Some p ∧ in_section p = true.

Lemma lock_held_step v e m m' :
  MachineInv m → LockHeld m → machine_step v e m = Some m' → LockHeld m'.
Proof.
  intros I Hh Hs. destruct e as [p|i w|d|]; cbn in Hs.
  - destruct (entry_point p); simplify_eq. intros Hl. destruct (Hh Hl) as (i & q & Hi & Hq).
    exists i, q. split; [by apply lookup_app_l_Some|done].
  - destruct (threads m !! i) as [p|] eqn:Hi; [|done]. cbn in Hs.
    destruct (token_step v w p (cell m)) as [[p' c]|] eqn:Hp; simplify_eq/=. intros Hl. cbn in Hl.
    assert (i < length (threads m))%nat as Hlen by by eapply lookup_lt_Some.
    destruct (in_section p') eqn:Hps'.
    { exists i, p'. cbn. by rewrite list_lookup_insert_eq. }
    destruct (token_step_section _ _ _ _ _ _ Hp) as (_ & Hout & Hin). destruct (in_section p) eqn:Hps.
    + destruct (Hin eq_refl (minv_section m I _ _ Hi Hps)) as (_ & _ & Hrel).
      destruct (Hrel Hps') as [Hfree _]. congruence.
    + destruct (Hout eq_refl Hps') as (E0 & _). rewrite E0 in Hl. destruct (Hh Hl) as (j & q & Hj & Hq).
      exists j, q. cbn. rewrite list_lookup_insert_ne; [done|]. intros ->. simplify_eq. congruence.
  - destruct (0 <=? d); by simplify_eq.
  - by simplify_eq.
Qed.

Lemma wake_run_lock v l m m' :
  MachineInv (machine_view m) → LockHeld (machine_view m) → wake_run v l m = Some m' →
  LockHeld (machine_view m').
Proof.
  revert m. induction l as [|e l IH]; intros m I Hh; cbn [wake_run]; [by intros [= <-]|].
  destruct (wake_machine_step v e m) as [m1|] eqn:Hs; [|done]. cbn.
  apply wake_machine_step_view in Hs as [Hv|[e' He]]; apply IH; rewrite ?Hv; try done.
  - by eapply machine_step_inv.
  - by eapply lock_held_step.
Qed.

(** A thread inside the timing section is never blocked. *)
Lemma section_enabled v u s :
  ticket_bound u s → in_section (view u) = true →
  ∃ w, is_Some (wake_step v w u s).
Proof.
  intros Hb Hu. exists Notified. destruct u as [p|n|n| |g p|g d|g d k|g d k]; cbn in *; try done; try by eexists.
  - destruct p; try done; cbn; repeat case_match; by eexists.
  - destruct Hb as [_ Hb], p; try done; cbn; repeat case_match; by eexists.
Qed.

(** The task of a cancelled command is over, can go on, or waits for the lock. *)
Lemma guest_enabled v m i t :
  WakeInv m → wthreads m !! i = Some t → guest t = true → cancelled_now (signals m) = true →
  ¬ under_way cancel_pending m →
  (∃ b, t = At (Interrupted b)) ∨ (∃ w, is_Some (wake_step v w t (signals m)))
  ∨ locked (wcell (signals m)) = true.
Proof.
  intros I Hi Hg Hc Hn. destruct t as [p|n|n| |g p|g d|g d k|g d k]; cbn in Hg.
  - destruct p; try done; try (left; by eexists); destruct (locked (wcell (signals m))) eqn:Hl; auto;
      right; left; exists Notified; cbn; rewrite ?Hl; repeat case_match; by eexists.
  - right; left. exists Notified. by eexists.
  - right; left. exists Notified. by eexists.
  - right; left. exists Notified. by eexists.
  - destruct p; try done; destruct (locked (wcell (signals m))) eqn:Hl; auto;
      right; left; exists Notified; cbn; rewrite ?Hl; repeat case_match; by eexists.
  - right; left. exists CancelledReady. by eexists.
  - right; left. exists Notified. by eexists.
  - right; left. exists CancelledReady. cbn. destruct (Z.eqb_spec k (cancel_calls (signals m))) as [Hk|]; [|by eexists].
    destruct (winv_cancel m I i _ k Hi eq_refl Hk); [congruence|done].
Qed.

Lemma wake_reachable v t0 l m :
  wake_run v l (wake_new t0) = Some m →
  WakeInv m ∧ MachineInv (machine_view m) ∧ LockHeld (machine_view m).
Proof.
  intros Hr. assert (MachineInv (machine_view (wake_new t0))) as Hn by apply machine_new_inv. split_and!.
  - eapply wake_run_wake_inv; [apply wake_new_inv|done].
  - by eapply wake_run_inv.
  - by eapply wake_run_lock.
Qed.

(** C29: no wake-up is lost.  In every reachable state, a command parked in
    [PauseToken::wait] that nothing can wake is one whose resident time is not
    over, whose pause is still in force or whose resume has not yet reached its
    notification, and whose token is uncancelled or whose cancellation has not
    yet reached its notification; a task that sleeps in [cancelled] waits for a
    token that is uncancelled or about to notify. *)
Theorem no_lost_wakeup v t0 l m :
  wake_run v l (wake_new t0) = Some m →
  (∀ i g d k, wthreads m !! i = Some (Parked g d k) → blocked v m (Parked g d k) →
     clock (wcell (signals m)) < d ∧
     (paused (st (wcell (signals m))) = true ∨ under_way resume_pending m) ∧
     (cancelled_now (signals m) = false ∨ under_way cancel_pending m)) ∧
  (∀ i c, cwaiters m !! i = Some c → c ≠ CReturned → cancelled_step c (signals m) = None →
     cancelled_now (signals m) = false ∨ under_way cancel_pending m).
Proof.
  intros Hr. destruct (wake_reachable _ _ _ _ Hr) as (I & _ & _). split.
  - intros i g d k Hi Hb. destruct (parked_blocked _ _ _ _ _ Hb) as (Hg & Hk & Hd). split_and!; [done| |].
    + by eapply (winv_pause m I i _ g).
    + by eapply (winv_cancel m I i _ k).
  - intros i c Hi Hne Hs. destruct c as [|k|k|]; cbn in Hs; try done.
    destruct (Z.eqb_spec k (cancel_calls (signals m))) as [Hk|]; [|done].
    by eapply (winv_cancelled m I i _ k).
Qed.

(** C30: a cancelled command stops.  Once a cancellation has notified, the task
    of the command, wherever its epoch callback or its wait stands, can always
    take a step until it is interrupted, or waits for the timing lock, whose
    holder can; a task that awaits [cancelled] can take a step until it returns.
    Whatever the other threads do in between, the first is interrupted after at
    most 18 of its own steps, the second returns after at most 3. *)
Theorem cancelled_command_stops v t0 l m :
  wake_run v l (wake_new t0) = Some m → cancelled_now (signals m) = true → ¬ under_way cancel_pending m →
  (∀ i t, wthreads m !! i = Some t → guest t = true →
     (∃ b, t = At (Interrupted b)) ∨
     ∃ j u w, wthreads m !! j = Some u ∧ (j = i ∨ in_section (view u) = true) ∧
       is_Some (wake_step v w u (signals m))) ∧
  (∀ i c, cwaiters m !! i = Some c → c = CReturned ∨ is_Some (cancelled_step c (signals m))) ∧
  ∀ l' m', wake_run v l' m = Some m' →
    (∀ i t, wthreads m !! i = Some t → guest t = true →
       ∃ t', wthreads m' !! i = Some t' ∧ guest t' = true ∧
         (stop_rank t' + count (own_step i) l' <= stop_rank t <= 18)%nat) ∧
    (∀ i c, cwaiters m !! i = Some c →
       ∃ c', cwaiters m' !! i = Some c' ∧ (wait_rank c' + count (own_cstep i) l' <= wait_rank c <= 3)%nat).
Proof.
  intros Hr Hc Hn. destruct (wake_reachable _ _ _ _ Hr) as (I & _ & Hlk). split_and!.
  - intros i t Hi Hg. destruct (guest_enabled v m i t I Hi Hg Hc Hn) as [Hd|[[w Hw]|Hl]]; [by left|right..].
    + exists i, t, w. auto.
    + destruct (Hlk Hl) as (j & p & Hj & Hp). cbn in Hj. rewrite list_lookup_fmap in Hj.
      apply fmap_Some in Hj as (u & Hu & ->).
      destruct (section_enabled v u (signals m)) as [w Hw]; [by eapply winv_bound|done|].
      exists j, u, w. auto.
  - intros i c Hi. destruct c as [|k|k|]; [right; by eexists..| |by left]. right. cbn.
    destruct (Z.eqb_spec k (cancel_calls (signals m))) as [Hk|]; [|by eexists].
    destruct (winv_cancelled m I i _ k Hi eq_refl Hk); [congruence|done].
  - intros l' m' Hr'. destruct (cancelled_run v l' m m' Hr' Hc) as [Ht Hw]. split.
    + intros i t Hi Hg. destruct (Ht i t Hi Hg) as (t' & Hi' & Hg' & Hr1). exists t'.
      split_and!; [done|done|done|]. eapply stop_rank_bound, (winv_bound m I), Hi.
    + intros i c Hi. destruct (Hw i c Hi) as (c' & Hi' & Hr1). exists c'.
      split_and!; [done|done|]. destruct c; cbn; lia.
Qed.

Module WakeupsExample.
Definition call : Invocation :=
  {| call_timeout := 100; call_started := 0; call_baseline := 0; resident_ttl := 5 |}.
Definition steps (i n : nat) : list wake_event := repeat (WStep i CancelledReady) n.

(** A command is paused and parks; a worker operation awaits the same token. *)
Definition parking : list wake_event :=
  [WStart Epoch; WStart (LoadEvicted CmdPause); CSpawn] ++ steps 1 9 ++ steps 0 16 ++ [CStep 0; CStep 0].
(** A resume that has cleared the flag and not yet notified. *)
Definition resuming : list wake_event :=
  parking ++ [WTick 2; WStart (LoadEvicted CmdResume)] ++ steps 2 7.
(** A cancellation that has notified. *)
Definition cancelling : list wake_event := parking ++ [WStart (CancelStore None)] ++ steps 2 2.
Definition after (l : list wake_event) : WakeMachine := default (wake_new 0) (wake_run call l (wake_new 0)).

Lemma parked_state :
  wthreads (after parking) = [Parked 1 5 0; At (Answer (Ok tt))] ∧ cwaiters (after parking) = [CParked 0].
Proof. by vm_compute. Qed.

Lemma no_lost_wakeup_witness :
  blocked call (after resuming) (Parked 1 5 0) ∧
  (paused (st (wcell (signals (after resuming)))) = true ∨ under_way resume_pending (after resuming)) ∧
  paused (st (wcell (signals (after resuming)))) = false.
Proof.
  assert (blocked call (after resuming) (Parked 1 5 0)) as Hb by (intros []; vm_compute; reflexivity).
  split; [exact Hb|]. split; [|vm_compute; reflexivity].
  destruct (no_lost_wakeup call 0 resuming (after resuming) ltac:(vm_compute; reflexivity)) as [Hp _].
  destruct (Hp 0%nat 1 5 0 ltac:(vm_compute; reflexivity) Hb) as (_ & Hr & _). exact Hr.
Defined.

Lemma no_cancel_pending : ¬ under_way cancel_pending (after cancelling).
Proof.
  assert (wthreads (after cancelling) = [Parked 1 5 0; At (Answer (Ok tt)); At (Answer (Ok tt))]) as Hw
    by (vm_compute; reflexivity).
  intros (i & t & Hi & Ht). rewrite Hw in Hi. clear Hw. destruct i as [|[|[|]]]; cbn in Hi; by simplify_eq.
Qed.

(** The parked command is interrupted in seven of its own steps. *)
Lemma cancelled_command_stops_witness :
  (∃ t', wthreads (after (cancelling ++ steps 0 7)) !! 0%nat = Some t' ∧ guest t' = true ∧
     (stop_rank t' + 7 <= 16 <= 18)%nat) ∧
  wthreads (after (cancelling ++ steps 0 7)) !! 0%nat = Some (At (Interrupted false)).
Proof.
  destruct (cancelled_command_stops call 0 cancelling (after cancelling)) as (_ & _ & Hb);
    [vm_compute; reflexivity|vm_compute; reflexivity|exact no_cancel_pending|].
  destruct (Hb (steps 0 7) (after (cancelling ++ steps 0 7)) ltac:(vm_compute; reflexivity)) as [Ht _].
  split; [|vm_compute; reflexivity].
  exact (Ht 0%nat (Parked 1 5 0) ltac:(vm_compute; reflexivity) eq_refl).
Defined.

(** The sleep of an earlier pause can evict a command that was resumed and
    paused again while its task was not polled: the new pause is evicted at
    the instant it begins, five units of time too early. *)
Definition repausing : list wake_event :=
  parking ++ [WTick 5; WStart (LoadEvicted CmdResume)] ++ steps 2 10
  ++ [WStart (LoadEvicted CmdPause)] ++ steps 3 9 ++ [WStep 0 SleepElapsed] ++ steps 0 2.
Example fresh_pause_evicted :
  let s := st (wcell (signals (after repausing))) in
  (evicted s, paused_at (timing s), clock (wcell (signals (after repausing)))) = (true, Some 5, 5).
Proof. vm_compute. reflexivity. Qed.
End WakeupsExample.
