(* ===== verification/Invocation.v ===== *)
(** Running a command ([src/src/runtime.rs]: the linkers, [invoke],
    [Program::run], [start], [RunningCommand::wait], the epoch watchdog).
    [invoke] prepares a store, then the guest instantiates and runs under the
    epoch callback while other threads pause, resume and cancel it.  What the
    engine, the guest and those threads do is a script: a list of happenings,
    each after some time; the definitions give what the runtime makes of it.
    Theorems: how long a call can run, what its errors and its measurements
    mean, and how the watchdog stops. *)
From S2P Require Import Prelude Errors Interfaces Streams Types MemoryCache DiskCache Runtime Http Pause.

Local Open Scope Z_scope.

(** ** Linkers *)

Inductive LinkedApi := P3Cli | P2Cli | P3Http | P2Http.
(** The engine's linker and the WASI crates' functions that extend it. *)
Class LinkerLib (L : Type) := { linker_new : L; add_to_linker : LinkedApi → L → result string L }.

Section linkers.
Context {L : Type} `{LinkerLib L}.

Definition add_api (api : LinkedApi) (linker : L) : Result L := map_err Configuration (add_to_linker api linker).
Definition build_p3_linker : Result L :=
  linker ← add_api P3Cli linker_new;
  linker ← add_api P2Cli linker;
  add_api P3Http linker.
Definition build_p2_linker : Result L :=
  linker ← add_api P2Cli linker_new;
  add_api P2Http linker.

(** The two [OnceLock]s of [RuntimeInner]. *)
Record Linkers := { p3_slot : option (Result L); p2_slot : option (Result L) }.
Definition linkers_new : Linkers := {| p3_slot := None; p2_slot := None |}.
Definition p3_linker (k : Linkers) : Linkers * Result L :=
  match p3_slot k with
  | Some r => (k, r)
  | None => ({| p3_slot := Some build_p3_linker; p2_slot := p2_slot k |}, build_p3_linker)
  end.
Definition p2_linker (k : Linkers) : Linkers * Result L :=
  match p2_slot k with
  | Some r => (k, r)
  | None => ({| p3_slot := p3_slot k; p2_slot := Some build_p2_linker |}, build_p2_linker)
  end.
(** The linker [invoke] uses for a profile; [None] is its [unreachable!]. *)
Definition command_linker (p : WasiProfile) (k : Linkers) : option (Linkers * Result L) :=
  match p with
  | Cli0_3 => Some (p3_linker k)
  | Cli0_2 => Some (p2_linker k)
  | Http0_3 | Http0_2 => None
  end.
End linkers.
Arguments Linkers : clear implicits.

(** ** The store *)

Record StoreLimits := {
  memory_size : Z; table_elements : Z; instances : Z; tables : Z; memories : Z;
  trap_on_grow_failure : bool }.
Record Stdio := { ctx_stdin : list byte; ctx_stdout_capacity : Z; ctx_stderr_capacity : Z }.
(** [ctx_stdio] is [None] where the builder's streams are left as they are:
    an empty input, outputs that discard. *)
Record WasiCtx := {
  ctx_stdio : option Stdio; ctx_args : list string; ctx_env : list (string * string);
  allow_tcp : bool; allow_udp : bool; allow_ip_name_lookup : bool }.
Record Store := {
  store_wasi : WasiCtx; store_http_hooks : list OutboundHttpGrant; store_limits : StoreLimits;
  store_fuel : Z; epoch_deadline : Z }.

Definition limits_of (lim : RuntimeLimits) : StoreLimits := {|
  memory_size := max_memory_bytes lim; table_elements := max_table_elements lim;
  instances := max_instances lim; tables := 100; memories := 100; trap_on_grow_failure := true |}.

(** Iteration over a [BTreeMap]: by ascending key. *)
Fixpoint insert_pair (p : string * string) (l : list (string * string)) : list (string * string) :=
  match l with
  | [] => [p]
  | q :: l' => if str_ltb q.1 p.1 then q :: insert_pair p l' else p :: l
  end.
Definition btree_iter (m : gmap string string) : list (string * string) :=
  foldr insert_pair [] (map_to_list m).

Definition make_store (lim : RuntimeLimits) (input : CommandInput) : Store := {|
  store_wasi := {| ctx_stdio := Some {| ctx_stdin := stdin input; ctx_stdout_capacity := max_output_bytes lim;
                                        ctx_stderr_capacity := max_output_bytes lim |};
                   ctx_args := args input; ctx_env := btree_iter (env input);
                   allow_tcp := false; allow_udp := false; allow_ip_name_lookup := false |};
  store_http_hooks := hooks_deny;
  store_limits := limits_of lim;
  store_fuel := limits_fuel lim;
  epoch_deadline := 1 |}.

(** The store of an HTTP worker: the service's grants, and an epoch deadline
    out of reach, since the handler enforces the deadlines of requests. *)
Definition http_worker_store (lim : RuntimeLimits) (c : HttpServiceConfig) : Store := {|
  store_wasi := {| ctx_stdio := None; ctx_args := []; ctx_env := [];
                   allow_tcp := false; allow_udp := false; allow_ip_name_lookup := false |};
  store_http_hooks := outbound_grants c;
  store_limits := limits_of lim;
  store_fuel := limits_fuel lim;
  epoch_deadline := u64_max / 2 |}.

(** ** The call *)

(** [MemoryOutputPipe]. *)
Class PipeLib (O : Type) := {
  pipe_new : Z → O; pipe_write : list byte → O → O; pipe_contents : O → list byte }.

Inductive control := CtlPause | CtlResume | CtlCancel | CtlDrop.
Definition control_step (now : Z) (k : control) (s : PauseState) : PauseState :=
  match k with
  | CtlPause => (running_pause false now s).1
  | CtlResume => (running_resume false now s).1
  | CtlCancel => cancel s
  | CtlDrop => running_drop true now s
  end.

(** What can happen to a call: a client's request; the guest reaches an epoch
    deadline and the callback reads the paused time; the callback reads the
    clock again and decides; the future it is parked on is polled; the guest writes; the
    engine ends instantiation, or the run with the guest's result, or either
    with an error; the runtime maps the error. *)
Inductive happening :=
  | HControl (k : control)
  | HEpoch
  | HCheck
  | HWait (w : wake)
  | HWrite (to_stderr : bool) (bytes : list byte)
  | HInstantiated
  | HReturn (failed : bool)
  | HTrap (text : string)
  | HMapped.

Inductive phase := Instantiating | Executing (instantiate execute_started execute_baseline : Z).
Inductive stage :=
  | Active (p : phase)
  | Calling (p : phase) (total : Z)               (* in the epoch callback, with the paused time it read *)
  | Parked (p : phase) (sleep_until : option Z)   (* between polls of [wait], or at its [select!] *)
  | Unwinding (p : phase) (text : string)
  | Returned (r : Result InvocationResult).

(** Parameters fixed when the call starts. *)
Record CallParams := {
  cp_invocation : Invocation;
  cp_instantiate_started : Z;
  cp_interrupt_text : string;      (* the engine's error for [Interrupt] *)
}.

Section call.
Context {O : Type} `{PipeLib O}.

Record Call := {
  token : PauseState; timed_out : bool; out_pipe : O; err_pipe : O; call_stage : stage }.
Implicit Types c : Call.

Definition set_token s c : Call :=
  {| token := s; timed_out := timed_out c; out_pipe := out_pipe c; err_pipe := err_pipe c;
     call_stage := call_stage c |}.
Definition set_stage g c : Call :=
  {| token := token c; timed_out := timed_out c; out_pipe := out_pipe c; err_pipe := err_pipe c;
     call_stage := g |}.
Definition mark_timed_out (b : bool) c : Call :=
  {| token := token c; timed_out := timed_out c || b; out_pipe := out_pipe c; err_pipe := err_pipe c;
     call_stage := call_stage c |}.
Definition write_output (to_stderr : bool) (b : list byte) c : Call :=
  {| token := token c; timed_out := timed_out c;
     out_pipe := if to_stderr then out_pipe c else pipe_write b (out_pipe c);
     err_pipe := if to_stderr then pipe_write b (err_pipe c) else err_pipe c;
     call_stage := call_stage c |}.

Definition call_new (lim : RuntimeLimits) (s : PauseState) : Call :=
  {| token := s; timed_out := false; out_pipe := pipe_new (max_output_bytes lim);
     err_pipe := pipe_new (max_output_bytes lim); call_stage := Active Instantiating |}.

(** The result of a run that returned. *)
Definition invocation_result (failed : bool) (instantiate execute_started baseline now : Z) c : InvocationResult := {|
  inv_stdout := pipe_contents (out_pipe c); inv_stderr := pipe_contents (err_pipe c);
  inv_exit_code := if failed then 1 else 0; inv_instantiate := instantiate;
  inv_execute := elapsed now execute_started;
  inv_suspended := saturating_sub (total_paused now (token c)) baseline |}.

(** One happening; [None] when it cannot occur in this state. *)
Definition call_step (v : CallParams) (now : Z) (h : happening) c : option Call :=
  let i := cp_invocation v in
  match call_stage c, h with
  | Returned _, _ => None
  | _, HControl k => Some (set_token (control_step now k (token c)) c)
  | Active p, HEpoch => Some (set_stage (Calling p (total_paused now (token c))) c)
  | Calling p total, HCheck =>
      let '(s, u) := epoch_callback (call_timeout i) (call_started i) (call_baseline i) total now (token c) in
      let c := set_token s c in
      Some (match u with
            | Interrupt expired => set_stage (Unwinding p (cp_interrupt_text v)) (mark_timed_out expired c)
            | YieldCustom => set_stage (Parked p None) c
            | Yield => set_stage (Active p) c
            end)
  | Parked p None, HWait _ =>
      Some (match wait_check (resident_ttl i) now (token c) with
            | WaitReturn => set_stage (Active p) c
            | WaitEvict => set_stage (Active p) (set_token (evict (token c)) c)
            | WaitSleep remaining => set_stage (Parked p (Some (now + remaining))) c
            end)
  | Parked p (Some _), HWait Notified => Some (set_stage (Parked p None) c)
  | Parked p (Some _), HWait CancelledReady =>
      if cancelled_flag (token c) then Some (set_stage (Active p) c) else None
  | Parked p (Some deadline), HWait SleepElapsed =>
      if deadline <=? now
      then Some (set_stage (Active p) (if paused (token c) then set_token (evict (token c)) c else c))
      else None
  | Active _, HWrite to_stderr b => Some (write_output to_stderr b c)
  | Active Instantiating, HInstantiated =>
      Some (set_stage (Active (Executing (elapsed now (cp_instantiate_started v)) now
                                 (total_paused now (token c)))) c)
  | Active (Executing instantiate started baseline), HReturn failed =>
      Some (set_stage (Returned (Ok (invocation_result failed instantiate started baseline now c))) c)
  | Active p, HTrap text => Some (set_stage (Unwinding p text) c)
  | Unwinding Instantiating text, HMapped => Some (set_stage (Returned (Err (Execution text))) c)
  | Unwinding (Executing _ _ _) text, HMapped =>
      Some (set_stage (Returned (Err (map_execution_error text (evicted (token c)) (timed_out c)
                                        (cancelled_flag (token c))))) c)
  | _, _ => None
  end.

(** A script, from a given time; what cannot occur is passed over. *)
Definition call_next (v : CallParams) (now : Z) (h : happening) c : Call := default c (call_step v now h c).
Fixpoint call_run (v : CallParams) (now : Z) (l : list (Z * happening)) c : Z * Call :=
  match l with
  | [] => (now, c)
  | (d, h) :: l' => call_run v (now + d) l' (call_next v (now + d) h c)
  end.
End call.
Arguments Call : clear implicits.

(** ** [invoke] *)

(** A future that has not finished, one that panicked, or its result. *)
Inductive ran (A : Type) := Pending | Panicked | Ended (r : Result A).
Arguments Pending {A}.
Arguments Panicked {A}.
Arguments Ended {A}.

Section commands.
Context {C L O : Type} `{Engine C} `{LinkerLib L} `{PipeLib O} `{Crypto} `{Host}.
Context {JI : Json CacheIdentity} {JM : Json CacheMetadata}.

(** The surroundings of one [invoke]: the engine's answer to [set_fuel], the
    control state and the clock when it starts, and what happens then, which
    may depend on the store, the linker and the component. *)
Record InvokeEnv := {
  ie_set_fuel : result string unit;
  ie_token : PauseState;
  ie_started : Z;
  ie_instantiate_started : Z;
  ie_interrupt_text : string;
  ie_script : Store → L → C → list (Z * happening) }.

Definition call_params (c : RuntimeConfig) (x : InvokeEnv) (input : CommandInput) : CallParams := {|
  cp_invocation := {| call_timeout := timeout input; call_started := ie_started x;
                      call_baseline := total_paused (ie_started x) (ie_token x);
                      resident_ttl := paused_resident_ttl c |};
  cp_instantiate_started := ie_instantiate_started x;
  cp_interrupt_text := ie_interrupt_text x |}.

Definition invoke (c : RuntimeConfig) (x : InvokeEnv) (prepared : PreparedComponent C) (input : CommandInput)
    (k : Linkers L) : Linkers L * ran InvocationResult :=
  let store := make_store (limits c) input in
  match ie_set_fuel x with
  | Err e => (k, Ended (Err (Configuration e)))
  | Ok _ =>
      match command_linker (prepared_profile prepared) k with
      | None => (k, Panicked)
      | Some (k, Err e) => (k, Ended (Err e))
      | Some (k, Ok linker) =>
          let '(_, call) := call_run (call_params c x input) (ie_started x)
                              (ie_script x store linker (component prepared))
                              (call_new (O := O) (limits c) (ie_token x)) in
          (k, match call_stage call with Returned r => Ended r | _ => Pending end)
      end
  end.

(** ** [Program::run] and [start] *)

Record CallEnv := {
  ce_clock : CallClock;
  ce_join : option string;
  ce_during_lock : RuntimeInner C → RuntimeInner C;
  ce_during_compile : RuntimeInner C → RuntimeInner C;
  ce_invoke : InvokeEnv }.

Definition run_controlled (p : Program) (input : CommandInput) (x : CallEnv) (s : RuntimeInner C) (k : Linkers L)
    : RuntimeInner C * Linkers L * ran CommandOutput :=
  let lim := limits (config s) in
  if max_input_bytes lim <? blen (stdin input) then (s, k, Ended (Err (Limit "input bytes")))
  else if (timeout input =? 0) || (max_timeout lim <? timeout input)
  then (s, k, Ended (Err (Limit "timeout")))
  else if cancelled input then (s, k, Ended (Err Cancelled))
  else
    let '(s, from) := tier (program_digest p) s in
    match prepare (program_digest p) (program_bytes p) (ce_join x) (ce_during_lock x) (ce_during_compile x) s with
    | (s, Err e) => (s, k, Ended (Err e))
    | (s, Ok prepared) =>
        if negb (is_command (prepared_profile prepared))
        then (s, k, Ended (Err (UnsupportedComponent
               "HTTP components must be invoked through Program::http_service")))
        else
          match invoke (config s) (ce_invoke x) prepared input k with
          | (k, Pending) => (s, k, Pending)
          | (k, Panicked) => (s, k, Panicked)
          | (k, Ended (Err e)) => (s, k, Ended (Err e))
          | (k, Ended (Ok r)) =>
              let version := profile_version (prepared_profile prepared) in
              (s, k, Ended (Ok {|
                 stdout := inv_stdout r; stderr := inv_stderr r; exit_code := inv_exit_code r;
                 output_version := version;
                 measurement := {|
                   prepared_from := from; retained_as := Warm; measured_version := version;
                   phases := {| phase_prepare := prepare_elapsed (ce_clock x);
                                phase_instantiate := inv_instantiate r;
                                phase_execute := inv_execute r;
                                phase_suspended := inv_suspended r;
                                phase_active_execute := saturating_sub (inv_execute r) (inv_suspended r);
                                phase_total := total_elapsed (ce_clock x) |} |} |}))
          end
    end.

(** [Program::run]: the pause token is its own, so nobody has paused it. *)
Definition set_token_env (s : PauseState) (x : CallEnv) : CallEnv :=
  let i := ce_invoke x in
  {| ce_clock := ce_clock x; ce_join := ce_join x; ce_during_lock := ce_during_lock x;
     ce_during_compile := ce_during_compile x;
     ce_invoke := {| ie_set_fuel := ie_set_fuel i; ie_token := s; ie_started := ie_started i;
                     ie_instantiate_started := ie_instantiate_started i;
                     ie_interrupt_text := ie_interrupt_text i; ie_script := ie_script i |} |}.
Definition program_run (p : Program) (input : CommandInput) (x : CallEnv) (s : RuntimeInner C) (k : Linkers L)
    : RuntimeInner C * Linkers L * ran CommandOutput :=
  let cancelled := cancelled_flag (ie_token (ce_invoke x)) in
  run_controlled p input (set_token_env (if cancelled then cancel pause_new else pause_new) x) s k.

(** The task [start] spawns; without a Tokio runtime there is none. *)
Definition start_task (p : Program) (input : CommandInput) (x : CallEnv) (s : RuntimeInner C) (k : Linkers L)
    : RuntimeInner C * Linkers L * ran CommandOutput :=
  let '(s, k, output) := run_controlled p input x s k in
  match output with
  | Ended (Err IdleEvicted) => (runtime_demote (program_digest p) s, k, output)
  | _ => (s, k, output)
  end.
Definition program_start (in_tokio : bool) (p : Program) (input : CommandInput) (x : CallEnv)
    (s : RuntimeInner C) (k : Linkers L) : Result (RuntimeInner C * Linkers L * ran CommandOutput) :=
  _ ← reject_if (negb in_tokio) (Configuration "Program::start requires an active Tokio runtime");
  Ok (start_task p input x s k).
End commands.

(** [RunningCommand::wait]: the handle's task, if it is still there, ends with
    a join error or with the output. *)
Definition running_wait (task : option (result string (Result CommandOutput))) : Result CommandOutput :=
  t ← ok_or task (InvalidState "invocation result already consumed");
  match t with
  | Err e => Err (Execution ("invocation task failed: " +:+ e))
  | Ok r => r
  end.

(** ** The epoch watchdog *)

Inductive ticker := TickerCheck | TickerSleeping (since : Z) | TickerExited.
Record Watchdog := { stop_epoch : bool; increments : Z; ticker_at : ticker }.
Definition watchdog_new : Watchdog := {| stop_epoch := false; increments := 0; ticker_at := TickerCheck |}.
(** One step of the watchdog thread at a given time; [None] while it sleeps
    and after it exited. *)
Definition ticker_step (interval now : Z) (w : Watchdog) : option Watchdog :=
  match ticker_at w with
  | TickerCheck =>
      Some {| stop_epoch := stop_epoch w; increments := increments w;
              ticker_at := if stop_epoch w then TickerExited else TickerSleeping now |}
  | TickerSleeping since =>
      if now - since <? interval then None
      else Some {| stop_epoch := stop_epoch w; increments := increments w + 1; ticker_at := TickerCheck |}
  | TickerExited => None
  end.
(** [Drop for RuntimeInner] raises the flag and joins the thread. *)
Definition runtime_drop (w : Watchdog) : Watchdog :=
  {| stop_epoch := true; increments := increments w; ticker_at := ticker_at w |}.
Definition joined (w : Watchdog) : bool := match ticker_at w with TickerExited => true | _ => false end.
Fixpoint watchdog_run (interval : Z) (times : list Z) (w : Watchdog) : Watchdog :=
  match times with
  | [] => w
  | now :: l => watchdog_run interval l (default w (ticker_step interval now w))
  end.

(** ** The clock of a call *)

(** The timing record agrees with the flag; an evicted call stays paused. *)
Definition Clocked (x : Z * PauseState) : Prop :=
  0 ≤ completed (timing x.2) ∧
  match paused_at (timing x.2) with
  | Some t => paused x.2 = true ∧ completed (timing x.2) ≤ t ≤ x.1
  | None => paused x.2 = false ∧ completed (timing x.2) ≤ x.1
  end.

Lemma pause_new_clocked t : 0 ≤ t → Clocked (t, pause_new).
Proof. by split. Qed.

Lemma clocked_later t d s :
  Clocked (t, s) → 0 ≤ d →
  Clocked (t + d, s) ∧ accrued (t + d, s) = accrued (t, s) + (if paused s then d else 0).
Proof.
  unfold Clocked, accrued. cbn [fst snd]. intros [Hc Ho] Hd.
  destruct (paused_at (timing s)); destruct Ho as [-> Ho]; (split; [|lia]); (split; [done|]); (split; [done|lia]).
Qed.

Lemma accrued_bounds x : Clocked x → 0 ≤ accrued x ≤ x.1.
Proof.
  unfold Clocked, accrued. intros [Hc Ho]. destruct (paused_at _); destruct Ho as [_ Ho]; lia.
Qed.

Lemma total_paused_clocked now s : Clocked (now, s) → now ≤ duration_max → total_paused now s = accrued (now, s).
Proof.
  intros Hc Hm. pose proof (accrued_bounds _ Hc). revert Hc H. unfold Clocked, accrued, total_paused.
  cbn [fst snd]. unfold duration_add, saturating_add, elapsed, saturating_sub. intros [Hc Ho] Ha.
  destruct (paused_at (timing s)); destruct Ho as [_ Ho]; lia.
Qed.

(** Same flag, same timing: same clock. *)
Lemma clocked_same now s s' :
  timing s' = timing s → paused s' = paused s → Clocked (now, s) →
  Clocked (now, s') ∧ accrued (now, s') = accrued (now, s).
Proof. unfold Clocked, accrued. cbn [fst snd]. by intros -> ->. Qed.

Lemma pause_clocked now s :
  Clocked (now, s) → now ≤ duration_max →
  Clocked (now, pause now s) ∧ accrued (now, pause now s) = accrued (now, s).
Proof.
  unfold pause. intros Hc Hm. destruct (paused s) eqn:Hp; [done|]. unfold Clocked, accrued in *. cbn in *.
  destruct Hc as [Hc Ho]. destruct (paused_at (timing s)); destruct Ho as [Hf Ho]; [congruence|]. repeat split; lia.
Qed.
Lemma resume_clocked now s :
  Clocked (now, s) → now ≤ duration_max →
  Clocked (now, (resume now s).1) ∧ accrued (now, (resume now s).1) = accrued (now, s).
Proof.
  unfold resume. intros Hc Hm. destruct (evicted s); [done|]. destruct (paused s) eqn:Hp; [|done].
  unfold Clocked, accrued, settle in *. cbn in *. destruct Hc as [Hc Ho].
  destruct (paused_at (timing s)); destruct Ho as [Hf Ho]; [|congruence]. cbn.
  unfold duration_add, saturating_add, elapsed, saturating_sub. repeat split; lia.
Qed.

Lemma control_clocked now k s :
  Clocked (now, s) → now ≤ duration_max →
  Clocked (now, control_step now k s) ∧ accrued (now, control_step now k s) = accrued (now, s).
Proof.
  intros Hc Hm. destruct k; cbn [control_step].
  - unfold running_pause. destruct (running_state false s); cbn [fst]; try done; by apply pause_clocked.
  - unfold running_resume. pose proof (resume_clocked now s Hc Hm) as Hr.
    destruct (running_state false s); cbn [fst]; try done; by destruct (resume now s).
  - by apply (clocked_same now s).
  - unfold running_drop. destruct (clocked_same now s (cancel s)) as [Hc' <-]; [done..|].
    by apply resume_clocked.
Qed.

Section call_facts.
Context {O : Type} `{PipeLib O}.
Implicit Types c : Call O.

(** Time passes for a call only between happenings. *)
Lemma call_next_clocked v now h c :
  Clocked (now, token c) → now ≤ duration_max →
  Clocked (now, token (call_next v now h c)) ∧ accrued (now, token (call_next v now h c)) = accrued (now, token c).
Proof.
  intros Hc Hm. unfold call_next. destruct (call_step v now h c) as [c'|] eqn:Hs; [|done]. cbn [default].
  assert (∀ s, timing s = timing (token c) → paused s = paused (token c) →
    Clocked (now, s) ∧ accrued (now, s) = accrued (now, token c)) as Hsame by (intros; by apply clocked_same).
  unfold call_step in Hs.
  destruct (call_stage c) as [[|ex et eb]|q total|[|ex et eb] [deadline|]|[|ex et eb] text|r],
    h as [k| | |w|e b| |f|text'|]; try done;
    try (injection Hs as <-; first [by apply control_clocked|by apply Hsame]);
    try (destruct (callback_keeps (call_timeout (cp_invocation v)) (call_started (cp_invocation v))
           (call_baseline (cp_invocation v)) total now (token c)) as (E1 & E2 & _);
         destruct (epoch_callback _ _ _ _ _ _) as [s []]; simplify_eq; by apply Hsame);
    try (by destruct (wait_check _ _ _); simplify_eq; apply Hsame).
  all: destruct w; [by simplify_eq; apply Hsame|by destruct (cancelled_flag (token c)); simplify_eq; apply Hsame|].
  all: destruct (deadline <=? now); simplify_eq; destruct (paused (token c)) eqn:Hp; by apply Hsame.
Qed.

(** Unpaused time of a script. *)
Fixpoint unpaused (v : CallParams) (now : Z) (l : list (Z * happening)) c : Z :=
  match l with
  | [] => 0
  | (d, h) :: l' =>
      (if paused (token c) then 0 else d) + unpaused v (now + d) l' (call_next v (now + d) h c)
  end.
Fixpoint length_of (l : list (Z * happening)) : Z := match l with [] => 0 | (d, _) :: l' => d + length_of l' end.
Definition onward (l : list (Z * happening)) : Prop := Forall (λ e, 0 ≤ e.1) l.

Lemma length_of_nonneg l : onward l → 0 ≤ length_of l.
Proof. induction 1 as [|[d h] l]; cbn in *; lia. Qed.
Lemma length_of_app l l' : length_of (l ++ l') = length_of l + length_of l'.
Proof. induction l as [|[d h] l IH]; cbn; lia. Qed.
Lemma unpaused_nonneg v now l c : onward l → 0 ≤ unpaused v now l c.
Proof.
  intros Hl. revert now c. induction Hl as [|[d h] l Hd _ IH]; intros now c; cbn in *; [lia|].
  specialize (IH (now + d) (call_next v (now + d) h c)). destruct (paused (token c)); lia.
Qed.

(** A script's time is its paused time, as the token counts it, and its
    unpaused time. *)
Lemma call_run_clocked v now l c :
  Clocked (now, token c) → onward l → now + length_of l ≤ duration_max →
  (call_run v now l c).1 = now + length_of l
  ∧ Clocked ((call_run v now l c).1, token (call_run v now l c).2)
  ∧ accrued ((call_run v now l c).1, token (call_run v now l c).2) + unpaused v now l c
    = accrued (now, token c) + length_of l.
Proof.
  intros Hc Hl. revert now c Hc. induction Hl as [|[d h] l Hd Hl IH]; intros now c Hc Hm; cbn [call_run length_of unpaused].
  { cbn. split_and!; [lia|done|lia]. }
  cbn [fst length_of] in *. pose proof (length_of_nonneg l Hl).
  destruct (clocked_later now d (token c) Hc Hd) as [Hc1 Ha1].
  destruct (call_next_clocked v (now + d) h c Hc1 ltac:(lia)) as [Hc2 Ha2].
  destruct (IH (now + d) _ Hc2) as (I1 & I2 & I3); [lia|]. split_and!; [lia|done|].
  rewrite Ha2, Ha1 in I3. destruct (paused (token c)); lia.
Qed.

Lemma unpaused_length v now l c : onward l → unpaused v now l c ≤ length_of l.
Proof.
  intros Hl. revert now c. induction Hl as [|[d h] l Hd _ IH]; intros now c; cbn in *; [lia|].
  specialize (IH (now + d) (call_next v (now + d) h c)). destruct (paused (token c)); lia.
Qed.
Lemma call_run_accrued v now l c :
  Clocked (now, token c) → onward l → now + length_of l ≤ duration_max →
  accrued (now, token c) ≤ accrued ((call_run v now l c).1, token (call_run v now l c).2).
Proof.
  intros Hc Hl Hm. destruct (call_run_clocked v now l c Hc Hl Hm) as (_ & _ & Ha).
  pose proof (unpaused_length v now l c Hl). lia.
Qed.

Lemma call_run_app v now l l' c :
  call_run v now (l ++ l') c = call_run v (call_run v now l c).1 l' (call_run v now l c).2.
Proof. revert now c. induction l as [|[d h] l IH]; intros now c; [done|]. cbn. apply IH. Qed.

(** ** How long a call can run *)

Definition live (g : stage) : bool := match g with Active _ | Calling _ _ | Parked _ _ => true | _ => false end.
(** The epoch callback decides. *)
Definition checks c (h : happening) : bool :=
  match call_stage c, h with Calling _ _, HCheck => true | _, _ => false end.
(** The guest runs into the epoch callback, which reads the paused time. *)
Definition reads c (h : happening) : bool :=
  match call_stage c, h with Active _, HEpoch => true | _, _ => false end.

(** Between two decisions of the epoch callback of a live call, and before the
    first, at most [g] of unpaused time passes; [acc] has passed since the
    last one. *)
Fixpoint responsive (v : CallParams) (g acc now : Z) (l : list (Z * happening)) c : Prop :=
  match l with
  | [] => True
  | (d, h) :: l' =>
      let acc := acc + (if paused (token c) then 0 else d) in
      (live (call_stage c) = true → acc ≤ g)
      ∧ responsive v g (if checks c h then 0 else acc) (now + d) l' (call_next v (now + d) h c)
  end.
(** When the epoch callback decides, at most [e] of paused time has passed since
    it read the paused time; [acc] has passed since the last such reading. *)
Fixpoint prompt (v : CallParams) (e acc now : Z) (l : list (Z * happening)) c : Prop :=
  match l with
  | [] => True
  | (d, h) :: l' =>
      let acc := acc + (if paused (token c) then d else 0) in
      (checks c h = true → acc ≤ e)
      ∧ prompt v e (if reads c h then 0 else acc) (now + d) l' (call_next v (now + d) h c)
  end.

(** The time a call has run when its clock shows [now]. *)
Definition ran_for (v : CallParams) (now : Z) (s : PauseState) : Z :=
  now - call_started (cp_invocation v) - (accrued (now, s) - call_baseline (cp_invocation v)).

Lemma callback_outcome v now s gap :
  let i := cp_invocation v in
  call_started i ≤ now → call_baseline i ≤ accrued (now, s) - gap → 0 ≤ gap → 0 ≤ ran_for v now s →
  (epoch_callback (call_timeout i) (call_started i) (call_baseline i) (accrued (now, s) - gap) now s).2
  = if evicted s || cancelled_flag s then Interrupt false
    else if call_timeout i <=? ran_for v now s + gap then Interrupt true
    else if paused s then YieldCustom else Yield.
Proof.
  intros i Hs Hb Hg Hr. unfold epoch_callback.
  replace (saturating_sub (elapsed now (call_started i)) (saturating_sub (accrued (now, s) - gap) (call_baseline i)))
    with (ran_for v now s + gap) by (unfold ran_for, elapsed, saturating_sub in *; fold i in Hr |- *; lia).
  by repeat case_match.
Qed.

Lemma call_next_live v now h c : live (call_stage (call_next v now h c)) = true → live (call_stage c) = true.
Proof.
  unfold call_next, call_step. destruct (call_stage c) as [p|p total|p o|p text|r] eqn:Hc; try done.
  - destruct h; destruct p; cbn; rewrite ?Hc; done.
  - cbn. by rewrite Hc.
Qed.

(** What the flags and stages mean for the time run: [t] of it so far, [acc]
    since the callback last decided, and [gap] of paused time since it last
    read the paused time. *)
Record Timed (v : CallParams) (e now acc gap : Z) c : Prop := {
  td_live : live (call_stage c) = true → ran_for v now (token c) - acc < call_timeout (cp_invocation v);
  td_out : timed_out c = true → call_timeout (cp_invocation v) ≤ ran_for v now (token c) + e;
  td_read : match call_stage c with
            | Calling _ total =>
                total = accrued (now, token c) - gap ∧ 0 ≤ gap ∧ call_baseline (cp_invocation v) ≤ total
            | _ => True
            end;
}.

(** The callback decides. *)
Lemma call_next_decides v e now c p total acc gap :
  let i := cp_invocation v in
  call_stage c = Calling p total → call_started i ≤ now → 0 ≤ ran_for v now (token c) →
  Clocked (now, token c) → now ≤ duration_max →
  Timed v e now acc gap c → gap ≤ e → Timed v e now 0 gap (call_next v now HCheck c).
Proof.
  intros i Hg Hs Hr Hc Hm [T1 T2 T3] He. rewrite Hg in T3. destruct T3 as (-> & Hgap & Hb). fold i in Hb.
  pose proof (callback_outcome v now (token c) gap Hs Hb Hgap Hr) as Hu. fold i in Hu.
  destruct (call_next_clocked v now HCheck c Hc Hm) as [_ Ha]. revert Ha.
  unfold call_next, call_step. rewrite Hg. fold i.
  destruct (epoch_callback _ _ _ _ _ _) as [s u]. cbn [snd] in Hu. subst u.
  assert (∀ g b, ran_for v now (token (set_stage g (mark_timed_out b (set_token s c)))) = ran_for v now s) as E by done.
  cbn [default id from_option]. set (x := accrued (now, token c)) in *.
  destruct (evicted (token c) || cancelled_flag (token c)); [|
    destruct (Z.leb_spec (call_timeout i) (ran_for v now (token c) + gap)) as [Hto|Hto]; [|destruct (paused (token c))]];
    intros Ha; cbn [token set_stage mark_timed_out set_token] in Ha;
    (assert (ran_for v now s = ran_for v now (token c)) as Hsame by (unfold ran_for; by rewrite Ha));
    split; cbn; rewrite ?Hsame, ?orb_false_r; fold i in T2 |- *; try done; intros _; lia.
Qed.

Lemma timed_out_kept v now h c : checks c h = false → timed_out (call_next v now h c) = timed_out c.
Proof.
  unfold call_next, call_step, checks. destruct (call_stage c) as [[]| |[] []|[]|], h; try done; cbn;
    repeat case_match; done.
Qed.
Lemma calling_next v now h c p total :
  checks c h = false → call_stage (call_next v now h c) = Calling p total →
  reads c h = true ∧ total = total_paused now (token c) ∧ token (call_next v now h c) = token c
  ∨ reads c h = false ∧ call_stage c = Calling p total.
Proof.
  unfold call_next, call_step, checks, reads.
  destruct (call_stage c) as [[]|q total'|[] []|[]|] eqn:Hg, h; try done; cbn; rewrite ?Hg;
    repeat case_match; cbn; rewrite ?Hg; intros; simplify_eq; auto.
Qed.

Lemma call_next_timed v e now h c acc gap :
  let i := cp_invocation v in
  Clocked (now, token c) → now ≤ duration_max → call_started i ≤ now → call_baseline i ≤ accrued (now, token c) →
  0 ≤ ran_for v now (token c) → Timed v e now acc gap c → (checks c h = true → gap ≤ e) →
  Timed v e now (if checks c h then 0 else acc) (if reads c h then 0 else gap) (call_next v now h c).
Proof.
  intros i Hc Hm Hs Hb Hr T He. destruct (checks c h) eqn:Hk.
  - unfold checks in Hk. unfold reads. destruct (call_stage c) as [|p total| | |] eqn:Hg; try done. destruct h; try done.
    eapply call_next_decides; eauto.
  - destruct (call_next_clocked v now h c Hc Hm) as [_ Ha].
    assert (ran_for v now (token (call_next v now h c)) = ran_for v now (token c)) as Hsame
      by (unfold ran_for; by rewrite Ha).
    destruct T as [T1 T2 T3]. split; rewrite ?Hsame, ?Ha.
    + intros Hl%call_next_live. by apply T1.
    + rewrite timed_out_kept by done. done.
    + destruct (call_stage (call_next v now h c)) as [|p total| | |] eqn:Hg; try done.
      destruct (calling_next _ _ _ _ _ _ Hk Hg) as [(-> & -> & Etok)|[-> Hg']]; [|by rewrite Hg' in T3].
      rewrite total_paused_clocked by done. fold i. split_and!; lia.
Qed.

(** Time passes. *)
Lemma timed_later v e now d acc gap c :
  Clocked (now, token c) → 0 ≤ d →
  Timed v e now acc gap c →
  ran_for v (now + d) (token c) = ran_for v now (token c) + (if paused (token c) then 0 else d)
  ∧ Timed v e (now + d) (acc + (if paused (token c) then 0 else d)) (gap + (if paused (token c) then d else 0)) c.
Proof.
  intros Hc Hd [T1 T2 T3]. destruct (clocked_later now d (token c) Hc Hd) as [_ Ha].
  assert (ran_for v (now + d) (token c) = ran_for v now (token c) + (if paused (token c) then 0 else d)) as Hran.
  { unfold ran_for. rewrite Ha. destruct (paused (token c)); lia. }
  split; [done|]. split; rewrite ?Hran.
  - intros Hv. specialize (T1 Hv). lia.
  - intros Hv. specialize (T2 Hv). destruct (paused (token c)); lia.
  - destruct (call_stage c); try done. rewrite Ha. destruct T3 as (-> & ? & ?).
    destruct (paused (token c)); split_and!; lia.
Qed.

Lemma call_run_timed v g e now l c acc gap :
  let i := cp_invocation v in
  0 ≤ g → Clocked (now, token c) → onward l → now + length_of l ≤ duration_max → call_started i ≤ now →
  call_baseline i ≤ accrued (now, token c) → 0 ≤ ran_for v now (token c) →
  Timed v e now acc gap c → (live (call_stage c) = true → acc ≤ g) →
  responsive v g acc now l c → prompt v e gap now l c →
  let x := call_run v now l c in
  (live (call_stage x.2) = true → ran_for v now (token c) + unpaused v now l c < call_timeout i + g)
  ∧ (timed_out x.2 = true → call_timeout i ≤ ran_for v now (token c) + unpaused v now l c + e).
Proof.
  intros i Hg0 Hc Hl. revert now c acc gap Hc. induction Hl as [|[d h] l Hd Hl IH];
    intros now c acc gap Hc Hm Hs Hb Hr Ht Hacc;
    cbn [responsive prompt call_run unpaused length_of fst snd] in *.
  { intros _ _. destruct Ht as [T1 T2 _]. fold i in T1, T2. rewrite Z.add_0_r. split; [|done].
    intros Hv. specialize (T1 Hv). specialize (Hacc Hv). lia. }
  intros [Hg Hrest] [Hp Hrest']. pose proof (length_of_nonneg l Hl).
  destruct (clocked_later now d (token c) Hc Hd) as [Hc1 Ha1].
  destruct (timed_later v e now d acc gap c Hc Hd Ht) as [Hran Ht1].
  assert (0 ≤ (if paused (token c) then 0 else d)) by (destruct (paused (token c)); lia).
  assert (accrued (now, token c) ≤ accrued (now + d, token c)) as Hmono
    by (rewrite Ha1; destruct (paused (token c)); lia).
  pose proof (call_next_timed v e (now + d) h c _ _ Hc1 ltac:(lia) ltac:(fold i; lia) ltac:(fold i; lia)
    ltac:(lia) Ht1 Hp) as Ht2.
  destruct (call_next_clocked v (now + d) h c Hc1 ltac:(lia)) as [Hc2 Ha2].
  assert (ran_for v (now + d) (token (call_next v (now + d) h c)) = ran_for v (now + d) (token c)) as Hsame
    by (unfold ran_for; by rewrite Ha2).
  destruct (IH (now + d) _ _ _ Hc2 ltac:(lia) ltac:(lia) ltac:(lia) ltac:(lia) Ht2) as [I1 I2]; [|done|done|].
  { intros Hv%call_next_live. destruct (checks c h); [done|by apply Hg]. }
  rewrite Hsame, Hran, <- Z.add_assoc in I1. rewrite Hsame, Hran in I2.
  split; [done|]. intros Hv. specialize (I2 Hv). lia.
Qed.

(** A call that starts: nothing has happened and the clock starts here. *)
Record Starts (v : CallParams) (t0 : Z) (s : PauseState) (l : list (Z * happening)) : Prop := {
  st_clocked : Clocked (t0, s);
  st_started : call_started (cp_invocation v) = t0;
  st_baseline : call_baseline (cp_invocation v) = total_paused t0 s;
  st_timeout : 0 < call_timeout (cp_invocation v);
  st_onward : onward l;
  st_end : t0 + length_of l ≤ duration_max;
}.

Lemma starts_ran v t0 s l : Starts v t0 s l → call_baseline (cp_invocation v) = accrued (t0, s) ∧ ran_for v t0 s = 0.
Proof.
  intros []. pose proof (length_of_nonneg l st_onward0). rewrite total_paused_clocked in st_baseline0 by (done || lia).
  split; [done|]. unfold ran_for. lia.
Qed.

Lemma invocation_time v g e t0 s l lim :
  Starts v t0 s l → 0 ≤ g → responsive v g 0 t0 l (call_new lim s) → prompt v e 0 t0 l (call_new lim s) →
  let c := (call_run v t0 l (call_new lim s)).2 in
  let time := unpaused v t0 l (call_new lim s) in
  (live (call_stage c) = true → time < call_timeout (cp_invocation v) + g)
  ∧ (timed_out c = true → call_timeout (cp_invocation v) ≤ time + e).
Proof.
  intros Hst Hg Hr Hp c time. destruct (starts_ran _ _ _ _ Hst) as [Hb H0]. destruct Hst.
  destruct (call_run_timed v g e t0 l (call_new lim s) 0 0) as [I1 I2]; cbn [token call_new]; try done; try lia.
  - split; cbn [call_stage timed_out call_new token]; [intros _; rewrite H0; lia|done|done].
  - cbn [token call_new] in I1, I2. rewrite H0, Z.add_0_l in I1, I2. done.
Qed.


(** ** What the outcome of a call means *)

Lemma responsive_whole v g acc now l c :
  onward l → 0 ≤ acc → acc + length_of l ≤ g → responsive v g acc now l c.
Proof.
  intros Hl. revert acc now c. induction Hl as [|[d h] l Hd Hl IH]; intros acc now c Ha Hg; [done|].
  cbn [responsive length_of fst] in *. pose proof (length_of_nonneg l Hl). split.
  - intros _. destruct (paused (token c)); lia.
  - apply IH; destruct (checks c h), (paused (token c)); lia.
Qed.

(** Why the cancellation flag of a call is set, given its control state at the
    start and the happenings so far. *)
Definition FlagsExplained (s0 : PauseState) (past : list happening) c : Prop :=
  cancelled_flag (token c) = true →
  evicted (token c) = true ∨ cancelled_flag s0 = true ∨ HControl CtlCancel ∈ past ∨ HControl CtlDrop ∈ past.
Definition interrupted c : Prop :=
  evicted (token c) = true ∨ timed_out c = true ∨ cancelled_flag (token c) = true.
Definition ErrorExplained (v : CallParams) (past : list happening) c (e : Error) : Prop :=
  e = IdleEvicted ∧ evicted (token c) = true
  ∨ e = Timeout ∧ timed_out c = true ∧ evicted (token c) = false
  ∨ e = Cancelled ∧ cancelled_flag (token c) = true ∧ timed_out c = false ∧ evicted (token c) = false
  ∨ ∃ text, e = Execution text
      ∧ (HTrap text ∈ past ∨ text = cp_interrupt_text v ∧ interrupted c).
Definition StageExplained (v : CallParams) (past : list happening) c : Prop :=
  match call_stage c with
  | Active _ | Calling _ _ | Parked _ _ => True
  | Unwinding _ text => HTrap text ∈ past ∨ text = cp_interrupt_text v ∧ interrupted c
  | Returned (Ok r) => ∃ failed, HReturn failed ∈ past ∧ inv_exit_code r = if failed then 1 else 0
  | Returned (Err e) => ErrorExplained v past c e
  end.

Lemma control_flags now k s :
  evicted (control_step now k s) = evicted s
  ∧ (evicted s = true → paused (control_step now k s) = paused s)
  ∧ (cancelled_flag s = true → cancelled_flag (control_step now k s) = true)
  ∧ (cancelled_flag (control_step now k s) = true →
     cancelled_flag s = true ∨ k = CtlCancel ∨ k = CtlDrop).
Proof.
  destruct k; cbn [control_step]; unfold running_pause, running_resume, running_drop, resume, running_state, pause, settle;
    destruct (evicted s) eqn:He; cbn; rewrite ?He; repeat case_match; cbn in *; simplify_eq; cbn; rewrite ?He;
    split_and!; auto; congruence.
Qed.

Lemma flags_more s0 past h c : FlagsExplained s0 past c → FlagsExplained s0 (past ++ [h]) c.
Proof. intros F Hc. destruct (F Hc) as [|[|[]]]; eauto 6 with history. Qed.

Lemma call_next_flags v now h s0 past c :
  FlagsExplained s0 past c → FlagsExplained s0 (past ++ [h]) (call_next v now h c).
Proof.
  intros F. unfold call_next. destruct (call_step v now h c) as [c'|] eqn:Hs; [|by apply flags_more]. cbn [default].
  assert (∀ s g b o e, evicted s = evicted (token c) → cancelled_flag s = cancelled_flag (token c) →
    FlagsExplained s0 (past ++ [h]) {| token := s; timed_out := b; out_pipe := o; err_pipe := e; call_stage := g |}) as Hsame.
  { intros s g b o e E1 E2. pose proof (flags_more s0 past h c F) as F1. unfold FlagsExplained in *. cbn [token]. by rewrite E1, E2. }
  assert (∀ g, FlagsExplained s0 (past ++ [h]) (set_stage g (set_token (evict (token c)) c))) as Hevict by (by left).
  assert (∀ k, h = HControl k → FlagsExplained s0 (past ++ [h]) (set_token (control_step now k (token c)) c)) as Hctl.
  { intros k ->. destruct (control_flags now k (token c)) as (E1 & _ & _ & E4). unfold FlagsExplained. cbn [token set_token].
    rewrite E1. intros [Hc| [->| ->]]%E4; [|by eauto with history..]. destruct (F Hc) as [|[|[]]]; eauto with history. }
  unfold call_step in Hs.
  destruct (call_stage c) as [[|ex et eb]|q total|[|ex et eb] [deadline|]|[|ex et eb] text|r],
    h as [k| | |w|e b| |f|text'|]; try done;
    try (injection Hs as <-; first [by apply Hctl|by apply Hsame]);
    try (destruct (callback_keeps (call_timeout (cp_invocation v)) (call_started (cp_invocation v))
           (call_baseline (cp_invocation v)) total now (token c)) as (_ & _ & E3 & E4);
         destruct (epoch_callback _ _ _ _ _ _) as [s []]; simplify_eq; by apply Hsame).
  all: try (destruct w; [by simplify_eq; apply Hsame|by destruct (cancelled_flag (token c)) eqn:Hcf; simplify_eq; apply Hsame|];
    destruct (deadline <=? now); simplify_eq; destruct (paused (token c)) eqn:Hp; [by eapply Hevict|by apply Hsame]).
  all: destruct (wait_check _ _ _); simplify_eq; first [by apply Hevict|by apply Hsame].
Qed.

Lemma stage_more v past h c : StageExplained v past c → StageExplained v (past ++ [h]) c.
Proof.
  unfold StageExplained, ErrorExplained. destruct (call_stage c) as [| | |p text|[r|e]]; try done.
  - intros [|]; eauto with history.
  - intros (f & ? & ?). eauto with history.
  - intros [|[|[|(text & ? & [|])]]]; eauto 8 with history.
Qed.

Lemma callback_interrupts v total now c s b :
  epoch_callback (call_timeout (cp_invocation v)) (call_started (cp_invocation v))
    (call_baseline (cp_invocation v)) total now (token c) = (s, Interrupt b) →
  s = token c ∧ (evicted s = true ∨ b = true ∨ cancelled_flag s = true).
Proof.
  unfold epoch_callback. destruct (evicted (token c)) eqn:He; [intros [= <- <-]; auto|].
  destruct (cancelled_flag (token c)) eqn:Hc; [intros [= <- <-]; auto|]. cbn.
  destruct (_ <=? _); [intros [= <- <-]; auto|]. by destruct (paused (token c)).
Qed.

Lemma mapped_explained v past c text :
  HTrap text ∈ past ∨ text = cp_interrupt_text v ∧ interrupted c →
  ErrorExplained v past c (map_execution_error text (evicted (token c)) (timed_out c) (cancelled_flag (token c))).
Proof.
  intros Ht. unfold ErrorExplained, map_execution_error.
  destruct (evicted (token c)) eqn:He; [auto|]. destruct (timed_out c) eqn:Hto; [auto|].
  destruct (cancelled_flag (token c)) eqn:Hcf; [auto 7|]. do 3 right. eauto.
Qed.

(** The ways a call can move on. *)
Inductive Moves (v : CallParams) (h : happening) c c' : Prop :=
  | moves_on : live (call_stage c') = true → Moves v h c c'
  | moves_trap p text : call_stage c' = Unwinding p text →
      h = HTrap text ∨ text = cp_interrupt_text v ∧ interrupted c' → Moves v h c c'
  | moves_return failed result : h = HReturn failed → call_stage c' = Returned (Ok result) →
      inv_exit_code result = (if failed then 1 else 0) → Moves v h c c'
  | moves_control p text : call_stage c = Unwinding p text → call_stage c' = Unwinding p text →
      (interrupted c → interrupted c') → Moves v h c c'
  | moves_mapped p text e : call_stage c = Unwinding p text → c' = set_stage (Returned (Err e)) c →
      e = Execution text
      ∨ e = map_execution_error text (evicted (token c)) (timed_out c) (cancelled_flag (token c)) → Moves v h c c'.

Lemma active_moves v now h c c' p :
  call_stage c = Active p → call_step v now h c = Some c' → Moves v h c c'.
Proof.
  intros Hg. unfold call_step. rewrite Hg.
  destruct h as [k| | |w|e b| |f|text|]; destruct p as [|ex et eb]; try done.
  1-7: intros [= <-]; apply moves_on; cbn; by rewrite ?Hg.
  - intros [= <-]. by eapply moves_return.
  - intros [= <-]. eapply moves_trap; [done|by left].
  - intros [= <-]. eapply moves_trap; [done|by left].
Qed.
Lemma calling_moves v now h c c' p total :
  call_stage c = Calling p total → call_step v now h c = Some c' → Moves v h c c'.
Proof.
  intros Hg. unfold call_step. rewrite Hg. destruct h as [k| | |w|e b| |f|text|]; try done.
  - intros [= <-]. apply moves_on. cbn. by rewrite Hg.
  - destruct (epoch_callback _ _ _ _ _ _) as [s [b| |]] eqn:Hcb; intros [= <-]; [|by apply moves_on..].
    apply callback_interrupts in Hcb as [-> Hcb]. eapply moves_trap; [done|]. right. split; [done|].
    unfold interrupted. cbn. destruct Hcb as [|[->|]]; rewrite ?orb_true_r; auto.
Qed.
Lemma parked_moves v now h c c' p o :
  call_stage c = Parked p o → call_step v now h c = Some c' → Moves v h c c'.
Proof.
  intros Hg. unfold call_step. rewrite Hg. intros Hs. apply moves_on.
  destruct h; destruct o; try done; repeat case_match; simplify_eq; cbn; by rewrite ?Hg.
Qed.
Lemma unwinding_moves v now h c c' p text :
  call_stage c = Unwinding p text → call_step v now h c = Some c' → Moves v h c c'.
Proof.
  intros Hg. unfold call_step. rewrite Hg. destruct h as [k| | |w|e b| |f|text'|]; try by destruct p.
  - intros Hs. assert (c' = set_token (control_step now k (token c)) c) as -> by (destruct p; by simplify_eq).
    eapply moves_control; [done|done|]. destruct (control_flags now k (token c)) as (E1 & _ & E3 & _).
    unfold interrupted. cbn. rewrite E1. intros [|[|]]; auto.
  - destruct p; intros [= <-]; (eapply moves_mapped; [done|done|]); auto.
Qed.
Lemma call_step_moves v now h c c' : call_step v now h c = Some c' → Moves v h c c'.
Proof.
  destruct (call_stage c) eqn:Hg;
    [by eapply active_moves|by eapply calling_moves|by eapply parked_moves|by eapply unwinding_moves|].
  unfold call_step. by rewrite Hg.
Qed.

Lemma call_next_stage v now h past c :
  StageExplained v past c → StageExplained v (past ++ [h]) (call_next v now h c).
Proof.
  intros S. apply (stage_more _ _ h) in S. unfold call_next.
  destruct (call_step v now h c) as [c'|] eqn:Hs; [|done]. cbn [default id]. unfold StageExplained in *.
  apply call_step_moves in Hs
    as [Hl|p text Hg Ht|f result Hh Hg Hx|p text Hg Hg' Hi|p text e Hg Hc' He].
  - by destruct (call_stage c').
  - rewrite Hg. destruct Ht as [->|]; eauto with history.
  - rewrite Hg. subst h. eauto with history.
  - rewrite Hg in S. rewrite Hg'. destruct S as [|[? ?]]; auto.
  - rewrite Hg in S. subst c'. cbn. destruct He as [-> | ->]; [do 3 right; eauto|].
    by apply (mapped_explained v _ (set_stage _ c)).
Qed.

Lemma call_run_explained v s0 past now l c :
  FlagsExplained s0 past c → StageExplained v past c →
  FlagsExplained s0 (past ++ l.*2) (call_run v now l c).2 ∧ StageExplained v (past ++ l.*2) (call_run v now l c).2.
Proof.
  revert past now c. induction l as [|[d h] l IH]; intros past now c F S; cbn [call_run fmap list_fmap snd].
  { by rewrite app_nil_r. }
  specialize (IH (past ++ [h]) (now + d) (call_next v (now + d) h c)). rewrite <- app_assoc in IH.
  apply IH; [by apply call_next_flags|by apply call_next_stage].
Qed.

(** ** Why a call is evicted *)

Section eviction.
Context (v : CallParams) (t0 : Z) (s : PauseState) (c0 : Call O).
Let ttl := resident_ttl (cp_invocation v).

(** In the history [l] a pause began at [p]: one was in force since then when
    the call started, or a client requested one at that time of a call that
    was not paused. *)
Definition PauseBegan (l : list (Z * happening)) (p : Z) : Prop :=
  paused_at (timing s) = Some p
  ∨ ∃ l1 d l2, l = l1 ++ (d, HControl CtlPause) :: l2 ∧ p = t0 + length_of l1 + d
      ∧ paused (token (call_run v t0 l1 c0).2) = false.

(** In the history [l] a poll of the future the call was parked on evicted it:
    a pause was in force then, and the idle time had ended of a pause, this one
    or one before. *)
Definition EvictedBy (l : list (Z * happening)) : Prop :=
  ∃ l1 d w l2 p, l = l1 ++ (d, HWait w) :: l2
    ∧ (let x := call_run v t0 l1 c0 in
       evicted (token x.2) = false ∧ paused (token x.2) = true
       ∧ evicted (token (call_next v (x.1 + d) (HWait w) x.2)) = true)
    ∧ PauseBegan l1 p ∧ p + ttl ≤ t0 + length_of l1 + d.

Lemma pause_began_more l e p : PauseBegan l p → PauseBegan (l ++ [e]) p.
Proof.
  intros [|(l1 & d & l2 & -> & ?)]; [by left|right]. exists l1, d, (l2 ++ [e]). by rewrite <- app_assoc.
Qed.
Lemma evicted_by_more l e : EvictedBy l → EvictedBy (l ++ [e]).
Proof.
  intros (l1 & d & w & l2 & p & -> & ?). exists l1, d, w, (l2 ++ [e]), p. by rewrite <- app_assoc.
Qed.

(** What a step does to the start of the open pause, to the sleep of the future
    and to the eviction flag. *)
Lemma control_pause now k st p :
  paused_at (timing (control_step now k st)) = Some p →
  paused_at (timing st) = Some p ∨ k = CtlPause ∧ paused st = false ∧ p = now.
Proof.
  destruct k; cbn [control_step]; unfold running_pause, running_resume, running_drop, pause, resume, settle;
    repeat case_match; cbn in *; simplify_eq; cbn; intros; simplify_eq; auto.
Qed.
Lemma step_pause now h c p :
  paused_at (timing (token (call_next v now h c))) = Some p →
  paused_at (timing (token c)) = Some p ∨ h = HControl CtlPause ∧ paused (token c) = false ∧ p = now.
Proof.
  unfold call_next. destruct (call_step v now h c) as [c'|] eqn:Hs; [|by left]. cbn [default id from_option].
  destruct h as [k| | |w|e b| |f|text|].
  { assert (c' = set_token (control_step now k (token c)) c) as ->
      by (unfold call_step in Hs; by destruct (call_stage c) as [[]| |[] []|[]|]; simplify_eq).
    intros [|(-> & ? & ?)]%control_pause; auto. }
  all: assert (timing (token c') = timing (token c)) as ->; [|by left].
  all: unfold call_step in Hs; destruct (call_stage c) as [[]|q total|[] []|[]|]; simplify_eq; try done.
  1: destruct (callback_keeps (call_timeout (cp_invocation v)) (call_started (cp_invocation v))
           (call_baseline (cp_invocation v)) total now (token c)) as (_ & E & _);
     destruct (epoch_callback _ _ _ _ _ _) as [s' []]; by simplify_eq.
  all: repeat case_match; by simplify_eq.
Qed.
Lemma step_sleep now h c ph deadline :
  Clocked (now, token c) → call_stage (call_next v now h c) = Parked ph (Some deadline) →
  call_stage c = Parked ph (Some deadline) ∨ ∃ p, paused_at (timing (token c)) = Some p ∧ p + ttl ≤ deadline.
Proof.
  intros [_ Hc]. unfold call_next. destruct (call_step v now h c) as [c'|] eqn:Hs; [|by left]. cbn [default id from_option].
  unfold call_step in Hs. destruct (call_stage c) as [[]|q total|q [o|]|[] tx|] eqn:Hg, h as [k| | |w|e b| |f|text|];
    simplify_eq; cbn; rewrite ?Hg; try done; auto;
    try (repeat case_match; simplify_eq; cbn; rewrite ?Hg; try done; by auto).
  unfold wait_check. destruct (paused (token c)) eqn:Hp; cbn; [|done]. destruct (cancelled_flag (token c)); [done|].
  unfold wait_remaining. cbn [fst snd] in Hc.
  destruct (paused_at (timing (token c))) as [p|]; [|destruct Hc; congruence].
  destruct (Z.eqb_spec (saturating_sub (resident_ttl (cp_invocation v)) (elapsed now p)) 0); cbn; [done|].
  intros [= <- <-]. right. exists p. split; [done|]. unfold elapsed, saturating_sub, ttl in *. lia.
Qed.
Lemma step_evicts now h c :
  Clocked (now, token c) → evicted (token c) = false → evicted (token (call_next v now h c)) = true →
  (∃ w, h = HWait w) ∧ paused (token c) = true
  ∧ ((∃ p, paused_at (timing (token c)) = Some p ∧ p + ttl ≤ now)
     ∨ ∃ ph deadline, call_stage c = Parked ph (Some deadline) ∧ deadline ≤ now).
Proof.
  intros [_ Hc] He. unfold call_next. destruct (call_step v now h c) as [c'|] eqn:Hs; [|cbn; congruence].
  cbn [default id from_option].
  unfold call_step in Hs. destruct (call_stage c) as [[]|q total|q [o|]|[] tx|] eqn:Hg, h as [k| | |w|e b| |f|text|];
    simplify_eq; cbn; rewrite ?(proj1 (control_flags now _ (token c))); try congruence.
  - destruct (callback_keeps (call_timeout (cp_invocation v)) (call_started (cp_invocation v))
           (call_baseline (cp_invocation v)) total now (token c)) as (_ & _ & E & _);
     destruct (epoch_callback _ _ _ _ _ _) as [s' []]; simplify_eq; cbn in *; congruence.
  - destruct w; [simplify_eq; cbn; congruence|case_match; simplify_eq; cbn; congruence|].
    destruct (Z.leb_spec o now); [|done]. destruct (paused (token c)); simplify_eq; cbn; [|congruence].
    intros _. split_and!; [by eexists|done|]. right. by exists q, o.
  - unfold wait_check. destruct (paused (token c)) eqn:Hp; cbn; [|congruence].
    destruct (cancelled_flag (token c)); [cbn; congruence|]. unfold wait_remaining. cbn [fst snd] in Hc.
    destruct (paused_at (timing (token c))) as [p|]; [|destruct Hc; congruence].
    destruct (Z.eqb_spec (saturating_sub (resident_ttl (cp_invocation v)) (elapsed now p)) 0); cbn; [|congruence]. intros _. split_and!; [by eexists|done|]. left. exists p. split; [done|].
    unfold elapsed, saturating_sub, ttl in *. lia.
Qed.

Record IdleExplained (l : list (Z * happening)) (c : Call O) : Prop := {
  ix_pause p : paused_at (timing (token c)) = Some p → PauseBegan l p;
  ix_sleep ph deadline : call_stage c = Parked ph (Some deadline) → ∃ p, PauseBegan l p ∧ p + ttl ≤ deadline;
  ix_evicted : evicted (token c) = true → EvictedBy l;
}.

Lemma eviction_explained l :
  token c0 = s → (∀ ph o, call_stage c0 ≠ Parked ph o) →
  Clocked (t0, s) → evicted s = false → onward l → t0 + length_of l ≤ duration_max →
  IdleExplained l (call_run v t0 l c0).2.
Proof.
  intros Htok Hpark Hc He Ho. induction l as [|[d h] l IH] using rev_ind; intros Hm.
  { split; cbn [call_run snd]; [rewrite Htok; by left|by intros ? ? ?%Hpark|congruence]. }
  unfold onward in Ho. apply Forall_app in Ho as [Ho [Hd _]%Forall_cons]. cbn [fst] in Hd.
  rewrite length_of_app in Hm. cbn [length_of] in Hm. pose proof (length_of_nonneg l Ho).
  destruct (call_run_clocked v t0 l c0 ltac:(by rewrite Htok) Ho ltac:(lia)) as (T & K & _).
  destruct (IH Ho ltac:(lia)) as [X1 X2 X3]. rewrite call_run_app. cbn [call_run snd].
  destruct (clocked_later _ d _ K Hd) as [K' _].
  set (x := call_run v t0 l c0) in *. split.
  - intros p [Hp|(-> & Hp & ->)]%step_pause; [by apply pause_began_more, X1|].
    right. exists l, d, []. split_and!; [done|by rewrite T|done].
  - intros ph deadline Hs. destruct (step_sleep _ _ _ _ _ K' Hs) as [Hg|(p & Hp & Hle)].
    + destruct (X2 _ _ Hg) as (p & Hp & Hle). exists p. split; [by apply pause_began_more|done].
    + exists p. split; [by apply pause_began_more, X1|done].
  - intros Hv. destruct (evicted (token x.2)) eqn:Hx; [by apply evicted_by_more, X3|].
    destruct (step_evicts _ _ _ K' Hx Hv) as ((w & ->) & Hp & Hwhy).
    assert (∃ p, PauseBegan l p ∧ p + ttl ≤ t0 + length_of l + d) as (p & Hb & Hle).
    { rewrite <- T. destruct Hwhy as [(p & Hp' & Hle)|(ph & deadline & Hg & Hle)]; [by eauto|].
      destruct (X2 _ _ Hg) as (p & Hb & Hle'). exists p. split; [done|lia]. }
    exists l, d, w, [], p. cbv zeta. fold x. by split_and!.
Qed.
End eviction.


(** ** What a call's measurements mean *)

Definition phase_of (g : stage) : option phase :=
  match g with Active p | Calling p _ | Parked p _ | Unwinding p _ => Some p | Returned _ => None end.

Lemma call_next_phase v now h c a t b :
  phase_of (call_stage c) = Some (Executing a t b) →
  phase_of (call_stage (call_next v now h c)) = Some (Executing a t b)
  ∨ phase_of (call_stage (call_next v now h c)) = None.
Proof.
  intros Hp. unfold call_next, call_step.
  destruct (call_stage c) as [p|p total|p o|p text|r] eqn:Hg; cbn in Hp; simplify_eq; [| | |]; destruct h; try destruct o; cbn;
    rewrite ?Hg; auto; repeat case_match; cbn; rewrite ?Hg; auto.
Qed.
Lemma returned_stays v now l c r : call_stage c = Returned r → call_run v now l c = (now + length_of l, c).
Proof.
  intros Hg. revert now. induction l as [|[d h] l IH]; intros now; cbn [call_run length_of]; [f_equal; lia|].
  unfold call_next, call_step. rewrite Hg. cbn. rewrite IH. f_equal. lia.
Qed.
Lemma executing_stays v now l c a t b p :
  phase_of (call_stage c) = Some (Executing a t b) →
  call_stage (call_run v now l c).2 = Active p → p = Executing a t b.
Proof.
  revert now c. induction l as [|[d h] l IH]; intros now c Hp; cbn [call_run].
  { cbn [snd]. intros Hg. rewrite Hg in Hp. by injection Hp. }
  destruct (call_next_phase v (now + d) h c a t b Hp) as [Hn|Hn]; [by apply IH|].
  destruct (call_stage (call_next v (now + d) h c)) as [| | | |r] eqn:Hg; try done.
  rewrite (returned_stays _ _ _ _ r Hg). cbn [snd]. congruence.
Qed.

(** The writes the guest performed, in order. *)
Fixpoint writes (v : CallParams) (now : Z) (l : list (Z * happening)) c : list (bool * list byte) :=
  match l with
  | [] => []
  | (d, h) :: l' =>
      match call_stage c, h with Active _, HWrite e b => [(e, b)] | _, _ => [] end
      ++ writes v (now + d) l' (call_next v (now + d) h c)
  end.
Definition pipes_after (o : O) (to_stderr : bool) (l : list (bool * list byte)) : O :=
  foldl (λ o w, if Bool.eqb w.1 to_stderr then pipe_write w.2 o else o) o l.

Lemma call_next_pipes v now h c :
  let w := match call_stage c, h with Active _, HWrite e b => [(e, b)] | _, _ => [] end in
  out_pipe (call_next v now h c) = pipes_after (out_pipe c) false w
  ∧ err_pipe (call_next v now h c) = pipes_after (err_pipe c) true w.
Proof.
  unfold call_next, call_step.
  destruct (call_stage c) as [[]| |[] []|[]|], h; cbn; try done; repeat case_match; done.
Qed.
Lemma call_run_pipes v now l c :
  out_pipe (call_run v now l c).2 = pipes_after (out_pipe c) false (writes v now l c)
  ∧ err_pipe (call_run v now l c).2 = pipes_after (err_pipe c) true (writes v now l c).
Proof.
  revert now c. induction l as [|[d h] l IH]; intros now c; cbn [call_run writes]; [done|].
  destruct (call_next_pipes v (now + d) h c) as [E1 E2]. destruct (IH (now + d) (call_next v (now + d) h c)) as [I1 I2].
  unfold pipes_after in *. rewrite !foldl_app. by rewrite I1, I2, E1, E2.
Qed.

(** A guest that executes from [t1] on and returns. *)
Lemma execution_measures v t1 c1 a l2 d2 failed p :
  call_stage c1 = Active (Executing a t1 (total_paused t1 (token c1))) → Clocked (t1, token c1) →
  onward (l2 ++ [(d2, HReturn failed)]) → t1 + length_of (l2 ++ [(d2, HReturn failed)]) ≤ duration_max →
  call_stage (call_run v t1 l2 c1).2 = Active p →
  let c := (call_run v t1 (l2 ++ [(d2, HReturn failed)]) c1).2 in
  ∃ r, call_stage c = Returned (Ok r)
    ∧ inv_exit_code r = (if failed then 1 else 0) ∧ inv_instantiate r = a ∧ inv_execute r = length_of l2 + d2
    ∧ inv_execute r - inv_suspended r = unpaused v t1 (l2 ++ [(d2, HReturn failed)]) c1
    ∧ 0 ≤ inv_suspended r ≤ inv_execute r
    ∧ inv_stdout r = pipe_contents (out_pipe c) ∧ inv_stderr r = pipe_contents (err_pipe c).
Proof.
  intros Hg Hc Ho Hm H2 c. pose proof (unpaused_nonneg v t1 _ c1 Ho) as Hu.
  destruct (call_run_clocked v t1 _ c1 Hc Ho Hm) as (T & K & A). fold c in K, A.
  assert (accrued (t1, token c1) ≤ accrued (t1 + length_of (l2 ++ [(d2, HReturn failed)]), token c)) as Hmono.
  { pose proof (call_run_accrued v t1 _ c1 Hc Ho Hm) as Hm'. by rewrite T in Hm'. }
  rewrite T in K, A. rewrite length_of_app in *. cbn [length_of] in *.
  assert (p = Executing a t1 (total_paused t1 (token c1))) as -> by (eapply executing_stays; [|exact H2]; by rewrite Hg).
  assert (c = set_stage (Returned (Ok (invocation_result failed a t1 (total_paused t1 (token c1))
    (t1 + (length_of l2 + (d2 + 0))) (call_run v t1 l2 c1).2))) (call_run v t1 l2 c1).2) as Ec.
  { unfold c. rewrite call_run_app. cbn [call_run snd]. rewrite (proj1 (call_run_clocked v t1 l2 c1 Hc
      (proj1 (proj1 (Forall_app _ _ _) Ho)) ltac:(apply Forall_app in Ho as [_ [? _]%Forall_cons]; cbn in *; lia))).
    unfold call_next, call_step. rewrite H2. cbn. do 3 f_equal. f_equal; lia. }
  rewrite Ec in *. eexists. split; [done|]. cbn [token set_stage out_pipe err_pipe] in *. unfold invocation_result.
  cbn [inv_exit_code inv_instantiate inv_execute inv_suspended inv_stdout inv_stderr].
  rewrite !total_paused_clocked by (done || lia). unfold elapsed, saturating_sub.
  assert (0 ≤ length_of l2 + (d2 + 0)).
  { pose proof (length_of_nonneg _ Ho) as Hn. rewrite length_of_app in Hn. cbn in Hn. lia. }
  split_and!; try done; lia.
Qed.

End call_facts.

(** ** Calls in their runtime *)

Section command_facts.
Context {C L O : Type} `{Engine C} `{LinkerLib L} `{PipeLib O} `{Crypto} `{Host} `{HttpLib}.
Context {JI : Json CacheIdentity} {JM : Json CacheMetadata}.

(** A command has no network: its sockets are off and, whatever the transport
    would do, every outbound request is refused before reaching it.  The
    sockets of an HTTP worker are off too, and a service without grants is
    refused the same way. *)
Lemma guests_confined lim input c send r body :
  let store := make_store lim input in
  let worker := http_worker_store lim c in
  send_request (store_http_hooks store) send r body = Err HttpRequestDenied
  ∧ (outbound_grants c = [] → send_request (store_http_hooks worker) send r body = Err HttpRequestDenied)
  ∧ Forall (λ w, allow_tcp w = false ∧ allow_udp w = false ∧ allow_ip_name_lookup w = false)
      [store_wasi store; store_wasi worker].
Proof.
  assert (send_request [] send r body = Err HttpRequestDenied) as Hdeny.
  { unfold send_request, grant_for. destruct (req_scheme r); [|done]. cbn [mbind option_bind].
    by destruct (req_authority r). }
  split; [exact Hdeny|]. split; [|by repeat constructor].
  cbn [store_http_hooks http_worker_store]. by intros ->.
Qed.

(** A linker is built at most once, and its result, error included, is the
    one every later call sees. *)
Lemma linkers_once p (k k' : Linkers L) r :
  command_linker p k = Some (k', r) →
  command_linker p k' = Some (k', r)
  ∧ (∀ x, p3_slot k = Some x → p3_slot k' = Some x) ∧ (∀ x, p2_slot k = Some x → p2_slot k' = Some x).
Proof.
  unfold command_linker, p3_linker, p2_linker. destruct p; try done.
  - destruct (p3_slot k) eqn:E; intros [= <- <-]; cbn [p3_slot p2_slot]; rewrite ?E; split_and!; done || congruence.
  - destruct (p2_slot k) eqn:E; intros [= <- <-]; cbn [p3_slot p2_slot]; rewrite ?E; split_and!; done || congruence.
Qed.

Implicit Types s : RuntimeInner C.

(** A command call is refused before anything is touched when its input, its
    timeout or its cancellation rules it out; an output was returned by the
    guest of a command component, and reports execution less suspension as
    active time. *)
Lemma run_controlled_guards p input x s k s' k' res :
  run_controlled (O := O) p input x s k = (s', k', res) →
  let lim := limits (config s) in
  (max_input_bytes lim < blen (stdin input) → (s', k', res) = (s, k, Ended (Err (Limit "input bytes"))))
  ∧ (blen (stdin input) ≤ max_input_bytes lim → timeout input = 0 ∨ max_timeout lim < timeout input →
     (s', k', res) = (s, k, Ended (Err (Limit "timeout"))))
  ∧ (blen (stdin input) ≤ max_input_bytes lim → 0 < timeout input ≤ max_timeout lim → cancelled input = true →
     (s', k', res) = (s, k, Ended (Err Cancelled)))
  ∧ (∀ out, res = Ended (Ok out) → ∃ prepared result,
       is_command (prepared_profile prepared) = true
       ∧ invoke (O := O) (config s') (ce_invoke x) prepared input k = (k', Ended (Ok result))
       ∧ stdout out = inv_stdout result ∧ stderr out = inv_stderr result ∧ exit_code out = inv_exit_code result
       ∧ phase_active_execute (phases (measurement out)) = saturating_sub (inv_execute result) (inv_suspended result)).
Proof.
  intros Hrun lim. unfold run_controlled in Hrun. fold lim in Hrun.
  destruct (Z.ltb_spec (max_input_bytes lim) (blen (stdin input))) as [Hi|Hi].
  { simplify_eq. split_and!; [done|lia|lia|done]. }
  destruct ((timeout input =? 0) || (max_timeout lim <? timeout input)) eqn:Ht.
  { simplify_eq. apply orb_true_iff in Ht. rewrite Z.eqb_eq, Z.ltb_lt in Ht. split_and!; [lia|done|lia|done]. }
  bool_inv. destruct (cancelled input).
  { simplify_eq. split_and!; [lia|lia|done|done]. }
  split_and!; [lia|lia|done|]. intros out ->.
  destruct (tier _ s) as [s1 from]. destruct (prepare _ _ _ _ _ s1) as [s2 [prepared|e]]; [|done].
  destruct (is_command (prepared_profile prepared)) eqn:Hcmd; cbn [negb] in Hrun; [|done].
  destruct (invoke (config s2) (ce_invoke x) prepared input k) as [k2 [| |[r|e]]] eqn:Hinv; simplify_eq.
  exists prepared, r. done.
Qed.

(** An evicted command leaves the warm tier; its artifact is retained. *)
Lemma evicted_command_demoted p input x s k s' k' :
  start_task (O := O) p input x s k = (s', k', Ended (Err IdleEvicted)) → memory_poisoned s' = false →
  warm (memory s') !! program_digest p = None
  ∧ ∃ s1, run_controlled (O := O) p input x s k = (s1, k', Ended (Err IdleEvicted))
      ∧ warmish (memory s') = warmish (memory s1).
Proof.
  unfold start_task. destruct (run_controlled p input x s k) as [[s1 k1] res] eqn:Hrun.
  intros Hs Hp. assert (res = Ended (Err IdleEvicted) ∧ s' = runtime_demote (program_digest p) s1 ∧ k' = k1) as (-> & -> & ->)
    by (destruct res as [| |[|[]]]; by simplify_eq).
  unfold runtime_demote in *. destruct (memory_poisoned s1) eqn:Hm; [congruence|]. cbn.
  split; [apply lookup_delete_eq|eauto].
Qed.
End command_facts.

(** ** The watchdog stops *)

(** What the thread may still do once the flag is raised. *)
Definition ticks_left (w : Watchdog) : Z := match ticker_at w with TickerSleeping _ => 1 | _ => 0 end.

Lemma ticker_step_stopping interval now w :
  stop_epoch w = true →
  let w' := default w (ticker_step interval now w) in
  stop_epoch w' = true ∧ increments w' + ticks_left w' ≤ increments w + ticks_left w.
Proof.
  intros Hs. unfold ticker_step, ticks_left. destruct (ticker_at w) eqn:Ht; cbn; rewrite ?Ht, ?Hs; cbn; [done| |done].
  destruct (_ <? _); cbn; rewrite ?Ht; split; done || lia.
Qed.

(** Once the runtime is dropped the watchdog increments the epoch at most once
    more, whatever the schedule; and the join returns: a thread that is
    scheduled when its sleep is over, and again, has exited. *)
Lemma watchdog_stops interval w :
  stop_epoch w = true →
  (∀ times, increments (watchdog_run interval times w) ≤ increments w + 1)
  ∧ (∀ t1 t2, (∀ since, ticker_at w = TickerSleeping since → since + interval ≤ t1) →
       joined (watchdog_run interval [t1; t2] w) = true).
Proof.
  intros Hs. split.
  - intros times. assert (increments (watchdog_run interval times w) + ticks_left (watchdog_run interval times w)
      ≤ increments w + ticks_left w ∧ 0 ≤ ticks_left (watchdog_run interval times w) ∧ ticks_left w ≤ 1) as (? & ? & ?); [|lia].
    split; [|unfold ticks_left; split; case_match; lia].
    revert w Hs. induction times as [|t times IH]; intros w Hs; cbn; [lia|].
    destruct (ticker_step_stopping interval t w Hs) as [Hs' Hle]. specialize (IH _ Hs'). lia.
  - intros t1 t2 Ht. destruct w as [st n tk]. cbn in Hs, Ht. subst st. unfold watchdog_run, ticker_step, joined.
    destruct tk as [|since|]; cbn; [done| |done].
    rewrite (proj2 (Z.ltb_ge _ _)) by (specialize (Ht since eq_refl); lia). done.
Qed.

Module InvocationExample.

(** A pipe that takes what fits. *)
#[export] Instance pipe : PipeLib (Z * list byte) := {|
  pipe_new n := (n, []);
  pipe_write b o := if blen (o.2 ++ b) <=? o.1 then (o.1, o.2 ++ b) else o;
  pipe_contents o := o.2 |}.

Definition params : CallParams := {|
  cp_invocation := {| call_timeout := 100; call_started := 0; call_baseline := 0; resident_ttl := 10 |};
  cp_instantiate_started := 0; cp_interrupt_text := "wasm trap: interrupt" |}.
Definition fresh : Call (Z * list byte) := call_new default_limits pause_new.

(** Instantiation, a write, a pause of five in which the guest is parked, a
    resume, another write and a normal end. *)
Definition prelude_script : list (Z * happening) := [(1, HEpoch); (0, HCheck)].
Definition body : list (Z * happening) :=
  [(2, HWrite false [x61]); (1, HControl CtlPause); (0, HEpoch); (1, HCheck); (0, HWait Notified); (4, HControl CtlResume);
   (0, HWait Notified); (0, HWait Notified); (3, HWrite false [x62]); (1, HEpoch); (0, HCheck)].
Definition whole : list (Z * happening) := prelude_script ++ (2, HInstantiated) :: body ++ [(4, HReturn false)].

Lemma starts_script l : onward l → length_of l ≤ duration_max → Starts params 0 pause_new l.
Proof. intros. by split. Qed.

Ltac check_onward := repeat (apply Forall_cons; split; [cbn; lia|]); apply Forall_nil; exact I.

(** A guest that never ends times out after what the callback takes for a
    hundred units of running, of which four passed paused in the callback. *)
Definition runaway : list (Z * happening) :=
  [(3, HInstantiated); (5, HControl CtlPause); (1, HEpoch); (0, HCheck); (0, HWait Notified); (6, HControl CtlResume);
   (0, HWait Notified); (0, HWait Notified); (88, HControl CtlPause); (1, HEpoch); (4, HCheck); (0, HMapped)].


(** A call that is resumed and paused again during the sleep of its waiting
    future is evicted when the sleep ends. *)
Definition idle : list (Z * happening) :=
  [(1, HInstantiated); (1, HControl CtlPause); (0, HEpoch); (0, HCheck); (0, HWait Notified);
   (9, HControl CtlResume); (0, HControl CtlPause); (1, HWait SleepElapsed); (1, HEpoch); (0, HCheck); (0, HMapped)].

(** A call whose thread does not run between the callback's two readings of the
    clock is reported as timed out although it was paused all the time. *)
Example paused_call_times_out :
  let l := [(0, HInstantiated); (0, HControl CtlPause); (0, HEpoch); (100, HCheck); (0, HMapped)] in
  call_stage (call_run params 0 l fresh).2 = Returned (Err Timeout) ∧ unpaused params 0 l fresh = 0.
Proof. by vm_compute. Qed.

(** When the idle time of a paused call ends, the call is marked evicted but
    its guest continues to the next epoch: if it ends before, the call
    succeeds. *)
Example evicted_call_returns :
  let c := (call_run params 0 [(1, HInstantiated); (1, HControl CtlPause); (1, HEpoch); (0, HCheck); (20, HWait Notified);
                               (1, HReturn false)] fresh).2 in
  evicted (token c) = true
  ∧ match call_stage c with Returned (Ok _) => true | _ => false end = true.
Proof. by vm_compute. Qed.

(** A timeout during instantiation is reported as an execution error. *)
Example timeout_during_instantiation :
  let c := (call_run params 0 [(100, HEpoch); (0, HCheck); (0, HMapped)] fresh).2 in
  timed_out c = true ∧ call_stage c = Returned (Err (Execution "wasm trap: interrupt")).
Proof. by vm_compute. Qed.

(** A call that is resumed and paused again just before the sleep of its
    waiting future ends can be evicted although the new pause is short. *)
Example short_pause_evicted :
  let c := (call_run params 0 [(1, HInstantiated); (1, HControl CtlPause); (0, HEpoch); (0, HCheck); (0, HWait Notified);
                               (9, HControl CtlResume); (0, HControl CtlPause); (1, HWait SleepElapsed)] fresh).2 in
  evicted (token c) = true ∧ paused_at (timing (token c)) = Some 11 ∧ resident_ttl (cp_invocation params) = 10.
Proof. by vm_compute. Qed.
End InvocationExample.
