(* ===== verification/WorkerMessages.v ===== *)
(** Configuration, identity, isolation report and messages of the
    out-of-process WASIX worker ([src/src/wasix_worker.rs]), with the
    validation each side applies.  Theorems: what an accepted isolation report
    and an accepted ready message guarantee, and that an accepted completion
    fixes the exact output bytes. *)
From S2P Require Import Prelude Errors Interfaces Types CheckpointCodec.

Local Open Scope Z_scope.

(** ** Constants *)

Definition WASIX_WORKER_ISOLATION_PROFILE_VERSION : Z := 2.
Definition WASIX_WORKER_MAX_OPEN_FILES : Z := 64.
Definition WASIX_WORKER_MAX_FILE_BYTES : Z := 512 * 1024 * 1024.
Definition WASIX_WORKER_MAX_ADDRESS_SPACE_BYTES : Z := 2 * 1024 * 1024 * 1024.
Definition WASIX_WORKER_MAX_SUPPLEMENTARY_GROUPS : Z := 64.
Definition MAX_HANDSHAKE_BYTES : Z := 16 * 1024.
Definition MAX_HANDSHAKE_TIMEOUT : Z := secs 30.
Definition WASIX_WORKER_MAX_CHECKPOINT_BYTES : Z := 512 * 1024 * 1024.
Definition WASIX_WORKER_MAX_MODULE_BYTES : Z := 64 * 1024 * 1024.
Definition WASIX_WORKER_MAX_RESTORE_OUTPUT_BYTES : Z := 64 * 1024.
Definition WASIX_WORKER_MAX_DIAGNOSTIC_BYTES : Z := 16 * 1024.
Definition WASIX_WORKER_MAX_CAPTURE_REQUEST_BYTES : Z := 64 * 1024.
Definition WASIX_WORKER_MAX_CAPTURE_ARGUMENTS : Z := 256.
Definition WASIX_WORKER_MAX_CAPTURE_ENVIRONMENT : Z := 256.
Definition WASIX_WORKER_MAX_CAPTURE_VALUE_BYTES : Z := 4 * 1024.

(** ** Deployment configuration *)

Inductive WasixWorkerOperation := Probe | CheckpointTransport | CheckpointRestoreOp | CheckpointCaptureOp.

Record WasixWorkerPlacementRequest := { placed_process_id : Z; placed_operation : WasixWorkerOperation }.

Record WasixWorkerConfig := {
  executable : string;
  handshake_timeout : Z;
  allowed_supplementary_groups : list Z;
  placement : option (WasixWorkerPlacementRequest → option (Result unit));   (* [None]: the policy panics *)
}.

Definition worker_config_new (path : string) : WasixWorkerConfig :=
  {| executable := path; handshake_timeout := secs 5; allowed_supplementary_groups := []; placement := None |}.
Definition with_handshake_timeout (t : Z) (c : WasixWorkerConfig) : WasixWorkerConfig :=
  {| executable := executable c; handshake_timeout := t;
     allowed_supplementary_groups := allowed_supplementary_groups c; placement := placement c |}.

(** [sort_unstable] and [dedup] on integers. *)
Definition sort_ids (l : list Z) : list Z := merge_sort Z.le l.
Fixpoint dedup_ids (l : list Z) : list Z :=
  match l with
  | x :: (y :: _) as l' => if x =? y then dedup_ids l' else x :: dedup_ids l'
  | _ => l
  end.
Definition with_allowed_supplementary_groups (groups : list Z) (c : WasixWorkerConfig) : WasixWorkerConfig :=
  {| executable := executable c; handshake_timeout := handshake_timeout c;
     allowed_supplementary_groups := dedup_ids (sort_ids groups); placement := placement c |}.
Definition with_worker_placement (p : WasixWorkerPlacementRequest → option (Result unit)) (c : WasixWorkerConfig)
    : WasixWorkerConfig :=
  {| executable := executable c; handshake_timeout := handshake_timeout c;
     allowed_supplementary_groups := allowed_supplementary_groups c; placement := Some p |}.
Definition has_worker_placement (c : WasixWorkerConfig) : bool :=
  match placement c with Some _ => true | None => false end.

(** [Path::is_absolute] on Unix. *)
Definition is_absolute (path : string) : bool := starts_with "/" path.

Definition validate_common (c : WasixWorkerConfig) : Result unit :=
  _ ← reject_if (negb (is_absolute (executable c)))
        (Configuration "WASIX worker executable must be an absolute path");
  _ ← reject_if ((handshake_timeout c =? 0) || (MAX_HANDSHAKE_TIMEOUT <? handshake_timeout c))
        (Configuration "WASIX worker handshake timeout must be between zero and 30 seconds");
  reject_if ((WASIX_WORKER_MAX_SUPPLEMENTARY_GROUPS <? blen (allowed_supplementary_groups c))
             || existsb (Z.eqb 0) (allowed_supplementary_groups c))
    (Configuration "WASIX worker supplementary group allowlist is invalid").

(** ** The isolation report *)

(** Linux credentials: real, effective, saved and filesystem. *)
Record Ids := { real_id : Z; effective_id : Z; saved_id : Z; filesystem_id : Z }.
Definition id_list (i : Ids) : list Z := [real_id i; effective_id i; saved_id i; filesystem_id i].
(** A soft and a hard limit. *)
Abbreviation limit_pair := (Z * Z)%type.

Record WasixWorkerIsolation := {
  profile_version : Z;
  user_ids : Ids;
  group_ids : Ids;
  supplementary_group_ids : list Z;
  has_root_supplementary_group : bool;
  no_new_privileges : bool;
  dumpable : bool;
  capability_masks : list Z;   (* effective, permitted, inheritable, ambient *)
  core_file_limits : limit_pair;
  file_size_limits : limit_pair;
  address_space_limits : limit_pair;
  open_file_limits : limit_pair;
  closed_inherited_descriptor_count : Z;
}.

(** [{:?}] of integers and pairs of limits. *)
Definition show_list (l : list Z) : string := "[" +:+ String.concat ", " (show <$> l) +:+ "]".
Definition show_pair (p : limit_pair) : string := show_list [p.1; p.2].

Definition limits_bad (maximum : Z) (p : limit_pair) : bool :=
  negb (p.1 =? p.2) || (p.1 =? 0) || (maximum <? p.1).

Definition isolation_validate (i : WasixWorkerIsolation) (allowed_groups : list Z) : Result unit :=
  _ ← reject_if (negb (profile_version i =? WASIX_WORKER_ISOLATION_PROFILE_VERSION))
        (UnsupportedComponent ("WASIX worker isolation profile " +:+ show (profile_version i)
           +:+ " is incompatible with required profile " +:+ show WASIX_WORKER_ISOLATION_PROFILE_VERSION));
  _ ← reject_if (existsb (Z.eqb 0) (id_list (user_ids i)) || existsb (Z.eqb 0) (id_list (group_ids i)))
        (Execution "WASIX worker retained a root user or group credential");
  _ ← reject_if (negb (filesystem_id (user_ids i) =? effective_id (user_ids i))
                 || negb (filesystem_id (group_ids i) =? effective_id (group_ids i)))
        (Execution "WASIX worker filesystem credentials differ from its effective identity");
  _ ← reject_if (has_root_supplementary_group i)
        (Execution "WASIX worker retained supplementary group zero");
  _ ← reject_if ((WASIX_WORKER_MAX_SUPPLEMENTARY_GROUPS <? blen (supplementary_group_ids i))
                 || negb (bool_decide (supplementary_group_ids i = allowed_groups)))
        (Execution ("WASIX worker supplementary groups " +:+ show_list (supplementary_group_ids i)
           +:+ " do not match the deployment allowlist"));
  _ ← reject_if (negb (no_new_privileges i) || dumpable i)
        (Execution "WASIX worker did not seal privilege escalation and tracing");
  _ ← reject_if (negb (bool_decide (capability_masks i = [0; 0; 0; 0])))
        (Execution "WASIX worker retained Linux capabilities");
  _ ← reject_if (negb (bool_decide (core_file_limits i = (0, 0))))
        (Execution "WASIX worker did not disable core files");
  _ ← reject_if (limits_bad WASIX_WORKER_MAX_FILE_BYTES (file_size_limits i))
        (Execution ("WASIX worker file-size limits " +:+ show_pair (file_size_limits i)
           +:+ " exceed the isolation profile"));
  _ ← reject_if (limits_bad WASIX_WORKER_MAX_ADDRESS_SPACE_BYTES (address_space_limits i))
        (Execution ("WASIX worker address-space limits " +:+ show_pair (address_space_limits i)
           +:+ " exceed the isolation profile"));
  reject_if (limits_bad WASIX_WORKER_MAX_OPEN_FILES (open_file_limits i))
    (Execution ("WASIX worker open-file limits " +:+ show_pair (open_file_limits i)
       +:+ " exceed the isolation profile")).

(** ** The ready message *)

Record WasixWorkerMetadata := {
  protocol_version : Z;
  runtime_version : string;
  cohort_id : string;
  metadata_build_sha256 : string;
  process_id : Z;
  isolation : WasixWorkerIsolation;
}.

Section messages.
Context `{BuildInfo} `{Crypto}.

Definition worker_metadata_current (i : WasixWorkerIsolation) (build : string) (pid : Z) : WasixWorkerMetadata :=
  {| protocol_version := WASIX_WORKER_PROTOCOL_VERSION; runtime_version := cargo_pkg_version;
     cohort_id := WASIX_COHORT_ID; metadata_build_sha256 := build; process_id := pid; isolation := i |}.

Definition worker_metadata_validate (m : WasixWorkerMetadata) (expected_process_id : Z)
    (expected_build : string) (allowed_groups : list Z) : Result unit :=
  _ ← reject_if (negb (protocol_version m =? WASIX_WORKER_PROTOCOL_VERSION))
        (UnsupportedComponent ("WASIX worker protocol " +:+ show (protocol_version m)
           +:+ " is incompatible with required protocol " +:+ show WASIX_WORKER_PROTOCOL_VERSION));
  _ ← reject_if (negb (bool_decide (runtime_version m = cargo_pkg_version)))
        (UnsupportedComponent ("WASIX worker runtime " +:+ runtime_version m
           +:+ " is incompatible with required runtime " +:+ cargo_pkg_version));
  _ ← reject_if (negb (bool_decide (cohort_id m = WASIX_COHORT_ID)))
        (UnsupportedComponent ("WASIX worker cohort " +:+ show_debug (cohort_id m)
           +:+ " is incompatible with required cohort " +:+ show_debug WASIX_COHORT_ID));
  _ ← reject_if (negb (bool_decide (metadata_build_sha256 m = expected_build)))
        (UnsupportedComponent ("WASIX worker build " +:+ metadata_build_sha256 m
           +:+ " does not match pinned executable " +:+ expected_build));
  _ ← reject_if (negb (process_id m =? expected_process_id))
        (Execution ("WASIX worker reported process " +:+ show (process_id m)
           +:+ ", but spawned process was " +:+ show expected_process_id));
  isolation_validate (isolation m) allowed_groups.

(** ** Acknowledgements, completions, requests *)

Record WasixCheckpointTransportAck := { ta_journal_bytes : Z; ta_journal_sha256 : string }.
Record WasixCheckpointRestoreAck := {
  ra_module_bytes : Z; ra_module_sha256 : string; ra_journal_bytes : Z; ra_journal_sha256 : string }.
Record WasixCheckpointRestoreCompletion := {
  rc_exit_code : Z; rc_stdout_bytes : Z; rc_stdout_sha256 : string;
  rc_stderr_bytes : Z; rc_stderr_sha256 : string }.
Record WasixCheckpointCaptureRequest := { arguments : list string; environment : list (string * string) }.
Record WasixCheckpointCaptureAck := {
  ca_module_bytes : Z; ca_module_sha256 : string; ca_request_bytes : Z; ca_request_sha256 : string }.
Record WasixCheckpointCaptureCompletion := {
  cc_exit_code : Z; cc_journal_bytes : Z; cc_journal_sha256 : string;
  cc_stdout_bytes : Z; cc_stdout_sha256 : string; cc_stderr_bytes : Z; cc_stderr_sha256 : string }.

Definition transport_ack_validate (a : WasixCheckpointTransportAck) (bytes : Z) (sha : string) : Result unit :=
  reject_if (negb (ta_journal_bytes a =? bytes) || negb (bool_decide (ta_journal_sha256 a = sha)))
    (Execution "WASIX worker checkpoint acknowledgement did not match the sealed input").

Definition restore_ack_validate (a : WasixCheckpointRestoreAck) (mb : Z) (ms : string) (jb : Z) (js : string)
    : Result unit :=
  reject_if (negb (ra_module_bytes a =? mb) || negb (bool_decide (ra_module_sha256 a = ms))
             || negb (ra_journal_bytes a =? jb) || negb (bool_decide (ra_journal_sha256 a = js)))
    (Execution "WASIX worker restore acknowledgement did not match the sealed inputs").

(** The comparison both completions use. *)
Definition output_matches (bytes : list byte) (expected_bytes : Z) (expected_sha256 : string) : bool :=
  (blen bytes <=? u64_max) && (blen bytes =? expected_bytes) && bool_decide (sha256_hex bytes = expected_sha256).

Definition restore_completion_validate (c : WasixCheckpointRestoreCompletion) (stdout stderr : list byte)
    : Result unit :=
  reject_if (negb (rc_exit_code c =? 0)
             || negb (output_matches stdout (rc_stdout_bytes c) (rc_stdout_sha256 c))
             || negb (output_matches stderr (rc_stderr_bytes c) (rc_stderr_sha256 c)))
    (Execution "WASIX worker restore completion did not match its output").

Definition capture_completion_validate (c : WasixCheckpointCaptureCompletion) (journal stdout stderr : list byte)
    : Result unit :=
  reject_if (negb (cc_exit_code c =? 0)
             || negb (output_matches journal (cc_journal_bytes c) (cc_journal_sha256 c))
             || negb (output_matches stdout (cc_stdout_bytes c) (cc_stdout_sha256 c))
             || negb (output_matches stderr (cc_stderr_bytes c) (cc_stderr_sha256 c)))
    (Execution "WASIX worker capture completion did not match its output").

Definition validate_capture_value (label value : string) (maximum : Z) : result string unit :=
  reject_if ((maximum <? slen value) || str_contains x00 value)
    ("WASIX checkpoint capture " +:+ label +:+ " is invalid").

Definition validate_capture_entry (kv : string * string) : result string unit :=
  _ ← reject_if (bool_decide (kv.1 = EmptyString) || str_contains "=" kv.1)
        "WASIX checkpoint capture environment key is invalid";
  _ ← validate_capture_value "environment key" kv.1 256;
  validate_capture_value "environment value" kv.2 WASIX_WORKER_MAX_CAPTURE_VALUE_BYTES.

Definition capture_request_validate (r : WasixCheckpointCaptureRequest) : result string unit :=
  _ ← reject_if ((WASIX_WORKER_MAX_CAPTURE_ARGUMENTS <? blen (arguments r))
                 || (WASIX_WORKER_MAX_CAPTURE_ENVIRONMENT <? blen (environment r)))
        "WASIX checkpoint capture input contains too many entries";
  _ ← for_each (λ a, validate_capture_value "argument" a WASIX_WORKER_MAX_CAPTURE_VALUE_BYTES) (arguments r);
  for_each validate_capture_entry (environment r).

(** The entries of a [BTreeMap] in key order. *)
Definition key_le (a b : string * string) : Prop := str_ltb b.1 a.1 = false.
#[local] Instance key_le_dec a b : Decision (key_le a b) := decide (str_ltb b.1 a.1 = false).
Definition btree_entries (m : gmap string string) : list (string * string) :=
  merge_sort key_le (map_to_list m).

Definition capture_request_new (input : CommandInput) : Result (WasixCheckpointCaptureRequest * Z * bool) :=
  _ ← reject_if (negb (bool_decide (stdin input = [])))
        (Configuration "WASIX checkpoint capture does not yet support standard input");
  _ ← reject_if ((timeout input =? 0) || (MAX_HANDSHAKE_TIMEOUT <? timeout input))
        (Configuration "WASIX checkpoint capture timeout must be between zero and 30 seconds");
  let request := {| arguments := args input; environment := btree_entries (env input) |} in
  _ ← map_err Configuration (capture_request_validate request);
  Ok (request, timeout input, cancelled input).
End messages.

(** ** The group allowlist *)

Lemma elem_of_dedup_ids x l : x ∈ dedup_ids l ↔ x ∈ l.
Proof.
  induction l as [|a [|b l] IH]; [done|done|].
  change (dedup_ids (a :: b :: l)) with (if a =? b then dedup_ids (b :: l) else a :: dedup_ids (b :: l)).
  destruct (Z.eqb_spec a b) as [->|]; [|rewrite elem_of_cons]; rewrite IH, !elem_of_cons; naive_solver.
Qed.

Lemma dedup_ids_sorted l : StronglySorted Z.le l → StronglySorted Z.lt (dedup_ids l).
Proof.
  induction l as [|a [|b l] IH]; intros Hs; [constructor|by repeat constructor|].
  apply StronglySorted_inv in Hs as [Hs Ha].
  change (dedup_ids (a :: b :: l)) with (if a =? b then dedup_ids (b :: l) else a :: dedup_ids (b :: l)).
  destruct (Z.eqb_spec a b); [by apply IH|].
  constructor; [by apply IH|]. apply Forall_forall. intros x Hx.
  apply StronglySorted_inv in Hs as [_ Hb]. rewrite Forall_forall in Ha, Hb.
  rewrite elem_of_dedup_ids in Hx.
  assert (a ≤ b) by (apply Ha; left). apply elem_of_cons in Hx as [->|Hx]; [lia|].
  specialize (Hb x Hx). lia.
Qed.

Lemma sorted_lt_unique l k :
  StronglySorted Z.lt l → StronglySorted Z.lt k → (∀ x, x ∈ l ↔ x ∈ k) → l = k.
Proof.
  intros Hl. revert k. induction Hl as [|a l Hl IH Ha]; intros k Hk Hx.
  { destruct k as [|b k]; [done|]. by pose proof (proj2 (Hx b) (list_elem_of_here _ _)) as ?%not_elem_of_nil. }
  destruct Hk as [|b k Hk Hb].
  { by pose proof (proj1 (Hx a) (list_elem_of_here _ _)) as ?%not_elem_of_nil. }
  rewrite Forall_forall in Ha, Hb.
  assert (a = b) as <-.
  { destruct (proj1 (elem_of_cons _ _ _) (proj1 (Hx a) (list_elem_of_here _ _))) as [->|Hak]; [done|].
    destruct (proj1 (elem_of_cons _ _ _) (proj2 (Hx b) (list_elem_of_here _ _))) as [->|Hbl]; [done|].
    specialize (Ha b Hbl). specialize (Hb a Hak). lia. }
  f_equal. apply IH; [done|]. intros x. specialize (Hx x). rewrite !elem_of_cons in Hx. split; intros Hin.
  - destruct (proj1 Hx (or_intror Hin)) as [->|]; [|done]. specialize (Ha a Hin). lia.
  - destruct (proj2 Hx (or_intror Hin)) as [->|]; [|done]. specialize (Hb a Hin). lia.
Qed.

Lemma allowlist_canonical l :
  StronglySorted Z.lt (dedup_ids (sort_ids l)) ∧ ∀ x, x ∈ dedup_ids (sort_ids l) ↔ x ∈ l.
Proof.
  split.
  - apply dedup_ids_sorted. apply Sorted_StronglySorted; [intros ???; lia|]. apply Sorted_merge_sort. intros ??; lia.
  - intros x. rewrite elem_of_dedup_ids. unfold sort_ids. by rewrite merge_sort_Permutation.
Qed.

(** The supplementary group allowlist is kept in canonical form, so
    configurations built from the same groups in any order and with any
    repetition accept exactly the same workers, and it is strictly increasing. *)
Theorem allowed_groups_canonical c groups :
  StronglySorted Z.lt (allowed_supplementary_groups (with_allowed_supplementary_groups groups c))
  ∧ (∀ x, x ∈ allowed_supplementary_groups (with_allowed_supplementary_groups groups c) ↔ x ∈ groups)
  ∧ ∀ groups', (∀ x, x ∈ groups ↔ x ∈ groups') →
      with_allowed_supplementary_groups groups c = with_allowed_supplementary_groups groups' c.
Proof.
  cbn. destruct (allowlist_canonical groups) as [Hs He]. split_and!; [done|done|].
  intros groups' Hg. destruct (allowlist_canonical groups') as [Hs' He'].
  unfold with_allowed_supplementary_groups. f_equal. apply sorted_lt_unique; [done|done|].
  intros x. by rewrite He, He', Hg.
Qed.

(** ** What validation guarantees *)

Definition limits_within (maximum : Z) (p : limit_pair) : Prop := p.1 = p.2 ∧ p.1 ≠ 0 ∧ p.1 ≤ maximum.

Lemma limits_bad_false maximum p : limits_bad maximum p = false ↔ limits_within maximum p.
Proof.
  unfold limits_bad, limits_within.
  rewrite !orb_false_iff, negb_false_iff, Z.eqb_eq, Z.eqb_neq, Z.ltb_ge. tauto.
Qed.

Lemma existsb_zero l : existsb (Z.eqb 0) l = false ↔ 0 ∉ l.
Proof.
  rewrite existsb_false, Forall_forall. setoid_rewrite Z.eqb_neq. split.
  - intros Hf Hin. by apply (Hf 0 Hin).
  - by intros Hn x Hx <-.
Qed.

(** The postconditions of an isolated worker. *)
Record Isolated (i : WasixWorkerIsolation) (allowed : list Z) : Prop := {
  iso_version : profile_version i = WASIX_WORKER_ISOLATION_PROFILE_VERSION;
  iso_users : 0 ∉ id_list (user_ids i);
  iso_groups : 0 ∉ id_list (group_ids i);
  iso_fs_user : filesystem_id (user_ids i) = effective_id (user_ids i);
  iso_fs_group : filesystem_id (group_ids i) = effective_id (group_ids i);
  iso_root_group : has_root_supplementary_group i = false;
  iso_group_count : blen (supplementary_group_ids i) ≤ WASIX_WORKER_MAX_SUPPLEMENTARY_GROUPS;
  iso_allowlist : supplementary_group_ids i = allowed;
  iso_no_new_privileges : no_new_privileges i = true;
  iso_not_dumpable : dumpable i = false;
  iso_no_capabilities : capability_masks i = [0; 0; 0; 0];
  iso_no_core : core_file_limits i = (0, 0);
  iso_file_size : limits_within WASIX_WORKER_MAX_FILE_BYTES (file_size_limits i);
  iso_address_space : limits_within WASIX_WORKER_MAX_ADDRESS_SPACE_BYTES (address_space_limits i);
  iso_open_files : limits_within WASIX_WORKER_MAX_OPEN_FILES (open_file_limits i);
}.

Lemma isolation_validate_iff i allowed : isolation_validate i allowed = Ok tt ↔ Isolated i allowed.
Proof.
  unfold isolation_validate. rewrite !reject_bind_Ok, reject_if_Ok, !limits_bad_false.
  rewrite !orb_false_iff, !negb_false_iff, !bool_decide_eq_true, !Z.eqb_eq, !existsb_zero, Z.ltb_ge.
  split.
  - intros (? & (? & ?) & (? & ?) & ? & (? & ?) & (? & ?) & ? & ? & ? & ? & ?). by split.
  - by intros [].
Qed.

Section accepted.
Context `{BuildInfo} {K : Crypto} {CL : CryptoLaws K}.

Lemma worker_metadata_validate_iff m pid build allowed :
  worker_metadata_validate m pid build allowed = Ok tt ↔
  protocol_version m = WASIX_WORKER_PROTOCOL_VERSION ∧ runtime_version m = cargo_pkg_version
  ∧ cohort_id m = WASIX_COHORT_ID ∧ metadata_build_sha256 m = build ∧ process_id m = pid
  ∧ Isolated (isolation m) allowed.
Proof.
  unfold worker_metadata_validate. rewrite !reject_bind_Ok, isolation_validate_iff.
  rewrite !negb_false_iff, !bool_decide_eq_true, !Z.eqb_eq. tauto.
Qed.

Lemma validate_common_iff c :
  validate_common c = Ok tt ↔
  is_absolute (executable c) = true
  ∧ handshake_timeout c ≠ 0 ∧ handshake_timeout c ≤ MAX_HANDSHAKE_TIMEOUT
  ∧ blen (allowed_supplementary_groups c) ≤ WASIX_WORKER_MAX_SUPPLEMENTARY_GROUPS
  ∧ 0 ∉ allowed_supplementary_groups c.
Proof.
  unfold validate_common. rewrite !reject_bind_Ok, reject_if_Ok, !orb_false_iff, negb_false_iff.
  rewrite Z.eqb_neq, !Z.ltb_ge, existsb_zero. tauto.
Qed.

(** Under an accepted configuration, a ready message is accepted exactly
    when the worker runs this protocol, runtime release, cohort and the pinned
    executable, is the spawned process, and reports every isolation
    postcondition; such a worker has no root identity in any of its user,
    group or supplementary group credentials. *)
Theorem worker_ready_guarantees c m pid build :
  validate_common c = Ok tt →
  (worker_metadata_validate m pid build (allowed_supplementary_groups c) = Ok tt ↔
   protocol_version m = WASIX_WORKER_PROTOCOL_VERSION ∧ runtime_version m = cargo_pkg_version
   ∧ cohort_id m = WASIX_COHORT_ID ∧ metadata_build_sha256 m = build ∧ process_id m = pid
   ∧ Isolated (isolation m) (allowed_supplementary_groups c))
  ∧ (worker_metadata_validate m pid build (allowed_supplementary_groups c) = Ok tt →
     0 ∉ id_list (user_ids (isolation m)) ++ id_list (group_ids (isolation m))
         ++ supplementary_group_ids (isolation m)).
Proof.
  intros (_ & _ & _ & _ & Hz)%validate_common_iff. split; [apply worker_metadata_validate_iff|].
  intros (_ & _ & _ & _ & _ & I)%worker_metadata_validate_iff. rewrite !elem_of_app.
  intros [Hu|[Hg|Hs]]; [by apply (iso_users _ _ I)|by apply (iso_groups _ _ I)|].
  rewrite (iso_allowlist _ _ I) in Hs. done.
Qed.

Lemma output_matches_inj x y n h :
  output_matches x n h = true → output_matches y n h = true → x = y ∨ sha256_collision.
Proof.
  unfold output_matches. rewrite !andb_true_iff, !bool_decide_eq_true. intros [_ Hx] [_ Hy].
  apply sha256_hex_collision. congruence.
Qed.

(** A completion message the parent accepts fixes the output: two
    outputs accepted under the same completion are byte for byte equal, or
    they exhibit a SHA-256 collision; and the worker reported success. *)
Theorem capture_completion_binds c j o e j' o' e' :
  capture_completion_validate c j o e = Ok tt →
  capture_completion_validate c j' o' e' = Ok tt →
  cc_exit_code c = 0 ∧ (j = j' ∧ o = o' ∧ e = e' ∨ sha256_collision).
Proof.
  unfold capture_completion_validate.
  rewrite !reject_if_Ok, !orb_false_iff, !negb_false_iff, Z.eqb_eq.
  intros (((? & Hj) & Ho) & He) (((_ & Hj') & Ho') & He'). split; [done|].
  destruct (output_matches_inj _ _ _ _ Hj Hj') as [->|]; [|by right].
  destruct (output_matches_inj _ _ _ _ Ho Ho') as [->|]; [|by right].
  destruct (output_matches_inj _ _ _ _ He He') as [->|]; [|by right]. by left.
Qed.
End accepted.

(** ** Concrete instances *)

Module WorkerMessagesExample.
Import Toy CheckpointExample.

Definition worker_ids : Ids :=
  {| real_id := 65534; effective_id := 65534; saved_id := 65534; filesystem_id := 65534 |}.
Definition isolated : WasixWorkerIsolation := {|
  profile_version := 2; user_ids := worker_ids; group_ids := worker_ids; supplementary_group_ids := [7; 9];
  has_root_supplementary_group := false; no_new_privileges := true; dumpable := false;
  capability_masks := [0; 0; 0; 0]; core_file_limits := (0, 0);
  file_size_limits := (4096, 4096); address_space_limits := (4096, 4096); open_file_limits := (64, 64);
  closed_inherited_descriptor_count := 0 |}.
Definition config : WasixWorkerConfig :=
  with_allowed_supplementary_groups [9; 7; 9] (worker_config_new "/usr/libexec/worker").
Definition ready : WasixWorkerMetadata := worker_metadata_current isolated "b1" 42.

Lemma isolated_ok : Isolated isolated [7; 9].
Proof. apply isolation_validate_iff. by vm_compute. Qed.

Lemma worker_ready_guarantees_witness :
  0 ∉ id_list (user_ids (isolation ready)) ++ id_list (group_ids (isolation ready))
      ++ supplementary_group_ids (isolation ready).
Proof.
  refine (proj2 (worker_ready_guarantees config ready 42 "b1" _) _); by vm_compute.
Defined.
End WorkerMessagesExample.
