(* ===== verification/WorkerFrames.v ===== *)
(** Length-prefixed frames between the runtime and its worker
    ([src/src/wasix_worker.rs]): the parent's readers, the worker's readers and
    writers, the execution authorization and the bounded diagnostics reader.
    Theorems: a frame written by one side is read back exactly by the other
    under any delivery, a length outside its bound is refused before anything
    is allocated or read, and diagnostics keep exactly a bounded prefix. *)
From S2P Require Import Prelude Errors Interfaces Streams Types CheckpointCodec WorkerMessages.

Local Open Scope Z_scope.

(** [Write::flush]. *)
Class Flush (W : Type) := flush : W → W * result string unit.
#[global] Instance vec_flush : Flush (list byte) := λ w, (w, Ok tt).

(** The text of a failed [read_exact]; an early end of file reads differently
    in [tokio] and in the standard library. *)
Definition read_error_text (eof : string) (e : read_error) : string :=
  match e with UnexpectedEof => eof | OtherError m => m end.
Definition tokio_eof : string := "early eof".
Definition std_eof : string := "failed to fill whole buffer".

Section frames.
Context `{Allocator}.

(** The common shape of the four frame readers: four big-endian length bytes,
    a bound, an allocation, the bytes. *)
Definition read_length_prefixed {E} (eof : string) (maximum : Z) (allow_empty : bool)
    (on_length : string → E) (on_bound : Z → E) (on_alloc on_read : string → E) (r : reader)
    : result E (list byte * reader) :=
  '(length_bytes, r) ← map_err (λ e, on_length (read_error_text eof e)) (read_exact r 4);
  let length := be_val length_bytes in
  _ ← reject_if ((negb allow_empty && (length =? 0)) || (maximum <? length)) (on_bound length);
  _ ← map_err on_alloc (try_reserve_exact length);
  map_err (λ e, on_read (read_error_text eof e)) (read_exact r length).

Definition read_frame (r : reader) : Result (list byte * reader) :=
  read_length_prefixed tokio_eof MAX_HANDSHAKE_BYTES false
    (λ e, Execution ("failed to read WASIX worker frame length: " +:+ e))
    (λ n, Execution ("WASIX worker frame length " +:+ show n +:+ " is invalid"))
    (λ e, Execution ("failed to allocate WASIX worker frame: " +:+ e))
    (λ e, Execution ("failed to read WASIX worker frame: " +:+ e)) r.

Definition read_bounded_worker_frame (r : reader) (maximum : Z) (allow_empty : bool) (label : string)
    : Result (list byte * reader) :=
  read_length_prefixed tokio_eof maximum allow_empty
    (λ e, Execution ("failed to read WASIX " +:+ label +:+ " length: " +:+ e))
    (λ n, Execution ("WASIX " +:+ label +:+ " length " +:+ show n +:+ " is invalid"))
    (λ e, Execution ("failed to allocate WASIX " +:+ label +:+ ": " +:+ e))
    (λ e, Execution ("failed to read WASIX " +:+ label +:+ ": " +:+ e)) r.

Definition read_restore_output_frame (r : reader) (stream : string) : Result (list byte * reader) :=
  read_bounded_worker_frame r WASIX_WORKER_MAX_RESTORE_OUTPUT_BYTES true ("restore " +:+ stream).

Definition read_worker_control_frame (r : reader) (maximum : Z) (label : string)
    : result string (list byte * reader) :=
  read_length_prefixed std_eof maximum false
    (λ e, "cannot read " +:+ label +:+ " length: " +:+ e)
    (λ n, label +:+ " length " +:+ show n +:+ " is invalid")
    (λ e, "cannot allocate " +:+ label +:+ ": " +:+ e)
    (λ e, "cannot read " +:+ label +:+ ": " +:+ e) r.

(** ** Writers *)

Section writers.
Context {W : Type} `{Write W} `{Flush W}.

(** [write_all(length).and_then(write_all(frame)).and_then(flush)] *)
Definition write_length_prefixed (w : W) (frame : list byte) : W * result string unit :=
  let? (w, _x) := write_all w (be_bytes 4 (blen frame)) in
  let? (w, _x) := write_all w frame in
  flush w.

Definition write_worker_frame (w : W) (frame : list byte) : W * result string unit :=
  if (MAX_HANDSHAKE_BYTES <? blen frame) || (u32_max <? blen frame)
  then (w, Err "worker metadata exceeds the protocol frame limit")
  else let '(w, r) := write_length_prefixed w frame in
       (w, map_err (λ e, "cannot write worker metadata: " +:+ e) r).

Definition write_worker_bounded_frame (w : W) (frame : list byte) (maximum : Z) (allow_empty : bool)
    (label : string) : W * result string unit :=
  if (negb allow_empty && bool_decide (frame = [])) || (maximum <? blen frame) || (u32_max <? blen frame)
  then (w, Err (label +:+ " exceeds the protocol frame limit"))
  else let '(w, r) := write_length_prefixed w frame in
       (w, map_err (λ e, "cannot write " +:+ label +:+ ": " +:+ e) r).

Definition write_worker_output_frame (w : W) (frame : list byte) (label : string) : W * result string unit :=
  write_worker_bounded_frame w frame WASIX_WORKER_MAX_RESTORE_OUTPUT_BYTES true label.

(** The parent's frame on the control socket: two writes, no flush. *)
Definition write_control_frame (w : W) (frame : list byte) : W * Result unit :=
  if u32_max <? blen frame
  then (w, Err (Configuration "capture request length overflows u32"))
  else
    let on_error e := Execution ("failed to send capture request: " +:+ e) in
    let '(w, r) := write_all w (be_bytes 4 (blen frame)) in
    match r with
    | Err e => (w, Err (on_error e))
    | Ok _ => let '(w, r) := write_all w frame in (w, map_err on_error r)
    end.
End writers.

(** ** Authorization *)

(** [read] at the end of a stream: how many bytes one call returned. *)
Definition read_one (r : reader) : result string (list byte) :=
  match read r 1 with
  | ReadBytes b _ => Ok b
  | ReadInterrupted _ => Err "operation interrupted"
  | ReadErr m _ => Err m
  end.

Definition read_worker_execute_authorization (r : reader) (operation : string) : result string unit :=
  '(authorization, r) ← map_err (λ e, "cannot read " +:+ operation +:+ " authorization: "
                                        +:+ read_error_text std_eof e) (read_exact r 1);
  _ ← reject_if (negb (bool_decide (authorization = ["E"%byte])))
        (operation +:+ " authorization is malformed");
  trailing ← map_err (λ e, "cannot finish " +:+ operation +:+ " authorization: " +:+ e) (read_one r);
  reject_if (negb (bool_decide (trailing = []))) (operation +:+ " authorization contains trailing bytes").

(** ** Diagnostics *)

(** The read loop; one event of the stream is one [read] unless it is longer
    than the buffer, which takes several. *)
Definition retain (bytes : list byte) (truncated : bool) (read : list byte) : list byte * bool :=
  let remaining := saturating_sub WASIX_WORKER_MAX_DIAGNOSTIC_BYTES (blen bytes) in
  let retained := Z.min (blen read) remaining in
  (bytes ++ take (Z.to_nat retained) read, truncated || negb (retained =? blen read)).

Fixpoint diagnostics_loop (fuel : nat) (r : reader) (bytes : list byte) (truncated : bool)
    : option (result string WasixWorkerDiagnostics) :=
  match fuel with
  | O => None
  | S fuel' =>
      match read r 4096 with
      | ReadErr m _ => Some (Err m)
      | ReadInterrupted _ => Some (Err "operation interrupted")
      | ReadBytes b r' =>
          if blen b =? 0 then Some (Ok {| diagnostic_bytes := bytes; truncated := truncated |})
          else let '(bytes, truncated) := retain bytes truncated b in
               diagnostics_loop fuel' r' bytes truncated
      end
  end.

(** Every read consumes an event or at least one byte. *)
Definition diagnostics_fuel (r : reader) : nat := S (length r + length (reader_bytes r)).

Definition read_worker_diagnostics (r : reader) : option (result string WasixWorkerDiagnostics) :=
  match try_reserve_exact WASIX_WORKER_MAX_DIAGNOSTIC_BYTES with
  | Err e => Some (Err ("diagnostic allocation failed: " +:+ e))
  | Ok _ => diagnostics_loop (diagnostics_fuel r) r [] false
  end.
End frames.

(** ** Round trip *)

Lemma vec_write_length_prefixed (w frame : list byte) :
  write_length_prefixed w frame = (w ++ be_bytes 4 (blen frame) ++ frame, Ok tt).
Proof. cbv [write_length_prefixed write_all vec_write io_bind flush vec_flush]. by rewrite <- app_assoc. Qed.

Section roundtrip.
Context (A : Allocator).

(** What a reader does with a well-formed prefix. *)
Lemma read_length_prefixed_ok {E} eof maximum allow_empty (f1 : string → E) f2 f3 f4 r frame rest :
  reliable r → reader_bytes r = be_bytes 4 (blen frame) ++ frame ++ rest →
  blen frame ≤ u32_max → blen frame ≤ maximum → (allow_empty = true ∨ frame ≠ []) →
  try_reserve_exact (blen frame) = Ok tt →
  ∃ r', read_length_prefixed eof maximum allow_empty f1 f2 f3 f4 r = Ok (frame, r')
    ∧ reliable r' ∧ reader_bytes r' = rest.
Proof.
  intros Hr Hb H32 Hmax Hne Hal. pose proof (blen_nonneg frame). pose proof (blen_nonneg rest).
  destruct (read_exact_reliable r 4) as (r1 & E1 & Hr1 & Hb1); [done|rewrite Hb; blen_lia|].
  rewrite Hb in E1, Hb1. change (Z.to_nat 4) with 4%nat in E1, Hb1.
  rewrite take_app_length' in E1 by (by rewrite length_be_bytes).
  rewrite drop_app_length' in Hb1 by (by rewrite length_be_bytes).
  destruct (read_exact_reliable r1 (blen frame)) as (r2 & E2 & Hr2 & Hb2); [done|rewrite Hb1; blen_lia|].
  rewrite Hb1 in E2, Hb2. unfold blen in E2, Hb2. rewrite Nat2Z.id in E2, Hb2.
  rewrite take_app_length in E2. rewrite drop_app_length in Hb2.
  exists r2. split_and!; [|done|done]. unfold read_length_prefixed. rewrite E1. cbn [map_err mbind result_bind].
  rewrite be_val_be_bytes_small by (change (256 ^ Z.of_nat 4) with (u32_max + 1); lia).
  assert (Hbound : (negb allow_empty && (blen frame =? 0)) || (maximum <? blen frame) = false).
  { apply orb_false_iff; split; [|by apply Z.ltb_ge]. destruct Hne as [->|Hne]; [done|].
    apply andb_false_iff; right. apply Z.eqb_neq. intros ->%blen_nil_inv. done. }
  rewrite Hbound. cbn [reject_if mbind result_bind]. rewrite Hal. cbn [map_err mbind result_bind].
  unfold blen at 1. by rewrite E2.
Qed.

Lemma read_length_prefixed_within {E} eof maximum allow_empty (f1 : string → E) f2 f3 f4 r b r' :
  read_length_prefixed eof maximum allow_empty f1 f2 f3 f4 r = Ok (b, r') →
  blen b ≤ maximum ∧ (allow_empty = false → b ≠ []).
Proof.
  unfold read_length_prefixed. intros Hr. apply bind_Ok in Hr as ([lb r1] & _ & Hr). result_inv. bool_inv.
  match goal with Hx : read_exact _ _ = Ok _ |- _ => apply read_exact_length in Hx; [|apply be_val_range] end.
  split; [lia|]. intros -> ->. cbn [negb andb] in *. bool_inv. unfold blen in *. cbn in *. lia.
Qed.

Lemma read_length_prefixed_bound {E} eof maximum allow_empty (f1 : string → E) f2 f3 f4 r n rest :
  reliable r → reader_bytes r = be_bytes 4 n ++ rest → 0 ≤ n ≤ u32_max →
  (maximum < n ∨ allow_empty = false ∧ n = 0) →
  read_length_prefixed eof maximum allow_empty f1 f2 f3 f4 r = Err (f2 n).
Proof.
  intros Hr Hb Hn Hbad. pose proof (blen_nonneg rest).
  destruct (read_exact_reliable r 4) as (r1 & E1 & _ & _); [done|rewrite Hb; blen_lia|].
  rewrite Hb in E1. change (Z.to_nat 4) with 4%nat in E1. rewrite take_app_length' in E1 by (by rewrite length_be_bytes).
  unfold read_length_prefixed. rewrite E1. cbn [map_err mbind result_bind].
  rewrite be_val_be_bytes_small by (change (256 ^ Z.of_nat 4) with (u32_max + 1); lia).
  replace ((negb allow_empty && (n =? 0)) || (maximum <? n)) with true; [done|]. symmetry.
  destruct Hbad as [Hm|[-> ->]]; [|done]. by rewrite (proj2 (Z.ltb_lt _ _) Hm), orb_true_r.
Qed.

(** Frames round trip: when the worker's bounded writer accepts a frame,
    the parent's reader with the same bound returns exactly that frame and
    leaves exactly what follows it, however the bytes are delivered; when the
    writer refuses it, it writes nothing. *)
Theorem worker_frame_roundtrip maximum allow_empty label label' frame w out res r rest :
  write_worker_bounded_frame w frame maximum allow_empty label = (out, res) →
  match res with
  | Ok _ =>
      ∃ bytes, out = w ++ bytes ∧
        (reliable r → reader_bytes r = bytes ++ rest → try_reserve_exact (blen frame) = Ok tt →
         ∃ r', read_bounded_worker_frame r maximum allow_empty label' = Ok (frame, r')
           ∧ reliable r' ∧ reader_bytes r' = rest)
  | Err _ => out = w ∧ (maximum < blen frame ∨ u32_max < blen frame ∨ allow_empty = false ∧ frame = [])
  end.
Proof.
  unfold write_worker_bounded_frame. rewrite vec_write_length_prefixed. cbn [map_err].
  destruct (_ || _) eqn:Hb; intros [= <- <-].
  - split; [done|]. rewrite !orb_true_iff, andb_true_iff, negb_true_iff, bool_decide_eq_true, !Z.ltb_lt in Hb. tauto.
  - rewrite !orb_false_iff, andb_false_iff, negb_false_iff, bool_decide_eq_false, !Z.ltb_ge in Hb.
    exists (be_bytes 4 (blen frame) ++ frame). split; [done|]. intros Hr Hbytes Hal.
    eapply read_length_prefixed_ok; [done| |lia|lia|tauto|done]. by rewrite Hbytes, <- app_assoc.
Qed.

(** An announced length outside the bound, or an empty frame where none
    is allowed, is refused on the prefix alone, whatever follows it and
    whatever the allocator would do. *)
Theorem worker_frame_bound maximum allow_empty label n r rest :
  reliable r → reader_bytes r = be_bytes 4 n ++ rest → 0 ≤ n ≤ u32_max →
  (maximum < n ∨ allow_empty = false ∧ n = 0) →
  read_bounded_worker_frame r maximum allow_empty label
  = Err (Execution ("WASIX " +:+ label +:+ " length " +:+ show n +:+ " is invalid")).
Proof. intros. unfold read_bounded_worker_frame. by rewrite (read_length_prefixed_bound _ _ _ _ _ _ _ _ n rest). Qed.

(** ** Diagnostics *)

Definition steady (r : reader) : Prop := Forall (λ e, ∃ l, e = Chunk l ∧ l ≠ []) r.

Lemma retain_prefix kept b :
  let m := Z.to_nat WASIX_WORKER_MAX_DIAGNOSTIC_BYTES in
  retain (take m kept) (WASIX_WORKER_MAX_DIAGNOSTIC_BYTES <? blen kept) b
  = (take m (kept ++ b), WASIX_WORKER_MAX_DIAGNOSTIC_BYTES <? blen (kept ++ b)).
Proof.
  intros m. unfold retain, saturating_sub. rewrite blen_app.
  assert (Hm : WASIX_WORKER_MAX_DIAGNOSTIC_BYTES = Z.of_nat m) by (unfold m; rewrite Z2Nat.id; done).
  rewrite Hm. unfold blen. rewrite length_take. clear Hm. f_equal.
  - rewrite take_app. f_equal. destruct (decide (length b ≤ m - length kept)%nat); [rewrite !take_ge by lia; done|].
    f_equal. lia.
  - destruct (Z.ltb_spec (Z.of_nat m) (Z.of_nat (length kept))), (Z.ltb_spec (Z.of_nat m) (Z.of_nat (length kept) + Z.of_nat (length b)));
      cbn; try lia; first [apply negb_true_iff, Z.eqb_neq; lia | apply negb_false_iff, Z.eqb_eq; lia].
Qed.

Lemma diagnostics_loop_steady fuel r kept :
  steady r → (length r + length (reader_bytes r) < fuel)%nat →
  let m := Z.to_nat WASIX_WORKER_MAX_DIAGNOSTIC_BYTES in
  diagnostics_loop fuel r (take m kept) (WASIX_WORKER_MAX_DIAGNOSTIC_BYTES <? blen kept)
  = Some (Ok {| diagnostic_bytes := take m (kept ++ reader_bytes r);
                truncated := WASIX_WORKER_MAX_DIAGNOSTIC_BYTES <? blen (kept ++ reader_bytes r) |}).
Proof.
  intros Hr Hf m. revert r kept Hr Hf. induction fuel as [|fuel IH]; intros r kept Hr Hf; [lia|].
  cbn [diagnostics_loop]. destruct Hr as [|e r [l [-> Hl]] Hr]; [cbn; by rewrite app_nil_r|].
  rewrite reader_bytes_cons in *. cbn [event_bytes read length] in *. rewrite length_app in Hf.
  destruct (Z.ltb_spec 4096 (blen l)) as [Hb|Hb].
  - assert (Hk : blen (take (Z.to_nat 4096) l) = 4096) by (unfold blen in *; rewrite length_take; lia).
    rewrite Hk. change (4096 =? 0) with false. cbn [negb]. rewrite retain_prefix.
    rewrite IH; [|constructor; [|done]|].
    + rewrite reader_bytes_cons. cbn [event_bytes]. by rewrite !app_assoc, <- (app_assoc kept), take_drop.
    + eexists; split; [done|]. intros Hd%(f_equal length). rewrite length_drop in Hd. unfold blen in *. cbn in Hd. lia.
    + rewrite reader_bytes_cons, length_app. cbn [event_bytes length]. rewrite length_drop. unfold blen in *. lia.
  - destruct (Z.eqb_spec (blen l) 0) as [Hz|Hz]; [by apply blen_nil_inv in Hz|].
    rewrite retain_prefix. rewrite IH by (done || lia). by rewrite <- app_assoc.
Qed.

Lemma diagnostics_loop_total fuel r bytes truncated :
  (length r + length (reader_bytes r) < fuel)%nat → is_Some (diagnostics_loop fuel r bytes truncated).
Proof.
  revert r bytes truncated. induction fuel as [|fuel IH]; intros r bytes truncated Hf; [lia|].
  cbn [diagnostics_loop]. destruct r as [|[l| |m] r]; [done| |done|done].
  rewrite reader_bytes_cons, length_app in Hf. cbn [event_bytes read length] in *.
  destruct (Z.ltb_spec 4096 (blen l)) as [Hb|Hb].
  - destruct (_ =? 0); [done|]. destruct (retain _ _ _). apply IH. rewrite reader_bytes_cons, length_app.
    cbn [event_bytes length]. rewrite length_drop. unfold blen in *. lia.
  - destruct (blen l =? 0); [done|]. destruct (retain _ _ _). apply IH. lia.
Qed.

(** Reading a worker's diagnostics always ends; from a stream that is
    delivered to its end it keeps exactly the first 16 KiB, in order, and
    marks them truncated exactly when there was more. *)
Theorem worker_diagnostics_exact r :
  is_Some (read_worker_diagnostics r)
  ∧ (steady r → try_reserve_exact WASIX_WORKER_MAX_DIAGNOSTIC_BYTES = Ok tt →
     read_worker_diagnostics r
     = Some (Ok {| diagnostic_bytes := take (Z.to_nat WASIX_WORKER_MAX_DIAGNOSTIC_BYTES) (reader_bytes r);
                   truncated := WASIX_WORKER_MAX_DIAGNOSTIC_BYTES <? blen (reader_bytes r) |})).
Proof.
  unfold read_worker_diagnostics. split.
  - destruct (try_reserve_exact _); [|done]. apply diagnostics_loop_total. unfold diagnostics_fuel. lia.
  - intros Hr ->. apply (diagnostics_loop_steady _ r []); [done|]. unfold diagnostics_fuel. lia.
Qed.
End roundtrip.

(** ** Concrete instances *)

Module WorkerFramesExample.
#[export] Instance alloc : Allocator := infallible_allocator.
Definition body : list byte := str_bytes "journal".
Definition written : list byte := be_bytes 4 7 ++ body.
(** The frame and the start of the next one, in three pieces. *)
Definition stream : reader := [Chunk (take 3 written); Chunk (drop 3 written); Chunk (str_bytes "next")].

Lemma worker_frame_roundtrip_witness :
  ∃ r', read_bounded_worker_frame stream 16 false "capture journal" = Ok (body, r')
    ∧ reliable r' ∧ reader_bytes r' = str_bytes "next".
Proof.
  destruct (worker_frame_roundtrip alloc 16 false "out" "capture journal" body [] written (Ok tt) stream
              (str_bytes "next")) as (bytes & Hb & Hr); [by vm_compute|].
  assert (bytes = written) as -> by (symmetry; exact Hb).
  apply Hr; [|by vm_compute|done]. repeat constructor; done.
Defined.

Lemma worker_frame_bound_witness :
  read_bounded_worker_frame [Chunk (be_bytes 4 17)] 16 false "capture journal"
  = Err (Execution ("WASIX " +:+ "capture journal" +:+ " length " +:+ show 17 +:+ " is invalid")).
Proof.
  refine (worker_frame_bound alloc 16 false "capture journal" 17 [Chunk (be_bytes 4 17)] [] _ _ _ _);
    [by repeat constructor|done|by vm_compute|by left].
Defined.
End WorkerFramesExample.
