(* ===== verification/WorkerProtocol.v ===== *)
(** The worker protocol of [src/src/wasix_worker.rs], both ends: sealed inputs
    and their inspection, the worker's probe, restore and capture programs, and
    the parent's handshake, restore and capture operations with their
    supervision.  Theorems: sealing and inspection agree on the digest, guest
    execution is authorized only after a valid ready message and a matching
    acknowledgement, an honest worker and the parent complete together with the
    exact output, and every supervised operation leaves no live worker. *)
From S2P Require Import Prelude Errors Interfaces Streams Types CheckpointCodec WorkerMessages WorkerFrames.

Local Open Scope Z_scope.

(** ** Sealed anonymous files *)

Record SealedFile := {
  sf_bytes : list byte;
  sf_sealed : bool;    (* carries every required seal *)
  sf_regular : bool;
  sf_nlink : Z;
}.

(** The kernel operations used to build one, with their outcomes. *)
Record MemFd := {
  memfd_create : result string unit;
  memfd_write : nat → result string unit;      (* the n-th [write_all] *)
  memfd_rewind : result string unit;
  memfd_add_seals : result string unit;
  memfd_get_seals : result string bool;
  memfd_fstat : list byte → result string (bool * Z * Z);   (* regular, links, size *)
}.

Fixpoint chunks (fuel : nat) (n : nat) (l : list byte) : list (list byte) :=
  match fuel, l with
  | O, _ | _, [] => []
  | S fuel', _ => take n l :: chunks fuel' n (drop n l)
  end.
Definition chunk_bytes : nat := Z.to_nat (64 * 1024).

(** The fill loop: [cancelled.load], [hash.update], [write_all]. *)
Fixpoint fill (m : MemFd) (cancelled : nat → bool) (on_write : string → Error) (i : nat)
    (l : list (list byte)) (written : list byte) : Result (list byte) :=
  match l with
  | [] => Ok written
  | c :: l' =>
      _ ← reject_if (cancelled i) Cancelled;
      _ ← map_err on_write (memfd_write m i);
      fill m cancelled on_write (S i) l' (written ++ c)
  end.

Record PreparedInput := { pi_file : SealedFile; pi_bytes : Z; pi_sha256 : string }.

Section sealed.
Context `{Crypto}.

Definition sealed_checkpoint_input (m : MemFd) (cancelled : nat → bool) (journal : list byte) : Result PreparedInput :=
  _ ← reject_if (u64_max <? blen journal) (Checkpoint "checkpoint journal length overflows u64");
  _ ← map_err (λ e, Execution ("failed to create checkpoint memfd: " +:+ e)) (memfd_create m);
  let pieces := chunks (length journal) chunk_bytes journal in
  written ← fill m cancelled (λ e, Execution ("failed to fill checkpoint memfd: " +:+ e)) 0 pieces [];
  _ ← reject_if (cancelled (length pieces)) Cancelled;
  _ ← map_err (λ e, Execution ("failed to rewind checkpoint memfd: " +:+ e)) (memfd_rewind m);
  _ ← map_err (λ e, Execution ("failed to seal checkpoint memfd: " +:+ e)) (memfd_add_seals m);
  installed ← map_err (λ e, Execution ("failed to verify checkpoint memfd seals: " +:+ e)) (memfd_get_seals m);
  _ ← reject_if (negb installed) (Execution "checkpoint memfd is not fully sealed");
  '(regular, nlink, size) ← map_err (λ e, Execution ("failed to inspect checkpoint memfd: " +:+ e))
                              (memfd_fstat m written);
  _ ← reject_if (negb regular || negb (nlink =? 0) || negb (size =? blen journal))
        (Execution "checkpoint memfd identity is invalid");
  Ok {| pi_file := {| sf_bytes := written; sf_sealed := installed; sf_regular := regular; sf_nlink := nlink |};
        pi_bytes := blen journal; pi_sha256 := sha256_hex written |}.

Definition sealed_module_input (m : MemFd) (cancelled : nat → bool) (module : list byte) : Result PreparedInput :=
  _ ← reject_if (u64_max <? blen module) (Checkpoint "WASIX module length overflows u64");
  _ ← map_err (λ e, Execution ("failed to create module memfd: " +:+ e)) (memfd_create m);
  let pieces := chunks (length module) chunk_bytes module in
  written ← fill m cancelled (λ e, Execution ("failed to fill module memfd: " +:+ e)) 0 pieces [];
  _ ← reject_if (cancelled (length pieces)) Cancelled;
  _ ← map_err (λ e, Execution ("failed to rewind module memfd: " +:+ e)) (memfd_rewind m);
  _ ← map_err (λ e, Execution ("failed to seal module memfd: " +:+ e)) (memfd_add_seals m);
  installed ← map_err (λ e, Execution ("failed to verify module memfd seals: " +:+ e)) (memfd_get_seals m);
  '(regular, nlink, size) ← map_err (λ e, Execution ("failed to inspect module memfd: " +:+ e))
                              (memfd_fstat m written);
  _ ← reject_if (negb installed || negb regular || negb (nlink =? 0) || negb (size =? blen module))
        (Execution "module memfd identity is invalid");
  Ok {| pi_file := {| sf_bytes := written; sf_sealed := installed; sf_regular := regular; sf_nlink := nlink |};
        pi_bytes := blen module; pi_sha256 := sha256_hex written |}.

(** ** The worker's inspection of a received file *)

(** [pread] at an offset into a buffer: a schedule decides how much of what is
    there one call returns. *)
Definition pread_fn : Type := Z → Z → result string Z.
Definition pread (f : SealedFile) (s : pread_fn) (offset buffer : Z) : result string (list byte) :=
  n ← s offset buffer;
  Ok (take (Z.to_nat (Z.min n buffer)) (drop (Z.to_nat offset) (sf_bytes f))).

Fixpoint hash_loop (fuel : nat) (f : SealedFile) (s : pread_fn) (label : string) (bytes offset : Z)
    (hashed : list byte) : option (result string (list byte)) :=
  if offset <? bytes then
    match fuel with
    | O => None
    | S fuel' =>
        match pread f s offset (Z.min (bytes - offset) (64 * 1024)) with
        | Err e => Some (Err ("cannot read sealed " +:+ label +:+ " descriptor: " +:+ e))
        | Ok [] => Some (Err ("sealed " +:+ label +:+ " descriptor ended prematurely"))
        | Ok b =>
            match checked_add u64_max offset (blen b) with
            | None => Some (Err (label +:+ " read offset overflowed"))
            | Some offset => hash_loop fuel' f s label bytes offset (hashed ++ b)
            end
        end
    end
  else Some (Ok hashed).

Record SealedWorkerInputMetadata := { sw_bytes : Z; sw_sha256 : string }.

(** The kernel's answers to the worker about one descriptor. *)
Record FdOps := { fd_seals_error : option string; fd_stat_error : option string; fd_pread : pread_fn }.

Definition inspect_sealed_worker_input (f : SealedFile) (ops : FdOps) (maximum_bytes : Z) (label : string)
    : option (result string SealedWorkerInputMetadata) :=
  let bytes := blen (sf_bytes f) in
  let s := fd_pread ops in
  match fd_seals_error ops, fd_stat_error ops with
  | Some e, _ => Some (Err (label +:+ " descriptor does not expose seals: " +:+ e))
  | None, st =>
  if negb (sf_sealed f) then Some (Err (label +:+ " descriptor is not fully sealed"))
  else match st with
  | Some e => Some (Err ("cannot inspect sealed " +:+ label +:+ " descriptor: " +:+ e))
  | None =>
  if negb (sf_regular f) || negb (sf_nlink f =? 0) || (bytes =? 0) || (maximum_bytes <? bytes)
  then Some (Err (label +:+ " descriptor identity or size is invalid"))
  else
    match hash_loop (length (sf_bytes f)) f s label bytes 0 [] with
    | None => None
    | Some (Err e) => Some (Err e)
    | Some (Ok hashed) =>
        Some (match pread f s bytes 1 with
              | Err e => Err ("cannot finish sealed " +:+ label +:+ " descriptor: " +:+ e)
              | Ok [] => Ok {| sw_bytes := bytes; sw_sha256 := sha256_hex hashed |}
              | Ok _ => Err ("sealed " +:+ label +:+ " descriptor contains trailing bytes")
              end)
    end
  end
  end.
End sealed.

(** ** The control socket *)

Inductive control_op :=
| Descriptor (marker : byte) (f : SealedFile)
| Bytes (l : list byte)
| Shutdown.

(** Sending a descriptor on the nonblocking socket: [writable] and one
    [sendmsg] per round, until it does not block; [None] is a socket that
    blocks for good.  The error is the text of the returned one. *)
Inductive send_round :=
| NotWritable (error : string)
| BufferTooSmall
| WouldBlock
| SendError (error : string)
| SentBytes (n : Z).

(** [send_checkpoint_descriptor_once], with its [WouldBlock] apart. *)
Definition send_checkpoint_descriptor_once (round : send_round) : option (result string unit) :=
  match round with
  | NotWritable _ | WouldBlock => None
  | BufferTooSmall => Some (Err "checkpoint descriptor ancillary buffer is too small")
  | SendError e => Some (Err e)
  | SentBytes n => Some (reject_if (negb (n =? 1)) "checkpoint descriptor marker was not sent")
  end.

Fixpoint send_checkpoint_descriptor (rounds : list send_round) : option (result string unit) :=
  match rounds with
  | [] => None
  | NotWritable e :: _ => Some (Err ("checkpoint descriptor channel was not writable: " +:+ e))
  | round :: l =>
      match send_checkpoint_descriptor_once round with
      | None => send_checkpoint_descriptor l
      | Some r => Some (map_err (λ e, "failed to send checkpoint descriptor: " +:+ e) r)
      end
  end.

(** What was sent, and which of the coming operations fail, with the error's
    text; that of a descriptor is [send_checkpoint_descriptor]'s. *)
Record Control := { sent : list control_op; faults : list (option string) }.
Definition control_do (op : control_op) (c : Control) : Control * result string unit :=
  match faults c with
  | Some e :: l => ({| sent := sent c; faults := l |}, Err e)
  | None :: l => ({| sent := sent c ++ [op]; faults := l |}, Ok tt)
  | [] => ({| sent := sent c ++ [op]; faults := [] |}, Ok tt)
  end.
#[global] Instance control_write : Write Control := λ c b, control_do (Bytes b) c.

(** ** The worker process, seen by the parent *)

Record ExitStatus := { status_code : option Z; status_signal : option Z; status_display : string }.
Definition success (s : ExitStatus) : bool := bool_decide (status_code s = Some 0).
Definition worker_exit_status_parts (s : ExitStatus) : option Z * option Z := (status_code s, status_signal s).

Record WorkerProcess := {
  wp_process_id : Z;
  wp_build_sha256 : string;
  wp_active : bool;
  group_killed : bool;    (* [SIGKILL] was sent to the process group *)
  reaped : bool;          (* [wait] returned *)
  supervised_for : Z;     (* how long its supervisor ran the operation *)
}.
Definition worker_process_new (pid : Z) (build : string) : WorkerProcess :=
  {| wp_process_id := pid; wp_build_sha256 := build; wp_active := true; group_killed := false; reaped := false;
     supervised_for := 0 |}.
Definition kill_tree (w : WorkerProcess) : WorkerProcess :=
  if negb (wp_active w) then w
  else {| wp_process_id := wp_process_id w; wp_build_sha256 := wp_build_sha256 w; wp_active := wp_active w;
          group_killed := true; reaped := reaped w; supervised_for := supervised_for w |}.
Definition disarm (w : WorkerProcess) : WorkerProcess :=
  {| wp_process_id := wp_process_id w; wp_build_sha256 := wp_build_sha256 w; wp_active := false;
     group_killed := group_killed w; reaped := reaped w; supervised_for := supervised_for w |}.
Definition wait_child (w : WorkerProcess) : WorkerProcess :=
  {| wp_process_id := wp_process_id w; wp_build_sha256 := wp_build_sha256 w; wp_active := wp_active w;
     group_killed := group_killed w; reaped := true; supervised_for := supervised_for w |}.
Definition supervised (d : Z) (w : WorkerProcess) : WorkerProcess :=
  {| wp_process_id := wp_process_id w; wp_build_sha256 := wp_build_sha256 w; wp_active := wp_active w;
     group_killed := group_killed w; reaped := reaped w; supervised_for := d |}.
(** [spawn_worker_reaper]: the process group is killed at once; the task it
    spawns waits for the child and disarms the handle.  This is the worker when
    that task, which nobody waits for, has ended. *)
Definition spawn_worker_reaper (w : WorkerProcess) : WorkerProcess := disarm (wait_child (kill_tree w)).

(** The placement policy of [spawn_wasix_worker]; [None] is a panic. *)
Definition place_worker (policy : option (WasixWorkerPlacementRequest → option (Result unit)))
    (operation : WasixWorkerOperation) (w : WorkerProcess) : WorkerProcess * Result unit :=
  match policy with
  | None => (w, Ok tt)
  | Some place =>
      let rejection := match place {| placed_process_id := wp_process_id w; placed_operation := operation |} with
                       | Some (Ok _) => None
                       | Some (Err e) => Some ("WASIX worker placement rejected the process: " +:+ error_display e)
                       | None => Some "WASIX worker placement policy panicked"
                       end in
      match rejection with
      | Some m => (disarm (wait_child (kill_tree w)), Err (Execution m))
      | None => (w, Ok tt)
      end
  end.

(** ** Timeouts *)

(** A future under [tokio::time::timeout]: when it is ready, if ever, how late
    the timer wakes the task, and the state in which an interruption finds what
    the future works on.  Times count from the start.  The future is polled
    before the timer, so that it has finished if it is ready by then. *)
Record Timer (S : Type) := { ready_at : option Z; timer_lag : Z; interrupted_in : S }.
Arguments ready_at {S}.
Arguments timer_lag {S}.
Arguments interrupted_in {S}.
Definition in_time {S} (timeout : Z) (t : Timer S) : bool :=
  match ready_at t with Some r => r <=? timeout + timer_lag t | None => false end.
Definition ended_at {S} (timeout : Z) (t : Timer S) : Z :=
  match ready_at t with Some r => Z.min r (timeout + timer_lag t) | None => timeout + timer_lag t end.

(** A [select!] of a cancellation and a future with a timeout: when the
    cancellation comes, if ever, and the state it finds. *)
Record Race (S : Type) := { race_timer : Timer S; race_cancel : option (Z * S) }.
Arguments race_timer {S}.
Arguments race_cancel {S}.

(** What the [select!] of a supervisor chooses; an interrupted operation leaves
    the worker and the input in some intermediate state. *)
Inductive selection (S : Type) :=
| SelectedDone
| SelectedCancel (s : S)
| SelectedTimeout (s : S).
Arguments SelectedDone {S}.
Arguments SelectedCancel {S}.
Arguments SelectedTimeout {S}.

(** The choice and when it is made; the cancellation is polled first. *)
Definition raced {S} (timeout : Z) (x : Race S) : Z * selection S :=
  let t := race_timer x in
  let ended := ended_at timeout t in
  let operation := (ended, if in_time timeout t then SelectedDone else SelectedTimeout (interrupted_in t)) in
  match race_cancel x with
  | Some (cancelled, s) => if cancelled <=? ended then (cancelled, SelectedCancel s) else operation
  | None => operation
  end.

(** ** The parent *)

Section protocol.
Context `{Crypto} `{BuildInfo} `{Allocator}.
Context {JMeta : Json WasixWorkerMetadata} {JTA : Json WasixCheckpointTransportAck}.
Context {JRA : Json WasixCheckpointRestoreAck} {JRC : Json WasixCheckpointRestoreCompletion}.
Context {JCR : Json WasixCheckpointCaptureRequest} {JCA : Json WasixCheckpointCaptureAck}.
Context {JCC : Json WasixCheckpointCaptureCompletion}.

(** The first message of every worker. *)
Definition read_ready (w : WorkerProcess) (groups : list Z) (r : reader) : Result (WasixWorkerMetadata * reader) :=
  '(frame, r) ← read_frame r;
  metadata ← map_err (λ e, Execution ("invalid WASIX worker ready frame: " +:+ e)) (from_slice frame);
  _ ← worker_metadata_validate metadata (wp_process_id w) (wp_build_sha256 w) groups;
  Ok (metadata, r).

Definition finish_worker_output (w : WorkerProcess) (exit : result string ExitStatus) (r : reader)
    (operation : string) : WorkerProcess * Result unit :=
  match read_one r with
  | Err e => (w, Err (Execution ("failed to finish WASIX worker " +:+ operation +:+ ": " +:+ e)))
  | Ok (_ :: _) => (w, Err (Execution ("WASIX worker emitted trailing " +:+ operation +:+ " bytes")))
  | Ok [] =>
      match exit with
      | Err e => (w, Err (Execution ("failed to wait for WASIX worker " +:+ operation +:+ ": " +:+ e)))
      | Ok status =>
          let w := disarm (kill_tree (wait_child w)) in
          (w, reject_if (negb (success status))
                (Execution ("WASIX worker " +:+ operation +:+ " exited with " +:+ status_display status)))
      end
  end.

Definition perform_handshake (w : WorkerProcess) (exit : result string ExitStatus) (groups : list Z) (r : reader)
    : WorkerProcess * Result WasixWorkerMetadata :=
  match read_ready w groups r with
  | Err e => (w, Err e)
  | Ok (metadata, r) =>
      let? (w, _x) := finish_worker_output w exit r "probe" in (w, Ok metadata)
  end.

(** Restore failures carry a phase and a reason only. *)
Record RestoreOperationFailure := {
  rof_phase : WasixCheckpointRestorePhase; rof_reason : WasixCheckpointRestoreFailureReason }.
Definition restore_protocol (p : WasixCheckpointRestorePhase) : RestoreOperationFailure :=
  {| rof_phase := p; rof_reason := RestoreProtocol |}.
Definition restore_runtime : RestoreOperationFailure :=
  {| rof_phase := RestoreExecution; rof_reason := RestoreRuntime |}.

Record ExpectedCheckpointRestore := {
  er_binding : WasixCheckpointBinding; er_module_bytes : Z; er_module_sha256 : string;
  er_journal_bytes : Z; er_journal_sha256 : string }.
(** [ri_open] is whether the parent still holds its end of the socket; what
    was sent through it stays visible. *)
Record CheckpointRestoreInput := {
  ri_control : Control; ri_open : bool; ri_module : option SealedFile; ri_journal : option SealedFile;
  ri_expected : ExpectedCheckpointRestore }.
Definition set_ri_control c (i : CheckpointRestoreInput) : CheckpointRestoreInput :=
  {| ri_control := c; ri_open := ri_open i; ri_module := ri_module i; ri_journal := ri_journal i;
     ri_expected := ri_expected i |}.
Definition ri_take (i : CheckpointRestoreInput) : CheckpointRestoreInput :=
  {| ri_control := ri_control i; ri_open := false; ri_module := None; ri_journal := None;
     ri_expected := ri_expected i |}.

(** One operation on the control socket that ends the exchange on failure. *)
Definition try_control {F} (op : control_op) (f : F) (c : Control) : Control * result F unit :=
  let '(c, r) := control_do op c in (c, map_err (λ _, f) r).

(** The exchange up to the authorization, on an available control socket. *)
Definition restore_exchange (w : WorkerProcess) (groups : list Z) (e : ExpectedCheckpointRestore)
    (module journal : option SealedFile) (r : reader) (c : Control)
    : Control * result RestoreOperationFailure (WasixWorkerMetadata * WasixCheckpointRestoreAck * reader) :=
  let input_failure := restore_protocol RestoreInput in
  match map_err (λ _, restore_protocol RestoreReady) (read_ready w groups r) with
  | Err f => (c, Err f)
  | Ok (metadata, r) =>
  match module with None => (c, Err input_failure) | Some module =>
  let? (c, _x) := try_control (Descriptor "M" module) input_failure c in
  match journal with None => (c, Err input_failure) | Some journal =>
  let? (c, _x) := try_control (Descriptor "C" journal) input_failure c in
  match ('(frame, r) ← read_frame r;
         ack ← map_err Execution (from_slice frame);
         _ ← restore_ack_validate ack (er_module_bytes e) (er_module_sha256 e)
               (er_journal_bytes e) (er_journal_sha256 e);
         Ok (ack, r)) with
  | Err _ => (c, Err input_failure)
  | Ok (ack, r) =>
  let? (c, _x) := try_control (Bytes ["E"%byte]) (restore_protocol RestoreAuthorization) c in
  let? (c, _x) := try_control Shutdown (restore_protocol RestoreAuthorization) c in
  (c, Ok (metadata, ack, r))
  end end end end.

Definition prepare_checkpoint_restore (w : WorkerProcess) (groups : list Z) (r : reader) (i : CheckpointRestoreInput)
    : CheckpointRestoreInput
      * result RestoreOperationFailure (WasixWorkerMetadata * WasixCheckpointRestoreAck * reader) :=
  if ri_open i then
    let '(c, res) := restore_exchange w groups (ri_expected i) (ri_module i) (ri_journal i) r (ri_control i) in
    (set_ri_control c i, res)
  else
    (i, match map_err (λ _, restore_protocol RestoreReady) (read_ready w groups r) with
        | Err f => Err f
        | Ok _ => Err (restore_protocol RestoreInput)
        end).

Definition collect_checkpoint_restore_output (r : reader)
    : result RestoreOperationFailure (list byte * list byte * reader) :=
  '(frame, r) ← map_err (λ _, restore_runtime) (read_frame r);
  completion ← map_err (λ _, restore_protocol RestoreExecution) (from_slice frame);
  '(out, r) ← map_err (λ _, restore_protocol RestoreOutput) (read_restore_output_frame r "stdout");
  '(err, r) ← map_err (λ _, restore_protocol RestoreOutput) (read_restore_output_frame r "stderr");
  _ ← map_err (λ _, restore_protocol RestoreOutput) (restore_completion_validate completion out err);
  Ok (out, err, r).

Record WasixCheckpointRestoreMetadata := {
  rm_worker : WasixWorkerMetadata; rm_binding : WasixCheckpointBinding;
  rm_stdout : list byte; rm_stderr : list byte; rm_diagnostics : WasixWorkerDiagnostics;
  rm_module_sha256 : string; rm_journal_sha256 : string }.

Definition no_diagnostics : WasixWorkerDiagnostics := {| diagnostic_bytes := []; truncated := false |}.
Definition lost_diagnostics : WasixWorkerDiagnostics := {| diagnostic_bytes := []; truncated := true |}.

Definition perform_checkpoint_restore (w : WorkerProcess) (exit : result string ExitStatus) (groups : list Z)
    (r : reader) (i : CheckpointRestoreInput)
    : WorkerProcess * CheckpointRestoreInput * result RestoreOperationFailure WasixCheckpointRestoreMetadata :=
  let '(i, res) := prepare_checkpoint_restore w groups r i in
  match res with
  | Err f => (w, i, Err f)
  | Ok (metadata, ack, r) =>
      let i := ri_take i in
      match collect_checkpoint_restore_output r with
      | Err f => (w, i, Err f)
      | Ok (out, err, r) =>
          let '(w, res) := finish_worker_output w exit r "checkpoint restore" in
          (w, i, _ ← map_err (λ _, {| rof_phase := RestoreShutdown; rof_reason := RestoreWorkerProcess |}) res;
                 Ok {| rm_worker := metadata; rm_binding := er_binding (ri_expected i);
                       rm_stdout := out; rm_stderr := err; rm_diagnostics := no_diagnostics;
                       rm_module_sha256 := ra_module_sha256 ack; rm_journal_sha256 := ra_journal_sha256 ack |})
      end
  end.

(** How a failed operation looks at its worker before killing it: one
    [try_wait], then up to 100 ms of [wait], [None] when they pass. *)
Definition observe_failed_worker_exit (try_wait : result string (option ExitStatus))
    (wait : option (result string ExitStatus)) : option ExitStatus :=
  match try_wait with
  | Ok (Some status) => Some status
  | _ => match wait with Some (Ok status) => Some status | _ => None end
  end.
Definition observe_failed_restore_worker_exit (try_wait : result string (option ExitStatus))
    (wait : option (result string ExitStatus)) : option ExitStatus :=
  observe_failed_worker_exit try_wait wait.

(** [supervise_checkpoint_restore] with its timeout; [observed] is what
    [observe_failed_restore_worker_exit] returns, [diagnostics] the join of the
    diagnostics task ([None] when it panicked). *)
Definition supervise_checkpoint_restore (w : WorkerProcess) (exit : result string ExitStatus) (groups : list Z)
    (r : reader) (handshake_timeout : Z) (i : CheckpointRestoreInput)
    (race : Race (WorkerProcess * CheckpointRestoreInput)) (observed : option ExitStatus)
    (diagnostics : option (result string WasixWorkerDiagnostics))
    : WorkerProcess * CheckpointRestoreInput * Result WasixCheckpointRestoreMetadata :=
  let '(decided, sel) := raced handshake_timeout race in
  let '(w, i, outcome) :=
    match sel with
    | SelectedCancel (w, i) => (w, i, Err Cancelled)
    | SelectedTimeout (w, i) => (w, i, Err Timeout)
    | SelectedDone =>
        let '(w, i, res) := perform_checkpoint_restore w exit groups r i in
        (w, i, map_err (λ f, CheckpointRestore (restore_failure_new (rof_phase f) (rof_reason f) no_diagnostics)) res)
    end in
  let w := supervised decided w in
  let cleanup := negb (is_ok outcome) && wp_active w in
  let status := if cleanup then observed else None in
  let w := if cleanup then disarm (wait_child (kill_tree w)) else w in
  let diagnostics := match diagnostics with Some (Ok d) => d | _ => lost_diagnostics end in
  (w, i, match outcome with
         | Ok m => Ok {| rm_worker := rm_worker m; rm_binding := rm_binding m; rm_stdout := rm_stdout m;
                         rm_stderr := rm_stderr m; rm_diagnostics := diagnostics;
                         rm_module_sha256 := rm_module_sha256 m; rm_journal_sha256 := rm_journal_sha256 m |}
         | Err (CheckpointRestore f) =>
             let f := restore_failure_new (rf_phase f) (rf_reason f) diagnostics in
             Err (CheckpointRestore
                    (match status with
                     | Some st => let '(code, signal) := worker_exit_status_parts st in
                                  restore_with_exit_status code signal f
                     | None => f
                     end))
         | Err e => Err e
         end).

(** ** Capture *)

Record CaptureOperationFailure := {
  cof_phase : WasixCheckpointCapturePhase; cof_reason : WasixCheckpointCaptureFailureReason;
  cof_exit : option ExitStatus }.
Inductive CaptureOperationError := CaptureFailed (f : CaptureOperationFailure) | CaptureTimeout.
Definition capture_protocol (p : WasixCheckpointCapturePhase) : CaptureOperationFailure :=
  {| cof_phase := p; cof_reason := CaptureProtocol; cof_exit := None |}.
Definition capture_runtime : CaptureOperationFailure :=
  {| cof_phase := CaptureExecution; cof_reason := CaptureRuntime; cof_exit := None |}.
Definition capture_worker_process (st : option ExitStatus) : CaptureOperationFailure :=
  {| cof_phase := CaptureShutdown; cof_reason := CaptureWorkerProcess; cof_exit := st |}.

Record ExpectedCheckpointCapture := {
  ec_binding : WasixCheckpointBinding; ec_module_bytes : Z; ec_module_sha256 : string;
  ec_request_bytes : Z; ec_request_sha256 : string }.
Record CheckpointCaptureInput := {
  ci_control : Control; ci_open : bool; ci_module : option SealedFile; ci_request : list byte;
  ci_expected : ExpectedCheckpointCapture }.
Definition set_ci_control c (i : CheckpointCaptureInput) : CheckpointCaptureInput :=
  {| ci_control := c; ci_open := ci_open i; ci_module := ci_module i; ci_request := ci_request i;
     ci_expected := ci_expected i |}.
Definition ci_take (i : CheckpointCaptureInput) : CheckpointCaptureInput :=
  {| ci_control := ci_control i; ci_open := false; ci_module := None; ci_request := ci_request i;
     ci_expected := ci_expected i |}.

Definition capture_ack_matches (a : WasixCheckpointCaptureAck) (e : ExpectedCheckpointCapture) : bool :=
  (ca_module_bytes a =? ec_module_bytes e) && bool_decide (ca_module_sha256 a = ec_module_sha256 e)
  && (ca_request_bytes a =? ec_request_bytes e) && bool_decide (ca_request_sha256 a = ec_request_sha256 e).

Definition capture_exchange (w : WorkerProcess) (groups : list Z) (e : ExpectedCheckpointCapture)
    (module : option SealedFile) (request : list byte) (r : reader) (c : Control)
    : Control * result CaptureOperationFailure (WasixWorkerMetadata * WasixCheckpointCaptureAck * reader) :=
  let input_failure := capture_protocol CaptureInput in
  match map_err (λ _, capture_protocol CaptureReady) (read_ready w groups r) with
  | Err f => (c, Err f)
  | Ok (metadata, r) =>
  match module with None => (c, Err input_failure) | Some module =>
  let? (c, _x) := try_control (Descriptor "M" module) input_failure c in
  let '(c, res) := write_control_frame c request in
  match res with Err _ => (c, Err input_failure) | Ok _ =>
  match ('(frame, r) ← read_frame r;
         ack ← map_err Execution (from_slice frame);
         _ ← reject_if (negb (capture_ack_matches ack e)) (Execution EmptyString);
         Ok (ack, r)) with
  | Err _ => (c, Err input_failure)
  | Ok (ack, r) =>
  let? (c, _x) := try_control (Bytes ["E"%byte]) (capture_protocol CaptureAuthorization) c in
  let? (c, _x) := try_control Shutdown (capture_protocol CaptureAuthorization) c in
  (c, Ok (metadata, ack, r))
  end end end end.

Definition prepare_checkpoint_capture (w : WorkerProcess) (groups : list Z) (r : reader) (i : CheckpointCaptureInput)
    : CheckpointCaptureInput
      * result CaptureOperationFailure (WasixWorkerMetadata * WasixCheckpointCaptureAck * reader) :=
  if ci_open i then
    let '(c, res) := capture_exchange w groups (ci_expected i) (ci_module i) (ci_request i) r (ci_control i) in
    let i := set_ci_control c i in
    (if is_ok res then ci_take i else i, res)
  else
    (i, match map_err (λ _, capture_protocol CaptureReady) (read_ready w groups r) with
        | Err f => Err f
        | Ok _ => Err (capture_protocol CaptureInput)
        end).

Definition finish_checkpoint_capture_output (w : WorkerProcess) (exit : result string ExitStatus) (r : reader)
    : WorkerProcess * result CaptureOperationFailure unit :=
  match read_one r with
  | Ok [] =>
      match exit with
      | Err _ => (w, Err (capture_worker_process None))
      | Ok status =>
          (disarm (kill_tree (wait_child w)),
           reject_if (negb (success status)) (capture_worker_process (Some status)))
      end
  | _ => (w, Err (capture_protocol CaptureShutdown))
  end.

Definition collect_checkpoint_capture_output (w : WorkerProcess) (exit : result string ExitStatus) (r : reader)
    : WorkerProcess * result CaptureOperationFailure
        (WasixCheckpointCaptureCompletion * list byte * list byte * list byte) :=
  let output_failure := capture_protocol CaptureOutput in
  match ('(frame, r) ← map_err (λ _, capture_runtime) (read_frame r);
         completion ← map_err (λ _, capture_protocol CaptureExecution) (from_slice frame);
         '(journal, r) ← map_err (λ _, output_failure)
            (read_bounded_worker_frame r WASIX_WORKER_MAX_CHECKPOINT_BYTES false "capture journal");
         '(out, r) ← map_err (λ _, output_failure)
            (read_bounded_worker_frame r WASIX_WORKER_MAX_RESTORE_OUTPUT_BYTES true "capture stdout");
         '(err, r) ← map_err (λ _, output_failure)
            (read_bounded_worker_frame r WASIX_WORKER_MAX_RESTORE_OUTPUT_BYTES true "capture stderr");
         _ ← map_err (λ _, output_failure) (capture_completion_validate completion journal out err);
         Ok (completion, journal, out, err, r)) with
  | Err f => (w, Err f)
  | Ok (completion, journal, out, err, r) =>
      let? (w, _x) := finish_checkpoint_capture_output w exit r in
      (w, Ok (completion, journal, out, err))
  end.

Record WasixCheckpointCapture := {
  cm_worker : WasixWorkerMetadata; cm_binding : WasixCheckpointBinding;
  cm_stdout : list byte; cm_stderr : list byte; cm_module_sha256 : string; cm_journal_sha256 : string;
  cm_journal : CapturedWasixJournal }.

(** A capture has two timeouts, one for the handshake and one for the
    execution of the guest. *)
Definition perform_checkpoint_capture (w : WorkerProcess) (exit : result string ExitStatus) (groups : list Z)
    (r : reader) (handshake_timeout execution_timeout : Z) (i : CheckpointCaptureInput)
    (prepare collect : Timer (WorkerProcess * CheckpointCaptureInput))
    : WorkerProcess * CheckpointCaptureInput * result CaptureOperationError WasixCheckpointCapture :=
  let prepared := ended_at handshake_timeout prepare in
  if negb (in_time handshake_timeout prepare) then
    let '(w, i) := interrupted_in prepare in (supervised prepared w, i, Err CaptureTimeout)
  else
  let '(i, res) := prepare_checkpoint_capture w groups r i in
  match res with
  | Err f => (supervised prepared w, i, Err (CaptureFailed f))
  | Ok (metadata, ack, r) =>
  let collected := prepared + ended_at execution_timeout collect in
  if negb (in_time execution_timeout collect) then
    let '(w, i) := interrupted_in collect in (supervised collected w, i, Err CaptureTimeout)
  else
  let '(w, res) := collect_checkpoint_capture_output w exit r in
  let w := supervised collected w in
  match res with
  | Err f => (w, i, Err (CaptureFailed f))
  | Ok (completion, journal, out, err) =>
      (w, i,
       journal ← map_err (λ _, CaptureFailed (capture_protocol CaptureOutput))
                   (from_attested_worker_capture journal (ec_binding (ci_expected i))
                      (metadata_build_sha256 metadata));
       Ok {| cm_worker := metadata; cm_binding := ec_binding (ci_expected i); cm_stdout := out;
             cm_stderr := err; cm_module_sha256 := ca_module_sha256 ack;
             cm_journal_sha256 := cc_journal_sha256 completion; cm_journal := journal |})
  end end.

(** A cancellation wins when it comes before the operation ends. *)
Definition supervise_checkpoint_capture (w : WorkerProcess) (exit : result string ExitStatus) (groups : list Z)
    (r : reader) (handshake_timeout execution_timeout : Z) (i : CheckpointCaptureInput)
    (prepare collect : Timer (WorkerProcess * CheckpointCaptureInput))
    (cancel : option (Z * (WorkerProcess * CheckpointCaptureInput)))
    (observed : option ExitStatus) (diagnostics : option (result string WasixWorkerDiagnostics))
    : WorkerProcess * CheckpointCaptureInput * Result WasixCheckpointCapture :=
  let '(w, i, res) :=
    perform_checkpoint_capture w exit groups r handshake_timeout execution_timeout i prepare collect in
  let '(w, i, outcome) :=
    match (match cancel with
           | Some (cancelled, s) => if cancelled <=? supervised_for w then Some (cancelled, s) else None
           | None => None
           end) with
    | Some (cancelled, (w, i)) => (supervised cancelled w, i, Err Cancelled)
    | None =>
        (w, i, map_err (λ e, match e with
                             | CaptureTimeout => Timeout
                             | CaptureFailed f =>
                                 let p := capture_failure_new (cof_phase f) (cof_reason f) no_diagnostics in
                                 CheckpointCapture
                                   (match cof_exit f with
                                    | Some st => let '(code, signal) := worker_exit_status_parts st in
                                                 capture_with_exit_status code signal p
                                    | None => p
                                    end)
                             end) res)
    end in
  let cleanup := negb (is_ok outcome) && wp_active w in
  let status := if cleanup then match outcome with Err (CheckpointCapture _) => observed | _ => None end
                else None in
  let w := if cleanup then disarm (wait_child (kill_tree w)) else w in
  let diagnostics := match diagnostics with Some (Ok d) => d | _ => lost_diagnostics end in
  (w, i, match outcome with
         | Ok m => Ok m
         | Err (CheckpointCapture f) =>
             let parts := worker_exit_status_parts <$> status in
             let code := match parts with Some p => p.1 | None => cf_exit_code f end in
             let signal := match parts with Some p => p.2 | None => cf_exit_signal f end in
             Err (CheckpointCapture
                    (capture_with_exit_status code signal
                       (capture_failure_new (cf_phase f) (cf_reason f) diagnostics)))
         | Err e => Err e
         end).

(** ** Probe and transport *)

(** [supervise_probe] and [supervise_checkpoint_transport] differ only in the
    operation they run: an error with a live worker hands it to the reaper. *)
Definition supervise {S A} (handshake_timeout : Z) (race : Race (WorkerProcess * S))
    (perform : WorkerProcess * S * Result A) : WorkerProcess * S * Result A :=
  let '(decided, sel) := raced handshake_timeout race in
  let '(w, i, outcome) :=
    match sel with
    | SelectedCancel (w, i) => (w, i, Err Cancelled)
    | SelectedTimeout (w, i) => (w, i, Err Timeout)
    | SelectedDone => perform
    end in
  let w := supervised decided w in
  (if negb (is_ok outcome) && wp_active w then spawn_worker_reaper w else w, i, outcome).

Definition supervise_probe (w : WorkerProcess) (exit : result string ExitStatus) (groups : list Z) (r : reader)
    (handshake_timeout : Z) (race : Race (WorkerProcess * unit)) : WorkerProcess * unit * Result WasixWorkerMetadata :=
  supervise handshake_timeout race (let '(w, res) := perform_handshake w exit groups r in (w, tt, res)).

Record ExpectedCheckpointTransport := {
  et_binding : WasixCheckpointBinding; et_journal_bytes : Z; et_journal_sha256 : string }.
Record CheckpointTransportInput := {
  ti_control : Control; ti_open : bool; ti_file : option SealedFile; ti_expected : ExpectedCheckpointTransport }.
Record WasixCheckpointTransportMetadata := {
  tm_worker : WasixWorkerMetadata; tm_binding : WasixCheckpointBinding;
  tm_journal_bytes : Z; tm_journal_sha256 : string }.

Definition perform_checkpoint_transport (w : WorkerProcess) (exit : result string ExitStatus) (groups : list Z)
    (r : reader) (i : CheckpointTransportInput)
    : WorkerProcess * CheckpointTransportInput * Result WasixCheckpointTransportMetadata :=
  match read_ready w groups r with
  | Err e => (w, i, Err e)
  | Ok (metadata, r) =>
  if negb (ti_open i) then (w, i, Err (Execution "checkpoint control socket is unavailable")) else
  match ti_file i with
  | None => (w, i, Err (Execution "sealed checkpoint input is unavailable"))
  | Some file =>
  let '(c, res) := control_do (Descriptor "C" file) (ti_control i) in
  match res with
  | Err e =>
    (w, {| ti_control := c; ti_open := true; ti_file := Some file; ti_expected := ti_expected i |},
     Err (Execution e))
  | Ok _ =>
  let i := {| ti_control := c; ti_open := false; ti_file := None; ti_expected := ti_expected i |} in
  match ('(frame, r) ← read_frame r;
         ack ← map_err (λ e, Execution ("invalid WASIX checkpoint acknowledgement: " +:+ e)) (from_slice frame);
         _ ← transport_ack_validate ack (et_journal_bytes (ti_expected i)) (et_journal_sha256 (ti_expected i));
         Ok (ack, r)) with
  | Err e => (w, i, Err e)
  | Ok (ack, r) =>
      let '(w, res) := finish_worker_output w exit r "checkpoint transport" in
      (w, i, _ ← res; Ok {| tm_worker := metadata; tm_binding := et_binding (ti_expected i);
                            tm_journal_bytes := ta_journal_bytes ack; tm_journal_sha256 := ta_journal_sha256 ack |})
  end end end end.

Definition supervise_checkpoint_transport (w : WorkerProcess) (exit : result string ExitStatus) (groups : list Z)
    (r : reader) (handshake_timeout : Z) (i : CheckpointTransportInput)
    (race : Race (WorkerProcess * CheckpointTransportInput))
    : WorkerProcess * CheckpointTransportInput * Result WasixCheckpointTransportMetadata :=
  supervise handshake_timeout race (perform_checkpoint_transport w exit groups r i).

(** ** The worker *)

(** What the worker's process environment answers. *)
Record WorkerEnv := {
  we_build : result string string;                       (* [current_worker_build_sha256] *)
  we_isolation : result string WasixWorkerIsolation;     (* [enter_wasix_worker_isolation] *)
  we_process_id : Z;
  we_module_ops : FdOps;
  we_journal_ops : FdOps;
  we_clear_stdin : result string unit;                   (* [/dev/null] over stdin *)
}.

(** One received message of the control socket. *)
Definition receive_checkpoint_descriptor (l : list control_op) (expected_marker : byte) (label : string)
    : result string (SealedFile * list control_op) :=
  match l with
  | Descriptor m f :: l' =>
      _ ← reject_if (negb (bool_decide (m = expected_marker))) (label +:+ " descriptor message is malformed");
      Ok (f, l')
  | Bytes (b :: _) :: _ =>
      _ ← reject_if (negb (bool_decide (b = expected_marker))) (label +:+ " descriptor message is malformed");
      Err (label +:+ " descriptor message did not contain a file")
  | _ => Err (label +:+ " descriptor message is malformed")
  end.

(** The rest of the control socket as a byte stream. *)
Fixpoint control_reader (l : list control_op) : reader :=
  match l with
  | Bytes b :: l' => Chunk b :: control_reader l'
  | Descriptor m _ :: l' => Chunk [m] :: control_reader l'
  | Shutdown :: _ | [] => []
  end.

Section worker.
Context {W : Type} `{Write W} `{Flush W}.

(** Isolation and the ready message, common to every worker program. *)
Definition write_ready (env : WorkerEnv) (w : W) : W * result string unit :=
  match (build ← we_build env;
         isolation ← we_isolation env;
         map_err (λ e, "cannot encode worker metadata: " +:+ e)
           (to_vec (worker_metadata_current isolation build (we_process_id env)))) with
  | Err e => (w, Err e)
  | Ok frame => write_worker_frame w frame
  end.

Definition write_wasix_worker_probe (env : WorkerEnv) (w : W) : W * result string unit := write_ready env w.

(** Encodes a message and writes it as a frame. *)
Definition write_message {A} `{Json A} (w : W) (what : string) (a : A) : W * result string unit :=
  match map_err (λ e, "cannot encode " +:+ what +:+ ": " +:+ e) (to_vec a) with
  | Err e => (w, Err e)
  | Ok frame => write_worker_frame w frame
  end.

(** A step that touches no output. *)
Definition pure {A} (w : W) (r : result string A) : W * result string A := (w, r).
(** An inspection that did not end would leave the worker without an answer. *)
Definition inspected (o : option (result string SealedWorkerInputMetadata)) : result string SealedWorkerInputMetadata :=
  match o with Some r => r | None => Err "unfinished" end.

Definition write_wasix_checkpoint_transport_probe (env : WorkerEnv) (incoming : list control_op) (w : W)
    : W * result string unit :=
  let? (w, _x) := write_ready env w in
  let? (w, got) := pure w (receive_checkpoint_descriptor incoming "C" "checkpoint") in
  let? (w, accepted) := pure w (inspected (inspect_sealed_worker_input got.1 (we_journal_ops env)
                          WASIX_WORKER_MAX_CHECKPOINT_BYTES "checkpoint")) in
  let? (w, _x) := pure w (we_clear_stdin env) in
  write_message w "checkpoint acknowledgement"
    {| ta_journal_bytes := sw_bytes accepted; ta_journal_sha256 := sw_sha256 accepted |}.

(** Guest execution in the worker. *)
Record ExecutedCheckpointRestore := { xr_exit_code : Z; xr_stdout : list byte; xr_stderr : list byte }.
Record ExecutedCheckpointCapture := {
  xc_exit_code : Z; xc_journal : list byte; xc_stdout : list byte; xc_stderr : list byte }.

Definition write_wasix_checkpoint_restore (env : WorkerEnv)
    (execute : SealedFile → Z → SealedFile → result string ExecutedCheckpointRestore)
    (incoming : list control_op) (w : W) : W * result string unit :=
  let? (w, _x) := write_ready env w in
  let? (w, got) := pure w (receive_checkpoint_descriptor incoming "M" "module") in
  let module := got.1 in
  let? (w, mm) := pure w (inspected (inspect_sealed_worker_input module (we_module_ops env)
                    WASIX_WORKER_MAX_MODULE_BYTES "module")) in
  let? (w, got) := pure w (receive_checkpoint_descriptor got.2 "C" "checkpoint") in
  let journal := got.1 in
  let? (w, jm) := pure w (inspected (inspect_sealed_worker_input journal (we_journal_ops env)
                    WASIX_WORKER_MAX_CHECKPOINT_BYTES "checkpoint")) in
  let? (w, _x) := write_message w "restore acknowledgement"
    {| ra_module_bytes := sw_bytes mm; ra_module_sha256 := sw_sha256 mm;
       ra_journal_bytes := sw_bytes jm; ra_journal_sha256 := sw_sha256 jm |} in
  let? (w, _x) := pure w (read_worker_execute_authorization (control_reader got.2) "restore") in
  let? (w, _x) := pure w (we_clear_stdin env) in
  let? (w, x) := pure w (execute module (sw_bytes mm) journal) in
  let? (w, _x) := write_message w "restore completion"
    {| rc_exit_code := xr_exit_code x;
       rc_stdout_bytes := blen (xr_stdout x); rc_stdout_sha256 := sha256_hex (xr_stdout x);
       rc_stderr_bytes := blen (xr_stderr x); rc_stderr_sha256 := sha256_hex (xr_stderr x) |} in
  let? (w, _x) := write_worker_output_frame w (xr_stdout x) "restore stdout" in
  write_worker_output_frame w (xr_stderr x) "restore stderr".

Definition write_wasix_checkpoint_capture (env : WorkerEnv)
    (execute : SealedFile → Z → WasixCheckpointCaptureRequest → result string ExecutedCheckpointCapture)
    (incoming : list control_op) (w : W) : W * result string unit :=
  let? (w, _x) := write_ready env w in
  let? (w, got) := pure w (receive_checkpoint_descriptor incoming "M" "module") in
  let module := got.1 in
  let? (w, mm) := pure w (inspected (inspect_sealed_worker_input module (we_module_ops env)
                    WASIX_WORKER_MAX_MODULE_BYTES "module")) in
  let? (w, frame) := pure w (read_worker_control_frame (control_reader got.2)
                       WASIX_WORKER_MAX_CAPTURE_REQUEST_BYTES "capture request") in
  let request_bytes := frame.1 in
  let? (w, request) := pure w (map_err (λ e, "cannot decode capture request: " +:+ e) (from_slice request_bytes)) in
  let? (w, _x) := pure w (capture_request_validate request) in
  let? (w, _x) := write_message w "capture acknowledgement"
    {| ca_module_bytes := sw_bytes mm; ca_module_sha256 := sw_sha256 mm;
       ca_request_bytes := blen request_bytes; ca_request_sha256 := sha256_hex request_bytes |} in
  let? (w, _x) := pure w (read_worker_execute_authorization frame.2 "capture") in
  let? (w, _x) := pure w (we_clear_stdin env) in
  let? (w, x) := pure w (execute module (sw_bytes mm) request) in
  let? (w, _x) := write_message w "capture completion"
    {| cc_exit_code := xc_exit_code x;
       cc_journal_bytes := blen (xc_journal x); cc_journal_sha256 := sha256_hex (xc_journal x);
       cc_stdout_bytes := blen (xc_stdout x); cc_stdout_sha256 := sha256_hex (xc_stdout x);
       cc_stderr_bytes := blen (xc_stderr x); cc_stderr_sha256 := sha256_hex (xc_stderr x) |} in
  let? (w, _x) := write_worker_bounded_frame w (xc_journal x) WASIX_WORKER_MAX_CHECKPOINT_BYTES false
                    "capture journal" in
  let? (w, _x) := write_worker_output_frame w (xc_stdout x) "capture stdout" in
  write_worker_output_frame w (xc_stderr x) "capture stderr".
End worker.
End protocol.

(** ** Sealing and inspection agree *)

Lemma chunks_join fuel n l : (length l ≤ fuel)%nat → (0 < n)%nat → mjoin (chunks fuel n l) = l.
Proof.
  revert l. induction fuel as [|fuel IH]; intros l Hf Hn; [by destruct l; cbn in *; [|lia]|].
  destruct l as [|x l]; [done|]. cbn [chunks]. change (mjoin (?a :: ?b)) with (a ++ mjoin b).
  rewrite IH; [apply take_drop| |done]. rewrite length_drop. cbn in *. lia.
Qed.

Lemma fill_Ok m cancelled f i l w b : fill m cancelled f i l w = Ok b → b = w ++ mjoin l.
Proof.
  revert i w. induction l as [|c l IH]; intros i w Hf; cbn in Hf; [simplify_eq; by rewrite app_nil_r|].
  result_inv. apply IH in Hf. subst. cbn. by rewrite <- app_assoc.
Qed.

Lemma take_extend {A} (l : list A) n k : take n l ++ take k (drop n l) = take (n + length (take k (drop n l))) l.
Proof.
  rewrite take_take_drop, length_take, length_drop. destruct (decide (k ≤ length l - n)%nat).
  - f_equal. lia.
  - by rewrite !take_ge by lia.
Qed.

Section agreement.
Context {K : Crypto} {CL : CryptoLaws K}.

Lemma hash_loop_Ok fuel f s label offset hashed b :
  0 ≤ offset ≤ blen (sf_bytes f) →
  hashed = take (Z.to_nat offset) (sf_bytes f) →
  hash_loop fuel f s label (blen (sf_bytes f)) offset hashed = Some (Ok b) → b = sf_bytes f.
Proof.
  revert offset hashed. induction fuel as [|fuel IH]; intros offset hashed Ho Hh Hl; cbn [hash_loop] in Hl;
    destruct (Z.ltb_spec offset (blen (sf_bytes f))); try done;
    try (simplify_eq; rewrite take_ge; [done|unfold blen in *; lia]).
  destruct (pread _ _ _ _) as [[|x p]|e] eqn:Hp; try done.
  destruct (checked_add _ _ _) as [o|] eqn:Hc; [|done].
  apply checked_add_Some in Hc. unfold pread in Hp. result_inv.
  destruct Hc as [-> _].
  assert (Hk : (length (x :: p) ≤ length (sf_bytes f) - Z.to_nat offset)%nat).
  { rewrite <- Hp, length_take, length_drop. lia. }
  eapply IH; [| |exact Hl]; [unfold blen in *; lia|].
  rewrite <- Hp, take_extend. f_equal. rewrite Hp. unfold blen. lia.
Qed.

(** Every read makes progress, so the loop ends within its fuel. *)
Definition honest_pread (f : SealedFile) (s : pread_fn) : Prop :=
  ∀ offset n, ∃ k, s offset n = Ok k ∧ (offset < blen (sf_bytes f) → 1 ≤ n → 1 ≤ k).

Lemma hash_loop_ends fuel f s label offset hashed :
  honest_pread f s → blen (sf_bytes f) ≤ u64_max →
  0 ≤ offset ≤ blen (sf_bytes f) → (length (sf_bytes f) - Z.to_nat offset ≤ fuel)%nat →
  ∃ b, hash_loop fuel f s label (blen (sf_bytes f)) offset hashed = Some (Ok b).
Proof.
  intros Hs Hu. revert offset hashed. induction fuel as [|fuel IH]; intros offset hashed Ho Hf; cbn [hash_loop];
    destruct (Z.ltb_spec offset (blen (sf_bytes f))) as [Hlt|]; eauto; [unfold blen in *; lia|].
  destruct (Hs offset (Z.min (blen (sf_bytes f) - offset) (64 * 1024))) as (k & Hk & Hk1).
  specialize (Hk1 Hlt ltac:(lia)). unfold pread. rewrite Hk. cbn [mbind result_bind].
  set (p := take _ _).
  assert (Hp : (1 ≤ length p ≤ length (sf_bytes f) - Z.to_nat offset)%nat).
  { unfold p. rewrite length_take, length_drop. unfold blen in *. lia. }
  destruct p as [|x p]; [cbn in Hp; lia|].
  destruct (checked_add u64_max offset (blen (x :: p))) as [o|] eqn:Hc.
  - apply checked_add_Some in Hc as [-> _]. apply IH; unfold blen in *; lia.
  - apply checked_add_None in Hc. unfold blen in *. lia.
Qed.

Lemma inspect_Ok f ops maximum label a :
  inspect_sealed_worker_input f ops maximum label = Some (Ok a) →
  sw_bytes a = blen (sf_bytes f) ∧ sw_sha256 a = sha256_hex (sf_bytes f)
  ∧ 0 < blen (sf_bytes f) ≤ maximum ∧ sf_sealed f = true.
Proof.
  unfold inspect_sealed_worker_input. intros Hi.
  destruct (fd_seals_error ops); [done|]. destruct (sf_sealed f); [|done]. cbn [negb] in Hi.
  destruct (fd_stat_error ops); [done|]. destruct (_ || _) eqn:Hb; [done|].
  destruct (hash_loop _ _ _ _ _ _ _) as [[h|]|] eqn:Hl; try done.
  apply hash_loop_Ok in Hl as ->; [|blen_lia|done].
  rewrite !orb_false_iff, Z.eqb_neq, Z.ltb_ge in Hb. pose proof (blen_nonneg (sf_bytes f)).
  repeat case_match; simplify_eq; cbn; split_and!; try done; lia.
Qed.

Lemma inspect_honest f ops maximum label :
  fd_seals_error ops = None → fd_stat_error ops = None → honest_pread f (fd_pread ops) →
  sf_sealed f = true → sf_regular f = true → sf_nlink f = 0 →
  0 < blen (sf_bytes f) ≤ maximum → blen (sf_bytes f) ≤ u64_max →
  inspect_sealed_worker_input f ops maximum label
  = Some (Ok {| sw_bytes := blen (sf_bytes f); sw_sha256 := sha256_hex (sf_bytes f) |}).
Proof.
  intros He1 He2 Hs H1 H2 H3 Hb Hu. unfold inspect_sealed_worker_input. rewrite He1, He2, H1, H2, H3.
  change (negb (0 =? 0)) with false. cbn [negb orb].
  rewrite (proj2 (Z.eqb_neq (blen (sf_bytes f)) 0)), (proj2 (Z.ltb_ge maximum _)) by lia. cbn [orb].
  destruct (hash_loop_ends (length (sf_bytes f)) f (fd_pread ops) label 0 []) as [b Hl]; [done|done|lia|lia|].
  rewrite Hl. apply hash_loop_Ok in Hl as ->; [|lia|done].
  unfold pread. destruct (Hs (blen (sf_bytes f)) 1) as (k & -> & _). cbn [mbind result_bind].
  rewrite drop_ge by (unfold blen; lia). by rewrite take_nil.
Qed.

Lemma sealed_checkpoint_input_Ok m cancelled j p :
  sealed_checkpoint_input m cancelled j = Ok p →
  sf_bytes (pi_file p) = j ∧ pi_bytes p = blen j ∧ pi_sha256 p = sha256_hex j
  ∧ sf_sealed (pi_file p) = true ∧ sf_regular (pi_file p) = true ∧ sf_nlink (pi_file p) = 0.
Proof.
  unfold sealed_checkpoint_input. intros Hs. result_inv.
  repeat match goal with x : _ * _ |- _ => destruct x end. result_inv.
  match goal with Hf : fill _ _ _ _ _ _ = Ok _ |- _ => apply fill_Ok in Hf; cbn in Hf end.
  rewrite chunks_join in * by (done || (unfold chunk_bytes; lia)). subst. cbn. bool_inv. done.
Qed.

Lemma sealed_module_input_Ok m cancelled j p :
  sealed_module_input m cancelled j = Ok p →
  sf_bytes (pi_file p) = j ∧ pi_bytes p = blen j ∧ pi_sha256 p = sha256_hex j
  ∧ sf_sealed (pi_file p) = true ∧ sf_regular (pi_file p) = true ∧ sf_nlink (pi_file p) = 0.
Proof.
  unfold sealed_module_input. intros Hs. result_inv.
  repeat match goal with x : _ * _ |- _ => destruct x end. result_inv.
  match goal with Hf : fill _ _ _ _ _ _ = Ok _ |- _ => apply fill_Ok in Hf; cbn in Hf end.
  rewrite chunks_join in * by (done || (unfold chunk_bytes; lia)). subst. cbn. bool_inv. done.
Qed.

(** C36: a journal the parent seals and the worker inspects is the same bytes
    under the same digest on both sides, whatever short reads the worker sees;
    and a non-empty journal within the limit is always accepted. *)
Theorem sealed_transfer_agrees m cancelled journal p ops maximum label :
  sealed_checkpoint_input m cancelled journal = Ok p →
  (∀ a, inspect_sealed_worker_input (pi_file p) ops maximum label = Some (Ok a) →
        sf_bytes (pi_file p) = journal ∧ sw_bytes a = pi_bytes p ∧ sw_sha256 a = pi_sha256 p
        ∧ pi_sha256 p = sha256_hex journal ∧ 0 < blen journal ≤ maximum)
  ∧ (fd_seals_error ops = None → fd_stat_error ops = None → honest_pread (pi_file p) (fd_pread ops) →
     0 < blen journal ≤ maximum → maximum ≤ u64_max →
     inspect_sealed_worker_input (pi_file p) ops maximum label
     = Some (Ok {| sw_bytes := pi_bytes p; sw_sha256 := pi_sha256 p |})).
Proof.
  intros (E1 & E2 & E3 & E4 & E5 & E6)%sealed_checkpoint_input_Ok. split.
  - intros a (H1 & H2 & H3 & _)%inspect_Ok. rewrite E1 in *. split_and!; congruence || lia.
  - intros He1 He2 Hp Hb Hm. rewrite inspect_honest; rewrite ?E1; try done; [by rewrite E2, E3|lia].
Qed.
End agreement.

(** ** Authorization *)

Section guarded.
Context {K : Crypto} {CL : CryptoLaws K} `{BuildInfo} `{Allocator}.
Context {JMeta : Json WasixWorkerMetadata} {JTA : Json WasixCheckpointTransportAck}.
Context {JRA : Json WasixCheckpointRestoreAck} {JRC : Json WasixCheckpointRestoreCompletion}.
Context {JCR : Json WasixCheckpointCaptureRequest} {JCA : Json WasixCheckpointCaptureAck}.
Context {JCC : Json WasixCheckpointCaptureCompletion}.

(** The worker's first message was a valid ready message of this worker. *)
Definition ReadyFrom (w : WorkerProcess) (groups : list Z) (r r1 : reader) : Prop :=
  ∃ frame m, read_frame r = Ok (frame, r1) ∧ from_slice frame = Ok m
    ∧ metadata_build_sha256 m = wp_build_sha256 w ∧ process_id m = wp_process_id w
    ∧ Isolated (isolation m) groups.

Lemma read_ready_Ok w groups r m r1 : read_ready w groups r = Ok (m, r1) → ReadyFrom w groups r r1.
Proof.
  unfold read_ready. intros Hr. result_inv.
  repeat match goal with x : _ * _ |- _ => destruct x end. result_inv.
  repeat match goal with u : unit |- _ => destruct u end.
  match goal with Hv : worker_metadata_validate _ _ _ _ = Ok _ |- _ =>
    apply worker_metadata_validate_iff in Hv as (_ & _ & _ & ? & ? & ?) end.
  eexists _, m. by split_and!.
Qed.

Lemma try_control_cases {F} op (f : F) c c' r :
  try_control op f c = (c', r) →
  r = Ok tt ∧ sent c' = sent c ++ [op] ∨ r = Err f ∧ sent c' = sent c.
Proof. unfold try_control, control_do. repeat case_match; intros; simplify_eq; cbn; auto. Qed.

(** What the parent may have sent, and what the worker had said by then. *)
Lemma restore_exchange_trace w groups e module journal r c c' res :
  restore_exchange w groups e module journal r c = (c', res) → sent c = [] →
  (sent c' ≠ [] → ∃ r1, ReadyFrom w groups r r1)
  ∧ (Bytes ["E"%byte] ∈ sent c' →
     ∃ r1 frame r2 ack, ReadyFrom w groups r r1 ∧ read_frame r1 = Ok (frame, r2)
       ∧ from_slice frame = Ok ack
       ∧ ack = {| ra_module_bytes := er_module_bytes e; ra_module_sha256 := er_module_sha256 e;
                  ra_journal_bytes := er_journal_bytes e; ra_journal_sha256 := er_journal_sha256 e |}).
Proof.
  intros Hx Hs. unfold restore_exchange in Hx.
  destruct (read_ready w groups r) as [[m r1]|] eqn:Hr; cbn [map_err] in Hx;
    [|simplify_eq; rewrite Hs; split; [done|by intros ?%not_elem_of_nil]].
  apply read_ready_Ok in Hr. split; [by exists r1|]. intros HE.
  destruct module as [module|]; [|simplify_eq; rewrite Hs in HE; by apply not_elem_of_nil in HE].
  destruct (try_control (Descriptor "M" module) _ c) as [c1 r1'] eqn:H1.
  apply try_control_cases in H1 as [[-> H1]|[-> H1]]; cbn [io_bind] in Hx;
    [|simplify_eq; rewrite H1, Hs in HE; by apply not_elem_of_nil in HE].
  destruct journal as [journal|]; [|simplify_eq; rewrite H1, Hs in HE; set_solver].
  destruct (try_control (Descriptor "C" journal) _ c1) as [c2 r2'] eqn:H2.
  apply try_control_cases in H2 as [[-> H2]|[-> H2]]; cbn [io_bind] in Hx;
    [|simplify_eq; rewrite H2, H1, Hs in HE; set_solver].
  destruct (read_frame r1) as [[frame r2]|] eqn:Hf; cbn [mbind result_bind] in Hx;
    [|simplify_eq; rewrite H2, H1, Hs in HE; set_solver].
  destruct (from_slice frame) as [ack|] eqn:Ha; cbn [map_err mbind result_bind] in Hx;
    [|simplify_eq; rewrite H2, H1, Hs in HE; set_solver].
  destruct (restore_ack_validate ack _ _ _ _) as [[]|] eqn:Hv; cbn [mbind result_bind] in Hx;
    [|simplify_eq; rewrite H2, H1, Hs in HE; set_solver].
  exists r1, frame, r2, ack. split_and!; [done..|].
  unfold restore_ack_validate in Hv. apply reject_if_Ok in Hv. rewrite !orb_false_iff, !negb_false_iff in Hv.
  destruct Hv as (((?%Z.eqb_eq & ?%bool_decide_eq_true) & ?%Z.eqb_eq) & ?%bool_decide_eq_true).
  destruct ack; cbn in *; congruence.
Qed.

(** C5: the parent hands a worker nothing before its valid ready message, and
    authorizes execution only after the worker acknowledged exactly the
    expected module and journal: same lengths, same digests.  This holds for
    every behaviour of the worker and every failure of the control socket. *)
Theorem restore_authorization_guarded w exit groups r i w' i' res :
  sent (ri_control i) = [] →
  perform_checkpoint_restore w exit groups r i = (w', i', res) →
  (sent (ri_control i') ≠ [] → ∃ r1, ReadyFrom w groups r r1)
  ∧ (Bytes ["E"%byte] ∈ sent (ri_control i') →
     ∃ r1 frame r2 ack, ReadyFrom w groups r r1 ∧ read_frame r1 = Ok (frame, r2)
       ∧ from_slice frame = Ok ack
       ∧ ack = {| ra_module_bytes := er_module_bytes (ri_expected i);
                  ra_module_sha256 := er_module_sha256 (ri_expected i);
                  ra_journal_bytes := er_journal_bytes (ri_expected i);
                  ra_journal_sha256 := er_journal_sha256 (ri_expected i) |}).
Proof.
  intros Hs Hp. unfold perform_checkpoint_restore, prepare_checkpoint_restore in Hp.
  destruct (ri_open i).
  - destruct (restore_exchange _ _ _ _ _ _ _) as [c' x] eqn:Hx.
    assert (Hc : ri_control i' = c').
    { destruct x as [[[m ack] r1]|]; [|by simplify_eq].
      destruct (collect_checkpoint_restore_output r1) as [[[out err] r2]|]; [|by simplify_eq].
      destruct (finish_worker_output _ _ _ _). by simplify_eq. }
    rewrite Hc. by eapply restore_exchange_trace.
  - assert (Hc : ri_control i' = ri_control i) by (repeat case_match; simplify_eq; done).
    rewrite Hc, Hs. split; [done|by intros ?%not_elem_of_nil].
Qed.

(** ** Supervision *)

(** A worker is either still armed or was killed with its group and reaped. *)
Definition accounted (w : WorkerProcess) : Prop :=
  wp_active w = true ∨ (group_killed w = true ∧ reaped w = true).
Definition gone (w : WorkerProcess) : Prop :=
  wp_active w = false ∧ group_killed w = true ∧ reaped w = true.

Lemma reap_gone w : wp_active w = true → gone (disarm (wait_child (kill_tree w))).
Proof. unfold gone, kill_tree. intros ->. done. Qed.

Lemma finish_worker_output_accounted w exit r op w' res :
  finish_worker_output w exit r op = (w', res) → wp_active w = true →
  accounted w' ∧ (res = Ok tt → gone w').
Proof.
  unfold finish_worker_output, accounted, gone, kill_tree. intros Hf Ha.
  repeat case_match; simplify_eq; cbn in *; try rewrite Ha in *; naive_solver.
Qed.

Lemma perform_restore_accounted w exit groups r i w' i' res :
  perform_checkpoint_restore w exit groups r i = (w', i', res) → wp_active w = true →
  accounted w' ∧ (is_ok res = true → gone w').
Proof.
  intros Hp Ha. unfold perform_checkpoint_restore in Hp.
  destruct (prepare_checkpoint_restore _ _ _ _) as [i1 [[[m ack] r1]|]]; [|simplify_eq; split; [by left|done]].
  destruct (collect_checkpoint_restore_output r1) as [[[out err] r2]|]; [|simplify_eq; split; [by left|done]].
  destruct (finish_worker_output w exit r2 _) as [w1 res1] eqn:Hf. simplify_eq.
  apply finish_worker_output_accounted in Hf as [Hacc Hgone]; [|done]. split; [done|].
  destruct res1 as [[]|]; [by intros; apply Hgone|done].
Qed.

(** What every supervisor does last: an operation that failed with an armed
    worker kills and reaps it. *)
Lemma cleanup_gone (ok : bool) w :
  accounted w → (ok = true → gone w) →
  gone (if negb ok && wp_active w then disarm (wait_child (kill_tree w)) else w).
Proof.
  intros Ha Hok. destruct ok; cbn [negb andb]; [by apply Hok|].
  destruct (wp_active w) eqn:Hw; [by apply reap_gone|]. destruct Ha as [?|?]; [congruence|done].
Qed.

(** Wherever an operation is interrupted, its worker is armed or already
    reaped. *)
Definition timer_accounted {X} (t : Timer (WorkerProcess * X)) : Prop := accounted (interrupted_in t).1.
Definition cancel_accounted {X} (c : option (Z * (WorkerProcess * X))) : Prop :=
  ∀ at_time s, c = Some (at_time, s) → accounted s.1.
Definition race_accounted {X} (race : Race (WorkerProcess * X)) : Prop :=
  timer_accounted (race_timer race) ∧ cancel_accounted (race_cancel race).

Lemma raced_accounted {X} timeout (race : Race (WorkerProcess * X)) :
  race_accounted race →
  match (raced timeout race).2 with SelectedDone => True | SelectedCancel s | SelectedTimeout s => accounted s.1 end.
Proof.
  intros [Ht Hc]. unfold raced. destruct (race_cancel race) as [[at_time s]|] eqn:Hr.
  - destruct (at_time <=? _); cbn; [by eapply Hc|]. by destruct (in_time _ _).
  - cbn. by destruct (in_time _ _).
Qed.
Lemma raced_by {X} timeout (race : Race X) : (raced timeout race).1 ≤ timeout + timer_lag (race_timer race).
Proof.
  unfold raced, ended_at. destruct (race_cancel race) as [[at_time s]|]; [|cbn; case_match; lia].
  destruct (Z.leb_spec at_time (match ready_at (race_timer race) with
    | Some r => Z.min r (timeout + timer_lag (race_timer race)) | None => timeout + timer_lag (race_timer race) end));
    cbn; case_match; lia.
Qed.

Lemma supervise_restore_gone w exit groups r timeout i race observed diagnostics w' i' res :
  wp_active w = true → race_accounted race →
  supervise_checkpoint_restore w exit groups r timeout i race observed diagnostics = (w', i', res) →
  gone w'.
Proof.
  intros Ha Hrace%(raced_accounted timeout) Hs. unfold supervise_checkpoint_restore in Hs.
  destruct (raced timeout race) as [decided [|[w0 i0]|[w0 i0]]];
    [|simplify_eq; by apply (cleanup_gone false (supervised decided w0))..].
  destruct (perform_checkpoint_restore w exit groups r i) as [[w0 i0] x] eqn:Hp.
  apply perform_restore_accounted in Hp as [Hacc Hok]; [|done].
  destruct x as [m|f]; cbn [map_err is_ok] in Hs; simplify_eq;
    [by apply (cleanup_gone true (supervised decided w0))|by apply (cleanup_gone false (supervised decided w0))].
Qed.

Lemma collect_capture_accounted w exit r w' res :
  collect_checkpoint_capture_output w exit r = (w', res) → wp_active w = true →
  accounted w' ∧ (is_ok res = true → gone w').
Proof.
  unfold collect_checkpoint_capture_output, finish_checkpoint_capture_output. intros Hc Ha.
  destruct (_ ≫= _) as [[[[[completion journal] out] err] r1]|]; [|simplify_eq; split; [by left|done]].
  destruct (read_one r1) as [[|b l]|]; [|cbn in Hc; simplify_eq; split; [by left|done]..].
  destruct exit as [st|]; [|cbn in Hc; simplify_eq; split; [by left|done]]. unfold kill_tree in Hc. cbn in Hc.
  rewrite Ha in Hc. destruct (success st); cbn in Hc; simplify_eq; split; try done; by right.
Qed.

Lemma perform_capture_accounted w exit groups r t1 t2 i prepare collect w' i' res :
  wp_active w = true → timer_accounted prepare → timer_accounted collect →
  perform_checkpoint_capture w exit groups r t1 t2 i prepare collect = (w', i', res) →
  accounted w' ∧ (is_ok res = true → gone w').
Proof.
  intros Ha Hprep Hcol. unfold perform_checkpoint_capture, timer_accounted in *.
  destruct (in_time t1 prepare); cbn [negb]; [|destruct (interrupted_in prepare); intros; by simplify_eq].
  destruct (prepare_checkpoint_capture _ _ _ _) as [i1 [[[m ack] r1]|]]; [|intros; simplify_eq; split; [by left|done]].
  destruct (in_time t2 collect); cbn [negb]; [|destruct (interrupted_in collect); intros; by simplify_eq].
  destruct (collect_checkpoint_capture_output w exit r1) as [w1 x] eqn:Hc.
  apply collect_capture_accounted in Hc as [Hacc Hok]; [|done].
  destruct x as [[[[completion journal] out] err]|]; intros; simplify_eq; split; try done; by intros _; apply Hok.
Qed.
Lemma supervise_capture_gone w exit groups r t1 t2 i prepare collect cancel observed diagnostics w' i' res :
  wp_active w = true → timer_accounted prepare → timer_accounted collect → cancel_accounted cancel →
  supervise_checkpoint_capture w exit groups r t1 t2 i prepare collect cancel observed diagnostics = (w', i', res) →
  gone w'.
Proof.
  intros Ha Hprep Hcol Hcancel Hs. unfold supervise_checkpoint_capture in Hs.
  destruct (perform_checkpoint_capture _ _ _ _ _ _ _ _ _) as [[w0 i0] x] eqn:Hp.
  apply perform_capture_accounted in Hp as [Hacc Hok]; [|done..].
  assert (∀ at_time s, cancel = Some (at_time, s) → gone (if wp_active s.1 then disarm (wait_child (kill_tree
    (supervised at_time s.1))) else supervised at_time s.1)) as Hgone.
  { intros at_time s ->. by apply (cleanup_gone false (supervised at_time s.1)); [eapply Hcancel|]. }
  destruct cancel as [[at_time [w1 i1]]|]; [specialize (Hgone _ _ eq_refl); destruct (at_time <=? supervised_for w0)|];
    [simplify_eq; exact Hgone|..].
  all: destruct x as [m|[f|]]; cbn [map_err is_ok] in Hs; simplify_eq;
    [by apply (cleanup_gone true)|by apply (cleanup_gone false)..].
Qed.

Lemma supervise_gone {X Y} timeout (race : Race (WorkerProcess * X)) (perform : WorkerProcess * X * Result Y) w' i' res :
  race_accounted race → accounted perform.1.1 → (is_ok perform.2 = true → gone perform.1.1) →
  supervise timeout race perform = (w', i', res) → gone w'.
Proof.
  intros Hrace%(raced_accounted timeout) Hacc Hok Hs. unfold supervise in Hs.
  destruct (raced timeout race) as [decided [|[w0 i0]|[w0 i0]]];
    [|simplify_eq; by apply (cleanup_gone false (supervised decided w0))..].
  destruct perform as [[w0 i0] x]. cbn [fst snd] in *. simplify_eq.
  by apply (cleanup_gone (is_ok res) (supervised decided w0)).
Qed.

Lemma perform_handshake_accounted w exit groups r w' res :
  perform_handshake w exit groups r = (w', res) → wp_active w = true →
  accounted w' ∧ (is_ok res = true → gone w').
Proof.
  unfold perform_handshake. intros Hp Ha.
  destruct (read_ready w groups r) as [[m r1]|]; [|simplify_eq; split; [by left|done]].
  destruct (finish_worker_output w exit r1 _) as [w1 x] eqn:Hf.
  apply finish_worker_output_accounted in Hf as [Hacc Hok]; [|done].
  destruct x as [[]|]; cbn in Hp; simplify_eq; split; auto; done.
Qed.

Lemma perform_transport_accounted w exit groups r i w' i' res :
  perform_checkpoint_transport w exit groups r i = (w', i', res) → wp_active w = true →
  accounted w' ∧ (is_ok res = true → gone w').
Proof.
  unfold perform_checkpoint_transport. intros Hp Ha.
  destruct (read_ready w groups r) as [[m r1]|]; [|simplify_eq; split; [by left|done]].
  destruct (negb (ti_open i)); [simplify_eq; split; [by left|done]|].
  destruct (ti_file i); [|simplify_eq; split; [by left|done]].
  destruct (control_do _ _) as [c [[]|e]]; [|simplify_eq; split; [by left|done]].
  destruct (_ ≫= _) as [[ack r2]|]; [|simplify_eq; split; [by left|done]].
  destruct (finish_worker_output w exit r2 _) as [w1 x] eqn:Hf.
  apply finish_worker_output_accounted in Hf as [Hacc Hok]; [|done].
  destruct x as [[]|]; cbn in Hp; simplify_eq; split; auto; done.
Qed.
End guarded.

(** ** Both ends together *)

Definition framed (b : list byte) : list byte := be_bytes 4 (blen b) ++ b.

Lemma steady_reliable r : steady r → reliable r.
Proof. intros Hs. eapply Forall_impl; [exact Hs|]. by intros e (l & -> & Hl). Qed.

Lemma read_exact_steady r n b r' : read_exact r n = Ok (b, r') → steady r → steady r'.
Proof.
  intros Hr Hs. revert n b r' Hr. induction Hs as [|e r (l & -> & Hl) Hs IH]; intros n b r' Hr; cbn [read_exact] in Hr.
  { case_match; [simplify_eq; constructor|done]. }
  destruct (n <=? 0) eqn:Hn; [simplify_eq; constructor; eauto|].
  destruct (Z.ltb_spec n (blen l)); [simplify_eq; constructor; [|done]|].
  - eexists; split; [done|]. intros Hd%(f_equal length). rewrite length_drop in Hd. cbn in Hd. bool_inv.
    unfold blen in *. lia.
  - destruct (blen l =? 0); [done|]. result_inv. repeat match goal with x : _ * _ |- _ => destruct x end.
    result_inv. by eapply IH.
Qed.

Section reading.
Context (A : Allocator) (Halloc : ∀ n, try_reserve_exact n = Ok tt).

Lemma read_framed {E} eof maximum allow_empty (f1 : string → E) f2 f3 f4 r frame rest :
  steady r → reader_bytes r = framed frame ++ rest →
  blen frame ≤ u32_max → blen frame ≤ maximum → (allow_empty = true ∨ frame ≠ []) →
  ∃ r', read_length_prefixed eof maximum allow_empty f1 f2 f3 f4 r = Ok (frame, r')
    ∧ steady r' ∧ reader_bytes r' = rest.
Proof.
  intros Hs Hb H32 Hm Hne.
  destruct (read_length_prefixed_ok A eof maximum allow_empty f1 f2 f3 f4 r frame rest) as (r' & Hr & _ & Hb');
    [by apply steady_reliable|by rewrite Hb; unfold framed; rewrite <- app_assoc|done|done|done|done|].
  exists r'. split_and!; [done| |done]. unfold read_length_prefixed in Hr. result_inv.
  repeat match goal with x : _ * _ |- _ => destruct x end. result_inv.
  eapply read_exact_steady; [done|]. eapply read_exact_steady; done.
Qed.

Lemma read_one_end r : steady r → reader_bytes r = [] → read_one r = Ok [].
Proof.
  intros Hs Hb. destruct Hs as [|e r (l & -> & Hl) _]; [done|].
  rewrite reader_bytes_cons in Hb. cbn in Hb. by apply app_eq_nil in Hb as [-> _].
Qed.
End reading.

Lemma write_worker_frame_inv (w o f : list byte) u :
  write_worker_frame w f = (o, Ok u) → o = w ++ framed f ∧ blen f ≤ MAX_HANDSHAKE_BYTES ∧ blen f ≤ u32_max.
Proof.
  unfold write_worker_frame. rewrite vec_write_length_prefixed. case_match eqn:Hb; [done|].
  intros Hx. simplify_eq. bool_inv. done.
Qed.
Lemma write_output_frame_inv (w o f : list byte) label u :
  write_worker_output_frame w f label = (o, Ok u) →
  o = w ++ framed f ∧ blen f ≤ WASIX_WORKER_MAX_RESTORE_OUTPUT_BYTES ∧ blen f ≤ u32_max.
Proof.
  unfold write_worker_output_frame, write_worker_bounded_frame. rewrite vec_write_length_prefixed.
  case_match eqn:Hb; [done|]. intros Hx. simplify_eq. bool_inv. done.
Qed.

Section end_to_end.
Context {K : Crypto} {CL : CryptoLaws K} `{BuildInfo} {A : Allocator}.
Context {JMeta : Json WasixWorkerMetadata} {JRA : Json WasixCheckpointRestoreAck}.
Context {JRC : Json WasixCheckpointRestoreCompletion}.

Definition restore_ops (module journal : SealedFile) : list control_op :=
  [Descriptor "M" module; Descriptor "C" journal; Bytes ["E"%byte]; Shutdown].

(** A message that fits one frame. *)
Definition message {T} `{Json T} (a : T) (f : list byte) : Prop :=
  to_vec a = Ok f ∧ blen f ≤ MAX_HANDSHAKE_BYTES ∧ blen f ≤ u32_max.

Lemma write_message_inv {T} `{Json T} (w o : list byte) what (a : T) u :
  write_message w what a = (o, Ok u) → ∃ f, message a f ∧ o = w ++ framed f.
Proof.
  unfold write_message, message. destruct (to_vec a) as [f|]; cbn [map_err]; [|done].
  intros (-> & ? & ?)%write_worker_frame_inv. by exists f.
Qed.

Lemma write_ready_inv env (w o : list byte) u :
  write_ready env w = (o, Ok u) →
  ∃ build iso f, we_build env = Ok build ∧ we_isolation env = Ok iso
    ∧ message (worker_metadata_current iso build (we_process_id env)) f ∧ o = w ++ framed f.
Proof.
  unfold write_ready, message. destruct (we_build env) as [build|]; cbn [mbind result_bind]; [|done].
  destruct (we_isolation env) as [iso|]; cbn [mbind result_bind]; [|done].
  destruct (to_vec _) as [f|] eqn:Hf; cbn [map_err]; [|done].
  intros (-> & ? & ?)%write_worker_frame_inv. exists build, iso, f. by split_and!.
Qed.

Lemma inspected_Ok o a : inspected o = Ok a → o = Some (Ok a).
Proof. destruct o as [r|]; cbn; congruence. Qed.

Lemma receive_Ok m f l label a :
  receive_checkpoint_descriptor (Descriptor m f :: l) m label = Ok a → a = (f, l).
Proof. cbn. rewrite bool_decide_true by done. cbn. congruence. Qed.

(** What a successful worker saw and wrote. *)
Lemma worker_restore_inv env execute module journal bytes u :
  write_wasix_checkpoint_restore env execute (restore_ops module journal) [] = (bytes, Ok u) →
  ∃ build iso mm jm x f1 f2 f3,
    we_build env = Ok build ∧ we_isolation env = Ok iso
    ∧ inspect_sealed_worker_input module (we_module_ops env) WASIX_WORKER_MAX_MODULE_BYTES "module" = Some (Ok mm)
    ∧ inspect_sealed_worker_input journal (we_journal_ops env) WASIX_WORKER_MAX_CHECKPOINT_BYTES "checkpoint"
      = Some (Ok jm)
    ∧ execute module (sw_bytes mm) journal = Ok x
    ∧ message (worker_metadata_current iso build (we_process_id env)) f1
    ∧ message {| ra_module_bytes := sw_bytes mm; ra_module_sha256 := sw_sha256 mm;
                 ra_journal_bytes := sw_bytes jm; ra_journal_sha256 := sw_sha256 jm |} f2
    ∧ message {| rc_exit_code := xr_exit_code x;
                 rc_stdout_bytes := blen (xr_stdout x); rc_stdout_sha256 := sha256_hex (xr_stdout x);
                 rc_stderr_bytes := blen (xr_stderr x); rc_stderr_sha256 := sha256_hex (xr_stderr x) |} f3
    ∧ bytes = framed f1 ++ framed f2 ++ framed f3 ++ framed (xr_stdout x) ++ framed (xr_stderr x)
    ∧ blen (xr_stdout x) ≤ WASIX_WORKER_MAX_RESTORE_OUTPUT_BYTES
    ∧ blen (xr_stderr x) ≤ WASIX_WORKER_MAX_RESTORE_OUTPUT_BYTES.
Proof.
  unfold write_wasix_checkpoint_restore, restore_ops. intros Hw.
  repeat match goal with
  | Hx : io_bind _ _ = (_, Ok _) |- _ => apply io_bind_Ok in Hx as (?w & ?a & ?Hp & Hx)
  | Hx : pure _ _ = (_, Ok _) |- _ => unfold pure in Hx; simplify_eq
  | Hx : write_message _ _ _ = (_, Ok _) |- _ => apply write_message_inv in Hx as (?f & ?Hm & ->)
  | Hx : write_ready _ _ = (_, Ok _) |- _ => apply write_ready_inv in Hx as (?build & ?iso & ?f & ?Hb & ?Hi & ?Hm & ->)
  | Hx : write_worker_output_frame _ _ _ = (_, Ok _) |- _ => apply write_output_frame_inv in Hx as (-> & ?Hl & ?Hl)
  | Hx : inspected _ = Ok _ |- _ => apply inspected_Ok in Hx
  | Hx : receive_checkpoint_descriptor (Descriptor _ _ :: _) _ _ = Ok _ |- _ =>
      apply receive_Ok in Hx; subst; cbn [fst snd] in *
  end.
  do 8 eexists. split_and!; [eassumption..| |done|done]. by rewrite <- !app_assoc.
Qed.

Lemma completion_ok x :
  xr_exit_code x = 0 →
  blen (xr_stdout x) ≤ u64_max → blen (xr_stderr x) ≤ u64_max →
  restore_completion_validate
    {| rc_exit_code := xr_exit_code x;
       rc_stdout_bytes := blen (xr_stdout x); rc_stdout_sha256 := sha256_hex (xr_stdout x);
       rc_stderr_bytes := blen (xr_stderr x); rc_stderr_sha256 := sha256_hex (xr_stderr x) |}
    (xr_stdout x) (xr_stderr x) = Ok tt.
Proof.
  intros Hx Ho He. apply reject_if_Ok. unfold output_matches. cbn.
  rewrite Hx, !(proj2 (Z.leb_le _ _)), !Z.eqb_refl, !bool_decide_true by done. done.
Qed.

Context {JLM : JsonLaws JMeta} {JLA : JsonLaws JRA} {JLC : JsonLaws JRC}.
Context {JNM : JsonNonEmpty JMeta} {JNA : JsonNonEmpty JRA} {JNC : JsonNonEmpty JRC}.
Context (Halloc : ∀ n, try_reserve_exact n = Ok tt).

(** The parent reads back a message a worker wrote. *)
Lemma read_message {T} (J : Json T) {JL : JsonLaws J} {JN : JsonNonEmpty J} (a : T) f r rest :
  message a f → steady r → reader_bytes r = framed f ++ rest →
  ∃ r', read_frame r = Ok (f, r') ∧ from_slice f = Ok a ∧ steady r' ∧ reader_bytes r' = rest.
Proof using Halloc.
  intros (Ht & Hm & H32) Hs Hb.
  destruct (read_framed A Halloc tokio_eof MAX_HANDSHAKE_BYTES false
     (λ e, Execution ("failed to read WASIX worker frame length: " +:+ e))
     (λ n, Execution ("WASIX worker frame length " +:+ show n +:+ " is invalid"))
     (λ e, Execution ("failed to allocate WASIX worker frame: " +:+ e))
     (λ e, Execution ("failed to read WASIX worker frame: " +:+ e)) r f rest) as (r' & Hr & Hs' & Hb');
    [done..|right; by eapply to_vec_nonempty|].
  exists r'. split_and!; [exact Hr|by apply from_to|done|done].
Qed.

Lemma read_output r stream f rest :
  blen f ≤ WASIX_WORKER_MAX_RESTORE_OUTPUT_BYTES → steady r → reader_bytes r = framed f ++ rest →
  ∃ r', read_restore_output_frame r stream = Ok (f, r') ∧ steady r' ∧ reader_bytes r' = rest.
Proof using Halloc.
  intros Hm Hs Hb. apply read_framed; [done..| |done|by left].
  unfold WASIX_WORKER_MAX_RESTORE_OUTPUT_BYTES, u32_max in *. lia.
Qed.

(** The parent's side of the exchange, given what an honest worker writes. *)
Lemma restore_exchange_honest w groups e module journal r iso mm jm f1 f2 rest :
  message (worker_metadata_current iso (wp_build_sha256 w) (wp_process_id w)) f1 → Isolated iso groups →
  message {| ra_module_bytes := sw_bytes mm; ra_module_sha256 := sw_sha256 mm;
             ra_journal_bytes := sw_bytes jm; ra_journal_sha256 := sw_sha256 jm |} f2 →
  er_module_bytes e = sw_bytes mm → er_module_sha256 e = sw_sha256 mm →
  er_journal_bytes e = sw_bytes jm → er_journal_sha256 e = sw_sha256 jm →
  steady r → reader_bytes r = framed f1 ++ framed f2 ++ rest →
  ∃ m ack r', restore_exchange w groups e (Some module) (Some journal) r {| sent := []; faults := [] |}
    = ({| sent := restore_ops module journal; faults := [] |}, Ok (m, ack, r'))
    ∧ steady r' ∧ reader_bytes r' = rest.
Proof using JLM JLA JNM JNA Halloc.
  intros Hm1 Hiso Hm2 E1 E2 E3 E4 Hs Hb.
  destruct (read_message JMeta _ _ _ _ Hm1 Hs Hb) as (r1 & Hr1 & Hf1 & Hs1 & Hb1).
  destruct (read_message JRA _ _ _ _ Hm2 Hs1 Hb1) as (r2 & Hr2 & Hf2 & Hs2 & Hb2).
  do 3 eexists. split_and!; [|exact Hs2|exact Hb2]. unfold restore_exchange, read_ready.
  rewrite Hr1. cbn [mbind result_bind]. rewrite Hf1. cbn [map_err mbind result_bind].
  rewrite (proj2 (worker_metadata_validate_iff _ _ _ _)) by by split_and!.
  cbn [mbind result_bind map_err try_control control_do faults sent app io_bind].
  rewrite Hr2. cbn [mbind result_bind]. rewrite Hf2. cbn [map_err mbind result_bind].
  unfold restore_ack_validate. cbn [ra_module_bytes ra_module_sha256 ra_journal_bytes ra_journal_sha256].
  rewrite E1, E2, E3, E4, !Z.eqb_refl, !bool_decide_true by done. done.
Qed.

(** Restore completes end to end, for any guest execution that reports success
    only with exit code zero: when the worker program succeeds on what the parent
    sends, the parent accepts it and returns exactly the restored output. *)
Lemma restore_completes w st groups r i env iso execute module journal bytes u :
  wp_active w = true → ri_open i = true → ri_control i = {| sent := []; faults := [] |} →
  ri_module i = Some module → ri_journal i = Some journal →
  er_module_bytes (ri_expected i) = blen (sf_bytes module) →
  er_module_sha256 (ri_expected i) = sha256_hex (sf_bytes module) →
  er_journal_bytes (ri_expected i) = blen (sf_bytes journal) →
  er_journal_sha256 (ri_expected i) = sha256_hex (sf_bytes journal) →
  we_build env = Ok (wp_build_sha256 w) → we_process_id env = wp_process_id w →
  we_isolation env = Ok iso → Isolated iso groups →
  (∀ x, execute module (blen (sf_bytes module)) journal = Ok x → xr_exit_code x = 0) →
  write_wasix_checkpoint_restore env execute (restore_ops module journal) [] = (bytes, Ok u) →
  steady r → reader_bytes r = bytes → success st = true →
  ∃ x w' i' m,
    execute module (blen (sf_bytes module)) journal = Ok x
    ∧ perform_checkpoint_restore w (Ok st) groups r i = (w', i', Ok m)
    ∧ rm_stdout m = xr_stdout x ∧ rm_stderr m = xr_stderr x
    ∧ sent (ri_control i') = restore_ops module journal ∧ gone w'.
Proof using JLM JLA JLC JNM JNA JNC Halloc CL.
  intros Hact Hopen Hctl Hmod Hjnl E1 E2 E3 E4 Hbuild Hpid Hi Hiso Hexit Hw Hs Hb Hst.
  apply worker_restore_inv in Hw as
    (build & iso' & mm & jm & x & f1 & f2 & f3 & Hb' & Hi' & Hmm & Hjm & Hx & Hm1 & Hm2 & Hm3 & -> & Ho & He).
  rewrite Hbuild in Hb'. rewrite Hi in Hi'. simplify_eq. rewrite Hpid in Hm1.
  apply inspect_Ok in Hmm as (Em1 & Em2 & _). apply inspect_Ok in Hjm as (Ej1 & Ej2 & _).
  destruct (restore_exchange_honest w groups (ri_expected i) module journal r iso' mm jm f1 f2
     (framed f3 ++ framed (xr_stdout x) ++ framed (xr_stderr x))) as (m & ack & r2 & Hex & Hs2 & Hb2);
    [done|done|done|congruence..|done|done|].
  destruct (read_message JRC _ _ _ _ Hm3 Hs2 Hb2) as (r3 & Hr3 & Hf3 & Hs3 & Hb3).
  destruct (read_output r3 "stdout" _ _ Ho Hs3 Hb3) as (r4 & Hr4 & Hs4 & Hb4).
  rewrite <- (app_nil_r (framed (xr_stderr x))) in Hb4.
  destruct (read_output r4 "stderr" _ _ He Hs4 Hb4) as (r5 & Hr5 & Hs5 & Hb5).
  rewrite Em1 in Hx.
  do 4 eexists. split; [exact Hx|]. unfold perform_checkpoint_restore, prepare_checkpoint_restore.
  rewrite Hopen, Hctl, Hmod, Hjnl, Hex. cbn [set_ri_control ri_take].
  unfold collect_checkpoint_restore_output. rewrite Hr3. cbn [map_err mbind result_bind].
  rewrite Hf3. cbn [map_err mbind result_bind]. rewrite Hr4. cbn [map_err mbind result_bind].
  rewrite Hr5. cbn [map_err mbind result_bind].
  rewrite completion_ok;
    [|by apply Hexit|unfold WASIX_WORKER_MAX_RESTORE_OUTPUT_BYTES, u64_max in *; lia..].
  cbn [map_err mbind result_bind]. unfold finish_worker_output. rewrite read_one_end, Hst by done.
  cbn [negb reject_if map_err mbind result_bind]. split_and!; [reflexivity|done|done|done|..];
    unfold kill_tree; cbn; rewrite Hact; done.
Qed.
End end_to_end.

(** ** Concrete instances *)

Module WorkerExample.
Import Toy CheckpointExample WorkerMessagesExample.

Definition of_bool (b : bool) : string := if b then "1" else "0".
Definition to_bool (s : string) : bool := bool_decide (s = "1").
Lemma to_of_bool b : to_bool (of_bool b) = b.
Proof. by destruct b. Qed.

Definition enc_ids (i : Ids) : list string :=
  [of_z (real_id i); of_z (effective_id i); of_z (saved_id i); of_z (filesystem_id i)].
Definition dec_ids (l : list string) : option Ids :=
  match l with
  | [a; b; c; d] => Some {| real_id := to_z a; effective_id := to_z b; saved_id := to_z c; filesystem_id := to_z d |}
  | _ => None
  end.
Lemma dec_enc_ids i : dec_ids (enc_ids i) = Some i.
Proof. destruct i. unfold dec_ids, enc_ids. cbn -[of_z to_z]. by rewrite !to_of_z. Qed.
Lemma to_of_zs (l : list Z) : to_z <$> (of_z <$> l) = l.
Proof. induction l as [|z l IH]; [done|]. cbn -[to_z of_z]. by rewrite to_of_z, IH. Qed.

Definition enc_ready (m : WasixWorkerMetadata) : list (list string) :=
  let i := isolation m in
  [[of_z (protocol_version m); runtime_version m; cohort_id m; metadata_build_sha256 m; of_z (process_id m)];
   [of_z (profile_version i); of_bool (has_root_supplementary_group i); of_bool (no_new_privileges i);
    of_bool (dumpable i); of_z (core_file_limits i).1; of_z (core_file_limits i).2;
    of_z (file_size_limits i).1; of_z (file_size_limits i).2; of_z (address_space_limits i).1;
    of_z (address_space_limits i).2; of_z (open_file_limits i).1; of_z (open_file_limits i).2;
    of_z (closed_inherited_descriptor_count i)];
   enc_ids (user_ids i); enc_ids (group_ids i); of_z <$> supplementary_group_ids i; of_z <$> capability_masks i].
Definition dec_ready (l : list (list string)) : option WasixWorkerMetadata :=
  match l with
  | [[pv; rv; ci; mb; pid]; [fv; hr; nn; du; c1; c2; f1; f2; a1; a2; o1; o2; cc]; us; gs; sg; cm] =>
      u ← dec_ids us; g ← dec_ids gs;
      Some {| protocol_version := to_z pv; runtime_version := rv; cohort_id := ci; metadata_build_sha256 := mb;
              process_id := to_z pid;
              isolation := {|
                profile_version := to_z fv; user_ids := u; group_ids := g;
                supplementary_group_ids := to_z <$> sg; has_root_supplementary_group := to_bool hr;
                no_new_privileges := to_bool nn; dumpable := to_bool du; capability_masks := to_z <$> cm;
                core_file_limits := (to_z c1, to_z c2); file_size_limits := (to_z f1, to_z f2);
                address_space_limits := (to_z a1, to_z a2); open_file_limits := (to_z o1, to_z o2);
                closed_inherited_descriptor_count := to_z cc |} |}
  | _ => None
  end.
#[export] Instance ready_json : Json WasixWorkerMetadata := json enc_ready dec_ready.
#[export] Instance ready_json_laws : JsonLaws ready_json.
Proof.
  apply json_laws. intros [? ? ? ? ? [? ? ? ? ? ? ? ? [] [] [] [] ?]].
  unfold enc_ready, dec_ready. cbn -[of_z to_z of_bool to_bool enc_ids dec_ids].
  by rewrite !dec_enc_ids; cbn -[of_z to_z of_bool to_bool enc_ids dec_ids]; rewrite !to_of_z, !to_of_bool, !to_of_zs.
Qed.
#[export] Instance ready_json_nonempty : JsonNonEmpty ready_json.
Proof. by apply json_nonempty. Qed.

Definition enc_ack (a : WasixCheckpointRestoreAck) : list (list string) :=
  [[of_z (ra_module_bytes a); ra_module_sha256 a; of_z (ra_journal_bytes a); ra_journal_sha256 a]].
Definition dec_ack (l : list (list string)) : option WasixCheckpointRestoreAck :=
  match l with
  | [[a; b; c; d]] => Some {| ra_module_bytes := to_z a; ra_module_sha256 := b; ra_journal_bytes := to_z c; ra_journal_sha256 := d |}
  | _ => None
  end.
#[export] Instance ack_json : Json WasixCheckpointRestoreAck := json enc_ack dec_ack.
#[export] Instance ack_json_laws : JsonLaws ack_json.
Proof. apply json_laws. intros []. cbn -[of_z to_z]. by rewrite !to_of_z. Qed.
#[export] Instance ack_json_nonempty : JsonNonEmpty ack_json.
Proof. by apply json_nonempty. Qed.

Definition enc_done (c : WasixCheckpointRestoreCompletion) : list (list string) :=
  [[of_z (rc_exit_code c); of_z (rc_stdout_bytes c); rc_stdout_sha256 c; of_z (rc_stderr_bytes c); rc_stderr_sha256 c]].
Definition dec_done (l : list (list string)) : option WasixCheckpointRestoreCompletion :=
  match l with
  | [[e; a; b; c; d]] => Some {| rc_exit_code := to_z e; rc_stdout_bytes := to_z a; rc_stdout_sha256 := b;
                                 rc_stderr_bytes := to_z c; rc_stderr_sha256 := d |}
  | _ => None
  end.
#[export] Instance done_json : Json WasixCheckpointRestoreCompletion := json enc_done dec_done.
#[export] Instance done_json_laws : JsonLaws done_json.
Proof. apply json_laws. intros []. cbn -[of_z to_z]. by rewrite !to_of_z. Qed.
#[export] Instance done_json_nonempty : JsonNonEmpty done_json.
Proof. by apply json_nonempty. Qed.

(** A kernel that always succeeds and reads three bytes at a time. *)
Definition memfd : MemFd := {|
  memfd_create := Ok tt; memfd_write _ := Ok tt; memfd_rewind := Ok tt; memfd_add_seals := Ok tt;
  memfd_get_seals := Ok true; memfd_fstat b := Ok (true, 0, blen b) |}.
Definition fd_ops : FdOps := {| fd_seals_error := None; fd_stat_error := None; fd_pread _ _ := Ok 3 |}.
Definition sealed (b : list byte) : PreparedInput :=
  {| pi_file := {| sf_bytes := b; sf_sealed := true; sf_regular := true; sf_nlink := 0 |};
     pi_bytes := blen b; pi_sha256 := sha256_hex b |}.
Definition a_journal : list byte := str_bytes "journal".
Definition a_module : list byte := str_bytes "module".

Lemma sealed_transfer_agrees_witness :
  inspect_sealed_worker_input (pi_file (sealed a_journal)) fd_ops 100 "checkpoint"
  = Some (Ok {| sw_bytes := 7; sw_sha256 := sha256_hex a_journal |}).
Proof.
  refine (proj2 (sealed_transfer_agrees memfd (λ _, false) a_journal (sealed a_journal) fd_ops 100 "checkpoint" _)
            _ _ _ _ _); try done; [|by vm_compute..].
  intros offset n. exists 3. split; [done|lia].
Defined.

Definition worker : WorkerProcess := worker_process_new 42 "b1".
Definition input : CheckpointRestoreInput := {|
  ri_control := {| sent := []; faults := [] |}; ri_open := true;
  ri_module := Some (pi_file (sealed a_module)); ri_journal := Some (pi_file (sealed a_journal));
  ri_expected := {| er_binding := binding; er_module_bytes := blen a_module; er_module_sha256 := sha256_hex a_module;
                    er_journal_bytes := blen a_journal; er_journal_sha256 := sha256_hex a_journal |} |}.
Definition env : WorkerEnv := {|
  we_build := Ok "b1"; we_isolation := Ok isolated; we_process_id := 42; we_module_ops := fd_ops;
  we_journal_ops := fd_ops; we_clear_stdin := Ok tt |}.
Definition execute (m : SealedFile) (n : Z) (j : SealedFile) : result string ExecutedCheckpointRestore :=
  Ok {| xr_exit_code := 0; xr_stdout := sf_bytes m ++ sf_bytes j; xr_stderr := [] |}.
Definition output : list byte :=
  Eval vm_compute in
    (write_wasix_checkpoint_restore env execute
       (restore_ops (pi_file (sealed a_module)) (pi_file (sealed a_journal))) []).1.
Definition exited : ExitStatus := {| status_code := Some 0; status_signal := None; status_display := "exit status: 0" |}.
(** The output arriving in two pieces. *)
Definition delivery : reader := [Chunk (take 9 output); Chunk (drop 9 output)].

(** The completed restore was authorized, so the worker had acknowledged it. *)
Definition completed := perform_checkpoint_restore worker (Ok exited) [7; 9] delivery input.

Lemma restore_authorization_guarded_witness :
  Bytes ["E"%byte] ∈ sent (ri_control completed.1.2)
  ∧ ∃ r1 frame r2 ack,
      ReadyFrom worker [7; 9] delivery r1 ∧ read_frame r1 = Ok (frame, r2) ∧ from_slice frame = Ok ack
      ∧ ack = {| ra_module_bytes := 6; ra_module_sha256 := sha256_hex a_module;
                 ra_journal_bytes := 7; ra_journal_sha256 := sha256_hex a_journal |}.
Proof.
  assert (Bytes ["E"%byte] ∈ sent (ri_control completed.1.2)) as HE.
  { replace (sent (ri_control completed.1.2))
      with (restore_ops (pi_file (sealed a_module)) (pi_file (sealed a_journal))) by (vm_compute; reflexivity).
    unfold restore_ops. set_solver. }
  split; [exact HE|].
  refine (proj2 (restore_authorization_guarded worker (Ok exited) [7; 9] delivery input
            completed.1.1 completed.1.2 completed.2 _ _) HE); [reflexivity|].
  rewrite <- !surjective_pairing. reflexivity.
Defined.
End WorkerExample.
