(* ===== verification/Redaction.v ===== *)
(** What the library prints about itself: the hand-written [Debug]
    implementations of [src/src/error.rs], [cache.rs], [checkpoint.rs],
    [runtime.rs], [http.rs] and [wasix_worker.rs], and the derived ones of the
    types that contain them.  A [Formatter] is given a tree of names and values
    and lays it out in its plain or its alternate form; the model is the tree.
    Theorem: keys, guest journals, guest output and worker diagnostics never
    enter it, only the lengths of the latter. *)
From S2P Require Import Prelude Errors Interfaces Streams Types CheckpointCodec MemoryCache DiskCache Runtime.
From S2P Require Import Http HttpService Pause WorkerMessages WorkerProtocol.

Local Open Scope Z_scope.

(** [Derived x]: the derived implementation of a type without hidden parts. *)
Inductive debug : Type :=
| Written (text : string)
| Derived {A : Type} (value : A)
| Optional (value : option debug)
| Tuple (name : string) (fields : list debug)
| Struct (name : string) (fields : list (string * debug)) (exhaustive : bool).

Class Debug (A : Type) := fmt : A → debug.

Definition length_of (b : list byte) : debug := Derived (blen b).

(** ** Keys and the configurations that hold them *)

Definition aot_key_fmt (key : list byte) : debug := Written "AotAuthenticationKey([REDACTED])".
Definition checkpoint_key_fmt (key : list byte) : debug := Written "CheckpointAuthenticationKey([REDACTED])".

Definition codec_fmt : Debug WasixCheckpointCodec := λ c,
  Struct "WasixCheckpointCodec"
    [("authentication_key", checkpoint_key_fmt (authentication_key c));
     ("max_journal_bytes", Derived (max_journal_bytes c))] true.
#[global] Existing Instance codec_fmt.
Definition disk_config_fmt : Debug DiskCacheConfig := λ c,
  Struct "DiskCacheConfig"
    [("root", Derived (root c)); ("authentication_key", aot_key_fmt (disk_authentication_key c));
     ("max_entry_bytes", Derived (max_entry_bytes c))] true.
#[global] Existing Instance disk_config_fmt.
Definition runtime_config_fmt : Debug RuntimeConfig := λ c,
  Struct "RuntimeConfig"
    [("max_warm_components", Derived (max_warm_components c)); ("max_warmish_entries", Derived (max_warmish_entries c));
     ("max_warmish_bytes", Derived (config_max_warmish_bytes c)); ("background_workers", Derived (background_workers c));
     ("paused_resident_ttl", Derived (paused_resident_ttl c)); ("epoch_interval", Derived (epoch_interval c));
     ("disk_cache", Optional (fmt <$> disk_cache c)); ("limits", Derived (limits c))] true.
#[global] Existing Instance runtime_config_fmt.

(** ** Errors *)

Definition diagnostics_fmt : Debug WasixWorkerDiagnostics := λ d,
  Struct "WasixWorkerDiagnostics"
    [("bytes", length_of (diagnostic_bytes d)); ("truncated", Derived (truncated d))] true.
#[global] Existing Instance diagnostics_fmt.
Definition restore_failure_fmt : Debug WasixCheckpointRestoreFailure := λ f,
  Struct "WasixCheckpointRestoreFailure"
    [("phase", Derived (rf_phase f)); ("reason", Derived (rf_reason f)); ("diagnostics", fmt (rf_diagnostics f));
     ("exit_code", Derived (rf_exit_code f)); ("exit_signal", Derived (rf_exit_signal f))] true.
#[global] Existing Instance restore_failure_fmt.
Definition capture_failure_fmt : Debug WasixCheckpointCaptureFailure := λ f,
  Struct "WasixCheckpointCaptureFailure"
    [("phase", Derived (cf_phase f)); ("reason", Derived (cf_reason f)); ("diagnostics", fmt (cf_diagnostics f));
     ("exit_code", Derived (cf_exit_code f)); ("exit_signal", Derived (cf_exit_signal f))] true.
#[global] Existing Instance capture_failure_fmt.
Definition error_fmt : Debug Error := λ e,
  match e with
  | Configuration m => Tuple "Configuration" [Derived m]
  | Io m => Tuple "Io" [Derived m]
  | Preparation m => Tuple "Preparation" [Derived m]
  | UnsupportedComponent m => Tuple "UnsupportedComponent" [Derived m]
  | Execution m => Tuple "Execution" [Derived m]
  | Limit m => Tuple "Limit" [Derived m]
  | Cancelled => Written "Cancelled"
  | IdleEvicted => Written "IdleEvicted"
  | InvalidState m => Tuple "InvalidState" [Derived m]
  | Timeout => Written "Timeout"
  | Cache m => Tuple "Cache" [Derived m]
  | Checkpoint m => Tuple "Checkpoint" [Derived m]
  | CheckpointRestore f => Tuple "CheckpointRestore" [fmt f]
  | CheckpointCapture f => Tuple "CheckpointCapture" [fmt f]
  end.
#[global] Existing Instance error_fmt.

(** ** Checkpoints *)

Definition captured_fmt : Debug CapturedWasixJournal := λ j,
  Struct "CapturedWasixJournal"
    [("bytes", length_of (captured_bytes j)); ("binding", Derived (captured_binding j));
     ("worker_build_sha256", Derived (captured_worker_build_sha256 j));
     ("explicit_snapshot", Derived (explicit_snapshot j))] true.
#[global] Existing Instance captured_fmt.
(** [self.journal.len()] of a range. *)
Definition range_len (r : Z * Z) : Z := saturating_sub r.2 r.1.
Definition verified_fmt : Debug VerifiedWasixCheckpoint := λ v,
  Struct "VerifiedWasixCheckpoint"
    [("binding", Derived (verified_binding v)); ("backing_bytes", length_of (verified_bytes v));
     ("journal_bytes", Derived (range_len (verified_range v)));
     ("artifact_sha256", Derived (verified_artifact_sha256 v));
     ("worker_build_sha256", Derived (verified_worker_build_sha256 v))] true.
#[global] Existing Instance verified_fmt.
Definition view_fmt : Debug VerifiedWasixCheckpointView := λ v,
  Struct "VerifiedWasixCheckpointView"
    [("binding", Derived (view_binding v)); ("journal_bytes", length_of (view_journal v));
     ("artifact_sha256", Derived (view_artifact_sha256 v));
     ("worker_build_sha256", Derived (view_worker_build_sha256 v))] true.
#[global] Existing Instance view_fmt.

(** ** The worker *)

Definition worker_config_fmt : Debug WasixWorkerConfig := λ c,
  Struct "WasixWorkerConfig"
    [("executable", Derived (executable c)); ("handshake_timeout", Derived (handshake_timeout c));
     ("allowed_supplementary_groups", Derived (allowed_supplementary_groups c));
     ("placement_configured", Derived (bool_decide (is_Some (placement c))))] true.
#[global] Existing Instance worker_config_fmt.
Definition restore_metadata_fmt : Debug WasixCheckpointRestoreMetadata := λ m,
  Struct "WasixCheckpointRestoreMetadata"
    [("worker", Derived (rm_worker m)); ("binding", Derived (rm_binding m));
     ("stdout_bytes", length_of (rm_stdout m)); ("stderr_bytes", length_of (rm_stderr m));
     ("worker_diagnostics", fmt (rm_diagnostics m));
     ("module_sha256", Derived (rm_module_sha256 m)); ("journal_sha256", Derived (rm_journal_sha256 m))] true.
#[global] Existing Instance restore_metadata_fmt.
Definition capture_metadata_fmt : Debug WasixCheckpointCapture := λ m,
  Struct "WasixCheckpointCapture"
    [("worker", Derived (cm_worker m)); ("binding", Derived (cm_binding m));
     ("stdout_bytes", length_of (cm_stdout m)); ("stderr_bytes", length_of (cm_stderr m));
     ("module_sha256", Derived (cm_module_sha256 m)); ("journal_sha256", Derived (cm_journal_sha256 m));
     ("journal", fmt (cm_journal m))] true.
#[global] Existing Instance capture_metadata_fmt.

(** ** Handles: printing reads their state *)

Definition runtime_fmt : debug := Struct "Runtime" [] false.
(** [tier] looks the package up, which counts as a use in the memory cache. *)
Definition program_fmt {C} `{Crypto} `{Host} {JI : Json CacheIdentity} {JM : Json CacheMetadata}
    (p : Program) (s : RuntimeInner C) : RuntimeInner C * debug :=
  let '(s, t) := tier (program_digest p) s in
  (s, Struct "Program" [("digest", Derived (program_digest p)); ("tier", Derived t)] false).
Definition running_fmt (finished : bool) (s : PauseState) : debug :=
  Struct "RunningCommand" [("state", Derived (running_state finished s))] false.
Definition body_fmt : Debug StreamingHttpBody := λ b,
  Struct "StreamingHttpBody" [("metadata", Derived (metadata b))] false.
#[global] Existing Instance body_fmt.
Definition service_fmt {C P} (profile : WasiProfile) (s : @Shared C P) : debug :=
  Struct "HttpService"
    [("profile", Derived profile); ("state", Derived (service_state s)); ("metrics", Derived (metrics s))] false.

(** ** Nothing hidden is printed *)

(** The same number of zeros. *)
Definition blank (b : list byte) : list byte := repeat x00 (length b).
Lemma blen_blank b : blen (blank b) = blen b.
Proof. unfold blen, blank. by rewrite repeat_length. Qed.
Lemma length_of_blank b : length_of (blank b) = length_of b.
Proof. unfold length_of. by rewrite blen_blank. Qed.

(** [blanked x] is [x] with every hidden byte string blanked; keys are replaced
    altogether. *)
Class Redacted (A : Type) {D : Debug A} := {
  blanked : A → A;
  fmt_blanked x : fmt (blanked x) = fmt x;
}.

Lemma redacted_noninterference {A} `{Redacted A} (x y : A) : blanked x = blanked y → fmt x = fmt y.
Proof. intros Hb. rewrite <- (fmt_blanked x), <- (fmt_blanked y). by rewrite Hb. Qed.

Local Tactic Notation "redacted" reference(inst) := intros []; unfold fmt, inst; cbn -[length_of blank]; by rewrite ?length_of_blank.

#[global, refine] Instance codec_redacted : Redacted WasixCheckpointCodec := {|
  blanked c := {| authentication_key := []; max_journal_bytes := max_journal_bytes c |} |}.
Proof. done. Defined.
#[global, refine] Instance disk_config_redacted : Redacted DiskCacheConfig := {|
  blanked c := {| root := root c; disk_authentication_key := []; max_entry_bytes := max_entry_bytes c |} |}.
Proof. done. Defined.
#[global, refine] Instance runtime_config_redacted : Redacted RuntimeConfig := {|
  blanked c := {| max_warm_components := max_warm_components c; max_warmish_entries := max_warmish_entries c;
    config_max_warmish_bytes := config_max_warmish_bytes c; background_workers := background_workers c;
    paused_resident_ttl := paused_resident_ttl c; epoch_interval := epoch_interval c;
    disk_cache := blanked <$> disk_cache c; limits := limits c |} |}.
Proof. intros c. unfold fmt, runtime_config_fmt. cbn. by destruct (disk_cache c). Defined.
#[global, refine] Instance diagnostics_redacted : Redacted WasixWorkerDiagnostics := {|
  blanked d := {| diagnostic_bytes := blank (diagnostic_bytes d); truncated := truncated d |} |}.
Proof. redacted diagnostics_fmt. Defined.
#[global, refine] Instance restore_failure_redacted : Redacted WasixCheckpointRestoreFailure := {|
  blanked f := {| rf_phase := rf_phase f; rf_reason := rf_reason f; rf_diagnostics := blanked (rf_diagnostics f);
    rf_exit_code := rf_exit_code f; rf_exit_signal := rf_exit_signal f |} |}.
Proof. intros f. unfold fmt, restore_failure_fmt. cbn [rf_diagnostics]. by rewrite fmt_blanked. Defined.
#[global, refine] Instance capture_failure_redacted : Redacted WasixCheckpointCaptureFailure := {|
  blanked f := {| cf_phase := cf_phase f; cf_reason := cf_reason f; cf_diagnostics := blanked (cf_diagnostics f);
    cf_exit_code := cf_exit_code f; cf_exit_signal := cf_exit_signal f |} |}.
Proof. intros f. unfold fmt, capture_failure_fmt. cbn [cf_diagnostics]. by rewrite fmt_blanked. Defined.
Definition error_blanked (e : Error) : Error :=
  match e with
  | CheckpointRestore f => CheckpointRestore (blanked f)
  | CheckpointCapture f => CheckpointCapture (blanked f)
  | _ => e
  end.
#[global, refine] Instance error_redacted : Redacted Error := {| blanked := error_blanked |}.
Proof. intros []; try done; unfold fmt, error_fmt; cbn [error_blanked]; by rewrite fmt_blanked. Defined.
#[global, refine] Instance captured_redacted : Redacted CapturedWasixJournal := {|
  blanked j := {| captured_bytes := blank (captured_bytes j); captured_binding := captured_binding j;
    captured_worker_build_sha256 := captured_worker_build_sha256 j; explicit_snapshot := explicit_snapshot j |} |}.
Proof. redacted captured_fmt. Defined.
#[global, refine] Instance verified_redacted : Redacted VerifiedWasixCheckpoint := {|
  blanked v := {| verified_binding := verified_binding v; verified_bytes := blank (verified_bytes v);
    verified_range := verified_range v; verified_artifact_sha256 := verified_artifact_sha256 v;
    verified_worker_build_sha256 := verified_worker_build_sha256 v |} |}.
Proof. redacted verified_fmt. Defined.
#[global, refine] Instance view_redacted : Redacted VerifiedWasixCheckpointView := {|
  blanked v := {| view_binding := view_binding v; view_journal := blank (view_journal v);
    view_artifact_sha256 := view_artifact_sha256 v; view_worker_build_sha256 := view_worker_build_sha256 v |} |}.
Proof. redacted view_fmt. Defined.
#[global, refine] Instance restore_metadata_redacted : Redacted WasixCheckpointRestoreMetadata := {|
  blanked m := {| rm_worker := rm_worker m; rm_binding := rm_binding m; rm_stdout := blank (rm_stdout m);
    rm_stderr := blank (rm_stderr m); rm_diagnostics := blanked (rm_diagnostics m);
    rm_module_sha256 := rm_module_sha256 m; rm_journal_sha256 := rm_journal_sha256 m |} |}.
Proof.
  intros m. unfold fmt, restore_metadata_fmt. cbn [rm_worker rm_binding rm_stdout rm_stderr rm_diagnostics
    rm_module_sha256 rm_journal_sha256]. by rewrite !length_of_blank, fmt_blanked.
Defined.
#[global, refine] Instance capture_metadata_redacted : Redacted WasixCheckpointCapture := {|
  blanked m := {| cm_worker := cm_worker m; cm_binding := cm_binding m; cm_stdout := blank (cm_stdout m);
    cm_stderr := blank (cm_stderr m); cm_module_sha256 := cm_module_sha256 m;
    cm_journal_sha256 := cm_journal_sha256 m; cm_journal := blanked (cm_journal m) |} |}.
Proof.
  intros m. unfold fmt, capture_metadata_fmt. cbn [cm_worker cm_binding cm_stdout cm_stderr cm_module_sha256
    cm_journal_sha256 cm_journal]. by rewrite !length_of_blank, fmt_blanked.
Defined.

(** No hidden byte influences what is printed: two configurations, errors,
    captures, checkpoints or results that differ only in keys, or in the content
    of journals, outputs and diagnostics of the same lengths, print alike. *)
Theorem debug_redacts :
  (∀ x y : RuntimeConfig, blanked x = blanked y → fmt x = fmt y) ∧
  (∀ x y : WasixCheckpointCodec, blanked x = blanked y → fmt x = fmt y) ∧
  (∀ x y : Error, blanked x = blanked y → fmt x = fmt y) ∧
  (∀ x y : CapturedWasixJournal, blanked x = blanked y → fmt x = fmt y) ∧
  (∀ x y : VerifiedWasixCheckpoint, blanked x = blanked y → fmt x = fmt y) ∧
  (∀ x y : VerifiedWasixCheckpointView, blanked x = blanked y → fmt x = fmt y) ∧
  (∀ x y : WasixCheckpointRestoreMetadata, blanked x = blanked y → fmt x = fmt y) ∧
  (∀ x y : WasixCheckpointCapture, blanked x = blanked y → fmt x = fmt y).
Proof. split_and!; intros; by apply redacted_noninterference. Qed.

Module RedactionExample.
Import Toy.
Definition hidden (b : list byte) : CapturedWasixJournal :=
  {| captured_bytes := b;
     captured_binding := {| binding_environment_id := "e"; binding_module_sha256 := "m"; binding_command := "_start";
                            binding_instance_id := "i"; binding_generation := 1 |};
     captured_worker_build_sha256 := "w"; explicit_snapshot := true |}.
Example journals_print_alike : fmt (hidden (str_bytes "secret")) = fmt (hidden (str_bytes "public")).
Proof. apply debug_redacts. reflexivity. Qed.
End RedactionExample.
