(* ===== verification/CheckpointTests.v ===== *)
(** The unit tests of [src/src/checkpoint.rs], run on the model: every test
    function is a proposition, its assertions on the results of the model's
    operations, and is proved by computing them.  Hashing and authentication
    are a checksum that notices every change the tests make; metadata is the
    codec of [CheckpointExample], which like [serde_json] ignores spaces after
    the text.  Assertions about addresses of allocations have no counterpart. *)
From S2P Require Import Prelude Errors Interfaces Streams Types CheckpointCodec MemoryCache DiskCache Runtime.
From S2P Require Import Http HttpService Pause WorkerMessages WorkerProtocol Redaction.

Local Open Scope Z_scope.

Import CheckpointExample.

Definition checksum (seed : Z) (l : list byte) : Z :=
  foldl (λ acc b, Z.land (acc + Z.shiftl acc 4 + byte_val b + 1) 1048575) seed l.
#[export] Instance checksums : Crypto := {|
  sha256 b := be_bytes 32 (checksum 1 b);
  hmac_sha256 k m := be_bytes 32 (checksum (checksum 2 k) m);
  hmac_accepts_key _ := true;
  hex_encode := @hex_encode Toy.crypto;
  hex_decode := @hex_decode Toy.crypto;
|}.

(** [serde_json::from_slice] accepts white space after the value. *)
Fixpoint strip_spaces (l : list byte) : list byte :=
  match l with
  | [] => []
  | b :: l' => match strip_spaces l' with
               | [] => if bool_decide (b = " "%byte) then [] else [b]
               | r => b :: r
               end
  end.
#[export] Instance spaced_json : Json CheckpointMetadata := {|
  to_vec := to_vec (Json := metadata_json);
  from_slice b := from_slice (Json := metadata_json) (strip_spaces b);
|}.

(** ** Helpers of the tests *)

Definition push_record (record_type : Z) (body : list byte) (journal : list byte) : list byte :=
  journal ++ be_bytes 2 record_type ++ drop 2 (be_bytes 8 (blen body)) ++ body.
Definition valid_journal : list byte :=
  push_record JOURNAL_SNAPSHOT_V1 [x00] (push_record 60 [] (push_record 3 [x00] (push_record 1 [x00] JOURNAL_MAGIC))).
Definition journal_with_len (length : Z) : list byte :=
  push_record JOURNAL_SNAPSHOT_V1 [x00]
    (push_record 60 [] (push_record 3 [x00] (push_record 1 (replicate (Z.to_nat (length - 42)) x00) JOURNAL_MAGIC))).
Definition repeated (c : string) : string := String.concat EmptyString (repeat c 64).
Definition worker_build_sha256 : string := repeated "4".
Definition unwrap {A} (d : A) (r : Result A) : A := match r with Ok a => a | Err _ => d end.
Definition test_binding : WasixCheckpointBinding :=
  unwrap binding (binding_new ("sha256:" +:+ repeated "1") (repeated "2") "_start" "instance-1" 1).
Definition test_codec : WasixCheckpointCodec := with_max_journal_bytes 1024 (codec_new (replicate 32 x07)).
Definition captured (bytes : list byte) : CapturedWasixJournal :=
  {| captured_bytes := bytes; captured_binding := test_binding;
     captured_worker_build_sha256 := worker_build_sha256; explicit_snapshot := true |}.
Definition test_envelope (c : WasixCheckpointCodec) (metadata journal : list byte) : list byte :=
  let artifact := CHECKPOINT_MAGIC ++ be_bytes 2 CHECKPOINT_FORMAT_VERSION ++ be_bytes 4 (blen metadata)
                  ++ be_bytes 8 (blen journal) ++ metadata ++ journal in
  artifact ++ match authentication_tag c artifact with Ok mac => mac_finalize mac | Err _ => [] end.
Definition encoded (m : CheckpointMetadata) : list byte := match to_vec m with Ok b => b | Err _ => [] end.
(** [bytes[offset] ^= 1] *)
Definition flip (offset : Z) (l : list byte) : list byte :=
  alter (λ b, byte_of_Z (Z.lxor (byte_val b) 1)) (Z.to_nat offset) l.
Definition fails_with {A} (r : Result A) (message : string) : Prop := r = Err (Checkpoint message).
Definition fails_starting {A} (r : Result A) (prefix : string) : Prop :=
  match r with Err (Checkpoint m) => is_Some (strip_prefix prefix m) | _ => False end.
Definition is_err {A} (r : Result A) : Prop := is_ok r = false.
Definition is_checkpoint_err {A} (r : Result A) : Prop := match r with Err (Checkpoint _) => True | _ => False end.
Definition artifact_of (c : WasixCheckpointCodec) (journal : list byte) : list byte :=
  unwrap [] (seal c test_binding (captured journal)).

(** [FailingWriter]: accepts so many bytes and then fails. *)
Record FailingWriter := { remaining : Z }.
Definition failing_write : Write FailingWriter := λ w b,
  if blen b <=? remaining w then ({| remaining := remaining w - blen b |}, Ok tt)
  else ({| remaining := 0 |}, Err "injected write failure").
#[export] Existing Instance failing_write.
(** [FailingReader] *)
Definition failing_reader : reader := [ReadFailed "injected read failure"].
(** [ChunkedReader]: at most [maximum_read] bytes at a time into the buffers
    [open_reader] passes, first the header's, then the body's. *)
Fixpoint chunks (fuel maximum_read : nat) (l : list byte) : reader :=
  match fuel, l with
  | _, [] => []
  | O, _ => [Chunk l]
  | S fuel', _ => Chunk (take maximum_read l) :: chunks fuel' maximum_read (drop maximum_read l)
  end.
Definition chunked_reader (maximum_read : nat) (l : list byte) : reader :=
  let header := Z.to_nat CHECKPOINT_HEADER_BYTES in
  chunks (length l) maximum_read (take header l) ++ chunks (length l) maximum_read (drop header l).
(** [CountingWriter] *)
Record CountingWriter := { total_bytes : Z; largest_write : Z; writes : Z }.
Definition counting_write : Write CountingWriter := λ w b,
  (if bool_decide (b = []) then w
   else {| total_bytes := total_bytes w + blen b; largest_write := Z.max (largest_write w) (blen b);
           writes := writes w + 1 |}, Ok tt).
#[export] Existing Instance counting_write.
(** [std::io::Cursor] *)
Definition cursor (l : list byte) : reader := match l with [] => [] | _ => [Chunk l] end.

(** ** The tests *)

Definition seals_and_opens_only_attested_runtime_capture : Prop :=
  let j := captured valid_journal in
  ∃ first v,
    seal_capture test_codec j = Ok first ∧ captured_binding j = test_binding
    ∧ open test_codec test_binding first = Ok v ∧ verified_binding v = test_binding
    ∧ verified_journal v = captured_bytes j ∧ slen (verified_artifact_sha256 v) = 64
    ∧ fmt v = fmt (blanked v) ∧ fmt j = fmt (blanked j)
    ∧ checkpoint_key_fmt (replicate 32 x09) = Written "CheckpointAuthenticationKey([REDACTED])".

Definition with_module_sha256 (s : string) (b : WasixCheckpointBinding) : WasixCheckpointBinding :=
  {| binding_environment_id := binding_environment_id b; binding_module_sha256 := s;
     binding_command := binding_command b; binding_instance_id := binding_instance_id b;
     binding_generation := binding_generation b |}.
Definition refuses_capture_attestation_mismatches : Prop :=
  let j := captured valid_journal in
  let wrong_module := {| captured_bytes := captured_bytes j;
    captured_binding := with_module_sha256 (repeated "3") (captured_binding j);
    captured_worker_build_sha256 := captured_worker_build_sha256 j; explicit_snapshot := explicit_snapshot j |} in
  let implicit := {| captured_bytes := captured_bytes j; captured_binding := captured_binding j;
    captured_worker_build_sha256 := captured_worker_build_sha256 j; explicit_snapshot := false |} in
  fails_with (seal test_codec test_binding wrong_module)
    "captured journal binding does not match the checkpoint binding"
  ∧ fails_with (seal test_codec test_binding implicit) "captured journal does not match the checkpoint binding".

Definition relabeled : list (Result WasixCheckpointBinding) :=
  let b := test_binding in
  [binding_new ("sha256:" +:+ repeated "3") (binding_module_sha256 b) (binding_command b) (binding_instance_id b)
     (binding_generation b);
   binding_new (binding_environment_id b) (binding_module_sha256 b) "other-command" (binding_instance_id b)
     (binding_generation b);
   binding_new (binding_environment_id b) (binding_module_sha256 b) (binding_command b) "instance-2"
     (binding_generation b);
   binding_new (binding_environment_id b) (binding_module_sha256 b) (binding_command b) (binding_instance_id b)
     (binding_generation b + 1)].
Definition refuses_to_relabel_a_capture_with_the_same_module : Prop :=
  Forall (λ r, ∃ b, r = Ok b ∧ fails_with (seal test_codec b (captured valid_journal))
                "captured journal binding does not match the checkpoint binding") relabeled
  ∧ ∃ a v, seal_capture test_codec (captured valid_journal) = Ok a ∧ open test_codec test_binding a = Ok v
      ∧ verified_binding v = test_binding.

Definition authentication_precedes_metadata_deserialization : Prop :=
  let malformed := test_envelope test_codec (str_bytes "{") valid_journal in
  fails_starting (open test_codec test_binding malformed) "checkpoint metadata is malformed:"
  ∧ fails_with (open test_codec test_binding (flip CHECKPOINT_HEADER_BYTES malformed)) "checkpoint authentication failed".

(** The metadata with one field changed. *)
Definition changed (m : CheckpointMetadata) : list CheckpointMetadata :=
  let other s := s +:+ "-other" in
  let make rv wp ci ep pl jf ea ip st := {| md_binding := md_binding m; md_runtime_version := rv;
    md_worker_protocol_version := wp; md_cohort_id := ci; md_worker_build_sha256 := md_worker_build_sha256 m;
    md_engine_profile := ep; md_platform := pl; md_journal_format := jf; md_execution_abi := ea;
    md_isolation_policy := ip; md_snapshot_trigger := st; md_journal_sha256 := md_journal_sha256 m |} in
  let rv := md_runtime_version m in let wp := md_worker_protocol_version m in let ci := md_cohort_id m in
  let ep := md_engine_profile m in let pl := md_platform m in let jf := md_journal_format m in
  let ea := md_execution_abi m in let ip := md_isolation_policy m in let st := md_snapshot_trigger m in
  [make (other rv) wp ci ep pl jf ea ip st; make rv (wp + 1) ci ep pl jf ea ip st;
   make rv wp (other ci) ep pl jf ea ip st; make rv wp ci (other ep) pl jf ea ip st;
   make rv wp ci ep (other pl) jf ea ip st; make rv wp ci ep pl (other jf) ea ip st;
   make rv wp ci ep pl jf (other ea) ip st; make rv wp ci ep pl jf ea (other ip) st;
   make rv wp ci ep pl jf ea ip (other st)].
Definition rejects_every_authenticated_compatibility_mismatch : Prop :=
  Forall (λ m, fails_with (open test_codec test_binding (test_envelope test_codec (encoded m) valid_journal))
                 "checkpoint identity is incompatible")
    (changed (metadata_current test_binding worker_build_sha256 valid_journal)).

Definition scans_authenticated_journal_framing_before_exposure : Prop :=
  let metadata := encoded (metadata_current test_binding worker_build_sha256 JOURNAL_MAGIC) in
  fails_with (open test_codec test_binding (test_envelope test_codec metadata JOURNAL_MAGIC))
    "checkpoint journal lifecycle is incomplete".

Definition rejects_wrong_keys_mutation_and_cross_workload_restore : Prop :=
  let a := artifact_of test_codec valid_journal in
  let metadata_len := be_val (slice a 10 14) in
  fails_with (open (codec_new (replicate 32 x08)) test_binding a) "checkpoint authentication failed"
  ∧ Forall (λ offset, fails_with (open test_codec test_binding (flip offset a)) "checkpoint authentication failed")
      [22; 22 + metadata_len; blen a - 1]
  ∧ ∃ other, binding_new (binding_environment_id test_binding) (binding_module_sha256 test_binding)
               (binding_command test_binding) "instance-2" (binding_generation test_binding) = Ok other
      ∧ fails_with (open test_codec other a) "checkpoint identity is incompatible".

Definition rejects_noncanonical_bindings_and_invalid_limits : Prop :=
  let id := "sha256:" +:+ repeated "1" in
  is_err (binding_new (repeated "1") (repeated "2") "_start" "instance" 1)
  ∧ is_err (binding_new id (repeated "A") "_start" "instance" 1)
  ∧ is_err (binding_new id (repeated "2") "_start" "bad id" 1)
  ∧ is_err (binding_new id (repeated "2") "_start" "instance" 0)
  ∧ (∃ m, seal (with_max_journal_bytes 0 (codec_new (replicate 32 x07))) test_binding (captured valid_journal)
          = Err (Configuration m))
  ∧ fails_with (seal (with_max_journal_bytes (blen valid_journal - 1) test_codec) test_binding (captured valid_journal))
      "checkpoint journal exceeds the configured limit".

Definition rejects_malformed_envelope_lengths_and_trailing_bytes : Prop :=
  let a := artifact_of test_codec valid_journal in
  Forall (λ n, is_checkpoint_err (open test_codec test_binding (slice a 0 n))) [0; 21; blen a - 1]
  ∧ fails_with (open test_codec test_binding (a ++ [x00])) "checkpoint artifact length does not match its header"
  ∧ is_err (open test_codec test_binding (slice a 0 14 ++ be_bytes 8 u64_max ++ drop 22 a)).

Definition scanner_enforces_lifecycle_and_accepts_known_zero_sized_records : Prop :=
  scan_journal valid_journal = Ok tt
  ∧ is_err (scan_journal (push_record 59 [x00] (push_record 1 [x00] JOURNAL_MAGIC)))
  ∧ is_err (scan_journal (push_record 59 [x00] (push_record 3 [x00]
              (push_record 1 [x00] (push_record 1 [x00] JOURNAL_MAGIC)))))
  ∧ is_err (scan_journal (push_record 60 [] valid_journal)).

Definition streaming_seal_and_borrowed_verify_match_legacy_artifact : Prop :=
  let legacy := artifact_of test_codec valid_journal in
  seal_capture_into test_codec (captured valid_journal) ([] : list byte) = (legacy, Ok (blen legacy))
  ∧ ∃ v, verify test_codec test_binding legacy = Ok v ∧ view_binding v = test_binding
      ∧ view_journal v = captured_bytes (captured valid_journal) ∧ slen (view_artifact_sha256 v) = 64.

Definition streaming_reader_reuses_its_artifact_allocation_for_the_journal : Prop :=
  let a := artifact_of test_codec valid_journal in
  ∃ v, open_reader test_codec test_binding (chunked_reader 3 a) = Ok v
    ∧ blen (verified_bytes v) = blen a ∧ 0 < (verified_range v).1 ∧ verified_journal v = valid_journal
    ∧ into_parts v = (valid_journal, worker_build_sha256).

Definition enforces_stream_boundaries_at_zero_exact_max_over_max_and_truncation : Prop :=
  let c := with_max_journal_bytes 128 test_codec in
  let exact_journal := journal_with_len 128 in
  let text := encoded (metadata_current test_binding worker_build_sha256 exact_journal) in
  let metadata := text ++ replicate (Z.to_nat (MAX_CHECKPOINT_METADATA_BYTES - blen text)) " "%byte in
  let a := test_envelope c metadata exact_journal in
  maximum_artifact_bytes c = Ok (blen a)
  ∧ (∃ v, open_reader c test_binding (cursor a) = Ok v ∧ verified_journal v = exact_journal)
  ∧ fails_with (seal c test_binding (captured [])) "checkpoint journal must not be empty"
  ∧ fails_with (seal c test_binding (captured (journal_with_len 129))) "checkpoint journal exceeds the configured limit"
  ∧ fails_with (open_reader c test_binding (cursor [])) "checkpoint artifact is truncated"
  ∧ fails_with (open_reader c test_binding (cursor (take (length a - 1) a))) "checkpoint artifact is truncated"
  ∧ fails_with (open_reader c test_binding (cursor (a ++ [x00])))
      "checkpoint artifact exceeds the configured limit while reading".

Definition streaming_failures_report_their_io_phase : Prop :=
  fails_starting (seal_into test_codec test_binding (captured valid_journal) {| remaining := CHECKPOINT_HEADER_BYTES |}).2
    "checkpoint artifact metadata write failed:"
  ∧ fails_starting (open_reader test_codec test_binding failing_reader) "checkpoint artifact header read failed:".

Definition streaming_seal_does_not_build_an_artifact_sized_write_chunk : Prop :=
  ∃ w written,
    seal_into test_codec test_binding (captured (journal_with_len 1024)) {| total_bytes := 0; largest_write := 0; writes := 0 |}
    = (w, Ok written)
    ∧ total_bytes w = written ∧ writes w = 4 ∧ largest_write w < written.

Definition constructs_only_a_canonical_attested_worker_capture : Prop :=
  ∃ j, from_attested_worker_capture valid_journal test_binding worker_build_sha256 = Ok j
    ∧ captured_bytes j = valid_journal ∧ captured_binding j = test_binding ∧ explicit_snapshot j = true.

Definition rejects_malformed_or_noncanonical_attested_worker_capture : Prop :=
  fails_with (from_attested_worker_capture (push_record 60 [] valid_journal) test_binding worker_build_sha256)
    "checkpoint journal contains records after its snapshot"
  ∧ fails_with (from_attested_worker_capture valid_journal
                  (with_module_sha256 ("A" +:+ String.substring 1 63 (repeated "2")) test_binding) worker_build_sha256)
      "checkpoint module digest must be 64 lowercase hexadecimal characters"
  ∧ fails_with (from_attested_worker_capture valid_journal test_binding "not-a-worker-digest")
      "captured worker build digest must be 64 lowercase hexadecimal characters".

(** ** All pass *)

Local Ltac computed := vm_compute; first [reflexivity | discriminate | exact I | by eexists].
Local Ltac passes :=
  cbv beta zeta;
  lazymatch goal with
  | |- _ ∧ _ => split; [passes|passes]
  | |- ex _ => eexists; passes
  | |- Forall _ [] => constructor
  | |- Forall _ (_ :: _) => apply Forall_cons; split; [passes|passes]
  | |- _ => computed
  end.
Local Tactic Notation "run" reference(test) := unfold test; passes.

Lemma seals_and_opens_only_attested_runtime_capture_passes : seals_and_opens_only_attested_runtime_capture.
Proof. unfold seals_and_opens_only_attested_runtime_capture. cbv zeta.
  eexists _, _. do 6 (split; [computed|]). split; [|split; [|reflexivity]]; symmetry; apply fmt_blanked. Qed.
Lemma refuses_capture_attestation_mismatches_passes : refuses_capture_attestation_mismatches.
Proof. run refuses_capture_attestation_mismatches. Qed.
Lemma refuses_to_relabel_a_capture_with_the_same_module_passes : refuses_to_relabel_a_capture_with_the_same_module.
Proof. unfold refuses_to_relabel_a_capture_with_the_same_module, relabeled. passes. Qed.
Lemma authentication_precedes_metadata_deserialization_passes : authentication_precedes_metadata_deserialization.
Proof. run authentication_precedes_metadata_deserialization. Qed.
Lemma rejects_every_authenticated_compatibility_mismatch_passes : rejects_every_authenticated_compatibility_mismatch.
Proof. unfold rejects_every_authenticated_compatibility_mismatch, changed. passes. Qed.
Lemma scans_authenticated_journal_framing_before_exposure_passes : scans_authenticated_journal_framing_before_exposure.
Proof. run scans_authenticated_journal_framing_before_exposure. Qed.
Lemma rejects_wrong_keys_mutation_and_cross_workload_restore_passes : rejects_wrong_keys_mutation_and_cross_workload_restore.
Proof. run rejects_wrong_keys_mutation_and_cross_workload_restore. Qed.
Lemma rejects_noncanonical_bindings_and_invalid_limits_passes : rejects_noncanonical_bindings_and_invalid_limits.
Proof. run rejects_noncanonical_bindings_and_invalid_limits. Qed.
Lemma rejects_malformed_envelope_lengths_and_trailing_bytes_passes : rejects_malformed_envelope_lengths_and_trailing_bytes.
Proof. run rejects_malformed_envelope_lengths_and_trailing_bytes. Qed.
Lemma scanner_enforces_lifecycle_and_accepts_known_zero_sized_records_passes : scanner_enforces_lifecycle_and_accepts_known_zero_sized_records.
Proof. run scanner_enforces_lifecycle_and_accepts_known_zero_sized_records. Qed.
Lemma streaming_seal_and_borrowed_verify_match_legacy_artifact_passes : streaming_seal_and_borrowed_verify_match_legacy_artifact.
Proof. run streaming_seal_and_borrowed_verify_match_legacy_artifact. Qed.
Lemma streaming_reader_reuses_its_artifact_allocation_for_the_journal_passes : streaming_reader_reuses_its_artifact_allocation_for_the_journal.
Proof. run streaming_reader_reuses_its_artifact_allocation_for_the_journal. Qed.
Lemma enforces_stream_boundaries_at_zero_exact_max_over_max_and_truncation_passes : enforces_stream_boundaries_at_zero_exact_max_over_max_and_truncation.
Proof. run enforces_stream_boundaries_at_zero_exact_max_over_max_and_truncation. Qed.
Lemma streaming_failures_report_their_io_phase_passes : streaming_failures_report_their_io_phase.
Proof. run streaming_failures_report_their_io_phase. Qed.
Lemma streaming_seal_does_not_build_an_artifact_sized_write_chunk_passes : streaming_seal_does_not_build_an_artifact_sized_write_chunk.
Proof. run streaming_seal_does_not_build_an_artifact_sized_write_chunk. Qed.
Lemma constructs_only_a_canonical_attested_worker_capture_passes : constructs_only_a_canonical_attested_worker_capture.
Proof. run constructs_only_a_canonical_attested_worker_capture. Qed.
Lemma rejects_malformed_or_noncanonical_attested_worker_capture_passes : rejects_malformed_or_noncanonical_attested_worker_capture.
Proof. run rejects_malformed_or_noncanonical_attested_worker_capture. Qed.
