(* ===== verification/ProcStatus.v ===== *)
(** How the worker reads [/proc/self/status] ([src/src/wasix_worker.rs]):
    the string functions of the Rust standard library that it uses, integer
    parsing at machine width, and the three readers of status fields.
    Theorem: on a status text in the kernel's format the readers return
    exactly the identifiers and the mask it was printed from. *)
From S2P Require Import Prelude WorkerMessages.

Local Open Scope Z_scope.

(** ** Strings, as their UTF-8 bytes *)

(** The UTF-8 encodings of the characters [char::is_whitespace] accepts. *)
Definition utf8 (l : list Z) : list byte := byte_of_Z <$> l.
Definition white : list (list byte) :=
  utf8 <$> [[9]; [10]; [11]; [12]; [13]; [32]; [194; 133]; [194; 160]; [225; 154; 128];
            [226; 128; 128]; [226; 128; 129]; [226; 128; 130]; [226; 128; 131]; [226; 128; 132];
            [226; 128; 133]; [226; 128; 134]; [226; 128; 135]; [226; 128; 136]; [226; 128; 137];
            [226; 128; 138]; [226; 128; 168]; [226; 128; 169]; [226; 128; 175]; [226; 129; 159];
            [227; 128; 128]].

Definition is_prefix (p l : list byte) : bool :=
  match bytes_strip_prefix p l with Some _ => true | None => false end.
(** The length of a pattern at the front of a string. *)
Definition pattern_len (patterns : list (list byte)) (l : list byte) : option nat :=
  length <$> head (filter (λ p, is_prefix p l = true) patterns).

(** Both loops consume one byte at a time; [skip] counts the bytes of a
    whitespace character that remain to be consumed. *)
Fixpoint trim_front (patterns : list (list byte)) (skip : nat) (l : list byte) : list byte :=
  match l with
  | [] => []
  | b :: l' =>
      match skip with
      | S k => trim_front patterns k l'
      | O => match pattern_len patterns l with
             | Some n => trim_front patterns (n - 1) l'
             | None => l
             end
      end
  end.
(** [str::trim] *)
Definition trim (l : list byte) : list byte :=
  reverse (trim_front (reverse <$> white) 0 (reverse (trim_front white 0 l))).

Definition flush (word : list byte) : list (list byte) :=
  match word with [] => [] | _ => [reverse word] end.
(** [str::split_whitespace]; [word] is the current word, backwards. *)
Fixpoint split_words (skip : nat) (word l : list byte) : list (list byte) :=
  match l with
  | [] => flush word
  | b :: l' =>
      match skip with
      | S k => split_words k word l'
      | O => match pattern_len white l with
             | Some n => flush word ++ split_words (n - 1) [] l'
             | None => split_words 0 (b :: word) l'
             end
      end
  end.
Definition split_whitespace (l : list byte) : list (list byte) := split_words 0 [] l.

Definition newline : byte := byte_of_Z 10.
Definition carriage_return : byte := byte_of_Z 13.
Definition tab : byte := byte_of_Z 9.

(** [str::lines]: a line ends with a newline, or a carriage return and a
    newline; the end of the last one is optional. *)
Definition strip_cr (backwards : list byte) : list byte :=
  match backwards with
  | b :: r => if bool_decide (b = carriage_return) then r else backwards
  | [] => []
  end.
Fixpoint split_lines (line l : list byte) : list (list byte) :=
  match l with
  | [] => flush line
  | b :: l' =>
      if bool_decide (b = newline) then reverse (strip_cr line) :: split_lines [] l'
      else split_lines (b :: line) l'
  end.
Definition lines (l : list byte) : list (list byte) := split_lines [] l.

(** [str::split_once] at a one-byte character. *)
Fixpoint split_once (c : byte) (l : list byte) : option (list byte * list byte) :=
  match l with
  | [] => None
  | b :: l' => if bool_decide (b = c) then Some ([], l') else prod_map (cons b) id <$> split_once c l'
  end.

(** ** Integers *)

Definition to_digit (radix : Z) (b : byte) : option Z :=
  let d := if is_ascii_digit b then Some (byte_val b - 48)
           else if is_ascii_lowercase b then Some (byte_val b - 87)
           else if is_ascii_uppercase b then Some (byte_val b - 55)
           else None in
  match d with Some d => if d <? radix then Some d else None | None => None end.

Fixpoint parse_digits (radix max acc : Z) (l : list byte) : result string Z :=
  match l with
  | [] => Ok acc
  | b :: l' =>
      match to_digit radix b with
      | None => Err "invalid digit found in string"
      | Some d =>
          if max <? acc * radix + d then Err "number too large to fit in target type"
          else parse_digits radix max (acc * radix + d) l'
      end
  end.

(** [u32::from_str] and [u64::from_str_radix]: an optional plus sign, then
    digits; a sign alone is an invalid digit. *)
Definition from_str_radix (radix max : Z) (l : list byte) : result string Z :=
  match l with
  | [] => Err "cannot parse integer from empty string"
  | b :: l' =>
      if bool_decide (b = "+"%byte)
      then match l' with [] => Err "invalid digit found in string" | _ => parse_digits radix max 0 l' end
      else parse_digits radix max 0 l
  end.

(** [i32::from_str], of which only success is used.  A negative number is
    parsed with its own bound. *)
Definition parse_i32 (l : list byte) : option Z :=
  match l with
  | b :: (_ :: _) as l' =>
      if bool_decide (b = "-"%byte)
      then match parse_digits 10 (2 ^ 31) 0 l' with Ok n => Some (- n) | Err _ => None end
      else match from_str_radix 10 (2 ^ 31 - 1) l with Ok n => Some n | Err _ => None end
  | _ => match from_str_radix 10 (2 ^ 31 - 1) l with Ok n => Some n | Err _ => None end
  end.

(** ** Status fields *)

Fixpoint find_map {A B} (f : A → option B) (l : list A) : option B :=
  match l with
  | [] => None
  | a :: l' => match f a with Some b => Some b | None => find_map f l' end
  end.

Definition field_of_line (field line : list byte) : option (list byte) :=
  '(name, value) ← split_once ":"%byte line;
  if bool_decide (name = field) then Some (trim value) else None.

(** [status] is what reading the file gave. *)
Definition read_linux_status_field (status : result string (list byte)) (field : string)
    : result string (list byte) :=
  status ← map_err (λ e, "failed to inspect worker security state: " +:+ e) status;
  ok_or (find_map (field_of_line (str_bytes field)) (lines status))
    ("worker status did not contain " +:+ field).

Definition read_linux_status_mask (status : result string (list byte)) (field : string) : result string Z :=
  value ← read_linux_status_field status field;
  map_err (λ e, "worker status contained an invalid " +:+ field +:+ " mask: " +:+ e)
    (from_str_radix 16 u64_max (trim value)).

(** Collecting results stops at the first error. *)
Fixpoint collect {E A B} (f : A → result E B) (l : list A) : result E (list B) :=
  match l with
  | [] => Ok []
  | a :: l' => b ← f a; bs ← collect f l'; Ok (b :: bs)
  end.

Definition read_linux_status_ids (status : result string (list byte)) (field : string) : result string Ids :=
  value ← read_linux_status_field status field;
  values ← collect (λ word, map_err (λ e, "worker status contained an invalid " +:+ field
                                            +:+ " identifier: " +:+ e) (from_str_radix 10 u32_max word))
             (split_whitespace value);
  match values with
  | [a; b; c; d] => Ok {| real_id := a; effective_id := b; saved_id := c; filesystem_id := d |}
  | _ => Err ("worker status did not contain four " +:+ field +:+ " identifiers")
  end.

(** ** The kernel's format *)

(** Decimal numbers separated by tabs, and a mask in sixteen hex digits. *)
Definition tabbed (words : list (list byte)) : list byte := mjoin (cons tab <$> words).
Definition decimal (n : Z) : list byte := str_bytes (show n).
Definition hex_byte (d : Z) : byte := byte_of_Z (if d <? 10 then 48 + d else 87 + d).
Fixpoint hex_fixed (n : nat) (z : Z) : list byte :=
  match n with
  | O => []
  | S n' => hex_byte ((z / 16 ^ Z.of_nat n') mod 16) :: hex_fixed n' z
  end.
Definition unlines (l : list (list byte)) : list byte := mjoin ((λ x, x ++ [newline]) <$> l).

(** A text has a field when one of its lines carries it and no earlier line
    has its name. *)
Definition line_ok (l : list byte) : Prop := newline ∉ l ∧ last l ≠ Some carriage_return.
Definition StatusField (text : list byte) (field : string) (value : list byte) : Prop :=
  ∃ before after,
    text = unlines (before ++ (str_bytes field ++ ":"%byte :: value) :: after)
    ∧ Forall line_ok (before ++ (str_bytes field ++ ":"%byte :: value) :: after)
    ∧ Forall (λ l, fst <$> split_once ":"%byte l ≠ Some (str_bytes field)) before.

(** ** Characters that are not whitespace *)

Definition plain (b : byte) : Prop := is_ascii_graphic b = true.

Lemma byte_cases (P : byte → bool) : forallb (λ n, P (byte_of_Z (Z.of_nat n))) (seq 0 256) = true → ∀ b, P b = true.
Proof.
  intros Hall b. rewrite <- (byte_of_val b). pose proof (byte_val_range b).
  rewrite forallb_forall in Hall. specialize (Hall (Z.to_nat (byte_val b))).
  rewrite Z2Nat.id in Hall by lia. apply Hall. apply in_seq. lia.
Qed.

(** Decides a property of every byte by evaluation. *)
Ltac all_bytes b :=
  revert b;
  match goal with |- ∀ b : byte, @?P b = true => apply (byte_cases P); vm_compute; reflexivity end.

Definition starts_no_pattern (patterns : list (list byte)) (b : byte) : bool :=
  forallb (λ p, match p with [] => false | c :: _ => negb (bool_decide (c = b)) end) patterns.

Lemma pattern_len_None patterns b l : starts_no_pattern patterns b = true → pattern_len patterns (b :: l) = None.
Proof.
  unfold starts_no_pattern, pattern_len. intros Hp.
  induction patterns as [|p ps IH]; [done|]. cbn in Hp. apply andb_true_iff in Hp as [Hp Hps].
  rewrite filter_cons_False; [by apply IH|]. destruct p as [|c p]; [done|].
  apply negb_true_iff, bool_decide_eq_false in Hp. unfold is_prefix. cbn. by rewrite bool_decide_eq_false_2.
Qed.

Lemma plain_no_pattern b : plain b → starts_no_pattern white b = true ∧ starts_no_pattern (reverse <$> white) b = true.
Proof.
  assert (implb (is_ascii_graphic b)
            (starts_no_pattern white b && starts_no_pattern (reverse <$> white) b) = true) as Hi by all_bytes b.
  intros Hb. unfold plain in Hb. rewrite Hb in Hi. by apply andb_true_iff.
Qed.

Lemma trim_front_plain patterns b l :
  starts_no_pattern patterns b = true → trim_front patterns 0 (b :: l) = b :: l.
Proof. intros Hb. cbn [trim_front]. by rewrite pattern_len_None. Qed.

Lemma plain_front b : plain b → starts_no_pattern white b = true.
Proof. intros Hb. exact (proj1 (plain_no_pattern b Hb)). Qed.
Lemma plain_back b : plain b → starts_no_pattern (reverse <$> white) b = true.
Proof. intros Hb. exact (proj2 (plain_no_pattern b Hb)). Qed.

Lemma white_tab l : pattern_len white (tab :: l) = Some 1%nat.
Proof. unfold pattern_len. by destruct l. Qed.

(** ** Words *)

Definition word_ok (w : list byte) : Prop := w ≠ [] ∧ Forall plain w.

Lemma split_words_plain w acc l : Forall plain w → split_words 0 acc (w ++ l) = split_words 0 (reverse w ++ acc) l.
Proof.
  intros Hw. revert acc. induction Hw as [|b w Hb Hw IH]; intros acc; [done|].
  cbn [app split_words]. rewrite (pattern_len_None white b (w ++ l) (plain_front b Hb)).
  by rewrite IH, reverse_cons, <- app_assoc.
Qed.

Lemma flush_reverse w : w ≠ [] → flush (reverse w) = [w].
Proof.
  intros Hw. unfold flush. rewrite reverse_involutive. destruct (reverse w) eqn:E; [|done].
  destruct Hw. by rewrite <- (reverse_involutive w), E.
Qed.

Lemma split_whitespace_tabbed w ws :
  Forall word_ok (w :: ws) → split_whitespace (w ++ tabbed ws) = w :: ws.
Proof.
  unfold split_whitespace. revert w. induction ws as [|v ws IH]; intros w [[Hne Hw] Hws]%Forall_cons.
  - rewrite split_words_plain by done. cbn [tabbed fmap list_fmap mjoin list_join split_words].
    by rewrite app_nil_r, flush_reverse.
  - rewrite split_words_plain by done. rewrite app_nil_r.
    change (tabbed (v :: ws)) with (tab :: v ++ tabbed ws). cbn [split_words].
    rewrite white_tab. cbn [Nat.sub]. by rewrite IH, flush_reverse.
Qed.

Lemma last_tabbed w ws : Forall word_ok (w :: ws) → ∃ b l, plain b ∧ w ++ tabbed ws = l ++ [b].
Proof.
  revert w. induction ws as [|v ws IH]; intros w [[Hne Hw] Hws]%Forall_cons.
  - cbn. rewrite app_nil_r. destruct (exists_last Hne) as (l & b & ->).
    apply Forall_app in Hw as [_ Hb]. rewrite Forall_singleton in Hb. by exists b, l.
  - destruct (IH v Hws) as (b & l & Hb & E). exists b, (w ++ tab :: l). split; [done|].
    change (tabbed (v :: ws)) with (tab :: v ++ tabbed ws). rewrite E. by rewrite <- app_assoc.
Qed.

Lemma trim_tabbed w ws : Forall word_ok (w :: ws) → trim (tabbed (w :: ws)) = w ++ tabbed ws.
Proof.
  intros Hws. change (tabbed (w :: ws)) with (tab :: w ++ tabbed ws). unfold trim. cbn [trim_front].
  rewrite white_tab. cbn [Nat.sub].
  destruct (last_tabbed _ _ Hws) as (b & l & Hb & E).
  assert (trim_front white 0 (w ++ tabbed ws) = w ++ tabbed ws) as ->.
  { apply Forall_cons in Hws as [[Hne Hw] _]. destruct w as [|c w]; [done|].
    apply Forall_cons in Hw as [Hc _]. cbn [app]. exact (trim_front_plain _ _ _ (plain_front c Hc)). }
  rewrite E, reverse_snoc, (trim_front_plain _ _ _ (plain_back b Hb)).
  by rewrite reverse_cons, reverse_involutive.
Qed.

Lemma trim_plain w : word_ok w → trim w = w.
Proof.
  intros [Hne Hw]. unfold trim. destruct w as [|c w]; [done|].
  destruct (exists_last Hne) as (l & b & E). pose proof Hw as Hb. rewrite E in Hb.
  apply Forall_app in Hb as [_ Hb]. rewrite Forall_singleton in Hb.
  apply Forall_cons in Hw as [Hc _]. rewrite (trim_front_plain _ _ _ (plain_front c Hc)).
  rewrite E, reverse_snoc, (trim_front_plain _ _ _ (plain_back b Hb)).
  by rewrite reverse_cons, reverse_involutive.
Qed.

(** ** Numbers *)

Lemma decimal_go x s max :
  Z.of_N x ≤ max →
  parse_digits 10 max 0 (str_bytes (pretty_N_go x s)) = parse_digits 10 max (Z.of_N x) (str_bytes s)
  ∧ (Forall plain (str_bytes s) → Forall plain (str_bytes (pretty_N_go x s))).
Proof.
  revert s. induction (N.lt_wf_0 x) as [x _ IH]; intros s Hx.
  assert (x = 0 ∨ 0 < x)%N as [->|Hpos] by lia; [by rewrite pretty_N_go_0|].
  rewrite pretty_N_go_step by done.
  pose proof (N.mod_lt x 10 ltac:(done)) as Hm.
  pose proof (N.div_mod x 10 ltac:(done)) as Hdm.
  pose proof (N.div_lt x 10 Hpos eq_refl) as Hq.
  generalize dependent (x `div` 10)%N. generalize dependent (x `mod` 10)%N. intros d Hm q Hdm Hq.
  destruct (IH q Hq (String (pretty_N_char d) s)) as [IH1 IH2]; [lia|].
  assert (∃ b, str_bytes (String (pretty_N_char d) s) = b :: str_bytes s
               ∧ to_digit 10 b = Some (Z.of_N d) ∧ plain b) as (b & Eb & Hd & Hb).
  { assert (d = 0 ∨ d = 1 ∨ d = 2 ∨ d = 3 ∨ d = 4 ∨ d = 5 ∨ d = 6 ∨ d = 7 ∨ d = 8 ∨ d = 9)%N
      as Hcases by lia. destruct_or! Hcases; rewrite Hcases; eexists; by split_and!. }
  rewrite Eb in IH1, IH2. split.
  - rewrite IH1. cbn [parse_digits]. rewrite Hd.
    replace (Z.of_N q * 10 + Z.of_N d) with (Z.of_N x) by lia.
    by rewrite (proj2 (Z.ltb_ge _ _)) by lia.
  - intros Hs. apply IH2. by constructor.
Qed.

Lemma show_N n : 0 ≤ n → show n = pretty (Z.to_N n).
Proof. by destruct n. Qed.

Lemma parse_decimal max n : 0 ≤ n ≤ max → from_str_radix 10 max (decimal n) = Ok n ∧ word_ok (decimal n).
Proof.
  intros Hn. unfold decimal. rewrite show_N by lia. unfold pretty, pretty_N. case_decide as Hz.
  { assert (n = 0) as -> by lia. split; [|by split; [|repeat constructor]].
    change (from_str_radix 10 max (str_bytes "0")) with (if max <? 0 then Err "number too large to fit in target type" else Ok 0).
    destruct (Z.ltb_spec max 0); [lia|done]. }
  destruct (decimal_go (Z.to_N n) EmptyString max) as [Hp Hw]; [lia|]. specialize (Hw (Forall_nil_2 _)).
  cbn [str_bytes String.list_byte_of_string parse_digits] in Hp. rewrite Z2N.id in Hp by lia.
  unfold from_str_radix. destruct (str_bytes _) as [|b l] eqn:E.
  - cbn in Hp. injection Hp as Hp. lia.
  - split; [|by split]. case_bool_decide as Hb; [|done]. subst b. by cbn in Hp.
Qed.

Lemma hex_byte_digit d : 0 ≤ d < 16 → to_digit 16 (hex_byte d) = Some d ∧ plain (hex_byte d).
Proof.
  intros Hd. assert (∃ n, (n < 16)%nat ∧ d = Z.of_nat n) as (n & Hn & ->) by (exists (Z.to_nat d); lia).
  do 16 (destruct n as [|n]; [by vm_compute|]). lia.
Qed.

Lemma parse_hex_fixed n acc z max :
  0 ≤ acc → acc * 16 ^ Z.of_nat n + z mod 16 ^ Z.of_nat n ≤ max →
  parse_digits 16 max acc (hex_fixed n z) = Ok (acc * 16 ^ Z.of_nat n + z mod 16 ^ Z.of_nat n)
  ∧ Forall plain (hex_fixed n z).
Proof.
  revert acc. induction n as [|n IH]; intros acc Hacc Hmax; cbn [hex_fixed].
  { rewrite Z.mod_1_r in *. split; [|done]. cbn. f_equal. lia. }
  pose proof (Z.mod_pos_bound (z / 16 ^ Z.of_nat n) 16 eq_refl) as Hd.
  destruct (hex_byte_digit _ Hd) as [E Hp].
  assert (acc * 16 ^ Z.of_nat (S n) + z mod 16 ^ Z.of_nat (S n)
          = (acc * 16 + (z / 16 ^ Z.of_nat n) mod 16) * 16 ^ Z.of_nat n + z mod 16 ^ Z.of_nat n) as Hs.
  { rewrite Nat2Z.inj_succ, Z.pow_succ_r, (Z.mul_comm 16), Z.rem_mul_r by lia. lia. }
  rewrite Hs in *. pose proof (Z.mod_pos_bound z (16 ^ Z.of_nat n) ltac:(lia)).
  destruct (IH (acc * 16 + (z / 16 ^ Z.of_nat n) mod 16)) as [IH1 IH2]; [lia|done|].
  cbn [parse_digits]. rewrite E, (proj2 (Z.ltb_ge _ _)) by nia. split; [done|]. by constructor.
Qed.

(** ** Lines *)

Lemma strip_cr_keep l : last l ≠ Some carriage_return → strip_cr (reverse l) = reverse l.
Proof.
  intros Hl. unfold strip_cr. destruct (reverse l) as [|b r] eqn:E; [done|].
  rewrite bool_decide_eq_false_2; [done|]. intros ->. apply Hl.
  by rewrite <- (reverse_involutive l), E, reverse_cons, last_snoc.
Qed.

Lemma split_lines_app line l rest :
  newline ∉ l → split_lines line (l ++ newline :: rest) = reverse (strip_cr (reverse l ++ line)) :: split_lines [] rest.
Proof.
  revert line. induction l as [|b l IH]; intros line Hl; cbn [app split_lines].
  - by rewrite bool_decide_eq_true_2.
  - apply not_elem_of_cons in Hl as [Hb Hl]. rewrite bool_decide_eq_false_2 by done.
    by rewrite IH, reverse_cons, <- app_assoc.
Qed.

Lemma lines_unlines ls : Forall line_ok ls → lines (unlines ls) = ls.
Proof.
  unfold lines. induction 1 as [|l ls [Hn Hc] Hls IH]; [done|].
  change (unlines (l :: ls)) with ((l ++ [newline]) ++ unlines ls). rewrite <- app_assoc.
  cbn [app]. rewrite split_lines_app, app_nil_r, strip_cr_keep by done. by rewrite reverse_involutive, IH.
Qed.

Lemma split_once_here c l r : c ∉ l → split_once c (l ++ c :: r) = Some (l, r).
Proof.
  induction l as [|b l IH]; intros Hc; cbn [app split_once]; [by rewrite bool_decide_eq_true_2|].
  apply not_elem_of_cons in Hc as [Hb Hc]. rewrite bool_decide_eq_false_2 by done. by rewrite IH.
Qed.

Lemma field_found field value before after :
  ":"%byte ∉ str_bytes field →
  Forall (λ l, fst <$> split_once ":"%byte l ≠ Some (str_bytes field)) before →
  find_map (field_of_line (str_bytes field)) (before ++ (str_bytes field ++ ":"%byte :: value) :: after)
  = Some (trim value).
Proof.
  intros Hf. induction 1 as [|l before Hl Hb IH]; cbn [app find_map]; unfold field_of_line at 1.
  - rewrite split_once_here by done. cbn. by rewrite bool_decide_eq_true_2.
  - destruct (split_once _ l) as [[n v]|]; cbn in *; [|done].
    rewrite bool_decide_eq_false_2; [done|]. by intros ->.
Qed.

Lemma read_field_ok text field value :
  ":"%byte ∉ str_bytes field → StatusField text field value →
  read_linux_status_field (Ok text) field = Ok (trim value).
Proof.
  intros Hf (before & after & -> & Hok & Hb). unfold read_linux_status_field. cbn [map_err mbind result_bind].
  by rewrite lines_unlines, field_found.
Qed.

Lemma collect_decimals f ns :
  Forall (λ n, f (decimal n) = Ok n) ns → collect (E := string) f (decimal <$> ns) = Ok ns.
Proof. induction 1 as [|n ns Hn Hns IH]; cbn; [done|]. by rewrite Hn, IH. Qed.

Lemma read_ids_ok text field ids :
  ":"%byte ∉ str_bytes field → StatusField text field (tabbed (decimal <$> id_list ids)) →
  Forall (λ n, 0 ≤ n ≤ u32_max) (id_list ids) →
  read_linux_status_ids (Ok text) field = Ok ids.
Proof.
  intros Hf Hs Hr. unfold read_linux_status_ids. rewrite (read_field_ok _ _ _ Hf Hs).
  destruct ids as [a b c d]. cbn [id_list real_id effective_id saved_id filesystem_id fmap list_fmap] in *.
  assert (Forall word_ok (decimal <$> [a; b; c; d])) as Hw.
  { apply Forall_fmap. eapply Forall_impl; [exact Hr|]. intros n Hn. exact (proj2 (parse_decimal u32_max n Hn)). }
  rewrite trim_tabbed by done. cbn [mbind result_bind]. rewrite split_whitespace_tabbed by done.
  change [decimal a; decimal b; decimal c; decimal d] with (decimal <$> [a; b; c; d]).
  rewrite collect_decimals; [done|]. eapply Forall_impl; [exact Hr|]. intros n Hn. cbn beta.
  by rewrite (proj1 (parse_decimal u32_max n Hn)).
Qed.

Lemma read_mask_ok text field mask :
  ":"%byte ∉ str_bytes field → StatusField text field (tabbed [hex_fixed 16 mask]) →
  0 ≤ mask ≤ u64_max → read_linux_status_mask (Ok text) field = Ok mask.
Proof.
  intros Hf Hs Hm. unfold read_linux_status_mask. rewrite (read_field_ok _ _ _ Hf Hs). cbn [mbind result_bind].
  assert (mask mod 16 ^ Z.of_nat 16 = mask) as Hmod by (apply Z.mod_small; unfold u64_max in Hm; lia).
  destruct (parse_hex_fixed 16 0 mask u64_max) as [Hp Hw]; [done|lia|].
  assert (word_ok (hex_fixed 16 mask)) as Hok by (split; [done|exact Hw]).
  rewrite trim_tabbed by by constructor. cbn [tabbed fmap list_fmap mjoin list_join].
  rewrite app_nil_r, trim_plain by done. rewrite Hmod in Hp. cbn [Z.mul Z.add] in Hp.
  unfold from_str_radix. destruct (hex_fixed 16 mask) as [|b l] eqn:E; [done|].
  case_bool_decide as Hb; [|by rewrite Hp]. subst b. by cbn in Hp.
Qed.

(** On a status text in the kernel's format, reading a credential line
    returns exactly the four identifiers it was printed from, and reading a
    capability line exactly the mask, whatever the other lines contain. *)
Theorem status_fields_roundtrip text field :
  ":"%byte ∉ str_bytes field →
  (∀ ids, StatusField text field (tabbed (decimal <$> id_list ids)) →
     Forall (λ n, 0 ≤ n ≤ u32_max) (id_list ids) → read_linux_status_ids (Ok text) field = Ok ids)
  ∧ (∀ mask, StatusField text field (tabbed [hex_fixed 16 mask]) →
     0 ≤ mask ≤ u64_max → read_linux_status_mask (Ok text) field = Ok mask).
Proof. intros Hf. split; intros x Hs Hx; [by apply read_ids_ok|by apply read_mask_ok]. Qed.

(** A line in the kernel's format is one line. *)
Lemma line_ok_tabbed name w ws :
  Forall plain (str_bytes name) → Forall word_ok (w :: ws) → line_ok (str_bytes name ++ ":"%byte :: tabbed (w :: ws)).
Proof.
  intros Hn Hws. split.
  - assert (∀ l, Forall plain l → newline ∉ l) as Hp by (intros l Hl Hin; rewrite Forall_forall in Hl; by specialize (Hl _ Hin)).
    rewrite elem_of_app, elem_of_cons. intros [Hin|[?|Hin]]; [by apply (Hp _ Hn)|done|].
    unfold tabbed in Hin. apply list_elem_of_join in Hin as (l & Hin & Hl).
    apply list_elem_of_fmap in Hl as (v & -> & Hv). apply elem_of_cons in Hin as [?|Hin]; [done|].
    rewrite Forall_forall in Hws. by apply (Hp v); [apply (Hws v Hv)|].
  - destruct (last_tabbed _ _ Hws) as (b & l & Hb & E).
    change (tabbed (w :: ws)) with (tab :: w ++ tabbed ws). rewrite E.
    replace (str_bytes name ++ _) with ((str_bytes name ++ ":"%byte :: tab :: l) ++ [b]) by by rewrite <- app_assoc.
    rewrite last_snoc. by intros [= ->].
Qed.

(** ** A status text *)
Module ProcStatusExample.

Definition text_of (users groups : Ids) (ambient : Z) : list byte :=
  unlines [str_bytes "Name:" ++ tab :: str_bytes "Uid: worker";
           str_bytes "Uid:" ++ tabbed (decimal <$> id_list users);
           str_bytes "Gid:" ++ tabbed (decimal <$> id_list groups);
           str_bytes "CapAmb:" ++ tabbed [hex_fixed 16 ambient]].
Definition nobody : Ids := {| real_id := 65534; effective_id := 65534; saved_id := 65534; filesystem_id := 65534 |}.
Definition some_ids : Ids := {| real_id := 0; effective_id := 1000; saved_id := 4294967295; filesystem_id := 7 |}.

Lemma status_fields_roundtrip_witness :
  read_linux_status_ids (Ok (text_of some_ids nobody 255)) "Uid" = Ok some_ids.
Proof.
  refine (proj1 (status_fields_roundtrip (text_of some_ids nobody 255) "Uid" _) some_ids _ _).
  - by apply (bool_decide_eq_true _).
  - exists [str_bytes "Name:" ++ tab :: str_bytes "Uid: worker"],
      [str_bytes "Gid:" ++ tabbed (decimal <$> id_list nobody); str_bytes "CapAmb:" ++ tabbed [hex_fixed 16 255]].
    split_and!; [by vm_compute| |].
    + unfold line_ok. repeat constructor; try (by apply (bool_decide_eq_true _)); by vm_compute.
    + repeat constructor. by vm_compute.
  - by repeat constructor.
Defined.

(** Errors name the first malformed number. *)
Example too_large : read_linux_status_ids (Ok (str_bytes "Uid: 1 4294967296 x 3")) "Uid"
  = Err "worker status contained an invalid Uid identifier: number too large to fit in target type".
Proof. by vm_compute. Qed.
Example missing_field : read_linux_status_mask (Ok (str_bytes "CapAm: 0")) "CapAmb"
  = Err "worker status did not contain CapAmb".
Proof. by vm_compute. Qed.
End ProcStatusExample.
