(* ===== verification/BenchmarkStatistics.v ===== *)
(** The statistics of the benchmark programs ([src/examples/http_benchmark.rs],
    [tier_benchmark.rs], [pause_benchmark.rs], [http_capacity_benchmark.rs]):
    percentiles of the samples, batches of concurrent requests, throughput,
    storage and memory projections, and the readings of the process status they
    start from.  [None] is a panic: an index out of range, an overflow where
    overflow is checked, or a failed assertion. *)
From stdpp Require Import sorting.
From S2P Require Import Prelude Errors Types ProcStatus.

Local Open Scope Z_scope.

(** ** Percentiles *)

(** [u64::try_from(duration.as_nanos()).unwrap_or(u64::MAX)] *)
Definition nanos (duration : Z) : Z := Z.min duration u64_max.

(** [sort_unstable] on integers. *)
Definition sort_unstable (values : list Z) : list Z := merge_sort Z.le values.

Definition div_ceil (a b : Z) : Z := (a + b - 1) / b.

Definition percentile_index (len percentile : Z) : option Z :=
  if usize_max <? len * percentile then None
  else Some (saturating_sub (div_ceil (len * percentile) 100) 1).
Definition percentile_value (values : list Z) (percentile : Z) : option Z :=
  i ← percentile_index (Z.of_nat (length values)) percentile;
  values !! Z.to_nat i.

(** [percentile_sample]'s closure: the values of one field, sorted. *)
Definition field_percentile {S} (samples : list S) (percentile : Z) (select : S → Z) : option Z :=
  percentile_value (sort_unstable (select <$> samples)) percentile.

(** [http_benchmark.rs] *)
Record HttpSample := {
  hs_runtime_init_ns : Z; hs_service_prepare_ns : Z; hs_service_start_total_ns : Z;
  hs_request_ns : Z; hs_harness_total_ns : Z }.
Definition percentile_sample (samples : list HttpSample) (percentile : Z) : option HttpSample :=
  let field := field_percentile samples percentile in
  a ← field hs_runtime_init_ns;
  b ← field hs_service_prepare_ns;
  c ← field hs_service_start_total_ns;
  d ← field hs_request_ns;
  e ← field hs_harness_total_ns;
  Some {| hs_runtime_init_ns := a; hs_service_prepare_ns := b; hs_service_start_total_ns := c;
          hs_request_ns := d; hs_harness_total_ns := e |}.
Record Distribution := { dist_samples : list HttpSample; dist_p50 : HttpSample; dist_p95 : HttpSample }.
Definition distribution (samples : list HttpSample) : option Distribution :=
  p50 ← percentile_sample samples 50;
  p95 ← percentile_sample samples 95;
  Some {| dist_samples := samples; dist_p50 := p50; dist_p95 := p95 |}.

(** [tier_benchmark.rs] *)
Record TierSample := {
  ts_runtime_init_ns : Z; ts_prepare_ns : Z; ts_instantiate_ns : Z; ts_execute_ns : Z;
  ts_suspended_ns : Z; ts_active_execute_ns : Z; ts_call_total_ns : Z; ts_harness_total_ns : Z }.
Definition tier_percentile (samples : list TierSample) (percentile : Z) : option TierSample :=
  let field := field_percentile samples percentile in
  a ← field ts_runtime_init_ns;
  b ← field ts_prepare_ns;
  c ← field ts_instantiate_ns;
  d ← field ts_execute_ns;
  e ← field ts_suspended_ns;
  f ← field ts_active_execute_ns;
  g ← field ts_call_total_ns;
  h ← field ts_harness_total_ns;
  Some {| ts_runtime_init_ns := a; ts_prepare_ns := b; ts_instantiate_ns := c; ts_execute_ns := d;
          ts_suspended_ns := e; ts_active_execute_ns := f; ts_call_total_ns := g;
          ts_harness_total_ns := h |}.
Record StateReport := {
  report_state : string; report_samples : list TierSample;
  report_p50 : TierSample; report_p95 : TierSample }.
Definition report (state : string) (samples : list TierSample) : option StateReport :=
  p50 ← tier_percentile samples 50;
  p95 ← tier_percentile samples 95;
  Some {| report_state := state; report_samples := samples; report_p50 := p50; report_p95 := p95 |}.
Definition tier_sample (runtime_init_ns : Z) (output : CommandOutput) (harness : Z) : TierSample :=
  let p := phases (measurement output) in {|
  ts_runtime_init_ns := runtime_init_ns;
  ts_prepare_ns := nanos (phase_prepare p);
  ts_instantiate_ns := nanos (phase_instantiate p);
  ts_execute_ns := nanos (phase_execute p);
  ts_suspended_ns := nanos (phase_suspended p);
  ts_active_execute_ns := nanos (phase_active_execute p);
  ts_call_total_ns := nanos (phase_total p);
  ts_harness_total_ns := nanos harness |}.

(** [pause_benchmark.rs] *)
Record Percentiles := { pct_p50 : Z; pct_p95 : Z }.
Definition percentiles (values : list Z) : option Percentiles :=
  let values := sort_unstable values in
  p50 ← percentile_value values 50;
  p95 ← percentile_value values 95;
  Some {| pct_p50 := p50; pct_p95 := p95 |}.

(** ** Throughput *)

(** [(0..requests).step_by(concurrency)]; a step of zero panics. *)
Definition step_by (requests concurrency : Z) : option (list Z) :=
  if concurrency =? 0 then None
  else Some ((λ i, Z.of_nat i * concurrency) <$> seq 0 (Z.to_nat (div_ceil requests concurrency))).
Definition batch_count (concurrency requests offset : Z) : Z := Z.min concurrency (requests - offset).

Record Throughput := {
  tp_concurrency : Z; tp_requests : Z; tp_elapsed_ns : Z; tp_requests_per_second : Z;
  tp_latency_p50_ns : Z; tp_latency_p95_ns : Z }.

(** The loop over [join_next] of one batch, in the order of completion. *)
Fixpoint join_all {E} (responses : list (result E Z)) (latencies : list Z) : result E (list Z) :=
  match responses with
  | [] => Ok latencies
  | r :: l => elapsed ← r; join_all l (latencies ++ [nanos elapsed])
  end.
(** [batch offset count] is what [join_next] yields for the tasks of a batch. *)
Fixpoint run_batches {E} (batch : Z → Z → list (result E Z)) (concurrency requests : Z)
    (offsets : list Z) (latencies : list Z) : result E (list Z) :=
  match offsets with
  | [] => Ok latencies
  | offset :: l =>
      latencies ← join_all (batch offset (batch_count concurrency requests offset)) latencies;
      run_batches batch concurrency requests l latencies
  end.
Definition requests_per_second (requests elapsed : Z) : Z :=
  Z.min ((requests * 1000000000) / Z.max elapsed 1) u64_max.
Definition throughput {E} (batch : Z → Z → list (result E Z)) (concurrency requests elapsed : Z)
    : option (result E Throughput) :=
  offsets ← step_by requests concurrency;
  match run_batches batch concurrency requests offsets [] with
  | Err e => Some (Err e)
  | Ok latencies =>
      let latencies := sort_unstable latencies in
      p50 ← percentile_value latencies 50;
      p95 ← percentile_value latencies 95;
      Some (Ok {| tp_concurrency := concurrency; tp_requests := requests; tp_elapsed_ns := nanos elapsed;
                  tp_requests_per_second := requests_per_second requests elapsed;
                  tp_latency_p50_ns := p50; tp_latency_p95_ns := p95 |})
  end.

(** ** Capacity *)

Definition COUNTS : list Z := [1; 100; 1000; 10000].

Record PackageStorage := {
  storage_packages : Z; identical_digest_aot_bytes : Z;
  unique_digest_aot_projection_bytes : Z; source_projection_bytes : Z }.
Definition saturating_mul (a b : Z) : Z := Z.min (a * b) u64_max.
Definition package_storage (component_len aot_bytes : Z) : list PackageStorage :=
  (λ packages, {|
     storage_packages := packages; identical_digest_aot_bytes := aot_bytes;
     unique_digest_aot_projection_bytes := saturating_mul aot_bytes packages;
     source_projection_bytes := saturating_mul component_len packages |}) <$> COUNTS.

(** [read_dir(path)?.try_fold(..)] over the entries: the bytes of a path's
    extension, if it has one, and the answer to [metadata]. *)
Record DirEntry := { entry_extension : option string; entry_len : result string Z }.
Fixpoint sum_entries (extension : string) (total : Z) (entries : list (result string DirEntry))
    : option (result string Z) :=
  match entries with
  | [] => Some (Ok total)
  | Err e :: _ => Some (Err e)
  | Ok entry :: l =>
      match (if bool_decide (entry_extension entry = Some extension) then entry_len entry else Ok 0) with
      | Err e => Some (Err e)
      | Ok bytes => if u64_max <? total + bytes then None else sum_entries extension (total + bytes) l
      end
  end.
Definition directory_bytes (read_dir : result string (list (result string DirEntry))) (extension : string)
    : option (result string Z) :=
  match read_dir with
  | Err e => Some (Err e)
  | Ok entries => sum_entries extension 0 entries
  end.

(** [line.strip_prefix("VmRSS:")] and the first word as a number. *)
Definition parse_u64 (l : list byte) : option Z :=
  match from_str_radix 10 u64_max l with Ok n => Some n | Err _ => None end.
Definition vm_rss (line : list byte) : option (list byte) := bytes_strip_prefix (str_bytes "VmRSS:") line.
Definition rss_bytes (status : result string (list byte)) : option (result string Z) :=
  match status with
  | Err e => Some (Err e)
  | Ok status =>
      match (value ← find_map vm_rss (lines status);
             word ← head (split_whitespace value);
             parse_u64 word) with
      | None => Some (Err "VmRSS missing")
      | Some kib => if u64_max <? kib * 1024 then None else Some (Ok (kib * 1024))
      end
  end.
(** [resident_set_kib] of the pause benchmark: a line whose value does not
    parse is skipped. *)
Definition resident_set_kib (status : result string (list byte)) : option Z :=
  match status with
  | Err _ => None
  | Ok status =>
      find_map (λ line, value ← vm_rss line; word ← head (split_whitespace value); parse_u64 word)
        (lines status)
  end.

Record ResidentWorkers := {
  rw_workers : Z; rw_measured : bool; rw_rss_bytes : option Z; rw_rss_delta_bytes : option Z }.
Record WorkerBasis := {
  measured_workers : Z; runtime_baseline_rss_bytes : Z; one_worker_rss_bytes : Z;
  measured_rss_bytes : Z; marginal_rss_per_worker_bytes : Z; projected_workers_per_gib : Z }.

(** [measured.iter().find(|(count, _)| *count == workers)] *)
Definition find_measured (measured : list (Z * Z)) (workers : Z) : option Z :=
  (λ x, x.2.2) <$> list_find (λ m : Z * Z, m.1 = workers) measured.
(** The counts at which the loop reads the resident size. *)
Definition measured_at (max_measured_workers workers : Z) : bool :=
  bool_decide (workers ∈ COUNTS) || (workers =? max_measured_workers).
Definition measure (max_measured_workers : Z) (rss_after : Z → Z) : list (Z * Z) :=
  (λ workers, (workers, rss_after workers)) <$>
    filter (λ workers, measured_at max_measured_workers workers = true)
      (seqZ 1 max_measured_workers).
Definition worker_basis (max_measured_workers baseline measured_rss : Z) (measured : list (Z * Z)) : WorkerBasis :=
  let one := default measured_rss (find_measured measured 1) in
  let marginal := let n := saturating_sub max_measured_workers 1 in
                  if n =? 0 then 0 else saturating_sub measured_rss one / n in
  {| measured_workers := max_measured_workers; runtime_baseline_rss_bytes := baseline;
     one_worker_rss_bytes := one; measured_rss_bytes := measured_rss;
     marginal_rss_per_worker_bytes := marginal;
     projected_workers_per_gib := if marginal =? 0 then 0 else Z.shiftl 1 30 / marginal |}.
Definition resident_workers (baseline : Z) (measured : list (Z * Z)) : list ResidentWorkers :=
  (λ workers, let value := find_measured measured workers in {|
     rw_workers := workers; rw_measured := bool_decide (is_Some value); rw_rss_bytes := value;
     rw_rss_delta_bytes := (λ rss, saturating_sub rss baseline) <$> value |}) <$> COUNTS.

(** ** Command lines *)

(** [arguments.next().map(|value| value.parse()).transpose()?.unwrap_or(..)] *)
Definition optional_number (unset : Z) (argument : option string) : result string Z :=
  match argument with
  | None => Ok unset
  | Some value => from_str_radix 10 usize_max (str_bytes value)
  end.
Definition http_benchmark_arguments (arguments : list string) : result string (Z * Z) :=
  iterations ← optional_number 20 (arguments !! 0%nat);
  throughput_requests ← optional_number 1000 (arguments !! 1%nat);
  _ ← reject_if (bool_decide (is_Some (arguments !! 2%nat)) || (iterations =? 0) || (throughput_requests =? 0))
        "usage: http_benchmark [positive-iterations] [positive-throughput-requests]";
  Ok (iterations, throughput_requests).
Definition tier_benchmark_arguments (arguments : list string) : result string (string * Z) :=
  let wasi := default "0.3" (arguments !! 0%nat) in
  iterations ← optional_number 100 (arguments !! 1%nat);
  _ ← reject_if (bool_decide (is_Some (arguments !! 2%nat)) || negb (bool_decide (wasi ∈ ["0.2"; "0.3"]))
                 || (iterations =? 0))
        "usage: tier_benchmark [0.2|0.3] [positive-iterations]";
  Ok (wasi, iterations).
Definition pause_benchmark_arguments (arguments : list string) : result string Z :=
  iterations ← optional_number 100 (arguments !! 0%nat);
  _ ← reject_if ((iterations =? 0) || bool_decide (is_Some (arguments !! 1%nat)))
        "usage: pause_benchmark [positive-iterations]";
  Ok iterations.
Definition capacity_benchmark_arguments (arguments : list string) : result string Z :=
  max_measured_workers ← optional_number 100 (arguments !! 0%nat);
  _ ← reject_if ((max_measured_workers =? 0) || bool_decide (is_Some (arguments !! 1%nat)))
        "usage: http_capacity_benchmark [positive-max-measured-workers]";
  Ok max_measured_workers.

(** The iteration counts the programs accept are positive, so every report they
    make is one the percentiles are defined for. *)
Lemma http_benchmark_arguments_positive arguments i r :
  http_benchmark_arguments arguments = Ok (i, r) → i ≠ 0 ∧ r ≠ 0 ∧ (length arguments <= 2)%nat.
Proof.
  unfold http_benchmark_arguments. intros Ha. result_inv. bool_inv. split_and!; [done|done|].
  apply lookup_ge_None. by apply eq_None_not_Some.
Qed.

(** ** The nearest rank *)

(** How many samples are at most, and below, a value. *)
Definition at_most (v : Z) (l : list Z) : Z := Z.of_nat (length (filter (λ x, x ≤ v) l)).
Definition below (v : Z) (l : list Z) : Z := Z.of_nat (length (filter (λ x, x < v) l)).
(** The least sample that at least [p] percent of the samples do not exceed. *)
Definition NearestRank (p : Z) (l : list Z) (v : Z) : Prop :=
  v ∈ l ∧ p * Z.of_nat (length l) ≤ 100 * at_most v l ∧ 100 * below v l < p * Z.of_nat (length l).

Lemma sort_unstable_perm l : sort_unstable l ≡ₚ l.
Proof. apply merge_sort_Permutation. Qed.
Lemma sort_unstable_sorted l : StronglySorted Z.le (sort_unstable l).
Proof. apply (StronglySorted_merge_sort Z.le). Qed.

Lemma filter_length_perm (P : Z → Prop) `{!∀ x, Decision (P x)} l k :
  l ≡ₚ k → length (filter P l) = length (filter P k).
Proof. intros Hp. by rewrite Hp. Qed.
Lemma nearest_rank_perm p l k v : l ≡ₚ k → NearestRank p l v → NearestRank p k v.
Proof.
  intros Hp (Hin & Hle & Hlt). unfold NearestRank, at_most, below.
  rewrite <- (filter_length_perm _ _ _ Hp), <- (filter_length_perm _ _ _ Hp), <- (Permutation_length Hp).
  split_and!; [by rewrite <- Hp|done|done].
Qed.

Lemma filter_all_length {A} (P : A → Prop) `{!∀ x, Decision (P x)} l :
  Forall P l → length (filter P l) = length l.
Proof. induction 1; [done|]. rewrite filter_cons_True by done. cbn. by f_equal. Qed.
Lemma filter_none_length {A} (P : A → Prop) `{!∀ x, Decision (P x)} l :
  Forall (λ x, ¬ P x) l → length (filter P l) = 0%nat.
Proof. induction 1; [done|]. by rewrite filter_cons_False. Qed.

(** In a sorted list position [i] has at least [i + 1] values up to it, and at
    most [i] below it. *)
Lemma sorted_counts l i v :
  StronglySorted Z.le l → l !! i = Some v →
  Z.of_nat i + 1 ≤ at_most v l ∧ below v l ≤ Z.of_nat i.
Proof.
  intros Hs Hi. rewrite <- (take_drop_middle l i v Hi) in Hs |- *.
  assert (length (take i l) = i) as Hlen by (apply length_take_le, Nat.lt_le_incl; by eapply lookup_lt_Some).
  apply StronglySorted_app in Hs as (Hcross & _ & Hd). inversion_clear Hd as [|?? _ Hall].
  unfold at_most, below. rewrite !filter_app, !length_app. split.
  - rewrite filter_all_length, filter_cons_True by (lia || apply Forall_forall; intros x Hx; apply Hcross; set_solver).
    cbn. lia.
  - rewrite filter_cons_False by lia. rewrite (filter_none_length _ (drop (S i) l)).
    + pose proof (length_filter (λ x, x < v) (take i l)). lia.
    + eapply Forall_impl; [exact Hall|]. cbn. lia.
Qed.

Lemma percentile_index_range n p :
  1 ≤ n → 1 ≤ p ≤ 100 → n * p ≤ usize_max →
  ∃ i, percentile_index n p = Some i ∧ 0 ≤ i < n ∧ 100 * i < p * n ≤ 100 * (i + 1).
Proof.
  intros Hn Hp Hmax. unfold percentile_index. rewrite (proj2 (Z.ltb_ge _ _)) by done.
  eexists. split; [done|]. unfold saturating_sub, div_ceil.
  pose proof (Z.div_mod (n * p + 100 - 1) 100 ltac:(done)) as Hd.
  pose proof (Z.mod_pos_bound (n * p + 100 - 1) 100 ltac:(done)) as Hm.
  set (q := (n * p + 100 - 1) / 100) in *. nia.
Qed.

Lemma percentile_value_rank l p :
  l ≠ [] → 1 ≤ p ≤ 100 → Z.of_nat (length l) * p ≤ usize_max →
  ∃ v, percentile_value (sort_unstable l) p = Some v ∧ NearestRank p l v.
Proof.
  intros Hl Hp Hmax. assert (1 ≤ Z.of_nat (length l)) by (destruct l; [done|cbn; lia]).
  destruct (percentile_index_range (Z.of_nat (length l)) p) as (i & Hi & Hr & Hb); [done..|].
  pose proof (Permutation_length (sort_unstable_perm l)) as Hlen.
  destruct (lookup_lt_is_Some_2 (sort_unstable l) (Z.to_nat i)) as [v Hv]; [lia|].
  exists v. split.
  - unfold percentile_value. rewrite Hlen, Hi. done.
  - apply (nearest_rank_perm p (sort_unstable l)); [apply sort_unstable_perm|].
    destruct (sorted_counts _ _ _ (sort_unstable_sorted l) Hv) as [Ha Hbl]. split_and!.
    + by eapply list_elem_of_lookup_2.
    + rewrite Hlen. lia.
    + rewrite Hlen. lia.
Qed.

Lemma at_most_below u v l : u < v → at_most u l ≤ below v l.
Proof.
  intros Huv. unfold at_most, below.
  induction l as [|x l IH]; [done|]. rewrite !filter_cons.
  destruct (decide (x ≤ u)), (decide (x < v)); cbn; lia.
Qed.
Lemma nearest_rank_unique p l u v : NearestRank p l u → NearestRank p l v → u = v.
Proof.
  intros (_ & Hu & Hu') (_ & Hv & Hv'). destruct (Z.lt_trichotomy u v) as [Hlt|[->|Hlt]]; [|done|].
  - pose proof (at_most_below u v l Hlt). lia.
  - pose proof (at_most_below v u l Hlt). lia.
Qed.
Lemma nearest_rank_mono p q l u v : p ≤ q → NearestRank p l u → NearestRank q l v → u ≤ v.
Proof.
  intros Hpq (_ & Hu & Hu') (_ & Hv & Hv'). destruct (Z.le_gt_cases u v) as [|Hlt]; [done|].
  pose proof (at_most_below v u l Hlt). nia.
Qed.

(** A reported percentile is the nearest-rank percentile of its samples:
    for at least one sample and a percentile from 1 to 100 the computation never
    indexes out of range, and it returns [v] exactly when [v] is the least
    sample that at least that share of the samples does not exceed. *)
Theorem percentile_nearest_rank l p v :
  l ≠ [] → 1 ≤ p ≤ 100 → Z.of_nat (length l) * p ≤ usize_max →
  percentile_value (sort_unstable l) p = Some v ↔ NearestRank p l v.
Proof.
  intros Hl Hp Hmax. destruct (percentile_value_rank l p Hl Hp Hmax) as (u & Hu & Hr). split.
  - intros Hv. congruence.
  - intros Hv. by rewrite (nearest_rank_unique p l v u Hv Hr).
Qed.

(** ** Reports *)

(** Each field of the two summaries is the nearest rank of that field, and the
    median does not exceed the 95th percentile. *)
Definition Summarizes {S} (samples : list S) (p50 p95 : S) (select : S → Z) : Prop :=
  NearestRank 50 (select <$> samples) (select p50) ∧ NearestRank 95 (select <$> samples) (select p95) ∧
  select p50 ≤ select p95.

Lemma field_percentile_rank {S} (samples : list S) p (select : S → Z) :
  samples ≠ [] → 1 ≤ p ≤ 100 → Z.of_nat (length samples) * p ≤ usize_max →
  ∃ v, field_percentile samples p select = Some v ∧ NearestRank p (select <$> samples) v.
Proof.
  intros Hs Hp Hmax. apply percentile_value_rank; [by destruct samples|done|by rewrite length_fmap].
Qed.
Lemma summarizes_intro {S} (samples : list S) p50 p95 (select : S → Z) :
  NearestRank 50 (select <$> samples) (select p50) → NearestRank 95 (select <$> samples) (select p95) →
  Summarizes samples p50 p95 select.
Proof. intros H50 H95. split_and!; [done|done|]. by apply (nearest_rank_mono 50 95 (select <$> samples)). Qed.

(** Take the percentiles of one field. *)
Ltac take_field samples p f :=
  let v := fresh "v" in let Hv := fresh "Hv" in let Hr := fresh "Hr" in
  destruct (field_percentile_rank samples p f) as (v & Hv & Hr); [done|lia|lia|rewrite Hv; cbn [mbind option_bind]].

Lemma percentile_sample_rank samples p :
  samples ≠ [] → 1 ≤ p ≤ 100 → Z.of_nat (length samples) * p ≤ usize_max →
  ∃ s, percentile_sample samples p = Some s ∧
    Forall (λ f, NearestRank p (f <$> samples) (f s))
      [hs_runtime_init_ns; hs_service_prepare_ns; hs_service_start_total_ns; hs_request_ns; hs_harness_total_ns].
Proof.
  intros Hs Hp Hmax. unfold percentile_sample.
  take_field samples p hs_runtime_init_ns. take_field samples p hs_service_prepare_ns.
  take_field samples p hs_service_start_total_ns. take_field samples p hs_request_ns.
  take_field samples p hs_harness_total_ns.
  eexists. split; [done|]. repeat (apply Forall_cons_2; [done|]). constructor.
Qed.
Lemma tier_percentile_rank samples p :
  samples ≠ [] → 1 ≤ p ≤ 100 → Z.of_nat (length samples) * p ≤ usize_max →
  ∃ s, tier_percentile samples p = Some s ∧
    Forall (λ f, NearestRank p (f <$> samples) (f s))
      [ts_runtime_init_ns; ts_prepare_ns; ts_instantiate_ns; ts_execute_ns; ts_suspended_ns;
       ts_active_execute_ns; ts_call_total_ns; ts_harness_total_ns].
Proof.
  intros Hs Hp Hmax. unfold tier_percentile.
  take_field samples p ts_runtime_init_ns. take_field samples p ts_prepare_ns.
  take_field samples p ts_instantiate_ns. take_field samples p ts_execute_ns.
  take_field samples p ts_suspended_ns. take_field samples p ts_active_execute_ns.
  take_field samples p ts_call_total_ns. take_field samples p ts_harness_total_ns.
  eexists. split; [done|]. repeat (apply Forall_cons_2; [done|]). constructor.
Qed.

Lemma distribution_summarizes samples :
  samples ≠ [] → Z.of_nat (length samples) * 95 ≤ usize_max →
  ∃ d, distribution samples = Some d ∧ dist_samples d = samples ∧
    Forall (Summarizes samples (dist_p50 d) (dist_p95 d))
      [hs_runtime_init_ns; hs_service_prepare_ns; hs_service_start_total_ns; hs_request_ns; hs_harness_total_ns].
Proof.
  intros Hs Hmax. unfold distribution.
  destruct (percentile_sample_rank samples 50) as (p50 & -> & H50); [done|lia|lia|]. cbn [mbind option_bind].
  destruct (percentile_sample_rank samples 95) as (p95 & -> & H95); [done|lia|lia|]. cbn [mbind option_bind].
  eexists. split_and!; [done|done|]. cbn [dist_p50 dist_p95]. apply Forall_forall. intros f Hf.
  rewrite Forall_forall in H50, H95. apply summarizes_intro; auto.
Qed.
Lemma report_summarizes state samples :
  samples ≠ [] → Z.of_nat (length samples) * 95 ≤ usize_max →
  ∃ r, report state samples = Some r ∧ report_samples r = samples ∧ report_state r = state ∧
    Forall (Summarizes samples (report_p50 r) (report_p95 r))
      [ts_runtime_init_ns; ts_prepare_ns; ts_instantiate_ns; ts_execute_ns; ts_suspended_ns;
       ts_active_execute_ns; ts_call_total_ns; ts_harness_total_ns].
Proof.
  intros Hs Hmax. unfold report.
  destruct (tier_percentile_rank samples 50) as (p50 & -> & H50); [done|lia|lia|]. cbn [mbind option_bind].
  destruct (tier_percentile_rank samples 95) as (p95 & -> & H95); [done|lia|lia|]. cbn [mbind option_bind].
  eexists. split_and!; [done|done|done|]. cbn [report_p50 report_p95]. apply Forall_forall. intros f Hf.
  rewrite Forall_forall in H50, H95. apply summarizes_intro; auto.
Qed.

(** ** Batches *)

Lemma div_ceil_spec a b : 0 < b → a ≤ div_ceil a b * b < a + b.
Proof.
  intros Hb. unfold div_ceil. pose proof (Z.div_mod (a + b - 1) b ltac:(lia)).
  pose proof (Z.mod_pos_bound (a + b - 1) b Hb). nia.
Qed.

Lemma batches_spec c r offsets :
  1 ≤ c → 1 ≤ r → step_by r c = Some offsets →
  Forall (λ o, 1 ≤ batch_count c r o ≤ c) offsets ∧ zsum (batch_count c r) offsets = r.
Proof.
  intros Hc Hr. unfold step_by. rewrite (proj2 (Z.eqb_neq _ _)) by lia. intros [= <-].
  pose proof (div_ceil_spec r c ltac:(lia)) as Hd.
  assert (0 < div_ceil r c) as Hpos by nia.
  assert (∀ n, Z.of_nat n ≤ div_ceil r c →
    zsum (batch_count c r) ((λ i, Z.of_nat i * c) <$> seq 0 n) = Z.min r (Z.of_nat n * c)) as Hsum.
  { induction n as [|n IH]; intros Hn; [cbn; lia|]. rewrite seq_S, fmap_app, zsum_app, IH by lia.
    cbn [fmap list_fmap zsum foldr]. unfold batch_count. nia. }
  split.
  - apply Forall_fmap, Forall_forall. intros i Hi%elem_of_seq. cbn. unfold batch_count. nia.
  - rewrite Hsum by lia. rewrite Z2Nat.id by lia. lia.
Qed.

Lemma join_all_app {E} (a b : list (result E Z)) l :
  join_all (a ++ b) l = l' ← join_all a l; join_all b l'.
Proof. revert l. induction a as [|[x|e] a IH]; intros l; cbn; [done|apply IH|done]. Qed.
Lemma run_batches_join {E} (batch : Z → Z → list (result E Z)) c r offsets l :
  run_batches batch c r offsets l =
  join_all (offsets ≫= λ o, batch o (batch_count c r o)) l.
Proof.
  revert l. induction offsets as [|o offsets IH]; intros l; [done|]. cbn [run_batches].
  rewrite bind_cons, join_all_app. destruct (join_all _ l); cbn; [apply IH|done].
Qed.
Lemma join_all_length {E} (a : list (result E Z)) l l' :
  join_all a l = Ok l' → length l' = (length l + length a)%nat.
Proof.
  revert l. induction a as [|[x|e] a IH]; intros l Hj; cbn in Hj; [|apply IH in Hj|done].
  - injection Hj as <-. cbn. lia.
  - rewrite Hj, length_app. cbn. lia.
Qed.

(** The throughput measurement covers exactly the requested load: the
    batches have at least one request and at most the configured concurrency,
    and together all requests; the run fails with the first failure, or reports
    the median and the 95th percentile of exactly those latencies, which never
    panics, with the requests per second rounded down. *)
Theorem throughput_measures {E} (batch : Z → Z → list (result E Z)) c r elapsed :
  1 ≤ c → 1 ≤ r → r * 95 ≤ usize_max → (∀ o n, 0 ≤ n → Z.of_nat (length (batch o n)) = n) →
  ∃ offsets, step_by r c = Some offsets ∧
    Forall (λ o, 1 ≤ batch_count c r o ≤ c) offsets ∧ zsum (batch_count c r) offsets = r ∧
    match join_all (offsets ≫= λ o, batch o (batch_count c r o)) [] with
    | Err e => throughput batch c r elapsed = Some (Err e)
    | Ok latencies =>
        Z.of_nat (length latencies) = r ∧
        ∃ t, throughput batch c r elapsed = Some (Ok t) ∧
          NearestRank 50 latencies (tp_latency_p50_ns t) ∧ NearestRank 95 latencies (tp_latency_p95_ns t) ∧
          tp_latency_p50_ns t ≤ tp_latency_p95_ns t ∧
          tp_requests_per_second t = Z.min (r * 1000000000 / Z.max elapsed 1) u64_max
    end.
Proof.
  intros Hc Hr Hmax Hlen.
  destruct (step_by r c) as [offsets|] eqn:Hs;
    [|unfold step_by in Hs; rewrite (proj2 (Z.eqb_neq _ _)) in Hs by lia; done].
  destruct (batches_spec c r offsets Hc Hr Hs) as [Hb Hsum]. exists offsets. split_and!; [done..|].
  unfold throughput. rewrite Hs. cbn [mbind option_bind]. rewrite run_batches_join.
  destruct (join_all _ []) as [lat|e] eqn:Hj; [|done].
  assert (Z.of_nat (length lat) = r) as Hl.
  { apply join_all_length in Hj. rewrite Hj. cbn [length]. rewrite Nat.add_0_l.
    transitivity (zsum (batch_count c r) offsets); [|done]. clear -Hb Hlen.
    induction Hb as [|o l Ho Hb IH]; [done|]. rewrite bind_cons, length_app, Nat2Z.inj_add, IH, Hlen by lia. done. }
  assert (lat ≠ []) as Hne by (intros ->; cbn in Hl; lia). split; [done|].
  destruct (percentile_value_rank lat 50 Hne) as (p50 & -> & H50); [lia|lia|]. cbn [mbind option_bind].
  destruct (percentile_value_rank lat 95 Hne) as (p95 & -> & H95); [lia|lia|]. cbn [mbind option_bind].
  eexists. split_and!; [done|done|done|by eapply (nearest_rank_mono 50 95)|done].
Qed.

(** ** Capacity *)

Lemma find_measured_measure n f w :
  1 ≤ n →
  find_measured (measure n f) w =
    if bool_decide (1 ≤ w ≤ n) && measured_at n w then Some (f w) else None.
Proof.
  intros Hn. unfold find_measured, measure.
  destruct (list_find _ _) as [[i m]|] eqn:Hf; cbn.
  - apply list_find_Some in Hf as (Hi & <- & _). apply list_lookup_fmap_Some in Hi as (x & -> & Hx).
    apply list_elem_of_lookup_2, list_elem_of_filter in Hx as [Hm Hx%elem_of_seqZ]. cbn.
    rewrite bool_decide_eq_true_2, Hm by lia. done.
  - apply list_find_None in Hf. destruct (bool_decide (1 ≤ w ≤ n)) eqn:Hw; [|done].
    destruct (measured_at n w) eqn:Hm; [|done]. bool_inv. exfalso. rewrite Forall_forall in Hf.
    apply (Hf (w, f w)); [|done]. apply list_elem_of_fmap. exists w. split; [done|].
    apply list_elem_of_filter. split; [done|]. apply elem_of_seqZ. lia.
Qed.

Lemma find_measured_one n f : 1 ≤ n → find_measured (measure n f) 1 = Some (f 1).
Proof.
  intros Hn. rewrite find_measured_measure by done. unfold measured_at.
  by rewrite bool_decide_eq_true_2, (bool_decide_eq_true_2 (1 ∈ COUNTS)) by (lia || unfold COUNTS; set_solver).
Qed.

(** The capacity report says of each of its counts whether it was measured,
    which is exactly when the run reached it, and gives the reading taken then.
    The marginal size is the growth from one worker to all of them, divided by
    the workers added and rounded down; the projection never promises more than
    a gibibyte. *)
Theorem capacity_report_exact n rss_after baseline measured_rss :
  1 ≤ n →
  let measured := measure n rss_after in
  let b := worker_basis n baseline measured_rss measured in
  Forall (λ r, rw_measured r = bool_decide (rw_workers r ≤ n) ∧
               rw_rss_bytes r = (if bool_decide (rw_workers r ≤ n) then Some (rss_after (rw_workers r)) else None))
    (resident_workers baseline measured) ∧
  one_worker_rss_bytes b = rss_after 1 ∧
  (1 < n → marginal_rss_per_worker_bytes b * (n - 1) ≤ Z.max 0 (measured_rss - rss_after 1)
           < (marginal_rss_per_worker_bytes b + 1) * (n - 1)) ∧
  projected_workers_per_gib b * marginal_rss_per_worker_bytes b ≤ 2 ^ 30.
Proof.
  intros Hn measured b. split_and!.
  - unfold resident_workers. apply Forall_fmap, Forall_forall. intros w Hw. cbn -[find_measured].
    unfold measured. rewrite find_measured_measure by done. unfold measured_at.
    rewrite (bool_decide_eq_true_2 (w ∈ COUNTS)), andb_true_r by done.
    assert (1 ≤ w) by (unfold COUNTS in Hw; set_solver by lia).
    rewrite (bool_decide_ext (1 ≤ w ≤ n) (w ≤ n)) by lia.
    destruct (bool_decide (w ≤ n)); split; done.
  - unfold b, worker_basis, measured. cbn -[find_measured]. by rewrite find_measured_one.
  - intros H1. unfold b, worker_basis, measured. cbn -[find_measured].
    rewrite find_measured_one by done. cbn -[Z.div].
    unfold saturating_sub. rewrite (proj2 (Z.eqb_neq _ _)) by lia. rewrite (Z.max_r 0 (n - 1)) by lia.
    set (g := Z.max 0 (measured_rss - rss_after 1)).
    pose proof (Z.div_mod g (n - 1) ltac:(lia)). pose proof (Z.mod_pos_bound g (n - 1) ltac:(lia)).
    set (q := g / (n - 1)) in *. nia.
  - unfold b, worker_basis. cbn -[find_measured Z.shiftl Z.div Z.pow].
    change (Z.shiftl 1 30) with (2 ^ 30).
    match goal with |- context [if ?m =? 0 then 0 else 2 ^ 30 / ?m] => set (mg := m) end.
    destruct (Z.eqb_spec mg 0) as [->|Hne]; [done|].
    pose proof (Z.mul_div_le (2 ^ 30) mg) as Hmd.
    assert (0 ≤ mg); [|lia].
    unfold mg. destruct (saturating_sub n 1 =? 0) eqn:E; [done|]. apply Z.eqb_neq in E.
    apply Z.div_pos; unfold saturating_sub in *; lia.
Qed.

Module BenchmarkStatisticsExample.
Definition latencies : list Z := [30; 10; 20; 10; 50].

Lemma percentile_nearest_rank_witness :
  percentile_value (sort_unstable latencies) 50 = Some 20 ∧ NearestRank 50 latencies 20.
Proof.
  split; [vm_compute; reflexivity|].
  apply (percentile_nearest_rank latencies 50 20); [done|lia|vm_compute; done|vm_compute; reflexivity].
Defined.

(** Five requests, two at a time: batches of 2, 2 and 1. *)
Definition batch (offset n : Z) : list (result string Z) :=
  (λ i, Ok (10 * (offset + Z.of_nat i))) <$> seq 0 (Z.to_nat n).

Lemma throughput_measures_witness :
  ∃ offsets, step_by 5 2 = Some offsets ∧
    Forall (λ o, 1 ≤ batch_count 2 5 o ≤ 2) offsets ∧ zsum (batch_count 2 5) offsets = 5 ∧
    match join_all (offsets ≫= λ o, batch o (batch_count 2 5 o)) [] with
    | Err e => throughput batch 2 5 2000000000 = Some (Err e)
    | Ok latencies =>
        Z.of_nat (length latencies) = 5 ∧
        ∃ t, throughput batch 2 5 2000000000 = Some (Ok t) ∧
          NearestRank 50 latencies (tp_latency_p50_ns t) ∧ NearestRank 95 latencies (tp_latency_p95_ns t) ∧
          tp_latency_p50_ns t ≤ tp_latency_p95_ns t ∧
          tp_requests_per_second t = Z.min (5 * 1000000000 / Z.max 2000000000 1) u64_max
    end.
Proof.
  apply (throughput_measures batch 2 5 2000000000); [lia|lia|vm_compute; done|].
  intros o n Hn. unfold batch. rewrite length_fmap, length_seq. lia.
Defined.

Lemma capacity_report_exact_witness :
  one_worker_rss_bytes (worker_basis 150 500 9000 (measure 150 (λ w, 1000 + 50 * w))) = 1050.
Proof.
  destruct (capacity_report_exact 150 (λ w, 1000 + 50 * w) 500 9000 ltac:(lia)) as (_ & H1 & _). exact H1.
Defined.

(** Lines of a process status as the kernel writes them. *)
Definition status : list byte :=
  unlines [str_bytes "Name:" ++ tab :: str_bytes "bench";
           str_bytes "VmRSS:" ++ tab :: str_bytes "    1536 kB";
           str_bytes "RssAnon:" ++ tab :: str_bytes "     900 kB"].
Example status_read :
  rss_bytes (Ok status) = Some (Ok (1536 * 1024)) ∧ resident_set_kib (Ok status) = Some 1536 ∧
  rss_bytes (Ok (str_bytes "Name:")) = Some (Err "VmRSS missing").
Proof. vm_compute. done. Qed.
Example arguments_read :
  http_benchmark_arguments ["7"] = Ok (7, 1000) ∧
  tier_benchmark_arguments ["0.4"] = Err "usage: tier_benchmark [0.2|0.3] [positive-iterations]" ∧
  pause_benchmark_arguments ["0"] = Err "usage: pause_benchmark [positive-iterations]".
Proof. vm_compute. done. Qed.
Example directory_read :
  directory_bytes (Ok [Ok {| entry_extension := Some "aot"; entry_len := Ok 40 |};
                       Ok {| entry_extension := Some "json"; entry_len := Err "gone" |};
                       Ok {| entry_extension := Some "aot"; entry_len := Ok 2 |}]) "aot" = Some (Ok 42).
Proof. vm_compute. done. Qed.
End BenchmarkStatisticsExample.
