(* ===== verification/TierBenchmark.v ===== *)
(** The tier benchmark ([src/examples/tier_benchmark.rs]): a client that drives
    the runtime through its four package tiers and asserts, before it records a
    sample, that the call was served from the tier it means to measure.  Each
    scenario is modelled over the runtime model, and its assertions are proved
    to hold.  The program calls [load_bytes] outside a Tokio runtime, so no
    promotion runs beside it, and blocks on one call at a time. *)
From S2P Require Import Prelude Errors Interfaces Streams Types MemoryCache DiskCache Runtime Preparation Restart.
From S2P Require Import Pause Http Invocation BenchmarkStatistics.

Local Open Scope Z_scope.

(** A benchmark ends with its report or with an error of the library, panics,
    or blocks on a call that does not end. *)
Inductive bench (A : Type) := BOk (a : A) | BErr (e : Error) | BPanic | BPending.
Arguments BOk {A}.
Arguments BErr {A}.
Arguments BPanic {A}.
Arguments BPending {A}.
#[global] Instance bench_ret : MRet bench := λ A, BOk.
#[global] Instance bench_bind : MBind bench := λ A B f m,
  match m with BOk a => f a | BErr e => BErr e | BPanic => BPanic | BPending => BPending end.

Definition of_result {A} (r : Result A) : bench A := match r with Ok a => BOk a | Err e => BErr e end.
Definition of_option {A} (o : option A) : bench A := match o with Some a => BOk a | None => BPanic end.
Definition of_ran {A} (r : ran A) : bench A :=
  match r with Pending => BPending | Panicked => BPanic | Ended r => of_result r end.
Definition assert (b : bool) : bench unit := if b then BOk tt else BPanic.
(** The value of a computation that ends, with a property. *)
Definition Holds {A} (P : A → Prop) (m : bench A) : Prop :=
  match m with BOk a => P a | BPanic => False | _ => True end.

Lemma holds_bind {A B} (P : A → Prop) (Q : B → Prop) (m : bench A) (f : A → bench B) :
  Holds P m → (∀ a, P a → Holds Q (f a)) → Holds Q (m ≫= f).
Proof. destruct m; cbn; auto. Qed.
Lemma holds_impl {A} (P Q : A → Prop) (m : bench A) : Holds P m → (∀ a, P a → Q a) → Holds Q m.
Proof. destruct m; cbn; auto. Qed.

Section benchmark.
Context {C L O : Type} `{Engine C} `{LinkerLib L} `{PipeLib O} `{Crypto} `{Host}.
Context {JI : Json CacheIdentity} {JM : Json CacheMetadata}.
Implicit Types s : RuntimeInner C.
Implicit Types k : Linkers L.

(** One measured call: its environment and the readings of the two stopwatches
    around it. *)
Record Iteration := { it_call : CallEnv (C := C) (L := L); it_runtime_init : Z; it_harness : Z }.

(** [tokio.block_on(program.run(CommandInput::default()))?], the assertion and
    the sample. *)
Definition measured_run (expected : PackageTier) (p : Program) (runtime_init : Z) (it : Iteration) s k
    : bench (RuntimeInner C * Linkers L * TierSample) :=
  let '(s, k, r) := program_run (O := O) p default_command_input (it_call it) s k in
  output ← of_ran r;
  _ ← assert (bool_decide (prepared_from (measurement output) = expected));
  BOk (s, k, tier_sample runtime_init output (it_harness it)).

Definition create (st : Startup) (c : RuntimeConfig) (w : World) : bench (World * RuntimeInner C) :=
  '(w, r) ← of_option (runtime_new (C := C) st c w);
  r ← of_result r;
  BOk (w, inner r).
Definition block_on_prepare (p : Program) (join : option string) s : bench (RuntimeInner C) :=
  let '(s, r) := prepare (program_digest p) (program_bytes p) join id id s in
  _ ← of_result r;
  BOk s.

Fixpoint cold_loop (st : Startup) (component : list byte) (its : list Iteration) (w : World)
    (samples : list TierSample) : bench (list TierSample) :=
  match its with
  | [] => BOk samples
  | it :: its' =>
      '(w, s) ← create st default_config w;
      p ← of_result (load_bytes component);
      '(s, _, sample) ← measured_run Cold p (nanos (it_runtime_init it)) it s (linkers_new (L := L));
      cold_loop st component its' (disk_world s) (samples ++ [sample])
  end.
Definition cold_benchmark (st : Startup) (component : list byte) (its : list Iteration) (w : World) : bench StateReport :=
  samples ← cold_loop st component its w [];
  of_option (report "cold" samples).

Definition benchmark_disk_config (directory : string) : RuntimeConfig := {|
  max_warm_components := max_warm_components default_config;
  max_warmish_entries := max_warmish_entries default_config;
  config_max_warmish_bytes := config_max_warmish_bytes default_config;
  background_workers := background_workers default_config;
  paused_resident_ttl := paused_resident_ttl default_config;
  epoch_interval := epoch_interval default_config;
  disk_cache := Some (disk_cache_config_new directory (repeat (byte_of_Z 17) 32));
  limits := limits default_config |}.
Fixpoint disk_loop (st : Startup) (c : RuntimeConfig) (component : list byte) (its : list Iteration) (w : World)
    (samples : list TierSample) : bench (list TierSample) :=
  match its with
  | [] => BOk samples
  | it :: its' =>
      '(w, s) ← create st c w;
      p ← of_result (load_bytes component);
      '(s, _, sample) ← measured_run DiskAot p (nanos (it_runtime_init it)) it s (linkers_new (L := L));
      disk_loop st c component its' (disk_world s) (samples ++ [sample])
  end.
Definition disk_aot_benchmark (st : Startup) (directory : string) (component : list byte) (join : option string)
    (its : list Iteration) (w : World) : bench StateReport :=
  let c := benchmark_disk_config directory in
  '(_, s) ← create st c w;
  p ← of_result (load_bytes component);
  s ← block_on_prepare p join s;
  samples ← disk_loop st c component its (disk_world s) [];
  of_option (report "disk-aot" samples).

Definition warmish_config : RuntimeConfig := {|
  max_warm_components := 1; max_warmish_entries := 4;
  config_max_warmish_bytes := config_max_warmish_bytes default_config;
  background_workers := background_workers default_config;
  paused_resident_ttl := paused_resident_ttl default_config;
  epoch_interval := epoch_interval default_config;
  disk_cache := disk_cache default_config;
  limits := limits default_config |}.
Fixpoint warmish_loop (target evictor : Program) (its : list Iteration) s k (samples : list TierSample)
    : bench (list TierSample) :=
  match its with
  | [] => BOk samples
  | it :: its' =>
      let '(s, t) := tier (program_digest target) s in
      _ ← assert (bool_decide (t = Warmish));
      '(s, k, sample) ← measured_run Warmish target 0 it s k;
      s ← block_on_prepare evictor (ce_join (it_call it)) s;
      warmish_loop target evictor its' s k (samples ++ [sample])
  end.
Definition warmish_benchmark (st : Startup) (component evictor : list byte) (join : option string)
    (its : list Iteration) (w : World) : bench StateReport :=
  '(_, s) ← create st warmish_config w;
  target ← of_result (load_bytes component);
  evictor ← of_result (load_bytes evictor);
  s ← block_on_prepare target join s;
  s ← block_on_prepare evictor join s;
  samples ← warmish_loop target evictor its s (linkers_new (L := L)) [];
  of_option (report "warmish" samples).

Fixpoint warm_loop (p : Program) (its : list Iteration) s k (samples : list TierSample) : bench (list TierSample) :=
  match its with
  | [] => BOk samples
  | it :: its' =>
      '(s, k, sample) ← measured_run Warm p 0 it s k;
      warm_loop p its' s k (samples ++ [sample])
  end.
Definition warm_benchmark (st : Startup) (component : list byte) (join : option string) (its : list Iteration) (w : World)
    : bench StateReport :=
  '(_, s) ← create st default_config w;
  p ← of_result (load_bytes component);
  s ← block_on_prepare p join s;
  samples ← warm_loop p its s (linkers_new (L := L)) [];
  of_option (report "warm" samples).
End benchmark.
Arguments Iteration : clear implicits.

Section assertions.
Context {C L O : Type} {E : Engine C} {EL : EngineLaws C E} `{LinkerLib L} `{PipeLib O}.
Context {K : Crypto} {CL : CryptoLaws K} `{Host}.
Context {JI : Json CacheIdentity} {JM : Json CacheMetadata} {JL : JsonLaws JM}.
Implicit Types s : RuntimeInner C.
Implicit Types k : Linkers L.

(** Nothing else runs beside the benchmark's calls. *)
Definition Alone (it : Iteration C L) : Prop :=
  ce_during_lock (it_call it) = id ∧ ce_during_compile (it_call it) = id.

(** ** One call *)

Lemma memory_ready_le n m s : MemoryReady n s → m ≤ n → MemoryReady m s.
Proof. intros (? & ? & ?) Hle. split_and!; [done|done|lia]. Qed.

(** What a lookup of the tier and of the memory leaves alone. *)
Record Untouched s s' : Prop := {
  ut_warm : ∀ d, value <$> warm (memory s') !! d = value <$> warm (memory s) !! d;
  ut_warmish : ∀ d, value <$> warmish (memory s') !! d = value <$> warmish (memory s) !! d;
  ut_disk : disk s' = disk s;
  ut_locks : locks_poisoned s' = locks_poisoned s;
  ut_max : max_warm (memory s') = max_warm (memory s);
  ut_max_warmish : max_warmish (memory s') = max_warmish (memory s);
  ut_max_bytes : max_warmish_bytes (memory s') = max_warmish_bytes (memory s);
  ut_bytes : warmish_bytes (memory s') = warmish_bytes (memory s);
  ut_size : size (warmish (memory s')) = size (warmish (memory s));
}.
Lemma untouched_trans s1 s2 s3 : Untouched s1 s2 → Untouched s2 s3 → Untouched s1 s3.
Proof. intros [] []. split; congruence. Qed.

Lemma lookup_warm_untouched n d s :
  MemoryReady (n + 1) s → 0 ≤ n →
  ∃ s', with_memory (lookup_warm d) s = (s', Ok (value <$> warm (memory s) !! d)) ∧
    s' = set_memory (lookup_warm d (memory s)).1 s ∧ MemoryReady n s' ∧ Untouched s s'.
Proof.
  intros Hr Hn. destruct (lookup_warm_ready n d s Hr Hn) as (s' & Heq & Hr' & Hw & Hwi & Hd & Hwo & Hf & Hl).
  exists s'. pose proof Heq as Heq'. unfold with_memory in Heq'. destruct Hr as (Hp & _). rewrite Hp in Heq'.
  destruct (lookup_warm d (memory s)) as [m o] eqn:Hlk. injection Heq' as Hs' _.
  assert (m = cache_step (memory s) (LookupWarm d)) as Hm by (cbn; by rewrite Hlk).
  split_and!; [done|done|done|]. destruct (cache_step_limits (memory s) (LookupWarm d)) as (L1 & L2 & L3).
  rewrite <- Hm in L1, L2, L3. split; [done|by intros; rewrite Hwi|done|done|by rewrite <- Hs'|by rewrite <- Hs'|by rewrite <- Hs'| |by rewrite Hwi].
  rewrite <- Hs'. cbn [memory set_memory]. rewrite Hm. cbn. unfold lookup_warm. by destruct (warm (memory s) !! d).
Qed.
Lemma lookup_warmish_untouched n d s :
  MemoryReady (n + 1) s → 0 ≤ n →
  ∃ s', with_memory (lookup_warmish d) s = (s', Ok (value <$> warmish (memory s) !! d)) ∧
    s' = set_memory (lookup_warmish d (memory s)).1 s ∧ MemoryReady n s' ∧ Untouched s s'.
Proof.
  intros Hr Hn. destruct (lookup_warmish_ready n d s Hr Hn) as (s' & Heq & Hr' & Hw & Hwi & Hd & Hwo & Hf).
  exists s'. pose proof Heq as Heq'. unfold with_memory in Heq'. destruct Hr as (Hp & _). rewrite Hp in Heq'.
  destruct (lookup_warmish d (memory s)) as [m o] eqn:Hlk. injection Heq' as Hs' _.
  assert (m = cache_step (memory s) (LookupWarmish d)) as Hm by (cbn; by rewrite Hlk).
  split_and!; [done|done|done|]. destruct (cache_step_limits (memory s) (LookupWarmish d)) as (L1 & L2 & L3).
  rewrite <- Hm in L1, L2, L3. split; [by intros; rewrite Hw|done|done|by rewrite <- Hs'|by rewrite <- Hs'|by rewrite <- Hs'|by rewrite <- Hs'| |];
    rewrite <- Hs'; cbn [memory set_memory]; rewrite Hm; cbn; unfold lookup_warmish;
    destruct (warmish (memory s) !! d) eqn:Hd'; cbn; try done.
  by rewrite map_size_insert_Some by eauto.
Qed.

(** [tier] of a package the memory holds, and of one it does not. *)
Lemma tier_memory n d s t :
  MemoryReady (n + 2) s → 0 ≤ n →
  (is_Some (warm (memory s) !! d) ∧ t = Warm ∨
   warm (memory s) !! d = None ∧ is_Some (warmish (memory s) !! d) ∧ t = Warmish) →
  ∃ s', tier d s = (s', t) ∧ MemoryReady n s' ∧ Untouched s s'.
Proof.
  intros Hr Hn Hc. unfold tier. pose proof Hr as (-> & _).
  destruct (lookup_warm_untouched (n + 1) d s) as (s1 & Hw1 & Hs1 & Hr1 & U1);
    [by replace (n + 1 + 1) with (n + 2) by lia|lia|].
  unfold with_memory in Hw1. pose proof Hr as (Hp & _). rewrite Hp in Hw1.
  destruct (lookup_warm d (memory s)) as [m o]. injection Hw1 as _ ->. cbn [fst] in Hs1. subst s1.
  destruct Hc as [[[e He] ->]|(He & [e' He'] & ->)]; rewrite He; cbn [fmap option_fmap option_map].
  - exists (set_memory m s). split_and!; [done|eapply memory_ready_le; [done|lia]|done].
  - destruct (lookup_warmish_untouched n d (set_memory m s)) as (s2 & Hw2 & Hs2 & Hr2 & U2); [done|lia|].
    unfold with_memory in Hw2. cbn [memory_poisoned set_memory memory] in Hw2, Hs2. rewrite Hp in Hw2.
    destruct (lookup_warmish d m) as [m' o']. injection Hw2 as _ ->. cbn [fst] in Hs2. subst s2.
    pose proof (ut_warmish _ _ U1 d) as Hv. cbn [memory set_memory] in Hv. rewrite Hv, He'.
    cbn [fmap option_fmap option_map]. eexists. split_and!; [done|done|by eapply untouched_trans].
Qed.
Lemma tier_absent n d s :
  MemoryReady (n + 2) s → 0 ≤ n → warm (memory s) !! d = None → warmish (memory s) !! d = None →
  ∃ s1, MemoryReady n s1 ∧ Untouched s s1 ∧ disk_world s1 = disk_world s ∧
    tier d s = match disk s with
               | None => (s1, Cold)
               | Some dc => let '(w, found) := disk_contains_any dc d ALL_PROFILES (disk_world s) in
                            (set_disk_world w s1, if found then DiskAot else Cold)
               end.
Proof.
  intros Hr Hn He He'. unfold tier. pose proof Hr as (-> & _).
  destruct (lookup_warm_untouched (n + 1) d s) as (s1 & Hw1 & Hs1 & Hr1 & U1);
    [by replace (n + 1 + 1) with (n + 2) by lia|lia|].
  unfold with_memory in Hw1. pose proof Hr as (Hp & _). rewrite Hp, He in Hw1.
  destruct (lookup_warm d (memory s)) as [m o]. injection Hw1 as _ ->. cbn [fst] in Hs1. subst s1.
  cbn [fmap option_fmap option_map].
  destruct (lookup_warmish_untouched n d (set_memory m s)) as (s2 & Hw2 & Hs2 & Hr2 & U2); [done|lia|].
  unfold with_memory in Hw2. cbn [memory_poisoned set_memory memory] in Hw2, Hs2. rewrite Hp in Hw2.
  destruct (lookup_warmish d m) as [m' o']. injection Hw2 as _ ->. cbn [fst] in Hs2. subst s2.
  pose proof (ut_warmish _ _ U1 d) as Hv. cbn [memory set_memory] in Hv. rewrite Hv, He'.
  cbn [fmap option_fmap option_map].
  exists (set_memory m' (set_memory m s)). split_and!; [done|by eapply untouched_trans|done|].
  cbn [disk set_memory]. done.
Qed.

(** A command never panics; one that returns was prepared, and reports the tier
    that was found before. *)
Lemma run_controlled_tier p input (x : CallEnv (C := C) (L := L)) s s1 t k s' k' r :
  tier (program_digest p) s = (s1, t) → run_controlled (O := O) p input x s k = (s', k', r) →
  r ≠ Panicked ∧ ∀ out, r = Ended (Ok out) →
    prepared_from (measurement out) = t ∧
    ∃ prepared, prepare (program_digest p) (program_bytes p) (ce_join x) (ce_during_lock x)
                  (ce_during_compile x) s1 = (s', Ok prepared).
Proof.
  intros Ht. unfold run_controlled. rewrite Ht.
  destruct (_ <? _); [by intros [= <- <- <-]|]. destruct (_ || _); [by intros [= <- <- <-]|].
  destruct (cancelled input); [by intros [= <- <- <-]|].
  destruct (prepare _ _ _ _ _ _) as [s2 [prepared|e]]; [|by intros [= <- <- <-]].
  destruct (negb (is_command (prepared_profile prepared))) eqn:Hc; [by intros [= <- <- <-]|].
  destruct (invoke _ _ _ _ _) as [k1 [| |[i|e]]] eqn:Hi; intros [= <- <- <-]; try done.
  - exfalso. unfold invoke in Hi. destruct (ie_set_fuel _); [|done].
    destruct (prepared_profile prepared); try done; cbn in Hi;
      [destruct (p3_linker k) as [? []]|destruct (p2_linker k) as [? []]]; try done;
      destruct (call_run _ _ _ _) as [? c]; by destruct (call_stage c).
  - split; [done|]. intros out [= <-]. split; [done|]. by exists prepared.
Qed.

Lemma measured_run_ok expected p init it s s1 k :
  Alone it → tier (program_digest p) s = (s1, expected) →
  Holds (λ x, ∃ prepared, prepare (program_digest p) (program_bytes p) (ce_join (it_call it)) id id s1
                          = (x.1.1, Ok prepared))
    (measured_run (O := O) expected p init it s k).
Proof.
  intros [Hl Hc] Ht. unfold measured_run, program_run.
  destruct (run_controlled _ _ _ _ _) as [[s' k'] r] eqn:Hr.
  eapply run_controlled_tier in Hr as [Hnp Hout]; [|exact Ht].
  destruct r as [| |[out|e]]; try done. destruct (Hout out eq_refl) as [Hf Hp]. cbn.
  rewrite bool_decide_eq_true_2 by done. cbn. cbn in Hp. by rewrite Hl, Hc in Hp.
Qed.

(** ** Warm calls *)

(** The package is warm; [n] uses of the cache are left. *)
Definition WarmState (n : Z) (d : string) s : Prop := MemoryReady n s ∧ is_Some (warm (memory s) !! d).

Lemma untouched_warm s s' d : Untouched s s' → is_Some (warm (memory s) !! d) → is_Some (warm (memory s') !! d).
Proof.
  intros [Hw _ _ _ _ _ _ _ _] Hs. specialize (Hw d). destruct Hs as [e He]. rewrite He in Hw. by apply fmap_Some in Hw as (e' & -> & _).
Qed.

Lemma warm_call n p init it s k :
  Alone it → WarmState (n + 3) (program_digest p) s → 0 ≤ n →
  Holds (λ x, WarmState n (program_digest p) x.1.1) (measured_run (O := O) Warm p init it s k).
Proof.
  intros Ha [Hr Hw] Hn. set (d := program_digest p) in *.
  destruct (tier_memory (n + 1) d s Warm) as (s1 & Ht & Hr1 & U1);
    [by replace (n + 1 + 2) with (n + 3) by lia|lia|by left|].
  pose proof (untouched_warm _ _ d U1 Hw) as Hw1.
  destruct (lookup_warm_untouched n d s1) as (s2 & Hl2 & _ & Hr2 & U2); [done|lia|].
  destruct Hw1 as [e He]. eapply holds_impl; [by eapply measured_run_ok|].
  cbn. fold d. unfold prepare. rewrite Hl2, He. cbn. intros x (prepared & [= Hx _]). rewrite <- Hx.
  split; [done|]. eapply untouched_warm; [exact U2|by rewrite He].
Qed.

Lemma warm_loop_ok p its s k samples :
  Forall Alone its → WarmState (3 * Z.of_nat (length its)) (program_digest p) s →
  Holds (λ l, length l = (length samples + length its)%nat) (warm_loop (O := O) p its s k samples).
Proof.
  intros Ha. revert s k samples. induction Ha as [|it its Hit _ IH]; intros s k samples Hw; cbn [warm_loop length].
  { cbn. lia. }
  eapply holds_bind.
  - apply (warm_call (3 * Z.of_nat (length its))); [done| |lia]. cbn [length] in Hw.
    by replace (3 * Z.of_nat (length its) + 3) with (3 * Z.of_nat (S (length its))) by lia.
  - intros [[s' k'] sample] Hw'. cbn in Hw'. eapply holds_impl; [by apply IH|].
    cbn. intros l ->. rewrite length_app. cbn. lia.
Qed.

(** A scenario ends with a report over as many samples as iterations. *)
Definition Reports (state : string) (n : nat) (r : StateReport) : Prop :=
  report_state r = state ∧ length (report_samples r) = n ∧
  Forall (Summarizes (report_samples r) (report_p50 r) (report_p95 r))
      [ts_runtime_init_ns; ts_prepare_ns; ts_instantiate_ns; ts_execute_ns; ts_suspended_ns;
       ts_active_execute_ns; ts_call_total_ns; ts_harness_total_ns].
Lemma report_holds state (its : list (Iteration C L)) samples :
  its ≠ [] → Z.of_nat (length its) * 95 ≤ usize_max → length samples = length its →
  Holds (Reports state (length its)) (of_option (report state samples)).
Proof.
  intros Hne Hmax Hl. destruct (report_summarizes state samples) as (r & -> & Hs & Hst & Hsum).
  - intros ->. by destruct its.
  - by rewrite Hl.
  - cbn. unfold Reports. rewrite Hs. by split_and!.
Qed.

(** ** Construction *)

Lemma create_ok st c w :
  config_in_range c → background_workers c ≤ max_permits →
  Holds (λ x, MemoryReady (u64_max) x.2 ∧ warm (memory x.2) = ∅ ∧ warmish (memory x.2) = ∅ ∧
              locks_poisoned x.2 = false ∧ disk_publish_failures x.2 = 0 ∧ disk_world x.2 = x.1 ∧
              max_warm (memory x.2) = max_warm_components c ∧
              max_warmish (memory x.2) = max_warmish_entries c ∧
              max_warmish_bytes (memory x.2) = config_max_warmish_bytes c ∧
              (disk_cache c = None → disk x.2 = None) ∧
              ∃ r, runtime_new st c w = Some (x.1, Ok r) ∧ x.2 = inner r)
    (create (C := C) st c w).
Proof.
  intros [? [? ?] ?] Hbg. unfold create.
  destruct (runtime_new (C := C) st c w) as [[w' [r|e]]|] eqn:Hnew; cbn; [|done|].
  - destruct (runtime_new_ok (λ _, True) st c w w' r u64_max Hnew) as (Hsys & _); try done.
    pose proof Hnew as Hnew'. unfold runtime_new in Hnew.
    destruct (_ ← validate_config c; _) as [u|]; [|done].
    destruct (match disk_cache c with None => _ | Some _ => _ end) as [w1 d] eqn:Hd.
    match type of Hnew with match ?x with Ok _ => _ | Err _ => _ end = _ => destruct x as [d'|] eqn:Hd' end; [|done].
    destruct (max_permits <? background_workers c); [done|]. injection Hnew as Hw' Hr.
    destruct Hsys as [[_ Hpo Hlk Hok Hmw Hmwi Hmb Hseq _ _] _ _ _ _]. rewrite <- Hr, <- Hw' in *. cbn in *.
    split_and!; try done; [|by eauto].
    intros Hn. rewrite Hn in Hd. simplify_eq. cbn in Hd'. destruct (map_err _ _); by simplify_eq/=.
  - unfold runtime_new in Hnew.
    destruct (_ ← validate_config c; _) as [u|]; [|done].
    destruct (match disk_cache c with None => _ | Some _ => _ end) as [w1 d].
    match type of Hnew with match ?x with Ok _ => _ | Err _ => _ end = _ => destruct x end; [|done].
    destruct (Z.ltb_spec max_permits (background_workers c)); [lia|done].
Qed.

Lemma default_in_range : config_in_range default_config.
Proof. split; vm_compute; by repeat split. Qed.

Lemma block_on_prepare_ok n p join s :
  MemoryReady (n + 5) s → 0 ≤ n →
  Holds (λ s', WarmState n (program_digest p) s') (block_on_prepare (C := C) p join s).
Proof.
  intros Hr Hn. unfold block_on_prepare. destruct (prepare _ _ _ _ _ _) as [s' [c|e]] eqn:Hp; [|done].
  apply (prepare_ready n) in Hp as [Hr' Hw]; [|done..]. cbn. split; [done|].
  by apply fmap_Some in Hw as (e & -> & _).
Qed.

Lemma warm_benchmark_ok st component join its w :
  Forall Alone its → its ≠ [] → Z.of_nat (length its) * 95 ≤ usize_max →
  3 * Z.of_nat (length its) + 5 ≤ u64_max →
  Holds (Reports "warm" (length its)) (warm_benchmark (O := O) st component join its w).
Proof.
  intros Ha Hne Hmax Hu. unfold warm_benchmark.
  eapply holds_bind; [by apply create_ok; [apply default_in_range|vm_compute]|].
  intros [w' s] (Hr & _). cbn [fst snd] in Hr. eapply (holds_bind (λ _, True)); [by destruct (load_bytes _)|].
  intros p _. eapply holds_bind.
  - apply (block_on_prepare_ok (3 * Z.of_nat (length its))); [|lia]. eapply memory_ready_le; [exact Hr|lia].
  - intros s' Hs'. eapply holds_bind; [by apply warm_loop_ok|]. cbn. intros l Hl. by apply report_holds.
Qed.

(** ** Cold calls *)

Lemma cold_loop_ok st component its w samples :
  Forall Alone its →
  Holds (λ l, length l = (length samples + length its)%nat) (cold_loop (O := O) st component its w samples).
Proof.
  intros Ha. revert w samples. induction Ha as [|it its Hit _ IH]; intros w samples; cbn [cold_loop length].
  { cbn. lia. }
  eapply holds_bind; [by apply create_ok; [apply default_in_range|vm_compute]|].
  intros [w' s] (Hr & Hw & Hwi & _ & _ & _ & _ & _ & _ & Hd & _). cbn [fst snd] in *.
  eapply (holds_bind (λ _, True)); [by destruct (load_bytes _)|]. intros p _.
  destruct (tier_absent 0 (program_digest p) s) as (s1 & _ & _ & _ & Ht);
    [by eapply memory_ready_le|done|by rewrite Hw, lookup_empty|by rewrite Hwi, lookup_empty|].
  rewrite Hd in Ht by done.
  eapply holds_bind; [by eapply measured_run_ok|]. intros [[s2 k2] sample] _.
  eapply holds_impl; [by apply IH|]. cbn. intros l ->. rewrite length_app. cbn. lia.
Qed.
Lemma cold_benchmark_ok st component its w :
  Forall Alone its → its ≠ [] → Z.of_nat (length its) * 95 ≤ usize_max →
  Holds (Reports "cold" (length its)) (cold_benchmark (O := O) st component its w).
Proof.
  intros Ha Hne Hmax. unfold cold_benchmark. eapply holds_bind; [by apply cold_loop_ok|].
  cbn. intros l Hl. by apply report_holds.
Qed.

(** ** Warmish calls *)

(** Both artifacts are retained and deserialize; of the two components only
    [other]'s may be warm. *)
Record Alternating (n : Z) (d other : string) (a b : PreparedAot) (ca cb : PreparedComponent C) s : Prop := {
  alt_ready : MemoryReady n s;
  alt_locks : locks_poisoned s = false;
  alt_max : max_warm (memory s) = 1;
  alt_cold : warm (memory s) !! d = None;
  alt_aot : value <$> warmish (memory s) !! d = Some a;
  alt_other : value <$> warmish (memory s) !! other = Some b;
  alt_distinct : d ≠ other;
  alt_component : deserialize_component a = Ok ca;
  alt_other_component : deserialize_component b = Ok cb;
}.
Lemma alternating_untouched n n' d o a b ca cb s s' :
  Alternating n d o a b ca cb s → Untouched s s' → MemoryReady n' s' → Alternating n' d o a b ca cb s'.
Proof.
  intros [] [Hw Hwi Hd Hl Hm _ _ _ _] Hr'. split; try done; try congruence.
  specialize (Hw d). rewrite alt_cold0 in Hw. by apply fmap_None in Hw.
Qed.

Lemma single_warm (m : MemoryCache C) d o :
  CacheOk m → max_warm m = 1 → is_Some (warm m !! d) → d ≠ o → warm m !! o = None.
Proof.
  intros Hok Hm [e He] Hne. destruct (warm m !! o) as [e'|] eqn:Ho; [|done]. exfalso.
  pose proof (ok_warm_size m Hok) as Hs. rewrite Hm in Hs.
  rewrite <- (insert_id _ _ _ He), <- insert_delete_eq in Hs.
  rewrite map_size_insert_None in Hs by apply lookup_delete_eq.
  assert (delete d (warm m) !! o = Some e') as Hd by by rewrite lookup_delete_ne.
  pose proof (map_size_ne_0_lookup_2 (delete d (warm m)) o ltac:(by rewrite Hd)). lia.
Qed.

(** Preparing the package that is not warm swaps the roles. *)
Lemma promote n d o a b ca cb source join s :
  Alternating (n + 5) d o a b ca cb s → 0 ≤ n →
  ∃ s', prepare d source join id id s = (s', Ok ca) ∧ Alternating n o d b a cb ca s'.
Proof.
  intros Halt Hn. pose proof Halt as [Hr Hl Hm Hc Ha Hb Hne Hda Hdb].
  destruct (lookup_warm_untouched (n + 4) d s) as (s1 & E1 & _ & R1 & U1);
    [by replace (n + 4 + 1) with (n + 5) by lia|lia|].
  pose proof (alternating_untouched _ (n + 4) _ _ _ _ _ _ _ _ Halt U1 R1) as Halt1.
  destruct (lookup_warm_untouched (n + 3) d (add_lock d s1)) as (s2 & E2 & _ & R2 & U2);
    [by replace (n + 3 + 1) with (n + 4) by lia|lia|].
  assert (Alternating (n + 4) d o a b ca cb (add_lock d s1)) as Halt1' by (destruct Halt1; by split).
  pose proof (alternating_untouched _ (n + 3) _ _ _ _ _ _ _ _ Halt1' U2 R2) as Halt2.
  destruct (lookup_warmish_untouched (n + 2) d s2) as (s3 & E3 & _ & R3 & U3);
    [by replace (n + 2 + 1) with (n + 3) by lia|lia|].
  pose proof (alternating_untouched _ (n + 2) _ _ _ _ _ _ _ _ Halt2 U3 R3) as Halt3.
  destruct (retain_ready n d ca [] s3) as (E4 & R4 & Hw4); [by left|done|done|]. cbn [cache_run foldl] in *.
  exists (set_memory (insert_warm d ca (memory s3)) s3). split.
  - unfold prepare. rewrite E1, Hc. cbn [fmap option_fmap option_map io_bind].
    rewrite (alt_locks _ _ _ _ _ _ _ _ Halt1). cbv [id]. unfold prepare_locked.
    rewrite E2, (alt_cold _ _ _ _ _ _ _ _ Halt1'). cbn [fmap option_fmap option_map io_bind].
    rewrite E3, (alt_aot _ _ _ _ _ _ _ _ Halt2). cbn [io_bind]. rewrite Hda, E4. done.
  - destruct Halt3 as [(Hpo & Hok & Hseq) ? ? ? ? ? ? ? ?].
    destruct (insert_warm_ok d ca (memory s3) Hok ltac:(lia)) as (Hok' & _ & _ & Hwi).
    split; cbn [memory set_memory locks_poisoned]; rewrite ?Hwi; try done.
    apply (single_warm _ d); [done|done| |done]. by apply fmap_Some in Hw4 as (? & -> & _).
Qed.

Lemma warmish_loop_ok target evictor a b ca cb its s k samples :
  Forall Alone its →
  Alternating (14 * Z.of_nat (length its)) (program_digest target) (program_digest evictor) a b ca cb s →
  Holds (λ l, length l = (length samples + length its)%nat)
    (warmish_loop (O := O) target evictor its s k samples).
Proof.
  intros Ha. revert s k samples. induction Ha as [|it its Hit _ IH]; intros s k samples Halt;
    cbn [warmish_loop length] in *.
  { cbn. lia. }
  set (n := 14 * Z.of_nat (length its)) in *.
  assert (Alternating (n + 14) (program_digest target) (program_digest evictor) a b ca cb s) as H14
    by by replace (n + 14) with (14 * Z.of_nat (S (length its))) by lia.
  clear Halt. assert (is_Some (warmish (memory s) !! program_digest target)) as Hin.
  { pose proof (alt_aot _ _ _ _ _ _ _ _ H14) as Hv. by apply fmap_Some in Hv as (e & -> & _). }
  destruct (tier_memory (n + 12) (program_digest target) s Warmish) as (s1 & -> & R1 & U1);
    [replace (n + 12 + 2) with (n + 14) by lia; apply H14|lia|right; split; [apply H14|done]|].
  pose proof (alternating_untouched _ _ _ _ _ _ _ _ _ _ H14 U1 R1) as H12.
  rewrite bool_decide_eq_true_2 by done. cbn [assert mbind bench_bind].
  assert (is_Some (warmish (memory s1) !! program_digest target)) as Hin1.
  { pose proof (alt_aot _ _ _ _ _ _ _ _ H12) as Hv. by apply fmap_Some in Hv as (e & -> & _). }
  destruct (tier_memory (n + 10) (program_digest target) s1 Warmish) as (s2 & Ht2 & R2 & U2);
    [replace (n + 10 + 2) with (n + 12) by lia; apply H12|lia|right; split; [apply H12|done]|].
  pose proof (alternating_untouched _ _ _ _ _ _ _ _ _ _ H12 U2 R2) as H10.
  replace (n + 10) with (n + 5 + 5) in H10 by lia.
  destruct (promote (n + 5) _ _ _ _ _ _ (program_bytes target) (ce_join (it_call it)) s2 H10) as (s3 & Hp3 & H5);
    [lia|].
  eapply holds_bind; [by eapply measured_run_ok|]. cbn. intros [[s' k'] sample] (c & Hp'). cbn in Hp'.
  rewrite Hp3 in Hp'. injection Hp' as <- _.
  destruct (promote n _ _ _ _ _ _ (program_bytes evictor) (ce_join (it_call it)) s3 H5) as (s4 & Hp4 & Halt4); [lia|].
  unfold block_on_prepare. rewrite Hp4. cbn [of_result mbind bench_bind].
  eapply holds_impl; [by apply IH|]. cbn. intros l ->. rewrite length_app. cbn. lia.
Qed.

(** Compilation without a disk cache, into a memory that has room. *)
Lemma insert_warmish_fits d v (m : MemoryCache C) :
  CacheOk m → sequence m < u64_max → warmish m !! d = None →
  Z.of_nat (size (warmish m)) < max_warmish m →
  warmish_bytes m + blen (aot_bytes v) ≤ max_warmish_bytes m →
  warmish (insert_warmish d v m) = <[d := mkEntry v (sequence m + 1)]> (warmish m) ∧
  warmish_bytes (insert_warmish d v m) = warmish_bytes m + blen (aot_bytes v) ∧
  warm (insert_warmish d v m) = warm m.
Proof.
  intros Hok Hs Hd Hsz Hb. pose proof (blen_nonneg (aot_bytes v)) as Hnn.
  pose proof (total_bytes_nonneg (warmish m)) as Htn. pose proof (ok_accounting m Hok) as Hacc.
  unfold insert_warmish. rewrite (proj2 (Z.ltb_ge _ _)) by lia. cbn zeta.
  rewrite (insert_warmish_bytes d v m (next_tick (sequence m))) by (done || lia).
  rewrite next_tick_succ by (split; [apply Hok|done]).
  set (w := <[d := mkEntry v (sequence m + 1)]> (warmish m)).
  assert (total_bytes w = warmish_bytes m + blen (aot_bytes v)) as Ht
    by (unfold w; rewrite total_bytes_insert by done; unfold aot_len; cbn [value]; lia).
  assert (size w = S (size (warmish m))) as Hsw by (unfold w; by rewrite map_size_insert_None).
  assert (evict_warmish (size w) (max_warmish m) (max_warmish_bytes m) w (total_bytes w) = (w, total_bytes w)) as ->.
  { rewrite Hsw at 1. cbn [evict_warmish]. rewrite !(proj2 (Z.ltb_ge _ _)) by lia. done. }
  cbn. done.
Qed.

(** The package is new to a runtime without a disk cache that has room for its
    artifact. *)
Record Fresh (n : Z) (d : string) (len : Z) s : Prop := {
  fr_ready : MemoryReady n s;
  fr_locks : locks_poisoned s = false;
  fr_disk : disk s = None;
  fr_warm : warm (memory s) !! d = None;
  fr_warmish : warmish (memory s) !! d = None;
  fr_room : Z.of_nat (size (warmish (memory s))) < max_warmish (memory s);
  fr_bytes : warmish_bytes (memory s) + len ≤ max_warmish_bytes (memory s);
}.
Lemma fresh_untouched n n' d len s s' :
  Fresh n d len s → Untouched s s' → MemoryReady n' s' → Fresh n' d len s'.
Proof.
  intros [] [Hw Hwi Hd Hl Hm Hm2 Hm3 Hb Hs] Hr'. split; try done; try congruence.
  - specialize (Hw d). rewrite fr_warm0 in Hw. by apply fmap_None in Hw.
  - specialize (Hwi d). rewrite fr_warmish0 in Hwi. by apply fmap_None in Hwi.
Qed.

(** The state a first preparation leaves. *)
Record Compiled (n : Z) (d : string) (aot : PreparedAot) s s' : Prop := {
  co_ready : MemoryReady n s';
  co_locks : locks_poisoned s' = false;
  co_disk : disk s' = None;
  co_warm : is_Some (warm (memory s') !! d);
  co_aot : value <$> warmish (memory s') !! d = Some aot;
  co_others : ∀ o, o ≠ d → value <$> warmish (memory s') !! o = value <$> warmish (memory s) !! o;
  co_max : max_warm (memory s') = max_warm (memory s);
  co_max_warmish : max_warmish (memory s') = max_warmish (memory s);
  co_max_bytes : max_warmish_bytes (memory s') = max_warmish_bytes (memory s);
  co_bytes : warmish_bytes (memory s') = warmish_bytes (memory s) + blen (aot_bytes aot);
  co_size : size (warmish (memory s')) = S (size (warmish (memory s)));
}.

Lemma retain_compiled n d c aot s :
  Fresh (n + 2) d (blen (aot_bytes aot)) s → 0 ≤ n →
  with_memory (λ m, (insert_warm d c (insert_warmish d aot m), tt)) s
    = (set_memory (insert_warm d c (insert_warmish d aot (memory s))) s, Ok tt) ∧
  Compiled n d aot s (set_memory (insert_warm d c (insert_warmish d aot (memory s))) s).
Proof.
  intros [Hr Hl Hd Hw Hwi Hroom Hb] Hn. pose proof Hr as (Hp & Hok & Hseq).
  destruct (retain_ready n d c [InsertWarmish d aot] s) as (Hwm & Hr' & Hv); [eauto|done|done|].
  cbn [cache_run foldl cache_step] in *. split; [done|].
  destruct (insert_warmish_fits d aot (memory s)) as (Ew & Eb & _); [done|lia|done|done|done|].
  destruct (cache_step_limits (memory s) (InsertWarmish d aot)) as (L1 & L2 & L3). cbn [cache_step] in *.
  split; cbn [memory set_memory locks_poisoned disk]; try done.
  - by apply fmap_Some in Hv as (e & -> & _).
  - cbn. rewrite Ew. by rewrite lookup_insert_eq.
  - intros o Ho. cbn. rewrite Ew. by rewrite lookup_insert_ne.
  - cbn. rewrite Ew. by rewrite map_size_insert_None.
Qed.

Lemma first_compile n d source join s s' c :
  Fresh (n + 5) d 0 s → 0 ≤ n →
  (∀ pc b, compile source = Ok (pc, b) → warmish_bytes (memory s) + blen b ≤ max_warmish_bytes (memory s)) →
  prepare d source join id id s = (s', Ok c) →
  ∃ b, compile source = Ok (c, b) ∧
    Compiled n d {| aot_bytes := b; aot_profile := prepared_profile c |} s s'.
Proof.
  intros Hf Hn Hfit Hp. pose proof Hf as [Hr Hl Hd Hw Hwi _ _].
  destruct (lookup_warm_untouched (n + 4) d s) as (s1 & E1 & _ & R1 & U1);
    [by replace (n + 4 + 1) with (n + 5) by lia|lia|].
  pose proof (fresh_untouched _ (n + 4) _ _ _ _ Hf U1 R1) as F1.
  destruct (lookup_warm_untouched (n + 3) d (add_lock d s1)) as (s2 & E2 & _ & R2 & U2);
    [by replace (n + 3 + 1) with (n + 4) by lia|lia|].
  assert (Fresh (n + 4) d 0 (add_lock d s1)) as F1' by (destruct F1; by split).
  assert (Untouched s (add_lock d s1)) as U1' by (destruct U1; by split).
  pose proof (fresh_untouched _ (n + 3) _ _ _ _ F1' U2 R2) as F2.
  destruct (lookup_warmish_untouched (n + 2) d s2) as (s3 & E3 & _ & R3 & U3);
    [by replace (n + 2 + 1) with (n + 3) by lia|lia|].
  pose proof (fresh_untouched _ (n + 2) _ _ _ _ F2 U3 R3) as F3.
  revert Hp. unfold prepare. rewrite E1, Hw. cbn [fmap option_fmap option_map io_bind].
  rewrite (fr_locks _ _ _ _ F1). cbv [id]. unfold prepare_locked.
  rewrite E2, (fr_warm _ _ _ _ F1'). cbn [fmap option_fmap option_map io_bind].
  rewrite E3, (fr_warmish _ _ _ _ F2). cbn [fmap option_fmap option_map io_bind].
  rewrite (fr_disk _ _ _ _ F3). unfold prepare_cold. destruct join as [e|]; [done|].
  destruct (compile source) as [[pc b]|e] eqn:Hcomp; [|done]. cbv [id]. rewrite (fr_disk _ _ _ _ F3).
  pose proof (untouched_trans _ _ _ U1' (untouched_trans _ _ _ U2 U3)) as U.
  assert (Fresh (n + 2) d (blen b) s3) as F3'.
  { destruct F3, U. split; try done. pose proof (Hfit pc b eq_refl). congruence || lia. }
  destruct (retain_compiled n d pc {| aot_bytes := b; aot_profile := prepared_profile pc |} s3 F3' Hn) as [-> HC].
  cbn [io_bind]. intros [= <- <-]. exists b. split; [done|].
  destruct U, HC. split; try done; congruence || (intros; rewrite co_others0; auto).
Qed.

Lemma warmish_in_range : config_in_range warmish_config.
Proof. split; vm_compute; by repeat split. Qed.

Lemma load_bytes_program b p : load_bytes b = Ok p → program_digest p = component_digest b ∧ program_bytes p = b.
Proof. unfold load_bytes. intros Hl. result_inv. done. Qed.

(** Room for two artifacts in the warmish tier of the benchmark. *)
Definition ArtifactsFit (x y : list byte) : Prop :=
  ∀ c b c' b', compile (C := C) x = Ok (c, b) → compile (C := C) y = Ok (c', b') →
    blen b + blen b' ≤ config_max_warmish_bytes warmish_config.

(** Both packages are prepared: the second one is warm, both artifacts are
    retained. *)
Lemma warmish_setup n x y join s :
  component_digest x ≠ component_digest y → ArtifactsFit x y →
  (∀ c b, compile (C := C) x = Ok (c, b) → blen b ≤ config_max_warmish_bytes warmish_config) →
  MemoryReady (n + 10) s → 0 ≤ n → warm (memory s) = ∅ → warmish (memory s) = ∅ →
  locks_poisoned s = false → disk s = None → max_warm (memory s) = 1 → max_warmish (memory s) = 4 →
  max_warmish_bytes (memory s) = config_max_warmish_bytes warmish_config →
  ∀ s1 c1 s2 c2,
    prepare (component_digest x) x join id id s = (s1, Ok c1) →
    prepare (component_digest y) y join id id s1 = (s2, Ok c2) →
    ∃ a b, Alternating n (component_digest x) (component_digest y) a b c1 c2 s2.
Proof.
  intros Hne Hfit Hx Hr Hn Hw Hwi Hlk Hd Hm1 Hm4 Hmb s1 c1 s2 c2 Hp1 Hp2.
  assert (warmish_bytes (memory s) = 0) as Hb0.
  { destruct Hr as (_ & Hok & _). rewrite (ok_accounting _ Hok), Hwi. done. }
  apply (first_compile (n + 5)) in Hp1 as (b1 & Hc1 & C1); [|..|].
  2: { split; rewrite ?Hw, ?Hwi, ?Hb0, ?Hmb, ?Hm4, ?map_size_empty; try done.
       by replace (n + 5 + 5) with (n + 10) by lia. }
  2: lia. 2: { intros pc b Hc. rewrite Hb0, Hmb. by eapply Hx. }
  pose proof (single_warm (memory s1) (component_digest x) (component_digest y)) as Hsingle.
  pose proof C1 as [(Hpo1 & Hok1 & Hs1) ? ? Hwarm1 Haot1 Hoth1 Hmw1 Hmwi1 Hmb1 Hby1 Hsz1].
  rewrite Hb0 in Hby1. rewrite Hwi, map_size_empty in Hsz1. cbn [aot_bytes] in Hby1.
  assert (warmish (memory s1) !! component_digest y = None) as Hwiy.
  { specialize (Hoth1 (component_digest y) (not_eq_sym Hne)). rewrite Hwi, lookup_empty in Hoth1.
    by apply fmap_None in Hoth1. }
  pose proof (blen_nonneg b1).
  apply (first_compile n) in Hp2 as (b2 & Hc2 & C2); [|..|].
  2: { split; try done; [apply Hsingle; congruence|rewrite Hsz1, Hmwi1, Hm4; lia|].
       rewrite Hby1, Hmb1, Hmb. pose proof (Hx _ _ Hc1). lia. }
  2: done. 2: { intros pc b Hc. rewrite Hby1, Hmb1, Hmb. pose proof (Hfit _ _ _ _ Hc1 Hc). lia. }
  destruct C2 as [Hr2 ? ? Hwarm2 Haot2 Hoth2 Hmw2 _ _ _ _].
  eexists _, _. split; [done|done|congruence| |by rewrite Hoth2|done|done|by eapply compile_roundtrip..].
  destruct Hr2 as (_ & Hok2 & _). apply (single_warm _ (component_digest y)); [done|congruence|done|congruence].
Qed.

Lemma warmish_benchmark_ok st component evictor join its w :
  Forall Alone its → its ≠ [] → Z.of_nat (length its) * 95 ≤ usize_max →
  14 * Z.of_nat (length its) + 10 ≤ u64_max →
  component_digest component ≠ component_digest evictor → ArtifactsFit component evictor →
  (∀ c b, compile (C := C) component = Ok (c, b) → blen b ≤ config_max_warmish_bytes warmish_config) →
  Holds (Reports "warmish" (length its)) (warmish_benchmark (O := O) st component evictor join its w).
Proof.
  intros Ha Hne Hmax Hu Hd Hfit Hx. unfold warmish_benchmark.
  eapply holds_bind; [by apply create_ok; [apply warmish_in_range|vm_compute]|].
  intros [w' s] (Hr & Hw & Hwi & Hlk & _ & _ & Hm1 & Hm4 & Hmb & Hdisk & _). cbn [fst snd] in *.
  destruct (load_bytes component) as [target|] eqn:Ht; [|done].
  apply load_bytes_program in Ht as [Htd Htb]. cbn [of_result mbind bench_bind].
  destruct (load_bytes evictor) as [ev|] eqn:He; [|done].
  apply load_bytes_program in He as [Hed Heb]. cbn [of_result mbind bench_bind].
  unfold block_on_prepare. rewrite Htd, Htb.
  destruct (prepare _ _ _ _ _ _) as [s1 [c1|e]] eqn:Hp1; [|done]. cbn [of_result mbind bench_bind].
  rewrite Hed, Heb.
  destruct (prepare _ _ _ _ _ s1) as [s2 [c2|e]] eqn:Hp2; [|done]. cbn [of_result mbind bench_bind].
  destruct (warmish_setup (14 * Z.of_nat (length its)) component evictor join s) with (s1 := s1) (c1 := c1) (s2 := s2) (c2 := c2)
    as (a & b & Halt); try done; [by eapply memory_ready_le|lia|by apply Hdisk|].
  eapply holds_bind; [eapply warmish_loop_ok; [done|]; rewrite Htd, Hed; exact Halt|].
  cbn. intros l Hl. by apply report_holds.
Qed.

(** ** Calls served from disk *)

Lemma disk_loop_ok st c cache component prof b prepared its w samples :
  config_in_range c → background_workers c ≤ max_permits → disk_cache c = Some cache → Forall Alone its →
  let dc := {| disk_config := cache; disk_target := arch st +:+ "-" +:+ os st |} in
  schedule w = [] → OnlyEntry dc (component_digest component) prof b w →
  deserialize_component {| aot_bytes := b; aot_profile := prof |} = Ok prepared →
  Holds (λ l, length l = (length samples + length its)%nat) (disk_loop (O := O) st c component its w samples).
Proof.
  intros Hcr Hbg Hc Ha dc Hs Hone Hdes. set (d := component_digest component) in *.
  assert (Hex64 d) as Hd by apply sha256_hex_hex64.
  revert w samples Hs Hone. induction Ha as [|it its Hit _ IH]; intros w samples Hs Hone; cbn [disk_loop length].
  { cbn. lia. }
  eapply holds_bind; [by apply create_ok|]. intros [w' s] (Hr & _ & _ & _ & _ & _ & _ & _ & _ & _ & r & Hnew & Hi).
  cbn [fst snd] in *. subst s.
  destruct (load_bytes component) as [p|] eqn:Hp; [|done].
  apply load_bytes_program in Hp as [Hpd Hpb]. fold d in Hpd. cbn [of_result mbind bench_bind].
  assert (w = quiet w) as Hq by (destruct w; cbn in *; by subst). rewrite Hq in Hnew.
  destruct (runtime_new_entries _ _ _ _ _ _ d Hnew Hc Hd) as [Hs' Hsame]. fold dc in Hsame.
  destruct (runtime_new_unseen _ _ _ _ _ _ d Hnew Hc Hcr) as (Hun & Hw & _). fold dc in Hun.
  pose proof (only_entry_same _ _ _ _ _ _ Hone Hsame) as Hone'.
  destruct (tier_absent 5 d (inner r)) as (s1 & R1 & U1 & Hw1 & Ht);
    [eapply memory_ready_le; [exact Hr|done]|lia|apply Hun|apply Hun|].
  rewrite (un_disk _ _ _ Hun), Hw in Ht. pose proof Hone' as [(m & Hm & Hb & _) _].
  apply fmap_Some in Hm as (? & Hm & _), Hb as (? & Hb & _).
  rewrite (disk_contains_any_found dc d ALL_PROFILES prof w') in Ht
    by (done || (destruct prof; set_solver) || (rewrite ?Hm, ?Hb; done)).
  assert (Unseen dc d (set_disk_world w' s1)) as Hun1.
  { destruct Hun as [_ Hlk Hdc Hwm Hwi], U1. split; cbn [locks_poisoned disk memory set_disk_world]; [done|congruence|congruence| |].
    - specialize (ut_warm0 d). rewrite Hwm in ut_warm0. by apply fmap_None in ut_warm0.
    - specialize (ut_warmish0 d). rewrite Hwi in ut_warmish0. by apply fmap_None in ut_warmish0. }
  destruct (only_entry_reused dc d prof b (program_bytes p) (ce_join (it_call it)) prepared (set_disk_world w' s1))
    as (_ & s2 & Hp2 & Hw2 & _); [done..|].
  eapply holds_bind; [eapply measured_run_ok; [done|rewrite Hpd; exact Ht]|].
  cbn. intros [[s' k'] sample] (pc & Hp'). cbn in Hp'. rewrite Hpd, Hp2 in Hp'. injection Hp' as <- _.
  eapply holds_impl; [apply IH; by rewrite Hw2|]. cbn. intros l ->. rewrite length_app. cbn. lia.
Qed.

Lemma disk_in_range directory : config_in_range (benchmark_disk_config directory).
Proof. split; vm_compute; by repeat split. Qed.

(** The directory is new to the package, answers every call, and takes the
    artifact. *)
Definition DiskReady (st : Startup) (directory : string) (component : list byte) (join : option string)
    (w : World) : Prop :=
  schedule w = [] ∧
  ∀ w1 r1, runtime_new (C := C) st (benchmark_disk_config directory) w = Some (w1, Ok r1) →
    (∀ p, EntryAbsent {| disk_config := disk_cache_config_new directory (repeat (byte_of_Z 17) 32);
                         disk_target := arch st +:+ "-" +:+ os st |} (component_digest component) p w1) ∧
    ∀ s c, prepare (component_digest component) component join id id (inner r1) = (s, Ok c) →
      disk_publish_failures s = 0 ∧ schedule (disk_world s) = [].

Lemma disk_aot_benchmark_ok st directory component its w :
  Forall Alone its → its ≠ [] → Z.of_nat (length its) * 95 ≤ usize_max →
  DiskReady st directory component None w →
  Holds (Reports "disk-aot" (length its)) (disk_aot_benchmark (O := O) st directory component None its w).
Proof.
  intros Ha Hne Hmax [Hs Hready]. unfold disk_aot_benchmark.
  eapply holds_bind; [by apply create_ok; [apply disk_in_range|vm_compute]|].
  intros [w1 s] (_ & _ & _ & _ & _ & _ & _ & _ & _ & _ & r & Hnew & Hi). cbn [fst snd] in *. subst s.
  destruct (load_bytes component) as [p|] eqn:Hp; [|done].
  apply load_bytes_program in Hp as [Hpd Hpb]. cbn [of_result mbind bench_bind].
  unfold block_on_prepare. rewrite Hpd, Hpb.
  destruct (prepare _ _ _ _ _ _) as [s1 [c1|e]] eqn:Hp1; [|done]. cbn [of_result mbind bench_bind].
  destruct (Hready w1 r Hnew) as [Habs Hpub]. destruct (Hpub s1 c1 Hp1) as [Hf Hs1].
  destruct (runtime_new_unseen _ _ _ _ _ _ (component_digest component) Hnew eq_refl (disk_in_range directory))
    as (Hun & Hw1 & Hf1).
  destruct (first_preparation _ _ component _ s1 c1 Hun)
    as (b & wp & Hcomp & Hpb' & Hfp & Hdp); [by rewrite Hw1|by rewrite Hf1|done|congruence|].
  eapply (holds_bind (λ l, length l = length its)); [|intros l Hl; by apply report_holds].
  eapply (disk_loop_ok _ _ _ _ _ _ _ _ _ []); [apply disk_in_range|by vm_compute|done|done|done| |by eapply compile_roundtrip].
  eapply publish_only_entry; [apply sha256_hex_hex64| |exact Hpb'].
  intros q. unfold EntryAbsent. rewrite Hfp, Hdp, Hw1. apply Habs.
Qed.

(** C37: the tier benchmark measures what it says: run alone, each of its four
    scenarios serves every call from its tier, so that none of its assertions
    fails and, unless the library reports an error or a call does not end, it
    reports as many samples as iterations, each figure the nearest rank of its
    samples.  Cold calls go to new runtimes without a disk cache; calls from
    disk to new runtimes over a directory the first one published to; warmish
    calls alternate with a second package in a cache for one component; warm
    calls repeat. *)
Theorem tier_benchmark_asserts_hold st directory component evictor join its w :
  Forall Alone its → its ≠ [] → Z.of_nat (length its) * 95 ≤ usize_max →
  14 * Z.of_nat (length its) + 10 ≤ u64_max →
  component_digest component ≠ component_digest evictor → ArtifactsFit component evictor →
  (∀ c b, compile (C := C) component = Ok (c, b) → blen b ≤ config_max_warmish_bytes warmish_config) →
  DiskReady st directory component None w →
  Holds (Reports "cold" (length its)) (cold_benchmark (O := O) st component its w) ∧
  Holds (Reports "disk-aot" (length its)) (disk_aot_benchmark (O := O) st directory component None its w) ∧
  Holds (Reports "warmish" (length its)) (warmish_benchmark (O := O) st component evictor join its w) ∧
  Holds (Reports "warm" (length its)) (warm_benchmark (O := O) st component join its w).
Proof.
  intros Ha Hne Hmax Hu Hd Hfit Hx Hdisk. split_and!.
  - by apply cold_benchmark_ok.
  - by apply disk_aot_benchmark_ok.
  - by apply warmish_benchmark_ok.
  - apply warm_benchmark_ok; [done..|lia].
Qed.
End assertions.

Module TierBenchmarkExample.
Import Toy DiskCacheExample RuntimeExample PreparationExample RestartExample InvocationExample.

#[export] Instance linkers : LinkerLib unit := {| linker_new := tt; add_to_linker _ l := Ok l |}.

Definition directory : string := "/tmp/bench".
Definition evictor : list byte := str_bytes "wasi:cli/run@0.2.12".

(** A command that is instantiated in two units of time and returns after
    three more. *)
Definition call : CallEnv (C := list string) (L := unit) := {|
  ce_clock := {| prepare_elapsed := 4; total_elapsed := 9 |}; ce_join := None;
  ce_during_lock := id; ce_during_compile := id;
  ce_invoke := {| ie_set_fuel := Ok tt; ie_token := pause_new; ie_started := 0; ie_instantiate_started := 0;
                  ie_interrupt_text := "wasm trap: interrupt";
                  ie_script _ _ _ := [(2, HInstantiated); (3, HReturn false)] |} |}.
Definition iteration (n : Z) : Iteration (list string) unit :=
  {| it_call := call; it_runtime_init := n; it_harness := 20 + n |}.
Definition iterations : list (Iteration (list string) unit) := [iteration 3; iteration 1; iteration 2].

Lemma iterations_alone : Forall Alone iterations.
Proof. repeat constructor. Qed.

(** All four scenarios end with a report. *)
Definition finishes (b : bench StateReport) : option (string * Z) :=
  match b with BOk r => Some (report_state r, ts_harness_total_ns (report_p50 r)) | _ => None end.
Example scenarios_finish :
  finishes (cold_benchmark (O := Z * list byte) startup source iterations empty_world) = Some ("cold", 22) ∧
  finishes (disk_aot_benchmark (O := Z * list byte) startup directory source None iterations empty_world)
    = Some ("disk-aot", 22) ∧
  finishes (warmish_benchmark (O := Z * list byte) startup source evictor None iterations empty_world)
    = Some ("warmish", 22) ∧
  finishes (warm_benchmark (O := Z * list byte) startup source None iterations empty_world) = Some ("warm", 22).
Proof. vm_compute. done. Qed.

(** The first runtime over the directory. *)
Definition first_runtime : Runtime (list string) :=
  match runtime_new startup (benchmark_disk_config directory) empty_world with
  | Some (_, Ok r) => r
  | _ => start_runtime
  end.
Definition first_prepared : RuntimeInner (list string) * Result (PreparedComponent (list string)) :=
  prepare (component_digest source) source None id id (inner first_runtime).
Lemma first_absent p :
  EntryAbsent {| disk_config := disk_cache_config_new directory (repeat (byte_of_Z 17) 32);
                 disk_target := "x86_64-linux" |} (component_digest source) p (disk_world (inner first_runtime)).
Proof. destruct p; vm_compute; done. Qed.
Lemma first_publishes : disk_publish_failures first_prepared.1 = 0 ∧ schedule (disk_world first_prepared.1) = [].
Proof. vm_compute. done. Qed.

Lemma directory_ready : DiskReady (C := list string) startup directory source None empty_world.
Proof.
  split; [done|]. intros w1 r1 Hnew.
  assert (r1 = first_runtime) as -> by (unfold first_runtime; by rewrite Hnew).
  destruct (runtime_new_unseen _ _ _ _ _ _ (component_digest source) Hnew eq_refl (disk_in_range directory))
    as (_ & <- & _).
  split; [exact first_absent|]. intros s c Hp. assert (s = first_prepared.1) as ->.
  { unfold first_prepared. by rewrite Hp. }
  exact first_publishes.
Qed.

Lemma sources_compile :
  compile (C := list string) source = Ok (cold, x01 :: source) ∧
  compile (C := list string) evictor =
    Ok ({| component := ["wasi:cli/run@0.2.12"]; prepared_profile := Cli0_2 |}, x01 :: evictor).
Proof. vm_compute. done. Qed.
Lemma artifacts_fit : ArtifactsFit (C := list string) source evictor.
Proof.
  intros c b c' b' Hc Hc'. destruct sources_compile as [E1 E2]. rewrite E1 in Hc. rewrite E2 in Hc'.
  simplify_eq. by vm_compute.
Qed.

Lemma tier_benchmark_asserts_hold_witness :
  Holds (Reports "cold" 3) (cold_benchmark (O := Z * list byte) startup source iterations empty_world) ∧
  Holds (Reports "disk-aot" 3)
    (disk_aot_benchmark (O := Z * list byte) startup directory source None iterations empty_world) ∧
  Holds (Reports "warmish" 3)
    (warmish_benchmark (O := Z * list byte) startup source evictor None iterations empty_world) ∧
  Holds (Reports "warm" 3) (warm_benchmark (O := Z * list byte) startup source None iterations empty_world).
Proof.
  apply (tier_benchmark_asserts_hold startup directory source evictor None iterations empty_world);
    [exact iterations_alone|done|by vm_compute|by vm_compute| |exact artifacts_fit| |exact directory_ready].
  - assert (bool_decide (component_digest source = component_digest evictor) = false) as Hd by by vm_compute.
    by apply bool_decide_eq_false in Hd.
  - intros c b Hc. rewrite (proj1 sources_compile) in Hc. injection Hc as _ <-. by vm_compute.
Defined.
End TierBenchmarkExample.
