(* ===== verification/ExamplePrograms.v ===== *)
(** The remaining example programs: the raw Wasmtime server that serves as the
    baseline of the HTTP benchmarks ([src/examples/raw_wasmtime_http_server.rs]),
    the host of a service ([http_server.rs]), the wait of the pause benchmark
    ([pause_benchmark.rs]), the settings of the HTTP benchmark
    ([http_benchmark.rs]) and the converter of modules ([componentize.rs]). *)
From S2P Require Import Prelude Errors Interfaces Streams Types MemoryCache DiskCache Runtime Preparation.
From S2P Require Import Pause Http HttpService Invocation BenchmarkStatistics.

Local Open Scope Z_scope.

(** ** The raw baseline *)

Definition raw_engine_config : EngineConfig := {|
  wasm_component_model := true; wasm_component_model_async := true;
  wasm_component_model_more_async_builtins := true; wasm_component_model_async_stackful := true;
  wasm_stack_switching := true; consume_fuel := true; epoch_interruption := true;
  wasm_relaxed_simd := false; wasm_simd := false;
  memory_reservation := 0; memory_reservation_for_growth := 0;
  cranelift_opt_level := SpeedAndSize; cranelift_nan_canonicalization := true |}.

(** [RawHandler::instantiate]: the store it builds has no limiter. *)
Record RawStore := { raw_wasi : WasiCtx; raw_grants : list OutboundHttpGrant; raw_fuel : Z; raw_epoch_deadline : Z }.
Definition raw_store : RawStore := {|
  raw_wasi := {| ctx_stdio := None; ctx_args := []; ctx_env := [];
                 allow_tcp := false; allow_udp := false; allow_ip_name_lookup := false |};
  raw_grants := hooks_deny;
  raw_fuel := 10000000000;
  raw_epoch_deadline := u64_max / 2 |}.

(** [RequestExpiration::poll]: whether the time is over; adding to the start
    instant panics when the result is not representable. *)
Definition raw_timeout (status : WorkerStatus) : Z :=
  match status with Idle => secs 1 | Requests | PostReturn => secs 5 end.
Definition raw_expiration_poll (instant_max : Z) (status : WorkerStatus) (start now : Z) : option bool :=
  deadline ← checked_add instant_max start (raw_timeout status);
  Some (deadline <=? now).

(** [ReusableWorker::should_accept_request] *)
Definition raw_should_accept_request (concurrent total : Z) : ShouldAccept :=
  if 10000 <=? total then Never else if concurrent =? 0 then Yes else No.

(** [dispatch]: every request takes the next number; a failed guest is answered
    with a static response. *)
Record RawResponse := { raw_status : Z; raw_body : list byte }.
Definition dispatch (handle : Z → result string RawResponse) (next_request : Z) : Z * RawResponse :=
  (wrapping_add u64_max next_request 1,
   match handle next_request with
   | Ok response => response
   | Err _ => {| raw_status := 500; raw_body := str_bytes "guest failed" |}
   end).
Fixpoint dispatch_all (handlers : list (Z → result string RawResponse)) (next_request : Z) : list RawResponse :=
  match handlers with
  | [] => []
  | handle :: l =>
      let '(next, response) := dispatch handle next_request in response :: dispatch_all l next
  end.

Definition raw_server_arguments (arguments : list string) : result string (string * string) :=
  component_path ← ok_or (arguments !! 0%nat) "missing component path";
  let address := default "127.0.0.1:8081" (arguments !! 1%nat) in
  _ ← reject_if (bool_decide (is_Some (arguments !! 2%nat)))
        "usage: raw_wasmtime_http_server <component.wasm> [address]";
  Ok (component_path, address).

(** The raw server is the baseline it is meant to be: the same engine
    settings as the runtime's, the same denials, fuel and epoch deadline as the
    store of a worker under default limits, the same admission as a WASI 0.2
    worker under the default service configuration for every load, and the same
    expiry as a service with its two timeouts, whenever the deadline can be
    represented. *)
Theorem raw_baseline_matches instant_max status start now concurrent total :
  0 ≤ concurrent →
  raw_engine_config = engine_config ∧
  raw_wasi raw_store = store_wasi (http_worker_store default_limits default_http_config) ∧
  raw_grants raw_store = store_http_hooks (http_worker_store default_limits default_http_config) ∧
  raw_fuel raw_store = store_fuel (http_worker_store default_limits default_http_config) ∧
  raw_epoch_deadline raw_store = epoch_deadline (http_worker_store default_limits default_http_config) ∧
  raw_should_accept_request concurrent total =
    should_accept_request (worker_limits default_http_config Http0_2) concurrent total ∧
  ∀ expired, raw_expiration_poll instant_max status start now = Some expired →
    expiration_poll instant_max
      {| max_in_flight := max_in_flight default_http_config;
         max_instance_reuse_count := max_instance_reuse_count default_http_config;
         max_instance_concurrent_reuse_count := max_instance_concurrent_reuse_count default_http_config;
         idle_worker_ttl := secs 1; request_timeout := secs 5;
         outbound_grants := outbound_grants default_http_config |} status start now = expired.
Proof.
  intros Hc. split_and!; try done.
  - unfold raw_should_accept_request, should_accept_request. cbn [worker_limits max_reuse max_concurrent].
    cbn [max_instance_reuse_count default_http_config]. destruct (10000 <=? total); [done|].
    rewrite bool_decide_eq_false_2 by done.
    destruct (Z.eqb_spec concurrent 0), (Z.leb_spec 1 concurrent); done || lia.
  - intros expired. unfold raw_expiration_poll, expiration_poll.
    destruct status; cbn [raw_timeout idle_worker_ttl request_timeout];
      (destruct (checked_add _ _ _); cbn; [by intros [= <-]|done]).
Qed.

(** ** The service host *)

Definition http_server_arguments (arguments : list string) : result string (option string * string) :=
  let component_path := arguments !! 0%nat in
  let address := default "127.0.0.1:8080" (arguments !! 1%nat) in
  _ ← reject_if (bool_decide (is_Some (arguments !! 2%nat))) "usage: http_server [component.wasm] [address]";
  Ok (component_path, address).

(** ** The HTTP benchmark's service and request *)

Definition http_benchmark_service_config : HttpServiceConfig := {|
  max_in_flight := max_in_flight default_http_config;
  max_instance_reuse_count := max_instance_reuse_count default_http_config;
  max_instance_concurrent_reuse_count := max_instance_concurrent_reuse_count default_http_config;
  idle_worker_ttl := idle_worker_ttl default_http_config; request_timeout := secs 5;
  outbound_grants := outbound_grants default_http_config |}.
Definition quoted (s : string) : list byte := byte_of_Z 34 :: str_bytes s ++ [byte_of_Z 34].
Definition tool_request : HttpRequest :=
  with_header "content-type" (str_bytes "application/json")
    (http_request_new "POST" "http://localhost/tools/call"
       (str_bytes "{" ++ quoted "name" ++ str_bytes ":" ++ quoted "echo" ++ str_bytes "," ++
        quoted "arguments" ++ str_bytes ":{" ++ quoted "text" ++ str_bytes ":" ++ quoted "hello" ++ str_bytes "}}")).

(** [wait_for_evictions]: readings of the counter, one per millisecond, within
    a second; [None] while it waits. *)
Fixpoint wait_for_evictions (expected : Z) (started : Z) (readings : list (Z * Z)) : option (result string unit) :=
  match readings with
  | [] => None
  | (now, evictions) :: l =>
      if expected <=? evictions then Some (Ok tt)
      else if started + secs 1 <=? now then Some (Err "deadline has elapsed")
      else wait_for_evictions expected started l
  end.

(** ** The pause benchmark *)

Definition long_input : CommandInput := with_timeout (secs 5) default_command_input.

(** [wait_until_paused]: one observation of the state and of the clock per
    turn; [None] while it loops.  Every state is one of the five. *)
Fixpoint wait_until_paused (deadline : Z) (observed : list (InvocationState * Z)) : option (Result unit) :=
  match observed with
  | [] => None
  | (state, now) :: l =>
      match state with
      | PausedResident => Some (Ok tt)
      | Evicted => Some (Err IdleEvicted)
      | Finished => Some (Err (InvalidState "invocation finished before pausing"))
      | Running | PauseRequested =>
          if deadline <=? now then Some (Err (InvalidState "pause acknowledgement timed out"))
          else wait_until_paused deadline l
      end
  end.

Definition conclusive (deadline : Z) (o : InvocationState * Z) : bool :=
  match o.1 with PausedResident | Evicted | Finished => true | _ => deadline <=? o.2 end.

(** The wait ends at the first turn that sees the command parked, evicted or
    finished, or the deadline passed; success means it was seen parked. *)
Theorem wait_until_paused_decides deadline before o after :
  Forall (λ x, conclusive deadline x = false) before → conclusive deadline o = true →
  wait_until_paused deadline (before ++ o :: after) =
    Some (match o.1 with
          | PausedResident => Ok tt
          | Evicted => Err IdleEvicted
          | Finished => Err (InvalidState "invocation finished before pausing")
          | _ => Err (InvalidState "pause acknowledgement timed out")
          end).
Proof.
  intros Hb Ho. induction Hb as [|[s t] before Hx _ IH]; cbn [app wait_until_paused].
  - destruct o as [[] t]; cbn in *; try done; by rewrite Ho.
  - destruct s; cbn in Hx; try done; by rewrite Hx.
Qed.

(** ** The converter *)

Section componentize.
Context `{Host}.
(** [ComponentEncoder]: the component for a module and an adapter. *)
Variable encode : list byte → list byte → result string (list byte).

Definition componentize (arguments : list string) (w : World) : World * result string unit :=
  match (module_path ← ok_or (arguments !! 0%nat) "missing module path";
         adapter_path ← ok_or (arguments !! 1%nat) "missing reactor adapter path";
         output_path ← ok_or (arguments !! 2%nat) "missing output path";
         _ ← reject_if (bool_decide (is_Some (arguments !! 3%nat)))
               "usage: componentize <module.wasm> <reactor-adapter.wasm> <output.wasm>";
         Ok (module_path, adapter_path, output_path)) with
  | Err e => (w, Err e)
  | Ok (module_path, adapter_path, output_path) =>
      match fs_read module_path w with
      | (w, Err e) => (w, Err e)
      | (w, Ok module) =>
          match fs_read adapter_path w with
          | (w, Err e) => (w, Err e)
          | (w, Ok adapter) =>
              match encode module adapter with
              | Err e => (w, Err e)
              | Ok component => fs_write output_path component w
              end
          end
      end
  end.

(** Only the output path is ever written, and only once both inputs were read
    and encoded; a successful run leaves exactly the encoded component there. *)
Theorem componentize_effect arguments w w' r :
  componentize arguments w = (w', r) →
  (∀ q, arguments !! 2%nat ≠ Some q → files w' !! q = files w !! q) ∧
  (r = Ok tt → ∃ m a out module adapter c,
     arguments = [m; a; out] ∧ content <$> files w !! m = Some module ∧
     content <$> files w !! a = Some adapter ∧ encode module adapter = Ok c ∧
     content <$> files w' !! out = Some c).
Proof.
  unfold componentize. destruct arguments as [|m [|a [|out [|x l]]]]; cbn; try by intros [= <- <-].
  pose proof (fs_read_world m w) as [F1 _]. destruct (fs_read m w) as [w1 [module|e]] eqn:R1; cbn in F1.
  2: { intros [= <- <-]. by rewrite F1. }
  apply fs_read_Ok in R1 as (_ & _ & C1).
  pose proof (fs_read_world a w1) as [F2 _]. destruct (fs_read a w1) as [w2 [adapter|e]] eqn:R2; cbn in F2.
  2: { intros [= <- <-]. by rewrite F2, F1. }
  apply fs_read_Ok in R2 as (_ & _ & C2). rewrite F1 in C2.
  destruct (encode module adapter) as [c|e] eqn:Henc; [|intros [= <- <-]; by rewrite F2, F1].
  intros Hw. apply fs_write_effect in Hw as (_ & Hq & _ & Hok). split.
  - intros q Hne. rewrite Hq, F2, F1; [done|]. by intros ->.
  - intros ->. destruct (Hok eq_refl) as [md Hf]. exists m, a, out, module, adapter, c.
    by rewrite Hf.
Qed.
End componentize.

Module ExampleProgramsExample.
Import DiskCacheExample.

Lemma raw_baseline_matches_witness :
  raw_should_accept_request 0 9999 = Yes ∧
  raw_should_accept_request 0 9999 = should_accept_request (worker_limits default_http_config Http0_2) 0 9999.
Proof.
  split; [reflexivity|].
  destruct (raw_baseline_matches (2 ^ 63) Idle 0 (secs 1) 0 9999 ltac:(lia)) as (_ & _ & _ & _ & _ & Ha & _).
  exact Ha.
Defined.

Lemma wait_until_paused_decides_witness :
  wait_until_paused 10 ([(Running, 1); (PauseRequested, 4)] ++ (PausedResident, 7) :: []) = Some (Ok tt).
Proof.
  apply (wait_until_paused_decides 10 [(Running, 1); (PauseRequested, 4)] (PausedResident, 7) []);
    [by repeat constructor|reflexivity].
Defined.

Definition concatenate (m a : list byte) : result string (list byte) :=
  if bool_decide (m = []) then Err "empty module" else Ok (m ++ a).
Definition inputs : World :=
  {| files := {[ "m" := {| content := [x61]; mode := 420 |}; "a" := {| content := [x62]; mode := 420 |} ]};
     directories := ∅; temp_sequence := 0; schedule := [] |}.
Definition converted := componentize concatenate ["m"; "a"; "o"] inputs.

Lemma componentize_effect_witness :
  converted.2 = Ok tt ∧ (∀ q, Some "o" ≠ Some q → files converted.1 !! q = files inputs !! q).
Proof.
  split; [vm_compute; reflexivity|].
  exact (proj1 (componentize_effect concatenate ["m"; "a"; "o"] inputs converted.1 converted.2
                  (surjective_pairing converted))).
Defined.
End ExampleProgramsExample.
