(* ===== verification/PauseBenchmark.v ===== *)
(** The pause benchmark ([src/examples/pause_benchmark.rs]): a client that
    pauses, resumes and cancels commands whose guest spins, and measures how
    long a pause takes to be acknowledged, a call of [resume] to return, and an
    idle invocation to be evicted.  The commands are calls of [Invocation]; the
    client's operations act on their control state between the happenings of
    the task.  Theorem: its two assertions hold. *)
From S2P Require Import Prelude Errors Interfaces Streams Types MemoryCache DiskCache Runtime Preparation Restart.
From S2P Require Import Pause Http Invocation BenchmarkStatistics ExamplePrograms TierBenchmark.

Local Open Scope Z_scope.

(** [RuntimeConfig { paused_resident_ttl, epoch_interval: 1 ms, .. }] *)
Definition pause_config (ttl : Z) : RuntimeConfig := {|
  max_warm_components := max_warm_components default_config;
  max_warmish_entries := max_warmish_entries default_config;
  config_max_warmish_bytes := config_max_warmish_bytes default_config;
  background_workers := background_workers default_config;
  paused_resident_ttl := ttl; epoch_interval := millis 1;
  disk_cache := disk_cache default_config; limits := limits default_config |}.

Record IdleEviction := {
  configured_ttl_ns : Z; observed_ns : Z; retained_tier : PackageTier;
  rss_before_kib : option Z; rss_paused_kib : option Z; rss_after_eviction_kib : option Z }.
Record PauseReport := {
  pr_iterations : Z; pause_ack_ns : Percentiles; resume_call_ns : Percentiles; idle_eviction : IdleEviction }.

Section benchmark.
Context {C O : Type} `{Engine C} `{PipeLib O} `{Crypto} `{Host}.
Context {JI : Json CacheIdentity} {JM : Json CacheMetadata}.

(** ** A started command *)

(** The clock and the call of its task, which has been prepared. *)
Record Command := { cmd_now : Z; cmd_call : Call O }.

(** When [invoke] starts and what is fixed then. *)
Record CommandEnv := { ce_started : Z; ce_instantiate_started : Z; ce_interrupt_text : string }.
Definition command_params (ttl : Z) (x : CommandEnv) (s : PauseState) : CallParams := {|
  cp_invocation := {| call_timeout := timeout long_input; call_started := ce_started x;
                      call_baseline := total_paused (ce_started x) s; resident_ttl := ttl |};
  cp_instantiate_started := ce_instantiate_started x; cp_interrupt_text := ce_interrupt_text x |}.

Definition task_run (v : CallParams) (l : list (Z * happening)) (r : Command) : Command :=
  let '(now, c) := call_run v (cmd_now r) l (cmd_call r) in {| cmd_now := now; cmd_call := c |}.
Definition task_result (r : Command) : option (Result InvocationResult) :=
  match call_stage (cmd_call r) with Returned x => Some x | _ => None end.
(** [is_finished] of the join handle may lag behind the task. *)
Definition sees_finished (noticed : bool) (r : Command) : bool :=
  noticed && bool_decide (is_Some (task_result r)).
Definition command_state (noticed : bool) (r : Command) : InvocationState :=
  running_state (sees_finished noticed r) (token (cmd_call r)).
(** A client's operation, [d] later. *)
Definition client_op (op : bool → Z → PauseState → PauseState * Result unit) (d : Z) (noticed : bool) (r : Command)
    : Command * Result unit :=
  let now := cmd_now r + d in
  let '(s, res) := op (sees_finished noticed r) now (token (cmd_call r)) in
  ({| cmd_now := now; cmd_call := set_token s (cmd_call r) |}, res).
Definition client_cancel (d : Z) (r : Command) : Command :=
  {| cmd_now := cmd_now r + d; cmd_call := set_token (cancel (token (cmd_call r))) (cmd_call r) |}.

(** [wait_until_paused]: before each observation the task runs on. *)
Fixpoint poll_until_paused (v : CallParams) (deadline : Z) (polls : list (list (Z * happening) * bool)) (r : Command)
    : bench Command :=
  match polls with
  | [] => BPending
  | (l, noticed) :: polls' =>
      let r := task_run v l r in
      match command_state noticed r with
      | PausedResident => BOk r
      | Evicted => BErr IdleEvicted
      | Finished => BErr (InvalidState "invocation finished before pausing")
      | Running | PauseRequested =>
          if deadline <=? cmd_now r then BErr (InvalidState "pause acknowledgement timed out")
          else poll_until_paused v deadline polls' r
      end
  end.

(** [program.start(long_input())], a turn of the scheduler and [running.pause()]:
    either the pause comes first, at a time before the call of the task starts,
    or the task runs for a while and is paused [d] later.  The result is the
    command, the parameters of its call, and when the pause was requested. *)
Inductive first_pause :=
| PausedEarly (at_time : Z)
| PausedLater (before : list (Z * happening)) (d : Z) (noticed : bool).
Definition start_and_pause (c : RuntimeConfig) (x : CommandEnv) (f : first_pause)
    : CallParams * Z * (Command * Result unit) :=
  let started s := {| cmd_now := ce_started x; cmd_call := call_new (limits c) s |} in
  match f with
  | PausedEarly t =>
      let s := pause t pause_new in
      (command_params (paused_resident_ttl c) x s, t, (started s, Ok tt))
  | PausedLater before d noticed =>
      let v := command_params (paused_resident_ttl c) x pause_new in
      let r := task_run v before (started pause_new) in
      (v, cmd_now r, client_op running_pause d noticed r)
  end.

Definition pause_returned (f : first_pause) (r : Command) : Z :=
  match f with PausedEarly t => t | PausedLater _ _ _ => cmd_now r end.

(** ** One iteration *)

(** What the task does between the client's operations, and their times. *)
Record PauseEnv := {
  pe_command : CommandEnv;
  pe_pause : first_pause;
  pe_polls : list (list (Z * happening) * bool);
  pe_resume : Z; pe_resume_noticed : bool;
  pe_between : list (Z * happening);
  pe_cancel : Z;
  pe_after : list (Z * happening) }.

(** [matches!(running.wait().await, Err(e))] *)
Definition assert_fails_with (e : Error) (r : Command) : bench unit :=
  match task_result r with
  | None => BPending
  | Some res => assert (match res with Err e' => bool_decide (e' = e) | Ok _ => false end)
  end.

Definition pause_iteration (c : RuntimeConfig) (x : PauseEnv) : bench (Z * Z) :=
  let '(v, pause_started, (r, res)) := start_and_pause c (pe_command x) (pe_pause x) in
  _ ← of_result res;
  r ← poll_until_paused v (pause_returned (pe_pause x) r + secs 1) (pe_polls x) r;
  let pause_sample := nanos (elapsed (cmd_now r) pause_started) in
  let resume_started := cmd_now r in
  let '(r, res) := client_op running_resume (pe_resume x) (pe_resume_noticed x) r in
  _ ← of_result res;
  let resume_sample := nanos (elapsed (cmd_now r) resume_started) in
  let r := client_cancel (pe_cancel x) (task_run v (pe_between x) r) in
  _ ← assert_fails_with Cancelled (task_run v (pe_after x) r);
  BOk (pause_sample, resume_sample).

Fixpoint pause_loop (c : RuntimeConfig) (its : list PauseEnv) (pause_samples resume_samples : list Z)
    : bench (list Z * list Z) :=
  match its with
  | [] => BOk (pause_samples, resume_samples)
  | x :: its' =>
      '(p, r) ← pause_iteration c x;
      pause_loop c its' (pause_samples ++ [p]) (resume_samples ++ [r])
  end.

(** ** Idle eviction *)

(** [Runtime::new], [load_bytes] and [prepare]; other users of the runtime are
    the promotion that [load_bytes] schedules. *)
Definition prepared_runtime (st : Startup) (c : RuntimeConfig) (component : list byte) (join : option string)
    (others : RuntimeInner C → RuntimeInner C) (w : World) : bench (Program * RuntimeInner C) :=
  '(_, s) ← create (C := C) st c w;
  p ← of_result (load_bytes component);
  let '(s, res) := prepare (program_digest p) (program_bytes p) join others others (others s) in
  _ ← of_result res;
  BOk (p, s).

Record IdleEnv := {
  id_command : CommandEnv; id_pause : first_pause;
  id_polls : list (list (Z * happening) * bool); id_after : list (Z * happening);
  id_status : result string (list byte) * result string (list byte) * result string (list byte) }.

(** The tier the package has after the evicted command's task demoted it. *)
Definition measure_idle_eviction (st : Startup) (component : list byte) (join : option string)
    (others : RuntimeInner C → RuntimeInner C) (x : IdleEnv) (w : World) : bench IdleEviction :=
  let ttl := millis 20 in
  let c := pause_config ttl in
  '(p, s) ← prepared_runtime st c component join others w;
  let '(before, paused, after) := id_status x in
  let '(v, eviction_started, (r, res)) := start_and_pause c (id_command x) (id_pause x) in
  _ ← of_result res;
  r ← poll_until_paused v (pause_returned (id_pause x) r + secs 1) (id_polls x) r;
  let r := task_run v (id_after x) r in
  _ ← assert_fails_with IdleEvicted r;
  BOk {| configured_ttl_ns := nanos ttl; observed_ns := nanos (elapsed (cmd_now r) eviction_started);
         retained_tier := (tier (program_digest p) (runtime_demote (program_digest p) s)).2;
         rss_before_kib := resident_set_kib before; rss_paused_kib := resident_set_kib paused;
         rss_after_eviction_kib := resident_set_kib after |}.

Definition pause_benchmark (st : Startup) (component : list byte) (join : option string)
    (others : RuntimeInner C → RuntimeInner C) (its : list PauseEnv) (idle : IdleEnv) (w : World) : bench PauseReport :=
  let c := pause_config (secs 1) in
  '(_, s) ← prepared_runtime st c component join others w;
  '(pause_samples, resume_samples) ← pause_loop c its [] [];
  idle_eviction ← measure_idle_eviction st component join others idle (disk_world s);
  pause_ack ← of_option (percentiles pause_samples);
  resume_call ← of_option (percentiles resume_samples);
  BOk {| pr_iterations := Z.of_nat (length its); pause_ack_ns := pause_ack; resume_call_ns := resume_call;
         idle_eviction := idle_eviction |}.

(** The loop of observations decides as [wait_until_paused] does. *)
Fixpoint observations (v : CallParams) (polls : list (list (Z * happening) * bool)) (r : Command)
    : list (InvocationState * Z) :=
  match polls with
  | [] => []
  | (l, noticed) :: polls' =>
      let r := task_run v l r in (command_state noticed r, cmd_now r) :: observations v polls' r
  end.
Lemma poll_until_paused_decides v deadline polls r :
  wait_until_paused deadline (observations v polls r)
  = match poll_until_paused v deadline polls r with
    | BOk _ => Some (Ok tt) | BErr e => Some (Err e) | _ => None
    end.
Proof.
  revert r. induction polls as [|[l noticed] polls IH]; intros r; [done|]. cbn.
  destruct (command_state noticed (task_run v l r)); try done; by destruct (deadline <=? _).
Qed.
End benchmark.

(** ** A guest that spins *)

(** The happenings of a task whose guest is instantiated without running into
    an epoch, never returns and never traps; [executing] is whether it is
    instantiated, the result whether it is then. *)
Fixpoint spins (executing : bool) (l : list (Z * happening)) : option bool :=
  match l with
  | [] => Some executing
  | (d, h) :: l' =>
      if d <? 0 then None
      else match h with
           | HReturn _ | HTrap _ | HControl _ => None
           | HEpoch => if executing then spins executing l' else None
           | HInstantiated => spins true l'
           | HCheck | HWait _ | HWrite _ _ | HMapped => spins executing l'
           end
  end.
(** A callback at this time is within the timeout. *)
Definition InTime (v : CallParams) (now : Z) : Prop :=
  elapsed now (call_started (cp_invocation v)) < call_timeout (cp_invocation v).

Section assertions.
Context {O : Type} `{PipeLib O}.
Implicit Types c : Call O.

(** The phase of a call that is under way. *)
Definition InPhase (executing : bool) (p : phase) : Prop :=
  match p with Instantiating => executing = false | Executing _ _ _ => executing = true end.

(** Before it is cancelled: evicted, or untouched by any interruption. *)
Definition Undisturbed (executing : bool) c : Prop :=
  evicted (token c) = true
  ∨ evicted (token c) = false ∧ cancelled_flag (token c) = false ∧ timed_out c = false
    ∧ match call_stage c with
      | Active p => InPhase executing p ∧ resident (token c) = false
      | Calling p _ => executing = true ∧ InPhase executing p ∧ resident (token c) = false
      | Parked p _ => executing = true ∧ InPhase executing p ∧ (paused (token c) = false → resident (token c) = false)
      | _ => False
      end.

(** Resumed, and perhaps cancelled since. *)
Definition Cancellable (executing : bool) c : Prop :=
  evicted (token c) = false ∧ paused (token c) = false ∧ timed_out c = false
  ∧ match call_stage c with
    | Active p => InPhase executing p
    | Calling p _ | Parked p _ => executing = true ∧ InPhase executing p
    | Unwinding p _ => cancelled_flag (token c) = true ∧ executing = true ∧ InPhase executing p
    | Returned r => cancelled_flag (token c) = true ∧ r = Err Cancelled
    end.

(** Parked, and nobody resumes or cancels it. *)
Definition Idling c : Prop :=
  paused (token c) = true
  ∧ match call_stage c with
    | Parked p _ => InPhase true p ∧ evicted (token c) = false ∧ cancelled_flag (token c) = false
    | Active p | Calling p _ | Unwinding p _ => InPhase true p ∧ evicted (token c) = true
    | Returned r => r = Err IdleEvicted
    end.

Lemma evicted_stays v now h c : evicted (token c) = true → evicted (token (call_next v now h c)) = true.
Proof.
  intros He. unfold call_next. destruct (call_step v now h c) as [c'|] eqn:Hs; [|done]. cbn [default].
  destruct (call_stage c) as [[]|q total|[] []|[]|] eqn:Hg, h as [k| | |w|e b| |f|txt|]; unfold call_step in Hs; rewrite Hg in Hs;
    try done; try (by simplify_eq); cbv zeta in Hs;
    unfold epoch_callback, wait_check in Hs; rewrite ?He in Hs; cbn in Hs; repeat case_match; simplify_eq/=; try done.
  all: by rewrite (proj1 (control_flags now k (token c))).
Qed.

Lemma elapsed_nonneg a b : 0 ≤ elapsed a b.
Proof. unfold elapsed, saturating_sub. lia. Qed.
Lemma active_below (a s t : Z) : 0 ≤ a → 0 ≤ s → a < t → (t <=? saturating_sub a s) = false.
Proof. intros. apply Z.leb_gt. unfold saturating_sub. lia. Qed.

(** The callback of an epoch within the timeout. *)
Lemma callback_in_time v total now s :
  InTime v now → evicted s = false →
  epoch_callback (call_timeout (cp_invocation v)) (call_started (cp_invocation v)) (call_baseline (cp_invocation v))
    total now s
  = if cancelled_flag s then (s, Interrupt false) else if paused s then (mark_resident s, YieldCustom) else (s, Yield).
Proof.
  intros Ht He. unfold epoch_callback. rewrite He. cbn. destruct (cancelled_flag s); [done|].
  rewrite active_below; [done|apply elapsed_nonneg| |done]. unfold saturating_sub. lia.
Qed.

Lemma undisturbed_step v ex ex' now d h c :
  InTime v now → Undisturbed ex c → spins ex [(d, h)] = Some ex' → Undisturbed ex' (call_next v now h c).
Proof.
  intros Hin [He|(He & Hc & Ht & Hg)] Hsp; [left; by apply evicted_stays|].
  unfold call_next, call_step, Undisturbed. cbn in Hsp. destruct (d <? 0); [done|].
  destruct (call_stage c) as [p|p total|p o|p t|r] eqn:Hst; [| | |done..].
  - destruct h as [k| | |w|e b| |f|text|]; simplify_eq; try (destruct p; right; cbn; by rewrite Hst).
    + destruct ex eqn:Hb; [|done]. simplify_eq. destruct Hg. destruct p; right; cbn; by split_and!.
    + destruct p; right; cbn; rewrite ?Hst; split_and!; try done; by destruct Hg.
  - destruct Hg as (-> & Hp & Hr). assert (ex' = true) as -> by (destruct h; by simplify_eq).
    destruct h as [k| | |w|e b| |f|text|]; try done; try (right; cbn; by rewrite Hst).
    rewrite callback_in_time by done. rewrite Hc.
    destruct (paused (token c)) eqn:Hpa; right; cbn; [|by split_and!].
    unfold mark_resident. rewrite Hpa, He. cbn. rewrite Hpa. by split_and!.
  - destruct Hg as (-> & Hp & Hr). destruct p as [|x et eb]; [done|].
    destruct h as [k| | |w|e b| |f|text|]; simplify_eq; try (right; destruct o; cbn; by rewrite Hst).
    + destruct o as [deadline|].
      * destruct w; cbn [default id from_option]; rewrite ?Hc; [right; cbn; by split_and!|right; cbn; by rewrite Hst|].
        destruct (deadline <=? now); [|right; cbn; by rewrite Hst]. cbn.
        destruct (paused (token c)) eqn:Hpa; [by left|right; cbn; split_and!; auto].
      * unfold wait_check. rewrite Hc. destruct (paused (token c)) eqn:Hpa; cbn; [|right; cbn; split_and!; auto].
        destruct (_ =? 0); [by left|]. right. cbn. rewrite Hpa. by split_and!.
Qed.

Lemma cancellable_step v ex ex' now d h c :
  InTime v now → Cancellable ex c → spins ex [(d, h)] = Some ex' → Cancellable ex' (call_next v now h c).
Proof.
  intros Hin (He & Hpa & Ht & Hg) Hsp. unfold call_next, call_step, Cancellable. cbn in Hsp. destruct (d <? 0); [done|].
  destruct (call_stage c) as [p|p total|p o|p t|r] eqn:Hst.
  - destruct h as [k| | |w|e b| |f|text|]; simplify_eq; try (destruct p; cbn; by rewrite Hst).
    + destruct ex eqn:Hb; [|done]. simplify_eq. destruct p; cbn; by split_and!.
    + destruct p; cbn; rewrite ?Hst; by split_and!.
  - destruct Hg as [-> Hp]. assert (ex' = true) as -> by (destruct h; by simplify_eq).
    destruct h as [k| | |w|e b| |f|text|]; try done; try (cbn; by rewrite Hst).
    rewrite callback_in_time, Hpa by done.
    destruct (cancelled_flag (token c)) eqn:Hc; cbn; rewrite ?orb_false_r; by split_and!.
  - destruct Hg as [-> Hp]. destruct p as [|x et eb]; [done|].
    assert (ex' = true) as -> by (destruct h; by simplify_eq).
    destruct h as [k| | |w|e b| |f|text|]; try done; try (destruct o; cbn; by rewrite Hst).
    destruct o as [deadline|]; [|unfold wait_check; by rewrite Hpa].
    destruct w; cbn [default id]; [done|destruct (cancelled_flag (token c)); cbn; by rewrite ?Hst|].
    destruct (deadline <=? now); cbn; rewrite ?Hpa, ?Hst; by split_and!.
  - destruct Hg as (Hc & -> & Hp). destruct p as [|x et eb]; [done|].
    assert (ex' = true) as -> by (destruct h; by simplify_eq).
    destruct h as [k| | |w|e b| |f|text|]; try done; try (cbn; by rewrite Hst).
    cbn. unfold map_execution_error. rewrite He, Ht, Hc. by split_and!.
  - cbn. by rewrite Hst.
Qed.

Lemma idling_step v now d h c :
  Idling c → spins true [(d, h)] = Some true → Idling (call_next v now h c).
Proof.
  intros (Hpa & Hg) Hsp. unfold call_next, call_step, Idling. cbn in Hsp. destruct (d <? 0); [done|].
  destruct (call_stage c) as [p|p total|p o|p t|r] eqn:Hst.
  - destruct Hg as [Hp He]. destruct p as [|x et eb]; [done|].
    destruct h as [k| | |w|e b| |f|text|]; simplify_eq; try (cbn; by rewrite ?Hst).
  - destruct Hg as [Hp He]. destruct h as [k| | |w|e b| |f|text|]; simplify_eq; try (cbn; by rewrite ?Hst).
    unfold epoch_callback. rewrite He. cbn. by split_and!.
  - destruct Hg as (Hp & He & Hc). destruct p as [|x et eb]; [done|].
    destruct h as [k| | |w|e b| |f|text|]; try done; try (destruct o; cbn; by rewrite ?Hst).
    destruct o as [deadline|].
    + destruct w; cbn [default id]; rewrite ?Hc; [done|cbn; by rewrite Hst|].
      destruct (deadline <=? now); cbn; rewrite ?Hpa, ?Hst; by split_and!.
    + unfold wait_check. rewrite Hpa, Hc. cbn. destruct (_ =? 0); cbn; by rewrite ?Hpa.
  - destruct Hg as [Hp He]. destruct p as [|x et eb]; [done|].
    destruct h as [k| | |w|e b| |f|text|]; try done; try (cbn; by rewrite ?Hst).
    cbn. unfold map_execution_error. by rewrite He.
  - cbn. by rewrite Hst.
Qed.

(** Along a whole stretch of the task. *)
Lemma spins_cons ex d h l ex' :
  spins ex ((d, h) :: l) = Some ex' → 0 ≤ d ∧ ∃ ex1, spins ex [(d, h)] = Some ex1 ∧ spins ex1 l = Some ex'.
Proof. cbn. destruct (Z.ltb_spec d 0); [done|]. split; [lia|]. destruct h; try done; eauto. destruct ex; [eauto|done]. Qed.
Lemma spins_app ex l l' ex' :
  spins ex (l ++ l') = Some ex' → ∃ ex1, spins ex l = Some ex1 ∧ spins ex1 l' = Some ex'.
Proof.
  revert ex. induction l as [|[d h] l IH]; intros ex Hs; [by eauto|].
  cbn in Hs |- *. destruct (d <? 0); [done|]. destruct h; try done; try by apply IH. destruct ex; [by apply IH|done].
Qed.
Lemma spins_length ex l ex' : spins ex l = Some ex' → 0 ≤ length_of l.
Proof.
  revert ex. induction l as [|[d h] l IH]; intros ex Hs; [done|].
  apply spins_cons in Hs as (Hd & ex1 & _ & Hs). apply IH in Hs. cbn. lia.
Qed.
Lemma spins_executing l ex' : spins true l = Some ex' → ex' = true.
Proof.
  induction l as [|[d h] l IH]; intros Hs; [by injection Hs|].
  cbn in Hs. destruct (d <? 0); [done|]. destruct h; try done; by apply IH.
Qed.

Lemma in_time_le v now now' : InTime v now' → now ≤ now' → InTime v now.
Proof. unfold InTime, elapsed, saturating_sub. lia. Qed.
Lemma task_run_now v l (r : Command (O := O)) : cmd_now (task_run v l r) = cmd_now r + length_of l.
Proof.
  destruct r as [now c]. unfold task_run. cbn. revert now c. induction l as [|[d h] l IH]; intros now c; cbn; [lia|].
  rewrite IH. lia.
Qed.

Lemma task_run_keeps (I : bool → Call O → Prop) v l ex ex' (r : Command (O := O)) :
  (∀ ex ex' now d h c, InTime v now → I ex c → spins ex [(d, h)] = Some ex' → I ex' (call_next v now h c)) →
  InTime v (cmd_now r + length_of l) → spins ex l = Some ex' → I ex (cmd_call r) →
  I ex' (cmd_call (task_run v l r)).
Proof.
  intros Hstep. destruct r as [now c]. unfold task_run. cbn [cmd_now cmd_call].
  revert ex now c. induction l as [|[d h] l IH]; intros ex now c Hin Hs Hi; [cbn in *; by simplify_eq|].
  apply spins_cons in Hs as (Hd & ex1 & H1 & H2). pose proof (spins_length _ _ _ H2). cbn [length_of] in Hin.
  cbn [call_run]. eapply IH; [by rewrite <- Z.add_assoc|exact H2|].
  eapply Hstep; [|done|done]. eapply in_time_le; [exact Hin|lia].
Qed.
Lemma task_run_idles v l (r : Command (O := O)) :
  is_Some (spins true l) → Idling (cmd_call r) → Idling (cmd_call (task_run v l r)).
Proof.
  destruct r as [now c]. unfold task_run. cbn [cmd_now cmd_call]. revert now c.
  induction l as [|[d h] l IH]; intros now c [ex' Hs] Hi; [done|].
  apply spins_cons in Hs as (Hd & ex1 & H1 & H2). pose proof (spins_executing _ _ H1) as ->. cbn [call_run].
  eapply IH; [by eauto|]. by eapply idling_step.
Qed.

(** ** The client's operations *)

Lemma not_finished noticed (r : Command (O := O)) p o :
  call_stage (cmd_call r) = Parked p o → sees_finished noticed r = false.
Proof. intros Hs. unfold sees_finished, task_result. rewrite Hs. apply andb_false_r. Qed.

Lemma set_token_same c : set_token (token c) c = c.
Proof. by destruct c. Qed.
Lemma client_pause_undisturbed d noticed ex (r r' : Command (O := O)) res :
  client_op running_pause d noticed r = (r', res) → Undisturbed ex (cmd_call r) → Undisturbed ex (cmd_call r').
Proof.
  unfold client_op. destruct (running_pause _ _ _) as [s x] eqn:Hp. intros [= <- <-]. cbn [cmd_call].
  intros [He|(He & Hc & Ht & Hg)].
  - left. unfold running_pause, running_state in Hp. rewrite He in Hp. by injection Hp as <- _.
  - assert (s = token (cmd_call r) ∨ s = pause (cmd_now r + d) (token (cmd_call r))) as [-> | ->]
      by (unfold running_pause in Hp; destruct (running_state _ _); injection Hp as <- _; auto).
    + right. by rewrite set_token_same.
    + right. unfold pause. destruct (paused (token (cmd_call r))) eqn:Hpa; [rewrite set_token_same, Hpa; by split_and!|].
      cbn. split_and!; try done. destruct (call_stage (cmd_call r)); try done; destruct_and?; by split_and!.
Qed.

(** A command seen paused and resident is parked. *)
Lemma seen_paused noticed ex (r : Command (O := O)) :
  Undisturbed ex (cmd_call r) → command_state noticed r = PausedResident →
  Idling (cmd_call r) ∧ timed_out (cmd_call r) = false ∧ ex = true.
Proof.
  unfold command_state, running_state. intros [He|(He & Hc & Ht & Hg)]; [by rewrite He|]. rewrite He.
  destruct (sees_finished _ _); [done|]. destruct (resident _) eqn:Hr; [|by destruct (paused _)]. intros _.
  unfold Idling. destruct (call_stage (cmd_call r)) eqn:Hst; try done; [by destruct Hg|by destruct Hg as (_ & _ & ?)|].
  destruct Hg as (-> & Hp & Hpr). destruct (paused _) eqn:Hpa; [by split_and!|]. by specialize (Hpr eq_refl).
Qed.

Lemma poll_finds_parked v deadline polls ex (r : Command (O := O)) :
  is_Some (spins ex (concat polls.*1)) → InTime v (cmd_now r + length_of (concat polls.*1)) →
  Undisturbed ex (cmd_call r) →
  Holds (λ r', Idling (cmd_call r') ∧ timed_out (cmd_call r') = false
               ∧ (∃ p o, call_stage (cmd_call r') = Parked p o) ∧ cmd_now r' ≤ cmd_now r + length_of (concat polls.*1))
    (poll_until_paused v deadline polls r).
Proof.
  revert ex r. induction polls as [|[l noticed] polls IH]; intros ex r [ex' Hs] Hin Hu; [done|]. cbn in Hs, Hin |- *.
  apply spins_app in Hs as (ex1 & H1 & H2). rewrite length_of_app in Hin |- *.
  pose proof (spins_length _ _ _ H2).
  assert (Undisturbed ex1 (cmd_call (task_run v l r))) as Hu1.
  { eapply (task_run_keeps Undisturbed); [intros; by eapply undisturbed_step|eapply in_time_le; [exact Hin|lia]|done|done]. }
  pose proof (task_run_now v l r) as Hn.
  destruct (command_state noticed (task_run v l r)) eqn:Hst; try done.
  1, 2: destruct (deadline <=? _); [done|]; eapply holds_impl;
    [eapply IH; [by eauto|by rewrite Hn, <- Z.add_assoc|done]|cbn; intros r' (? & ? & ? & ?); split_and!; [done..|lia]].
  destruct (seen_paused _ _ _ Hu1 Hst) as (Hi & Ht & _). cbn. split_and!; [done|done| |lia].
  unfold command_state, running_state in Hst. destruct Hi as [_ Hi]. 
  destruct (call_stage _) as [p|p total|p o|p t|x] eqn:Hg; [destruct Hi as [_ He]; by rewrite He in Hst..|by eauto
    |destruct Hi as [_ He]; by rewrite He in Hst|].
  destruct Hu1 as [He|(_ & _ & _ & Hf)]; [by rewrite He in Hst|by rewrite Hg in Hf].
Qed.

Lemma cancellable_cancel ex c : Cancellable ex c → Cancellable ex (set_token (cancel (token c)) c).
Proof. intros (E1 & E2 & E3 & E4). split_and!; [done..|]. cbn. destruct (call_stage c); by destruct_and?. Qed.
(** Resuming a parked command. *)
Lemma client_resume_parked d noticed (r r' : Command (O := O)) res p o :
  client_op running_resume d noticed r = (r', res) → Idling (cmd_call r) → timed_out (cmd_call r) = false →
  call_stage (cmd_call r) = Parked p o → Cancellable true (cmd_call r') ∧ cmd_now r' = cmd_now r + d.
Proof.
  unfold client_op. intros Hop [Hpa Hi] Ht Hst. rewrite Hst in Hi. destruct Hi as (Hp & He & Hc).
  unfold running_resume, running_state in Hop. rewrite (not_finished _ _ _ _ Hst), He, Hpa in Hop.
  unfold resume in Hop. rewrite He, Hpa in Hop. unfold settle in Hop.
  destruct (resident _), (paused_at _); injection Hop as <- <-; (split; [|done]); unfold Cancellable; cbn;
    rewrite Hst; by split_and!.
Qed.
End assertions.

(** ** The benchmark *)

Definition pause_before (f : first_pause) : list (Z * happening) :=
  match f with PausedEarly _ => [] | PausedLater before _ _ => before end.
Definition pause_delay (f : first_pause) : Z := match f with PausedEarly _ => 0 | PausedLater _ d _ => d end.

(** The task of a command until it is seen paused: its guest spins, within its
    timeout. *)
Record SpinsUntilPaused (f : first_pause) (polls : list (list (Z * happening) * bool)) : Prop := {
  su_task : ∃ ex, spins false (pause_before f) = Some ex ∧ is_Some (spins ex (concat polls.*1));
  su_delay : 0 ≤ pause_delay f;
  su_time : length_of (pause_before f) + pause_delay f + length_of (concat polls.*1) < timeout long_input;
}.
(** And until it is cancelled and over. *)
Record Spinning (x : PauseEnv) : Prop := {
  sp_until : SpinsUntilPaused (pe_pause x) (pe_polls x);
  sp_between : is_Some (spins true (pe_between x));
  sp_after : is_Some (spins true (pe_after x));
  sp_delays : 0 ≤ pe_resume x ∧ 0 ≤ pe_cancel x;
  sp_time : length_of (pause_before (pe_pause x)) + pause_delay (pe_pause x) + length_of (concat (pe_polls x).*1)
            + pe_resume x + length_of (pe_between x) + pe_cancel x + length_of (pe_after x) < timeout long_input;
}.

Section holds.
Context {C O : Type} {E : Engine C} `{PipeLib O} {K : Crypto} `{Host}.
Context {JI : Json CacheIdentity} {JM : Json CacheMetadata}.

Lemma pause_start c x f polls v started (r : Command (O := O)) res :
  start_and_pause c x f = (v, started, (r, res)) → SpinsUntilPaused f polls →
  call_started (cp_invocation v) = ce_started x ∧ call_timeout (cp_invocation v) = timeout long_input
  ∧ cmd_now r = ce_started x + length_of (pause_before f) + pause_delay f
  ∧ ∃ ex, Undisturbed ex (cmd_call r) ∧ is_Some (spins ex (concat polls.*1)).
Proof.
  intros Hs [(ex & H1 & H2) Hd Ht]. destruct f as [t|before d noticed]; cbn in *.
  - simplify_eq. cbn. split_and!; [done|done|lia|]. exists false. split; [|done]. by right.
  - destruct (client_op running_pause d noticed _) as [r' x'] eqn:Hop. simplify_eq. split_and!; [done|done| |].
    + unfold client_op in Hop. destruct (running_pause _ _ _). injection Hop as <- _. cbn [cmd_now].
      by rewrite task_run_now.
    + exists ex. split; [|done]. eapply client_pause_undisturbed; [exact Hop|].
      eapply (task_run_keeps Undisturbed); [intros; by eapply undisturbed_step| |exact H1|by right].
      destruct H2 as [? H2%spins_length]. unfold InTime, elapsed, saturating_sub. cbn in *.
      unfold secs in *. lia.
Qed.

Lemma pause_iteration_ok c x : Spinning x → Holds (λ _, True) (pause_iteration (O := O) c x).
Proof.
  intros [Hu [ex1 Hb] [ex2 Ha] [Hr Hc] Ht]. unfold pause_iteration.
  destruct (start_and_pause c (pe_command x) (pe_pause x)) as [[v t0] [r res]] eqn:Hs.
  destruct (pause_start _ _ _ _ _ _ _ _ Hs Hu) as (Hst & Hto & Hn & ex & Hun & Hp).
  destruct res as [[]|e]; [|done]. cbn [of_result mbind bench_bind].
  pose proof (spins_length _ _ _ Hb) as Lb. pose proof (spins_length _ _ _ Ha) as La.
  assert (∀ now, now ≤ ce_started (pe_command x) + timeout long_input - 1 → InTime v now) as Hin.
  { intros now. unfold InTime, elapsed, saturating_sub. rewrite Hst, Hto. unfold long_input. cbn. unfold secs. lia. }
  eapply holds_bind; [eapply poll_finds_parked; [exact Hp| |exact Hun]; apply Hin; lia|].
  intros r1 (Hi & Htd & (p & o & Hpk) & Hn1).
  destruct (client_op running_resume _ _ r1) as [r2 res2] eqn:Hop.
  destruct (client_resume_parked _ _ _ _ _ _ _ Hop Hi Htd Hpk) as [Hcan Hn2].
  destruct res2 as [[]|e]; [|done]. cbn [of_result mbind bench_bind].
  pose proof (spins_executing _ _ Hb) as ->. pose proof (spins_executing _ _ Ha) as ->.
  pose proof (task_run_now v (pe_between x) r2) as Hn3.
  assert (Cancellable true (cmd_call (task_run v (pe_after x) (client_cancel (pe_cancel x) (task_run v (pe_between x) r2))))) as Hend.
  { eapply (task_run_keeps Cancellable); [intros; by eapply cancellable_step|apply Hin; unfold client_cancel; cbn [cmd_now]; lia|exact Ha|].
    apply cancellable_cancel.
    eapply (task_run_keeps Cancellable); [intros; by eapply cancellable_step|apply Hin; lia|exact Hb|done]. }
  unfold assert_fails_with, task_result. destruct Hend as (_ & _ & _ & Hend).
  destruct (call_stage (cmd_call (task_run v (pe_after x) _))); try done.
  by destruct Hend as [_ ->].
Qed.

Lemma pause_loop_ok c its ps rs :
  Forall Spinning its →
  Holds (λ x, length x.1 = (length ps + length its)%nat ∧ length x.2 = (length rs + length its)%nat)
    (pause_loop (O := O) c its ps rs).
Proof.
  intros Hs. revert ps rs. induction Hs as [|x its Hx _ IH]; intros ps rs; cbn [pause_loop length].
  { cbn. lia. }
  eapply holds_bind; [by apply pause_iteration_ok|]. intros [p r] _.
  eapply holds_impl; [apply IH|]. cbn. rewrite !length_app. cbn. lia.
Qed.

Lemma prepared_runtime_ok st c component join others w :
  config_in_range c → background_workers c ≤ max_permits →
  Holds (λ _, True) (prepared_runtime (C := C) st c component join others w).
Proof.
  intros Hc Hb. unfold prepared_runtime. eapply holds_bind; [by apply create_ok|]. intros [w' s] _.
  destruct (load_bytes component); [|done]. cbn [of_result mbind bench_bind].
  by destruct (prepare _ _ _ _ _ _) as [s' []].
Qed.
Lemma pause_config_in_range ttl : config_in_range (pause_config ttl).
Proof. split; vm_compute; by repeat split. Qed.

Lemma measure_idle_eviction_ok st component join others x w :
  SpinsUntilPaused (id_pause x) (id_polls x) → is_Some (spins true (id_after x)) →
  Holds (λ r, configured_ttl_ns r = 20000000)
    (measure_idle_eviction (C := C) (O := O) st component join others x w).
Proof.
  intros Hu Ha. unfold measure_idle_eviction. cbv zeta.
  eapply holds_bind; [by apply prepared_runtime_ok; [apply pause_config_in_range|vm_compute]|].
  intros [p s] _. destruct (id_status x) as [[before paused] after].
  destruct (start_and_pause _ (id_command x) (id_pause x)) as [[v t0] [r res]] eqn:Hs.
  destruct (pause_start _ _ _ _ _ _ _ _ Hs Hu) as (Hst & Hto & Hn & ex & Hun & Hp).
  destruct res as [[]|e]; [|done]. cbn [of_result mbind bench_bind].
  eapply holds_bind.
  { eapply poll_finds_parked; [exact Hp| |exact Hun]. destruct Hu as [_ _ Ht].
    unfold InTime, elapsed, saturating_sub. rewrite Hst, Hto, Hn. unfold long_input in *. cbn in *. unfold secs in *. lia. }
  intros r1 (Hi & _ & _ & _).
  destruct (task_run_idles v (id_after x) r1 Ha Hi) as [_ Hend].
  unfold assert_fails_with, task_result.
  destruct (call_stage (cmd_call (task_run v (id_after x) r1))); try done. by subst.
Qed.

Lemma percentiles_rank l :
  l ≠ [] → Z.of_nat (length l) * 95 ≤ usize_max →
  ∃ p, percentiles l = Some p ∧ NearestRank 50 l (pct_p50 p) ∧ NearestRank 95 l (pct_p95 p).
Proof.
  intros Hne Hmax. unfold percentiles.
  destruct (percentile_value_rank l 50) as (a & -> & ?); [done|done|lia|].
  destruct (percentile_value_rank l 95) as (b & -> & ?); [done|done|lia|]. by eexists.
Qed.

(** The pause benchmark measures what it says: with a guest that spins, within
    its timeout and whatever else the runtime does, every paused command that
    is resumed and cancelled ends as cancelled and the idle one as evicted, so
    that neither assertion fails; unless the library reports an error or a
    command does not end, it reports the nearest ranks of as many samples as
    iterations. *)
Theorem pause_benchmark_asserts_hold st component join others its idle w :
  Forall Spinning its → its ≠ [] → Z.of_nat (length its) * 95 ≤ usize_max →
  SpinsUntilPaused (id_pause idle) (id_polls idle) → is_Some (spins true (id_after idle)) →
  Holds (λ r, pr_iterations r = Z.of_nat (length its)
              ∧ ∃ ps rs, length ps = length its ∧ length rs = length its
                  ∧ NearestRank 50 ps (pct_p50 (pause_ack_ns r)) ∧ NearestRank 95 ps (pct_p95 (pause_ack_ns r))
                  ∧ NearestRank 50 rs (pct_p50 (resume_call_ns r)) ∧ NearestRank 95 rs (pct_p95 (resume_call_ns r)))
    (pause_benchmark (C := C) (O := O) st component join others its idle w).
Proof.
  intros Hs Hne Hmax Hu Ha. unfold pause_benchmark. cbv zeta.
  eapply holds_bind; [by apply prepared_runtime_ok; [apply pause_config_in_range|vm_compute]|]. intros [p s] _.
  eapply holds_bind; [by apply pause_loop_ok|]. intros [ps rs] [Hp Hr]. cbn in Hp, Hr.
  eapply holds_bind; [by apply measure_idle_eviction_ok|]. intros ie _.
  destruct (percentiles_rank ps) as (pp & -> & ? & ?); [by intros ->; destruct its|by rewrite Hp|].
  destruct (percentiles_rank rs) as (pr & -> & ? & ?); [by intros ->; destruct its|by rewrite Hr|].
  cbn. split; [done|]. by exists ps, rs.
Qed.
End holds.

(** ** A run *)

Module PauseBenchmarkExample.
Import Toy DiskCacheExample RuntimeExample PreparationExample RestartExample InvocationExample TierBenchmarkExample.

Definition env : CommandEnv :=
  {| ce_started := 100; ce_instantiate_started := 101; ce_interrupt_text := "wasm trap: interrupt" |}.
(** The task is paused while its guest runs, or before its call starts. *)
Definition paused_later : PauseEnv := {|
  pe_command := env; pe_pause := PausedLater [(2, HInstantiated); (1, HEpoch); (0, HCheck)] 1 false;
  pe_polls := [([], false); ([(2, HEpoch); (0, HCheck)], false)];
  pe_resume := 1; pe_resume_noticed := false; pe_between := [(1, HWait Notified)]; pe_cancel := 1;
  pe_after := [(1, HEpoch); (0, HCheck); (1, HMapped)] |}.
Definition paused_early : PauseEnv := {|
  pe_command := env; pe_pause := PausedEarly 90;
  pe_polls := [([(2, HInstantiated)], false); ([(5, HEpoch); (0, HCheck); (1, HWait Notified)], true)];
  pe_resume := 1; pe_resume_noticed := false; pe_between := []; pe_cancel := 0;
  pe_after := [(1, HWait Notified); (0, HWait Notified); (1, HEpoch); (0, HCheck); (1, HMapped)] |}.
Definition idle : IdleEnv := {|
  id_command := env; id_pause := PausedLater [(2, HInstantiated)] 1 false;
  id_polls := [([(2, HEpoch); (0, HCheck)], false)];
  id_after := [(1, HWait Notified); (millis 20, HWait SleepElapsed); (1, HEpoch); (0, HCheck); (1, HMapped)];
  id_status := (Ok (str_bytes "VmRSS: 7 kB"), Err "gone", Ok []) |}.

Example pause_benchmark_finishes :
  match pause_benchmark (C := list string) (O := Z * list byte) startup source None id [paused_later; paused_early] idle
          empty_world with
  | BOk r => Some (pct_p50 (pause_ack_ns r), pct_p95 (pause_ack_ns r), observed_ns (idle_eviction r),
                   rss_before_kib (idle_eviction r), retained_tier (idle_eviction r))
  | _ => None
  end = Some (3, 18, 20000006, Some 7, Warmish).
Proof. vm_compute. reflexivity. Qed.

Lemma pause_benchmark_asserts_hold_witness :
  Holds (λ r, pr_iterations r = 2)
    (pause_benchmark (C := list string) (O := Z * list byte) startup source None id [paused_later; paused_early] idle
       empty_world).
Proof.
  eapply holds_impl.
  - apply (pause_benchmark_asserts_hold startup source None id [paused_later; paused_early] idle empty_world);
      [|done|by vm_compute| |by eexists].
    + repeat constructor; try by eexists. all: try (eexists; split; [reflexivity|by eexists]). all: vm_compute; done.
    + split; [eexists; split; [reflexivity|by eexists]|..]; by vm_compute.
  - by intros r [-> _].
Defined.
End PauseBenchmarkExample.
