(* ===== verification/HttpBenchmark.v ===== *)
(** The HTTP benchmarks ([src/examples/http_benchmark.rs],
    [http_capacity_benchmark.rs]): clients that drive an HTTP service through
    the states of its package and its workers, and assert before each sample
    that the request was served from the state they mean to measure.  Each
    scenario is a program over the runtime and the service model; what the
    proxy handler, its workers and other tasks do during a call are events of
    the service.  Theorem: run alone, on a handler that starts workers only
    when it needs them, no assertion fails. *)
From Stdlib Require Import ZifyBool.
From S2P Require Import Prelude Errors Interfaces Streams Types MemoryCache DiskCache Runtime Preparation Restart.
From S2P Require Import Pause Invocation Http HttpService BenchmarkStatistics ExamplePrograms TierBenchmark.

Local Open Scope Z_scope.

(** [RuntimeConfig { disk_cache: Some(..), ..default() }] *)
Definition http_disk_config (directory : string) : RuntimeConfig := {|
  max_warm_components := max_warm_components default_config;
  max_warmish_entries := max_warmish_entries default_config;
  config_max_warmish_bytes := config_max_warmish_bytes default_config;
  background_workers := background_workers default_config;
  paused_resident_ttl := paused_resident_ttl default_config;
  epoch_interval := epoch_interval default_config;
  disk_cache := Some (disk_cache_config_new directory (repeat (byte_of_Z 41) 32));
  limits := limits default_config |}.
Definition capacity_config (directory : string) : RuntimeConfig := {|
  max_warm_components := 1; max_warmish_entries := 1;
  config_max_warmish_bytes := config_max_warmish_bytes default_config;
  background_workers := background_workers default_config;
  paused_resident_ttl := paused_resident_ttl default_config;
  epoch_interval := epoch_interval default_config;
  disk_cache := Some (disk_cache_config_new directory (repeat (byte_of_Z 63) 32));
  limits := limits default_config |}.
(** [HttpServiceConfig { idle_worker_ttl, ..c }] *)
Definition with_idle_ttl (ttl : Z) (c : HttpServiceConfig) : HttpServiceConfig := {|
  max_in_flight := max_in_flight c; max_instance_reuse_count := max_instance_reuse_count c;
  max_instance_concurrent_reuse_count := max_instance_concurrent_reuse_count c;
  idle_worker_ttl := ttl; request_timeout := request_timeout c; outbound_grants := outbound_grants c |}.

Record HttpReport := {
  hb_iterations : Z; hb_cold : Distribution; hb_disk_aot : Distribution; hb_disk_aot_artifact_bytes : Z;
  hb_paused_resident : Distribution; hb_warmish_restart : Distribution; hb_throughput : list Throughput }.

Section scenarios.
Context {C Req Body P : Type} `{Engine C} `{Crypto} `{Host} `{HttpLib} `{!ProxyLib C Req Body P}.
Context {JI : Json CacheIdentity} {JM : Json CacheMetadata}.
Notation System := (@System C Req Body P).
Notation event := (@event C Body).
Implicit Types y : System.

(** Which events the handler, its workers and other tasks come up with in a
    state of the service. *)
Variable allows : HandlerConfig → event → System → bool.
Fixpoint allowed_run (h : HandlerConfig) (l : list event) y : option System :=
  match l with
  | [] => Some y
  | e :: l' => if allows h e y then y' ← system_step h e y; allowed_run h l' y' else None
  end.
(** What happens to the service meanwhile; a list that is no behaviour of it
    leaves the client waiting. *)
Definition advance (h : HandlerConfig) (l : list event) y : bench System :=
  match allowed_run h l y with Some y' => BOk y' | None => BPending end.
(** The client's tasks call [handle]. *)
Definition issue (r : HttpRequest) y : System :=
  {| shared := shared y; requests := requests y ++ [Buffered r]; workers := workers y |}.

(** What the caller of request [i] gets. *)
Definition answered (i : nat) y : bench HttpResponse :=
  match requests y !! i with
  | Some (Done (Responded r)) => BOk r
  | Some (Done (Failed e)) => BErr e
  | _ => BPending
  end.
(** [service.handle(request).await?] *)
Definition handle (h : HandlerConfig) (r : HttpRequest) (l : list event) y : bench (System * HttpResponse) :=
  let i := length (requests y) in
  y' ← advance h l (issue r y);
  response ← answered i y';
  BOk (y', response).
(** One measured call: its events, the elapsed time in its response and the
    stopwatch around it. *)
Record Exchange := { ex_events : list event; ex_elapsed : Z; ex_harness : Z }.
Definition handle_sample (x : Exchange) : HttpSample := {|
  hs_runtime_init_ns := 0; hs_service_prepare_ns := 0; hs_service_start_total_ns := 0;
  hs_request_ns := nanos (ex_elapsed x); hs_harness_total_ns := nanos (ex_harness x) |}.

(** ** Construction *)

(** What other tasks do to the runtime before the tier is read, under the
    preparation's lock and during compilation, and the measured times. *)
Record ServiceEnv := {
  se_others : RuntimeInner C → RuntimeInner C;
  se_join : option string;
  se_during_lock : RuntimeInner C → RuntimeInner C;
  se_during_compile : RuntimeInner C → RuntimeInner C;
  se_startup_prepare : Z; se_startup_total : Z; se_instant_max : Z }.
(** [program.http_service(config).await?] *)
Definition start_service (p : Program) (c : HttpServiceConfig) (x : ServiceEnv) (s : RuntimeInner C)
    : bench (HandlerConfig * System * PackageTier) :=
  match http_service p c (prepare (program_digest p) (program_bytes p) (se_join x) (se_during_lock x)
                            (se_during_compile x)) (se_others x s) with
  | (_, Panics) => BPanic
  | (_, Returns r) =>
      '(y, from, _) ← of_result r;
      BOk ({| h_digest := program_digest p; h_bytes := program_bytes p; h_config := c;
              instant_max := se_instant_max x |}, y, from)
  end.
Definition ready_service (st : Startup) (component : list byte) (idle_worker_ttl : Z) (x : ServiceEnv) (w : World)
    : bench (HandlerConfig * System) :=
  '(_, s) ← create (C := C) st default_config w;
  p ← of_result (load_bytes component);
  '(h, y, _) ← start_service p (with_idle_ttl idle_worker_ttl http_benchmark_service_config) x s;
  BOk (h, y).

(** ** Cold and disk *)

Record ServiceIteration := { si_runtime_init : Z; si_service : ServiceEnv; si_exchange : Exchange }.
Definition service_sample (it : ServiceIteration) : HttpSample := {|
  hs_runtime_init_ns := nanos (si_runtime_init it);
  hs_service_prepare_ns := nanos (se_startup_prepare (si_service it));
  hs_service_start_total_ns := nanos (se_startup_total (si_service it));
  hs_request_ns := nanos (ex_elapsed (si_exchange it));
  hs_harness_total_ns := nanos (ex_harness (si_exchange it)) |}.

Fixpoint http_cold_loop (st : Startup) (component : list byte) (its : list ServiceIteration) (w : World)
    (samples : list HttpSample) : bench (list HttpSample) :=
  match its with
  | [] => BOk samples
  | it :: its' =>
      '(_, s) ← create (C := C) st default_config w;
      p ← of_result (load_bytes component);
      '(h, y, startup_from) ← start_service p http_benchmark_service_config (si_service it) s;
      _ ← assert (bool_decide (startup_from = Cold));
      '(y, response) ← handle h tool_request (ex_events (si_exchange it)) y;
      _ ← assert (rs_worker_created response);
      http_cold_loop st component its' (disk_world (rt (shared y))) (samples ++ [service_sample it])
  end.
Definition http_cold (st : Startup) (component : list byte) (its : list ServiceIteration) (w : World) : bench Distribution :=
  samples ← http_cold_loop st component its w [];
  of_option (distribution samples).

Fixpoint http_disk_loop (st : Startup) (c : RuntimeConfig) (component : list byte) (its : list ServiceIteration) (w : World)
    (samples : list HttpSample) : bench (list HttpSample) :=
  match its with
  | [] => BOk samples
  | it :: its' =>
      '(_, s) ← create (C := C) st c w;
      p ← of_result (load_bytes component);
      let '(s, t) := tier (program_digest p) (se_others (si_service it) s) in
      _ ← assert (bool_decide (t = DiskAot));
      '(h, y, startup_from) ← start_service p http_benchmark_service_config (si_service it) s;
      _ ← assert (bool_decide (startup_from = DiskAot));
      '(y, response) ← handle h tool_request (ex_events (si_exchange it)) y;
      http_disk_loop st c component its' (disk_world (rt (shared y))) (samples ++ [service_sample it])
  end.
Definition http_disk_aot (st : Startup) (directory : string) (component : list byte) (first : ServiceEnv)
    (read_dir : result string (list (result string DirEntry))) (its : list ServiceIteration) (w : World)
    : bench (Distribution * Z) :=
  let c := http_disk_config directory in
  '(_, s) ← create (C := C) st c w;
  p ← of_result (load_bytes component);
  '(_, y, _) ← start_service p http_benchmark_service_config first s;
  artifact ← of_option (directory_bytes read_dir "aot");
  artifact_bytes ← of_result (map_err Io artifact);
  samples ← http_disk_loop st c component its (disk_world (rt (shared y))) [];
  d ← of_option (distribution samples);
  BOk (d, artifact_bytes).

(** ** Paused workers *)

Fixpoint paused_loop (h : HandlerConfig) (xs : list Exchange) y (samples : list HttpSample) : bench (list HttpSample) :=
  match xs with
  | [] => BOk samples
  | x :: xs' =>
      '(y, response) ← handle h tool_request (ex_events x) y;
      _ ← assert (negb (rs_worker_created response));
      paused_loop h xs' y (samples ++ [handle_sample x])
  end.
(** [yielded] happens while the client yields. *)
Definition paused_resident (st : Startup) (component : list byte) (service : ServiceEnv) (first yielded : list event)
    (xs : list Exchange) (w : World) : bench Distribution :=
  '(h, y) ← ready_service st component (secs 30) service w;
  '(y, _) ← handle h tool_request first y;
  y ← advance h yielded y;
  _ ← assert (match service_state (shared y) with ServicePausedResident => true | _ => false end);
  samples ← paused_loop h xs y [];
  of_option (distribution samples).

(** [wait_for_evictions]: before each reading of the counter the service runs
    on; the deadline is a second after the start.  [looks] is in which states
    of the service the client's task gets to read. *)
Variable looks : System → bool.
Fixpoint poll_evictions (h : HandlerConfig) (expected deadline : Z) (polls : list (list event * Z)) y : bench System :=
  match polls with
  | [] => BPending
  | (l, now) :: polls' =>
      y ← advance h l y;
      if negb (looks y) then BPending
      else if expected <=? idle_evictions (metrics (shared y)) then BOk y
      else if deadline <=? now then BErr (Io "deadline has elapsed")
      else poll_evictions h expected deadline polls' y
  end.
Record RestartTurn := { re_started : Z; re_polls : list (list event * Z); re_exchange : Exchange }.
Fixpoint warmish_restart_loop (h : HandlerConfig) (expected : Z) (xs : list RestartTurn) y (samples : list HttpSample)
    : bench (list HttpSample) :=
  match xs with
  | [] => BOk samples
  | x :: xs' =>
      y ← poll_evictions h expected (re_started x + secs 1) (re_polls x) y;
      _ ← assert (bool_decide (package_tier (shared y) = Warmish));
      '(y, response) ← handle h tool_request (ex_events (re_exchange x)) y;
      _ ← assert (bool_decide (rs_package_tier response = Warmish));
      _ ← assert (rs_worker_created response);
      warmish_restart_loop h (expected + 1) xs' y (samples ++ [handle_sample (re_exchange x)])
  end.
Definition warmish_restart (st : Startup) (component : list byte) (service : ServiceEnv) (first : list event)
    (xs : list RestartTurn) (w : World) : bench Distribution :=
  '(h, y) ← ready_service st component (millis 5) service w;
  '(y, _) ← handle h tool_request first y;
  samples ← warmish_restart_loop h 1 xs y [];
  of_option (distribution samples).

(** ** Throughput *)

(** A batch: its events, and in the order of completion which of its requests
    ended and after what time. *)
Record Batch := { ba_events : list event; ba_joined : list (nat * Z) }.
Fixpoint join_batch (base : nat) (joined : list (nat * Z)) y (latencies : list Z) : bench (list Z) :=
  match joined with
  | [] => BOk latencies
  | (i, elapsed) :: joined' =>
      _ ← answered (base + i) y;
      join_batch base joined' y (latencies ++ [nanos elapsed])
  end.
Fixpoint service_batches (h : HandlerConfig) (concurrency n : Z) (offsets : list Z) (bs : list Batch) y (latencies : list Z)
    : bench (list Z) :=
  match offsets, bs with
  | [], _ => BOk latencies
  | _ :: _, [] => BPending
  | offset :: offsets', b :: bs' =>
      let count := Z.to_nat (batch_count concurrency n offset) in
      let base := length (requests y) in
      y ← advance h (ba_events b) (Nat.iter count (issue tool_request) y);
      if bool_decide (length (ba_joined b) = count) then
        latencies ← join_batch base (ba_joined b) y latencies;
        service_batches h concurrency n offsets' bs' y latencies
      else BPending
  end.
Record ThroughputEnv := { te_service : ServiceEnv; te_first : list event; te_elapsed : Z; te_batches : list Batch }.
Definition service_throughput (st : Startup) (component : list byte) (concurrency n : Z) (x : ThroughputEnv) (w : World)
    : bench Throughput :=
  '(h, y) ← ready_service st component (secs 30) (te_service x) w;
  '(y, _) ← handle h tool_request (te_first x) y;
  offsets ← of_option (step_by n concurrency);
  latencies ← service_batches h concurrency n offsets (te_batches x) y [];
  let latencies := sort_unstable latencies in
  p50 ← of_option (percentile_value latencies 50);
  p95 ← of_option (percentile_value latencies 95);
  BOk {| tp_concurrency := concurrency; tp_requests := n; tp_elapsed_ns := nanos (te_elapsed x);
         tp_requests_per_second := requests_per_second n (te_elapsed x); tp_latency_p50_ns := p50; tp_latency_p95_ns := p95 |}.

(** [main] once its arguments are parsed: the scenarios in the order they run
    in.  What happens meanwhile has one entry per iteration. *)
Record HttpEnv := {
  he_disk_first : ServiceEnv; he_read_dir : result string (list (result string DirEntry)); he_disk : list ServiceIteration;
  he_cold : list ServiceIteration;
  he_paused_service : ServiceEnv; he_paused_first : list event; he_yielded : list event; he_paused : list Exchange;
  he_warmish_service : ServiceEnv; he_warmish_first : list event; he_warmish : list RestartTurn;
  he_one : ThroughputEnv; he_eight : ThroughputEnv; he_thirty_two : ThroughputEnv }.
Definition http_benchmark (st : Startup) (directory : string) (component : list byte) (iterations throughput_requests : Z)
    (x : HttpEnv) (w : World) : bench HttpReport :=
  '(disk_aot, disk_aot_artifact_bytes) ← http_disk_aot st directory component (he_disk_first x) (he_read_dir x) (he_disk x) w;
  cold ← http_cold st component (he_cold x) w;
  paused_resident ← paused_resident st component (he_paused_service x) (he_paused_first x) (he_yielded x) (he_paused x) w;
  warmish_restart ← warmish_restart st component (he_warmish_service x) (he_warmish_first x) (he_warmish x) w;
  one ← service_throughput st component 1 throughput_requests (he_one x) w;
  eight ← service_throughput st component 8 throughput_requests (he_eight x) w;
  thirty_two ← service_throughput st component 32 throughput_requests (he_thirty_two x) w;
  BOk {| hb_iterations := iterations; hb_cold := cold; hb_disk_aot := disk_aot;
         hb_disk_aot_artifact_bytes := disk_aot_artifact_bytes; hb_paused_resident := paused_resident;
         hb_warmish_restart := warmish_restart; hb_throughput := [one; eight; thirty_two] |}.

(** ** The capacity benchmark *)

(** [HttpServiceConfig { idle_worker_ttl: 300 s, ..default() }]; the services
    share the runtime, each continuing from the state the last one left. *)
Definition capacity_request : HttpRequest := http_request_new "GET" "http://capacity.local/" [].
Fixpoint capacity_loop (p : Program) (max_measured_workers : Z) (workers : list Z)
    (xs : list (ServiceEnv * list event * result string (list byte))) (s : RuntimeInner C)
    (measured : list (Z * Z)) : bench (RuntimeInner C * list (Z * Z)) :=
  match workers, xs with
  | [], _ => BOk (s, measured)
  | _ :: _, [] => BPending
  | n :: workers', (x, l, status) :: xs' =>
      '(h, y, _) ← start_service p (with_idle_ttl (secs 300) default_http_config) x s;
      '(y, _) ← handle h capacity_request l y;
      measured ← (if measured_at max_measured_workers n then
                    rss ← of_option (rss_bytes status);
                    rss ← of_result (map_err Io rss);
                    BOk (measured ++ [(n, rss)])
                  else BOk measured);
      capacity_loop p max_measured_workers workers' xs' (rt (shared y)) measured
  end.
Definition capacity_benchmark (st : Startup) (directory : string) (component : list byte) (max_measured_workers : Z)
    (baseline_status measured_status : result string (list byte))
    (xs : list (ServiceEnv * list event * result string (list byte)))
    (read_dir : result string (list (result string DirEntry))) (w : World)
    : bench (Z * list PackageStorage * list ResidentWorkers * WorkerBasis) :=
  '(_, s) ← create (C := C) st (capacity_config directory) w;
  p ← of_result (load_bytes component);
  baseline ← of_option (rss_bytes baseline_status);
  baseline ← of_result (map_err Io baseline);
  '(_, measured) ← capacity_loop p max_measured_workers (seqZ 1 max_measured_workers) xs s [];
  measured_rss ← of_option (rss_bytes measured_status);
  measured_rss ← of_result (map_err Io measured_rss);
  aot_bytes ← of_option (directory_bytes read_dir "aot");
  aot_bytes ← of_result (map_err Io aot_bytes);
  BOk (aot_bytes, package_storage (blen component) aot_bytes, resident_workers baseline measured,
       worker_basis max_measured_workers baseline measured_rss measured).
End scenarios.

(** ** A handler that starts workers when it needs them *)

Section policy.
Context {C Req Body P : Type} `{Engine C} `{Crypto} `{Host} `{HttpLib} `{!ProxyLib C Req Body P}.
Context {JI : Json CacheIdentity} {JM : Json CacheMetadata}.
Notation System := (@System C Req Body P).
Notation Shared := (@Shared C P).
Notation worker := (@worker C P).
Notation event := (@event C Body).
Implicit Types y : System.

Definition dispatched (p : @pc Req Body) : bool :=
  match p with BDispatched _ _ _ _ | SDispatched _ _ _ _ => true | _ => false end.

(** Stages of a worker: starting, created, (live,) leaving before and after the
    eviction is counted, gone. *)
Definition starting (w : worker) : Z :=
  match w with WStart | WPreparing | WCandidate _ | WInstantiating _ | WInstantiated | WTiered => 1 | _ => 0 end.
Definition created (w : worker) : Z := match w with WCreated => 1 | _ => 0 end.
Definition leaving (w : worker) : Z := match w with WEvicting1 => 1 | _ => 0 end.
Definition evicting (w : worker) : Z := match w with WEvicting2 | WEvicting3 | WEvicting4 => 1 | _ => 0 end.
Definition gone (w : worker) : Z := match w with WGone => 1 | _ => 0 end.

(** A live worker refuses a request, with counts a worker of this service can
    have: the request is one of those under way and not its own. *)
Definition Refuses (lims : WorkerLimits) y : Prop :=
  ∃ concurrent total,
    0 ≤ concurrent < Z.of_nat (length (filter (λ p, dispatched p = true) (requests y)))
    ∧ 0 ≤ total < Z.of_nat (length (requests y)) ∧ should_accept_request lims concurrent total ≠ Yes.

(** The client is alone.  The handler starts a worker only for a request that
    was dispatched, while no worker is starting and every live one refuses it;
    a live worker answers; and no worker is dropped before the client has its
    response. *)
Record Policy (lims : WorkerLimits) (allows : HandlerConfig → event → System → bool) : Prop := {
  pol_alone h e y : allows h e y = true →
    match e with NewBuffered _ | NewStreamed _ | RuntimeStep _ => False | _ => True end;
  pol_new_worker h y : allows h NewWorker y = true →
    blen (workers y) < u64_max ∧ Exists (λ p, dispatched p = true) (requests y)
    ∧ zsum starting (workers y) + zsum created (workers y) = 0
    ∧ (0 < zsum live (workers y) → Refuses lims y);
  pol_handled h y i r : allows h (RequestStep i (Handled (Ok r))) y = true → 0 < zsum live (workers y);
  pol_drop h y j : allows h (WorkerStep j WDrop) y = true → forallb finished (requests y) = true;
}.
(** No worker is idle for its whole time. *)
Definition Retains (allows : HandlerConfig → event → System → bool) (h : HandlerConfig) : Prop :=
  ∀ y j, allows h (WorkerStep j WDrop) y = false.

(** *** Steps *)

Lemma request_step_keeps a p (s : Shared) p' s' :
  request_step a p s = Some (p', s') →
  workers_created (metrics s') = workers_created (metrics s) ∧ idle_evictions (metrics s') = idle_evictions (metrics s)
  ∧ tier_code s' = tier_code s ∧ pre s' = pre s ∧ rt s' = rt s.
Proof.
  unfold request_step, collect_response, open_body, body_poll_frame, body_drop, take_guard.
  intros Hs. repeat case_match; simplify_eq; by cbn.
Qed.

Inductive worker_moves (w : worker) (s : Shared) (w' : worker) (s' : Shared) : Prop :=
| starts_on : starting w = 1 → created w' = 0 → live w' = 0 → leaving w' = 0 → evicting w' = 0 → gone w' = 0 →
    metrics s' = metrics s → worker_moves w s w' s'
| is_created : starting w = 1 → created w' = 1 →
    workers_created (metrics s') = wrapping_add u64_max (workers_created (metrics s)) 1 →
    idle_evictions (metrics s') = idle_evictions (metrics s) → tier_code s' = tier_code s → worker_moves w s w' s'
| lives : (created w = 1 ∨ live w = 1) → live w' = 1 → tier_code s' = tier_code s →
    workers_created (metrics s') = workers_created (metrics s) →
    idle_evictions (metrics s') = idle_evictions (metrics s) → worker_moves w s w' s'
| drops : live w = 1 → (leaving w' = 1 ∨ gone w' = 1) → tier_code s' = tier_code s →
    workers_created (metrics s') = workers_created (metrics s) →
    idle_evictions (metrics s') = idle_evictions (metrics s) → worker_moves w s w' s'
| evicts : leaving w = 1 → evicting w' = 1 → tier_code s' = tier_code s →
    workers_created (metrics s') = workers_created (metrics s) →
    idle_evictions (metrics s') = wrapping_add u64_max (idle_evictions (metrics s)) 1 → worker_moves w s w' s'
| leaves : evicting w = 1 → (evicting w' = 1 ∧ tier_code s' = tier_code s
                             ∨ gone w' = 1 ∧ tier_code s' = package_tier_code Warmish) →
    metrics s' = metrics s → worker_moves w s w' s'.

Lemma worker_step_moves h a w (s : Shared) w' s' : worker_step h a w s = Some (w', s') → worker_moves w s w' s'.
Proof.
  unfold worker_step. intros Hs.
  destruct w, a; try done; cbn in Hs.
  all: repeat case_match; simplify_eq; try done.
  all: first [by apply starts_on|by apply is_created|by apply lives; auto|by apply drops; auto|by apply evicts
             |apply leaves; [done| |done]; auto].
Qed.

Lemma stage_unique (w : worker) :
  0 ≤ starting w ∧ 0 ≤ created w ∧ 0 ≤ live w ∧ 0 ≤ leaving w ∧ 0 ≤ evicting w ∧ 0 ≤ gone w
  ∧ starting w + created w + live w + leaving w + evicting w + gone w ≤ 1.
Proof. destruct w; cbn; lia. Qed.
Lemma stages_nonneg (ws : list worker) :
  0 ≤ zsum starting ws ∧ 0 ≤ zsum created ws ∧ 0 ≤ zsum live ws ∧ 0 ≤ zsum leaving ws ∧ 0 ≤ zsum evicting ws
  ∧ 0 ≤ zsum gone ws.
Proof. split_and!; apply zsum_nonneg; intros w; pose proof (stage_unique w); lia. Qed.

(** How many workers are at each stage, with the counters. *)
Record Stages := { n_starting : Z; n_created : Z; n_live : Z; n_leaving : Z; n_evicting : Z; n_gone : Z }.
Definition stages (ws : list worker) : Stages := {|
  n_starting := zsum starting ws; n_created := zsum created ws; n_live := zsum live ws;
  n_leaving := zsum leaving ws; n_evicting := zsum evicting ws; n_gone := zsum gone ws |}.
Definition active (z : Stages) : Z := n_starting z + n_created z + n_live z + n_leaving z + n_evicting z.
Definition made (z : Stages) : Z := n_created z + n_live z + n_leaving z + n_evicting z + n_gone z.

Lemma made_le (ws : list worker) : made (stages ws) ≤ blen ws.
Proof.
  unfold made, stages. cbn. induction ws as [|w ws IH]; [done|]. rewrite blen_cons. cbn. unfold zsum in IH.
  pose proof (stage_unique w). lia.
Qed.

(** The counters are those of the stages. *)
Definition Counted y : Prop :=
  workers_created (metrics (shared y)) = made (stages (workers y)) ∧ blen (workers y) ≤ u64_max.

(** The effect of a worker's step on the numbers of stages. *)
Lemma worker_event h j a y y' :
  system_step h (WorkerStep j a) y = Some y' →
  requests y' = requests y ∧ blen (workers y') = blen (workers y)
  ∧ ∃ w w', workers y !! j = Some w ∧ worker_step h a w (shared y) = Some (w', shared y')
    ∧ workers y' = <[j := w']> (workers y)
    ∧ ∀ f : worker → Z, zsum f (workers y') = zsum f (workers y) - f w + f w'.
Proof.
  cbn. destruct (workers y !! j) as [w|] eqn:Hj; cbn; [|done].
  destruct (worker_step h a w (shared y)) as [[w' s]|] eqn:Hw; cbn; [|done]. intros [= <-]. cbn.
  split_and!; [done|unfold blen; by rewrite length_insert|]. exists w, w'. split_and!; [done..|].
  intros f. by apply zsum_insert.
Qed.

Lemma counted_step h j a y y' : Counted y → system_step h (WorkerStep j a) y = Some y' → Counted y'.
Proof.
  intros [Hm Hb] Hs. apply worker_event in Hs as (_ & Hlen & w & w' & _ & Hw & _ & Hz).
  split; [|lia]. apply worker_step_moves in Hw. pose proof (made_le (workers y)). pose proof (made_le (workers y')).
  pose proof (stages_nonneg (workers y)). pose proof (stages_nonneg (workers y')).
  pose proof (stage_unique w). pose proof (stage_unique w').
  unfold made, stages in *. cbn [n_created n_live n_leaving n_evicting n_gone] in *. rewrite !Hz in *.
  destruct Hw as [? ? ? ? ? ? ->|? ? -> ? ?|? ? ? -> ?|? ? ? -> ?|? ? ? -> ?|? [[? _]|[? _]] ->]; try lia.
  rewrite Hm. unfold wrapping_add. rewrite Z.mod_small; lia.
Qed.

Lemma zsum_lookup {A} (f : A → Z) l i x : (∀ x, 0 ≤ f x) → l !! i = Some x → f x ≤ zsum f l.
Proof.
  intros Hf. revert i. induction l as [|x' l IH]; intros [|i] Hi; simplify_eq/=.
  - pose proof (zsum_nonneg f l Hf). unfold zsum in *. lia.
  - specialize (IH _ Hi). specialize (Hf x'). unfold zsum in *. lia.
Qed.
Lemma stages_lookup (ws : list worker) j w :
  ws !! j = Some w →
  starting w ≤ zsum starting ws ∧ created w ≤ zsum created ws ∧ live w ≤ zsum live ws
  ∧ leaving w ≤ zsum leaving ws ∧ evicting w ≤ zsum evicting ws.
Proof.
  intros Hj. split_and!; apply (zsum_lookup _ _ j); try done; intros x; pose proof (stage_unique x); lia.
Qed.

(** *** The workers during a request *)

(** The workers before a request that will need a new one, while it is
    starting, and once it has answered; [k] evictions will have been counted
    when it is gone, [keep] says that no worker is dropped. *)
Definition Quiet (m k : Z) (T : PackageTier) y : Prop :=
  let z := stages (workers y) in
  active z = 0 ∧ n_gone z = m ∧ package_tier (shared y) = T ∧ idle_evictions (metrics (shared y)) = k - 1.
Definition Starting (m k : Z) y : Prop :=
  let z := stages (workers y) in
  active z ≤ 1 ∧ n_leaving z = 0 ∧ n_evicting z = 0 ∧ n_gone z = m ∧ idle_evictions (metrics (shared y)) = k - 1.
Definition Answered (m k : Z) (keep : Prop) y : Prop :=
  let z := stages (workers y) in
  let idle := idle_evictions (metrics (shared y)) in
  n_starting z = 0 ∧ n_created z = 0 ∧ active z ≤ 1 ∧ m < made z
  ∧ (idle = k - 1 ∧ n_evicting z = 0
     ∨ idle = k ∧ n_live z = 0 ∧ n_leaving z = 0
       ∧ (n_evicting z = 1 ∨ n_evicting z = 0 ∧ package_tier (shared y) = Warmish))
  ∧ (keep → n_live z = 1).
(** The one live worker of requests that need no new one. *)
Definition Held (m : Z) y : Prop :=
  let z := stages (workers y) in
  n_starting z = 0 ∧ n_created z = 0 ∧ n_live z = 1 ∧ n_leaving z = 0 ∧ n_evicting z = 0 ∧ made z = m.

Local Ltac worker_cases Hs :=
  apply worker_event in Hs as (Hreq & Hlen & w & w' & Hj & Hw & Hws & Hz);
  pose proof (stages_lookup _ _ _ Hj) as Hel; pose proof (stage_unique w) as Hu; pose proof (stage_unique w') as Hu';
  pose proof (Hz starting); pose proof (Hz created); pose proof (Hz live); pose proof (Hz leaving);
  pose proof (Hz evicting); pose proof (Hz gone).

Lemma quiet_worker m k T h j a y y' : Quiet m k T y → system_step h (WorkerStep j a) y = Some y' → False.
Proof.
  intros (Ha & _) Hs. pose proof (stages_nonneg (workers y)). worker_cases Hs. apply worker_step_moves in Hw.
  unfold active, stages in Ha. cbn in Ha.
  destruct Hw as [|? ? ? ? ?|[?|?] ? ? ? ?|? ? ? ? ?|? ? ? ? ?|? ? ?]; lia.
Qed.

Lemma starting_worker m k h j a y y' :
  Starting m k y → a ≠ WDrop → system_step h (WorkerStep j a) y = Some y' → Starting m k y'.
Proof.
  intros (Ha & Hl & He & Hg & Hi) Hd Hs. pose proof (stages_nonneg (workers y)). worker_cases Hs.
  assert (¬ (live w = 1 ∧ (leaving w' = 1 ∨ gone w' = 1))) as Hnd.
  { intros [E1 E2]. destruct w; try done. destruct a; try done. cbn in Hw. simplify_eq. by destruct E2. }
  apply worker_step_moves in Hw. unfold Starting, active, stages in *. cbn in *.
  destruct Hw as [? ? ? ? ? ? ->|? ? ? -> ?|? ? ? ? ->|? ? ? ? ->|? ? ? ? ?|? ? ?]; try (exfalso; lia);
    try (exfalso; apply Hnd; by split); split_and!; try done; lia.
Qed.

Lemma answered_worker m k (keep : Prop) h j a y y' :
  0 ≤ k ≤ u64_max → Answered m k keep y → (keep → a ≠ WDrop) → system_step h (WorkerStep j a) y = Some y' →
  Answered m k keep y'.
Proof.
  intros Hk (Hs0 & Hc0 & Ha & Hm & Hi & Hkeep) Hd Hs. pose proof (stages_nonneg (workers y)). worker_cases Hs.
  assert (keep → ¬ (live w = 1 ∧ (leaving w' = 1 ∨ gone w' = 1))) as Hnd.
  { intros Hkp [E1 E2]. specialize (Hd Hkp). destruct w; try done. destruct a; try done. cbn in Hw. simplify_eq. by destruct E2. }
  apply worker_step_moves in Hw. unfold Answered, active, made, stages, package_tier in *. cbn in *.
  destruct Hw as [? ? ? ? ? ? Em|? ? ? Em ?|? ? Et Em Ei|? ? Et Em Ei|? ? Et Em Ei|? Hor Em]; try (exfalso; lia).
  - rewrite Ei, Et. split_and!; lia.
  - rewrite Ei, Et. split_and!; try lia. intros Hkp. exfalso. apply (Hnd Hkp). by split.
  - rewrite Ei, Et. unfold wrapping_add. rewrite Z.mod_small by lia.
    split_and!; try lia; intros Hkp; specialize (Hkeep Hkp); lia.
  - rewrite Em. destruct Hor as [[? Et]|[? Et]]; rewrite Et; split_and!; try lia;
      try (intros Hkp; specialize (Hkeep Hkp); lia).
    destruct Hi as [?|(? & ? & ? & ?)]; [lia|]. right. split_and!; try lia. right. split; [lia|done].
Qed.

Lemma held_worker m h j a y y' :
  Held m y → a ≠ WDrop → system_step h (WorkerStep j a) y = Some y' → Held m y'.
Proof.
  intros (G1 & G2 & G3 & G4 & G5 & G6) Hd Hs. pose proof (stages_nonneg (workers y)). worker_cases Hs.
  assert (¬ (live w = 1 ∧ (leaving w' = 1 ∨ gone w' = 1))) as Hnd.
  { intros [E1 E2]. destruct w; try done. destruct a; try done. cbn in Hw. simplify_eq. by destruct E2. }
  apply worker_step_moves in Hw. unfold Held, made, stages in *. cbn in *.
  destruct Hw as [|? ? ? ? ?|? ? ? ? ?|? ? ? ? ?|? ? ? ? ?|? ? ?]; lia.
Qed.

(** *** One request *)

Lemma lookup_app_cases {A} (l : list A) x i :
  (∃ a, (l ++ [x]) !! i = Some a ∧ l !! i = Some a) ∨ i = length l ∧ (l ++ [x]) !! i = Some x ∨ (l ++ [x]) !! i = None.
Proof.
  destruct (Nat.lt_trichotomy i (length l)) as [Hi|[->|Hi]].
  - left. destruct (lookup_lt_is_Some_2 l i Hi) as [a Ha]. exists a. by rewrite lookup_app_l.
  - right. left. by rewrite lookup_app_r, Nat.sub_diag by done.
  - right. right. apply lookup_ge_None. rewrite length_app. cbn. lia.
Qed.

Section turn.
Variables (lims : WorkerLimits) (allows : HandlerConfig → event → System → bool).
Hypothesis Hpol : Policy lims allows.
Hypothesis Hlims : 1 ≤ max_concurrent lims.

(** The client's only unfinished request is its last. *)
Definition Sequential (n : nat) (I : System → @pc Req Body → Prop) y : Prop :=
  Counted y ∧ ∃ ds p, requests y = ds ++ [p] ∧ length ds = n ∧ forallb finished ds = true ∧ I y p.

Fixpoint FreshPc (m k : Z) (T : PackageTier) (keep : Prop) y (p : @pc Req Body) : Prop :=
  match p with
  | Buffered _ | BWaiting _ | BPermitted _ => Quiet m k T y
  | BObserved _ t => t = T ∧ Quiet m k T y
  | BMeasured _ t w | BCounted _ t w | BBuilt _ t w => t = T ∧ w = m ∧ Quiet m k T y
  | BDispatched _ _ t w => t = T ∧ w = m ∧ Starting m k y
  | BCollecting _ t w => t = T ∧ w = m ∧ Answered m k keep y
  | BReplying r w => rs_package_tier r = T ∧ w = m ∧ Answered m k keep y
  | Completing q | Releasing q | Unpermit q => FreshPc m k T keep y q
  | Done (Responded r) => rs_package_tier r = T ∧ rs_worker_created r = true ∧ Answered m k keep y
  | Done _ => True
  | _ => False
  end.
Fixpoint ReusePc (m : Z) y (p : @pc Req Body) : Prop :=
  Held m y ∧
  match p with
  | Buffered _ | BWaiting _ | BPermitted _ | BObserved _ _ => True
  | BMeasured _ _ w | BCounted _ _ w | BBuilt _ _ w | BDispatched _ _ _ w | BCollecting _ _ w | BReplying _ w => w = m
  | Completing q | Releasing q | Unpermit q => ReusePc m y q
  | Done (Responded r) => rs_worker_created r = false
  | Done _ => True
  | _ => False
  end.

Lemma dispatched_finished (p : @pc Req Body) : finished p = true → dispatched p = false.
Proof. by destruct p. Qed.
Lemma sequential_dispatched (ds : list (@pc Req Body)) p :
  forallb finished ds = true →
  filter (λ p, dispatched p = true) (ds ++ [p]) = if dispatched p then [p] else [].
Proof.
  intros Hf. rewrite filter_app. assert (filter (λ p, dispatched p = true) ds = []) as ->.
  { induction ds as [|q ds IH]; [done|]. cbn in Hf. bool_inv. rewrite filter_cons_False; [by apply IH|].
    rewrite dispatched_finished by done. done. }
  cbn. unfold filter, list_filter. by destruct (dispatched p).
Qed.
(** One live worker that served fewer requests than it may accepts the next. *)
Lemma sequential_accepts n y ds p :
  requests y = ds ++ [p] → length ds = n → forallb finished ds = true → Z.of_nat n < max_reuse lims → ¬ Refuses lims y.
Proof.
  intros Hr Hn Hf Hm (c & t & Hc & Ht & Ha). rewrite Hr, sequential_dispatched in Hc by done.
  rewrite Hr, length_app in Ht. cbn in Ht. apply Ha. unfold should_accept_request.
  assert (c = 0) as -> by (destruct (dispatched p); cbn in Hc; lia).
  rewrite (proj2 (Z.leb_gt _ _)), (proj2 (Z.leb_gt _ _)) by lia. done.
Qed.

Lemma fresh_pc_same m k T keep y y' p :
  workers y' = workers y → idle_evictions (metrics (shared y')) = idle_evictions (metrics (shared y)) →
  tier_code (shared y') = tier_code (shared y) → FreshPc m k T keep y p → FreshPc m k T keep y' p.
Proof.
  intros E1 E2 E3. assert (package_tier (shared y') = package_tier (shared y)) as E4 by (unfold package_tier; by rewrite E3).
  induction p; cbn; unfold Quiet, Starting, Answered; by rewrite ?E1, ?E2, ?E4.
Qed.
Lemma starting_answers m k keep y : Starting m k y → 0 < zsum live (workers y) → Answered m k keep y.
Proof.
  unfold Starting, Answered, active, made, stages. cbn. intros (Ha & Hl & He & Hg & Hi) Hlive.
  pose proof (stages_nonneg (workers y)). split_and!; try lia.
Qed.
Lemma quiet_starting T m k y : Quiet m k T y → Starting m k y.
Proof.
  unfold Quiet, Starting, active, stages. cbn. intros (Ha & Hg & _ & Hi). pose proof (stages_nonneg (workers y)).
  split_and!; lia.
Qed.
Lemma fresh_request m k T keep a p p' y s' :
  Counted y → (∀ r, a = Handled (Ok r) → 0 < zsum live (workers y)) →
  request_step a p (shared y) = Some (p', s') → FreshPc m k T keep y p → FreshPc m k T keep y p'.
Proof.
  intros [Hc _] Hlive Hs Hp. destruct p, a; cbn in Hs; try done; cbn in Hp; simplify_eq; try (by cbn; destruct_and?).
  - by destruct (_ <? _); simplify_eq.
  - by destruct (_ <? _); simplify_eq.
  - cbn. destruct Hp as (? & ? & <- & ?). by split_and!.
  - cbn. destruct Hp as (-> & Hq). split_and!; [done| |done]. rewrite Hc.
    destruct Hq as (Ha & <- & _). unfold active, made, stages in *. cbn in *.
    pose proof (stages_nonneg (workers y)). lia.
  - destruct (request_build r); by simplify_eq.
  - cbn. destruct Hp as (-> & -> & Hq). split_and!; [done..|]. by apply (quiet_starting T).
  - destruct r as [r|e]; simplify_eq; cbn; [|done]. destruct Hp as (-> & -> & Hst). split_and!; [done..|].
    apply starting_answers; [done|]. by eapply Hlive.
  - unfold collect_response in *. destruct (body_collect _); [|done].
    destruct (_ <? _); [done|]. cbn. by destruct_and?.
  - cbn. destruct Hp as (-> & -> & Ha). split_and!; [done| |done]. rewrite Hc.
    destruct Ha as (_ & _ & _ & Hm & _). by apply Z.ltb_lt.
Qed.

(** A worker the handler starts for the request. *)
Lemma fresh_new_worker n m k T keep y ds p :
  requests y = ds ++ [p] → length ds = n → forallb finished ds = true → Z.of_nat n < max_reuse lims →
  Exists (λ p, dispatched p = true) (requests y) → zsum starting (workers y) + zsum created (workers y) = 0 →
  (0 < zsum live (workers y) → Refuses lims y) → FreshPc m k T keep y p →
  FreshPc m k T keep {| shared := shared y; requests := requests y; workers := workers y ++ [WStart] |} p.
Proof.
  intros Hr Hn Hf Hm Hd Hs0 Hl Hp. assert (zsum live (workers y) ≤ 0) as Hl0.
  { destruct (Z.lt_decidable 0 (zsum live (workers y))) as [Hlive|]; [|lia].
    by destruct (sequential_accepts n y ds p Hr Hn Hf Hm (Hl Hlive)). }
  assert (dispatched p = true) as Hdp.
  { rewrite Hr in Hd. apply Exists_app in Hd as [Hd|Hd]; [|by apply Exists_cons in Hd as [|Hd%Exists_nil]].
    apply Exists_exists in Hd as (q & Hq & E). rewrite forallb_forall in Hf.
    specialize (Hf q (proj1 (list_elem_of_In _ _) Hq)). by rewrite (dispatched_finished q Hf) in E. }
  destruct p; try done. cbn in Hp |- *. destruct Hp as (-> & -> & Hp). split_and!; [done..|].
  unfold Starting, active, stages in *. cbn -[zsum] in *. rewrite !zsum_app. cbn.
  pose proof (stages_nonneg (workers y)). split_and!; lia.
Qed.

Lemma fresh_worker m k T (keep : Prop) h j a y y' p :
  0 ≤ k ≤ u64_max → (finished p = false → a ≠ WDrop) → (keep → a ≠ WDrop) →
  system_step h (WorkerStep j a) y = Some y' → FreshPc m k T keep y p → FreshPc m k T keep y' p.
Proof.
  intros Hk Hd Hkeep Hs. assert (∀ q, finished p = false → FreshPc m k T keep y q → FreshPc m k T keep y' q) as Hall.
  { intros q Hq. specialize (Hd Hq). clear Hq p. induction q; cbn; try done;
      try (by intros []%(quiet_worker _ _ _ _ _ _ _ _)); try (intros (? & ?)); try (destruct_and!).
    all: try (exfalso; by eapply quiet_worker).
    all: try (split_and!; [done..|]; first [by eapply starting_worker|by eapply answered_worker]).
    destruct r; try done. intros (? & ? & ?). split_and!; [done..|]. by eapply answered_worker. }
  destruct (finished p) eqn:Hf; [|by apply Hall]. destruct p; try done. cbn. destruct r; try done.
  intros (? & ? & ?). split_and!; [done..|]. by eapply answered_worker.
Qed.

(** Requests and workers move independently. *)
Lemma sequential_request h n (I : System → pc → Prop) i a y y' :
  system_step h (RequestStep i a) y = Some y' → Sequential n I y →
  (∀ p p' s', request_step a p (shared y) = Some (p', s') → I y p → I y p') →
  (∀ p y', workers y' = workers y → idle_evictions (metrics (shared y')) = idle_evictions (metrics (shared y)) →
           tier_code (shared y') = tier_code (shared y) → I y p → I y' p) →
  Sequential n I y'.
Proof.
  intros Hs (Hc & ds & p & Hr & Hn & Hf & Hp) Hstep Hsame. cbn in Hs. rewrite Hr in Hs.
  destruct (lookup_app_cases ds p i) as [(q & Hi & Hq)|[[-> Hi]|Hi]]; rewrite Hi in Hs; cbn in Hs; [|..|done].
  - assert (finished q = true) as Hfq.
    { rewrite forallb_forall in Hf. apply Hf, list_elem_of_In. by eapply list_elem_of_lookup_2. }
    by destruct q.
  - destruct (request_step a p (shared y)) as [[p' s']|] eqn:Hrs; cbn in Hs; [|done]. injection Hs as <-.
    pose proof (request_step_keeps _ _ _ _ _ Hrs) as (E1 & E2 & E3 & _). split.
    + destruct Hc as [Hc Hb]. split; cbn; [by rewrite E1|done].
    + exists ds, p'. cbn. split_and!; [|done|done|].
      * rewrite insert_app_r_alt by lia. by rewrite Nat.sub_diag.
      * eapply Hsame; [..|by eapply Hstep]; done.
Qed.
Lemma fresh_step h n m k T (keep : Prop) e y y' :
  allows h e y = true → system_step h e y = Some y' → (keep → Retains allows h) → 0 ≤ k ≤ u64_max →
  Z.of_nat n < max_reuse lims → Sequential n (FreshPc m k T keep) y → Sequential n (FreshPc m k T keep) y'.
Proof.
  intros Ha Hs Hk Hu Hm HS. pose proof HS as (Hc & ds & p & Hr & Hn & Hf & Hp).
  pose proof (pol_alone _ _ Hpol _ _ _ Ha) as Hal. destruct e as [r|b|i a| |j a|f]; try done.
  - eapply sequential_request; [exact Hs|done| |].
    + intros q q' s' Hq. eapply fresh_request; [done| |exact Hq]. intros r ->. by eapply pol_handled.
    + intros q y1. apply fresh_pc_same.
  - destruct (pol_new_worker _ _ Hpol _ _ Ha) as (Hb & Hd & Hs0 & Hl). cbn in Hs. injection Hs as <-. split.
    + destruct Hc as [Hc _]. unfold Counted, made, stages in *. cbn -[zsum] in *.
      rewrite !zsum_app, blen_app. cbn. split; [lia|]. unfold blen at 2. cbn. lia.
    + exists ds, p. split_and!; [done..|]. by eapply fresh_new_worker.
  - split; [by eapply counted_step|]. exists ds, p. pose proof (worker_event _ _ _ _ _ Hs) as (-> & _).
    split_and!; [done..|]. eapply fresh_worker; [done| | |exact Hs|done].
    + intros Hfp ->. apply (pol_drop _ _ Hpol) in Ha. rewrite Hr, forallb_app in Ha. cbn in Ha. rewrite Hfp in Ha.
      by rewrite andb_false_r in Ha.
    + intros Hkp ->. by rewrite (Hk Hkp) in Ha.
Qed.

Lemma held_same m y y' : workers y' = workers y → Held m y → Held m y'.
Proof. unfold Held. by intros ->. Qed.
Lemma reuse_held m y p : ReusePc m y p → Held m y.
Proof. by destruct p; intros []. Qed.
Lemma reuse_pc_held m y y' p : Held m y' → ReusePc m y p → ReusePc m y' p.
Proof. intros Hh. induction p; cbn; intros [_ Hp]; (split; [done|]); auto. Qed.
Lemma reuse_request m a p p' y s' :
  Counted y → request_step a p (shared y) = Some (p', s') → ReusePc m y p → ReusePc m y p'.
Proof.
  intros [Hc _] Hs Hp. pose proof (reuse_held _ _ _ Hp) as Hh.
  assert (workers_created (metrics (shared y)) = m) as Hm by (rewrite Hc; by destruct Hh as (_ & _ & _ & _ & _ & ?)).
  destruct p, a; cbn in Hs; try done; cbn in Hp; destruct Hp as [_ Hp]; simplify_eq; try (by cbn).
  - by destruct (_ <? _).
  - by destruct (_ <? _); simplify_eq.
  - by destruct (request_build r).
  - by destruct r; simplify_eq.
  - unfold collect_response in *. destruct (body_collect _); [|done]. by destruct (_ <? _).
  - cbn. split; [done|]. apply Z.ltb_irrefl.
Qed.
Lemma reuse_step h n m e y y' :
  allows h e y = true → system_step h e y = Some y' → Retains allows h →
  Z.of_nat n < max_reuse lims → Sequential n (ReusePc m) y → Sequential n (ReusePc m) y'.
Proof.
  intros Ha Hs Hk Hm HS. pose proof HS as (Hc & ds & p & Hr & Hn & Hf & Hp).
  pose proof (pol_alone _ _ Hpol _ _ _ Ha) as Hal. destruct e as [r|b|i a| |j a|f]; try done.
  - eapply sequential_request; [exact Hs|done| |].
    + intros q q' s' Hq. by eapply reuse_request.
    + intros q y1 E1 _ _ Hq. eapply reuse_pc_held; [|done]. eapply held_same; [done|]. by eapply reuse_held.
  - destruct (pol_new_worker _ _ Hpol _ _ Ha) as (_ & _ & _ & Hl). exfalso.
    eapply sequential_accepts; [exact Hr|done|done|done|]. apply Hl.
    destruct (reuse_held _ _ _ Hp) as (_ & _ & H1l & _). unfold stages in H1l. cbn in H1l. lia.
  - split; [by eapply counted_step|]. exists ds, p. pose proof (worker_event _ _ _ _ _ Hs) as (-> & _).
    split_and!; [done..|]. assert (a ≠ WDrop) as Hd by (intros ->; by rewrite Hk in Ha).
    eapply reuse_pc_held; [|done]. eapply held_worker; [by eapply reuse_held|done|done].
Qed.

(** *** Calls *)

Lemma allowed_run_keeps (I : System → Prop) h l y y' :
  (∀ e y y', allows h e y = true → system_step h e y = Some y' → I y → I y') →
  allowed_run allows h l y = Some y' → I y → I y'.
Proof.
  intros Hstep. revert y. induction l as [|e l IH]; intros y Hr Hi; cbn in Hr; [by simplify_eq|].
  destruct (allows h e y) eqn:Ha; [|done]. destruct (system_step h e y) as [y1|] eqn:Hs; cbn in Hr; [|done].
  eapply IH; [done|]. by eapply Hstep.
Qed.
Lemma advance_keeps (I : System → Prop) h l y :
  (∀ e y y', allows h e y = true → system_step h e y = Some y' → I y → I y') →
  I y → Holds I (advance allows h l y).
Proof.
  intros Hstep Hi. unfold advance. destruct (allowed_run allows h l y) eqn:Hr; [|done]. cbn. by eapply allowed_run_keeps.
Qed.

(** Every earlier request is over, and the counters are right. *)
Definition Between (n : nat) y : Prop := Counted y ∧ length (requests y) = n ∧ forallb finished (requests y) = true.

(** A call that needs a new worker. *)
Lemma handle_fresh h r l n m k T keep y :
  Between n y → Quiet m k T y → (keep → Retains allows h) → 0 ≤ k ≤ u64_max → Z.of_nat n < max_reuse lims →
  Holds (λ x, rs_package_tier x.2 = T ∧ rs_worker_created x.2 = true ∧ Sequential n (FreshPc m k T keep) x.1
              ∧ requests x.1 !! n = Some (Done (Responded x.2)))
    (handle allows h r l y).
Proof.
  intros (Hc & Hn & Hf) Hq Hk Hu Hm. unfold handle. eapply (holds_bind (Sequential n (FreshPc m k T keep))).
  - apply advance_keeps; [intros; by eapply fresh_step|]. split; [done|]. exists (requests y), (Buffered r). by split_and!.
  - intros y' HS. pose proof HS as (_ & ds & p & Hr & Hds & _ & Hp). rewrite Hn.
    unfold answered. rewrite Hr, lookup_app_r, Hds, Nat.sub_diag by lia. cbn.
    destruct p as [| | | | | | | | | | | | | | | | | | | | |[resp|e| |]]; try done. cbn. destruct Hp as (? & ? & _).
    split_and!; [done..|]. by rewrite Hr, lookup_app_r, Hds, Nat.sub_diag by lia.
Qed.
(** A call the retained worker serves. *)
Lemma handle_reuse h r l n m y :
  Between n y → Held m y → Retains allows h → Z.of_nat n < max_reuse lims →
  Holds (λ x, rs_worker_created x.2 = false ∧ Between (S n) x.1 ∧ Held m x.1) (handle allows h r l y).
Proof.
  intros (Hc & Hn & Hf) Hh Hk Hm. unfold handle. eapply (holds_bind (Sequential n (ReusePc m))).
  - apply advance_keeps; [intros; by eapply reuse_step|]. split; [done|]. exists (requests y), (Buffered r).
    split_and!; [done..|]. by split.
  - intros y' (Hc' & ds & p & Hr & Hds & Hfd & Hp). rewrite Hn.
    unfold answered. rewrite Hr, lookup_app_r, Hds, Nat.sub_diag by lia. cbn.
    destruct p as [| | | | | | | | | | | | | | | | | | | | |[resp|e| |]]; try done. cbn. destruct Hp as [Hh' ?].
    split_and!; [done| |done]. split_and!; [done|rewrite Hr, length_app; cbn; lia|]. by rewrite Hr, forallb_app, Hfd.
Qed.

(** What a call that needed a new worker leaves. *)
Lemma fresh_over n m k T (keep : Prop) y r :
  Sequential n (FreshPc m k T keep) y → requests y !! n = Some (Done (Responded r)) →
  Between (S n) y ∧ Answered m k keep y.
Proof.
  intros (Hc & ds & p & Hr & Hds & Hfd & Hp) Hd. rewrite Hr, lookup_app_r, Hds, Nat.sub_diag in Hd by lia.
  cbn in Hd. injection Hd as ->. destruct Hp as (_ & _ & Ha). split; [|done].
  split_and!; [done|rewrite Hr, length_app; cbn; lia|]. by rewrite Hr, forallb_app, Hfd.
Qed.
(** It stays so while the client waits. *)
Definition Waiting (n : nat) (m k : Z) (keep : Prop) y : Prop := Between n y ∧ Answered m k keep y.
Lemma waiting_step h n m k (keep : Prop) e y y' :
  allows h e y = true → system_step h e y = Some y' → (keep → Retains allows h) → 0 ≤ k ≤ u64_max →
  Waiting n m k keep y → Waiting n m k keep y'.
Proof.
  intros Ha Hs Hk Hu [(Hc & Hn & Hf) Hans]. pose proof (pol_alone _ _ Hpol _ _ _ Ha) as Hal.
  assert (∀ i p, requests y !! i = Some p → finished p = true) as Hall.
  { intros i p Hi. rewrite forallb_forall in Hf. apply Hf, list_elem_of_In. by eapply list_elem_of_lookup_2. }
  destruct e as [r|b|i a| |j a|f]; try done.
  - cbn in Hs. destruct (requests y !! i) as [p|] eqn:Hi; cbn in Hs; [|done]. specialize (Hall _ _ Hi). by destruct p.
  - destruct (pol_new_worker _ _ Hpol _ _ Ha) as (_ & Hd & _). exfalso.
    apply Exists_exists in Hd as (p & [i Hi]%list_elem_of_lookup & Hd). apply Hall in Hi. by rewrite dispatched_finished in Hd.
  - split.
    + split; [by eapply counted_step|]. pose proof (worker_event _ _ _ _ _ Hs) as (-> & _). by split.
    + eapply answered_worker; [done|done| |exact Hs]. intros Hkp ->. by rewrite (Hk Hkp) in Ha.
Qed.
End turn.
End policy.

(** ** Services *)

Section services.
Context {C Req Body P : Type} {E : Engine C} {EL : EngineLaws C E} {K : Crypto} {CL : CryptoLaws K} `{Host} `{HttpLib}.
Context {PL : ProxyLib C Req Body P} {JI : Json CacheIdentity} {JM : Json CacheMetadata} {JL : JsonLaws JM}.
Notation System := (@System C Req Body P).
Notation event := (@event C Body).
Implicit Types y : System.

Variable allows : HandlerConfig → event → System → bool.

(** A service without requests and workers. *)
Record Initial y : Prop := {
  in_requests : requests y = [];
  in_workers : workers y = [];
  in_metrics : metrics (shared y) = default_metrics;
  in_tier : package_tier (shared y) = Warm;
  in_pre : is_Some (pre (shared y));
}.
Lemma initial_between y : Initial y → Between 0 y ∧ Quiet 0 1 Warm y.
Proof.
  intros [Hr Hw Hm Ht _]. unfold Between, Counted, Quiet. rewrite Hr, Hw, Hm, Ht. by vm_compute.
Qed.

Lemma start_service_ok p c x s :
  0 ≤ max_in_flight c ≤ max_permits →
  Holds (λ z, let '(h, y, from) := z in
              h_config h = c ∧ Initial y ∧ ServiceInv (max_in_flight c) y
              ∧ from = (tier (program_digest p) (se_others x s)).2
              ∧ ∃ prepared, prepare (program_digest p) (program_bytes p) (se_join x) (se_during_lock x) (se_during_compile x)
                  (tier (program_digest p) (se_others x s)).1 = (rt (shared y), Ok prepared))
    (start_service (Req := Req) (Body := Body) (P := P) p c x s).
Proof.
  intros Hm. unfold start_service, http_service.
  destruct (validate_http_config _ _); [|done].
  destruct (tier _ _) as [r1 from] eqn:Ht. destruct (prepare _ _ _ _ _ _) as [r2 [prepared|e]] eqn:Hp; [|done].
  destruct (is_http (prepared_profile prepared)) eqn:Hh; [|done]. cbn [negb].
  unfold make_proxy_pre. rewrite Hh. destruct (_ ← profile_linker _; _) as [p0|e]; [|done].
  rewrite (proj2 (Z.ltb_ge _ _)) by lia. cbn. split_and!; [done|by split; eauto| |done|by eexists].
  split; cbn; [lia|lia|done|done].
Qed.

Lemma ready_service_ok st component ttl x w :
  Holds (λ z, let '(h, y) := z in
              h_config h = with_idle_ttl ttl http_benchmark_service_config ∧ Initial y ∧ ServiceInv 1000 y)
    (ready_service (Req := Req) (Body := Body) (P := P) st component ttl x w).
Proof.
  unfold ready_service. eapply holds_bind; [by apply create_ok; [apply default_in_range|vm_compute]|].
  intros [w' s] _. eapply (holds_bind (λ _, True)); [by destruct (load_bytes _)|]. intros p _.
  eapply holds_bind; [by apply start_service_ok|]. intros [[h y] from] (Hh & Hi & Hs & _). by split_and!.
Qed.

(** *** Concurrent requests *)

Lemma advance_any h l y : Holds (λ _, True) (advance allows h l y).
Proof. unfold advance. by destruct (allowed_run allows h l y). Qed.
Lemma answered_any i y : Holds (λ _, True) (answered i y).
Proof. unfold answered. destruct (_ !! _) as [[]|]; try done. by destruct r. Qed.
Lemma handle_any h r l y : Holds (λ _, True) (handle allows h r l y).
Proof.
  unfold handle. eapply holds_bind; [apply advance_any|]. intros y' _. by eapply holds_bind; [apply answered_any|].
Qed.
Lemma join_batch_ok base joined y latencies :
  Holds (λ l, length l = (length latencies + length joined)%nat) (join_batch base joined y latencies).
Proof.
  revert latencies. induction joined as [|[i t] joined IH]; intros latencies; cbn [join_batch length]; [cbn; lia|].
  eapply holds_bind; [apply answered_any|]. intros _ _. eapply holds_impl; [apply IH|]. cbn. intros l ->.
  rewrite length_app. cbn. lia.
Qed.
Lemma service_batches_ok h c n offsets bs y latencies :
  Forall (λ o, 1 ≤ batch_count c n o ≤ c) offsets →
  Holds (λ l, Z.of_nat (length l) = Z.of_nat (length latencies) + zsum (batch_count c n) offsets)
    (service_batches allows h c n offsets bs y latencies).
Proof.
  intros Ho. revert bs y latencies. induction Ho as [|o offsets Hc _ IH]; intros bs y latencies; [cbn; lia|].
  destruct bs as [|b bs]; [done|]. cbn [service_batches]. cbv zeta. eapply holds_bind; [apply advance_any|].
  intros y' _. destruct (bool_decide _) eqn:Hl; [|done]. bool_inv.
  eapply holds_bind; [apply join_batch_ok|]. cbn. intros l Hll. eapply holds_impl; [apply IH|]. cbn. intros l' ->.
  unfold zsum. lia.
Qed.

Definition Measures (c n : Z) (t : Throughput) : Prop :=
  tp_concurrency t = c ∧ tp_requests t = n
  ∧ ∃ l, Z.of_nat (length l) = n ∧ NearestRank 50 l (tp_latency_p50_ns t) ∧ NearestRank 95 l (tp_latency_p95_ns t).
Lemma service_throughput_ok st component c n x w :
  1 ≤ c → 1 ≤ n → n * 95 ≤ usize_max → Holds (Measures c n) (service_throughput allows st component c n x w).
Proof.
  intros Hc Hn Hmax. unfold service_throughput. cbv zeta. eapply holds_bind; [apply ready_service_ok|]. intros [h y] _.
  eapply holds_bind; [apply handle_any|]. intros [y1 resp] _.
  destruct (step_by n c) as [offsets|] eqn:Hs;
    [|unfold step_by in Hs; rewrite (proj2 (Z.eqb_neq _ _)) in Hs by lia; done].
  destruct (batches_spec c n offsets Hc Hn Hs) as [Hb Hsum]. cbn [of_option mbind bench_bind].
  eapply holds_bind; [by apply service_batches_ok|]. cbn [length]. intros l Hl. rewrite Hsum in Hl.
  assert (l ≠ []) as Hne by (intros ->; cbn in Hl; lia).
  destruct (percentile_value_rank l 50 Hne) as (p50 & -> & H50); [lia|lia|].
  destruct (percentile_value_rank l 95 Hne) as (p95 & -> & H95); [lia|lia|].
  cbn. split_and!; [done|done|]. exists l. split_and!; [lia|done|done].
Qed.

(** *** Capacity *)

Notation CapacityTurn := (ServiceEnv (C := C) * list event * result string (list byte))%type.
(** The reading after the given number of workers. *)
Definition reading (x : CapacityTurn) : Z := match rss_bytes x.2 with Some (Ok v) => v | _ => 0 end.
Definition reading_after (xs : list CapacityTurn) (workers : Z) : Z :=
  default 0 (reading <$> xs !! Z.to_nat (workers - 1)).

Lemma capacity_loop_ok p n ws xs s measured (f : Z → Z) :
  Forall (λ x, is_Some (rss_bytes x.2)) xs → (∀ i w x, ws !! i = Some w → xs !! i = Some x → f w = reading x) →
  Holds (λ z, z.2 = measured ++ ((λ w, (w, f w)) <$> filter (λ w, measured_at n w = true) ws))
    (capacity_loop allows p n ws xs s measured).
Proof.
  intros Hxs Hf. revert xs s measured Hxs Hf. induction ws as [|w ws IH]; intros xs s measured Hxs Hf; cbn [capacity_loop].
  { cbn. by rewrite app_nil_r. }
  destruct xs as [|[[x l] status] xs]; [done|]. apply Forall_cons in Hxs as [[rss Hrss] Hxs]. cbn [snd] in Hrss.
  eapply holds_bind; [by apply start_service_ok|]. intros [[h y] from] _.
  eapply holds_bind; [apply handle_any|]. intros [y' resp] _.
  assert (∀ measured', measured' ++ ((λ w, (w, f w)) <$> filter (λ w, measured_at n w = true) ws)
            = measured ++ ((λ w, (w, f w)) <$> filter (λ w, measured_at n w = true) (w :: ws)) →
          Holds (λ z, z.2 = measured ++ ((λ w, (w, f w)) <$> filter (λ w, measured_at n w = true) (w :: ws)))
            (capacity_loop allows p n ws xs (rt (shared y')) measured')) as Hrest.
  { intros measured' <-. apply IH; [done|]. intros i w' x' Hw Hx. by apply (Hf (S i)). }
  destruct (measured_at n w) eqn:Hm; cbn [mbind bench_bind].
  - rewrite Hrss. cbn [of_option mbind bench_bind]. destruct rss as [v|e]; [|done]. cbn [map_err of_result mbind bench_bind].
    apply Hrest. rewrite filter_cons_True by done. cbn. specialize (Hf 0%nat w (x, l, status) eq_refl eq_refl).
    unfold reading in Hf. cbn in Hf. rewrite Hrss in Hf. by rewrite Hf, <- app_assoc.
  - apply Hrest. by rewrite filter_cons_False by (by rewrite Hm).
Qed.

(** The capacity benchmark on the service: unless a reading overflows, it
    reports for each of its counts the resident size read after that many
    services answered, for exactly the counts the run reaches. *)
Theorem capacity_benchmark_reads st directory component n baseline_status measured_status xs read_dir w :
  1 ≤ n → Forall (λ x, is_Some (rss_bytes x.2)) xs →
  is_Some (rss_bytes baseline_status) → is_Some (rss_bytes measured_status) → is_Some (directory_bytes read_dir "aot") →
  Holds (λ z, let '(aot, _, residents, basis) := z in
              directory_bytes read_dir "aot" = Some (Ok aot) ∧ measured_workers basis = n
              ∧ Forall (λ r, rw_rss_bytes r = if bool_decide (rw_workers r ≤ n)
                                              then Some (reading_after xs (rw_workers r)) else None) residents
              ∧ one_worker_rss_bytes basis = reading_after xs 1)
    (capacity_benchmark allows st directory component n baseline_status measured_status xs read_dir w).
Proof.
  intros Hn Hxs [b Hb] [mr Hmr] [aot Haot]. unfold capacity_benchmark. rewrite Hb, Hmr, Haot.
  eapply holds_bind; [apply create_ok; [split; vm_compute; by repeat split|by vm_compute]|]. intros [w' s] _.
  eapply (holds_bind (λ _, True)); [by destruct (load_bytes _)|]. intros p _.
  destruct b as [b|]; [|done]. cbn [of_option map_err of_result mbind bench_bind].
  eapply holds_bind; [apply (capacity_loop_ok _ _ _ _ _ _ (reading_after xs)); [done|]|].
  { intros i w0 x Hw Hx. apply lookup_seqZ in Hw as [-> _]. unfold reading_after.
    replace (Z.to_nat (1 + Z.of_nat i - 1)) with i by lia. by rewrite Hx. }
  intros [s' measured] Hms. cbn [snd app] in Hms. change (measured = measure n (reading_after xs)) in Hms. subst measured.
  destruct mr as [mr|]; [|done]. destruct aot as [aot|]; [|done]. cbn -[find_measured resident_workers measure].
  split_and!; [done|done| |by rewrite find_measured_one].
  apply Forall_fmap, Forall_forall. intros c Hc. cbn -[find_measured measure]. rewrite find_measured_measure by done.
  unfold measured_at. rewrite (bool_decide_eq_true_2 (c ∈ COUNTS)), andb_true_r by done.
  assert (1 ≤ c) by (unfold COUNTS in Hc; set_solver by lia). by rewrite (bool_decide_ext (1 ≤ c ≤ n) (c ≤ n)) by lia.
Qed.
End services.

(** ** The assertions *)

Section assertions.
Context {C Req Body P : Type} {E : Engine C} {EL : EngineLaws C E} {K : Crypto} {CL : CryptoLaws K} `{Host} `{HttpLib}.
Context {PL : ProxyLib C Req Body P} {JI : Json CacheIdentity} {JM : Json CacheMetadata} {JL : JsonLaws JM}.
Notation System := (@System C Req Body P).
Notation event := (@event C Body).
Implicit Types y : System.

Variables (profile : WasiProfile) (allows : HandlerConfig → event → System → bool) (looks : System → bool).
Notation lims := (worker_limits http_benchmark_service_config profile).
Hypothesis Hpol : Policy lims allows.

Lemma single_limits : 1 ≤ max_concurrent lims ∧ max_reuse lims = 10000.
Proof. cbn. by destruct (bool_decide _). Qed.

Lemma distribution_holds samples n :
  length samples = n → (0 < n)%nat → Z.of_nat n * 95 ≤ usize_max →
  Holds (λ d, length (dist_samples d) = n
              ∧ Forall (Summarizes (dist_samples d) (dist_p50 d) (dist_p95 d))
                  [hs_runtime_init_ns; hs_service_prepare_ns; hs_service_start_total_ns; hs_request_ns; hs_harness_total_ns])
    (of_option (distribution samples)).
Proof.
  intros Hl Hn Hmax. destruct (distribution_summarizes samples) as (d & -> & Hs & Hf).
  - intros ->. cbn in Hl. lia.
  - by rewrite Hl.
  - cbn. by rewrite Hs.
Qed.
Definition Samples (n : nat) (d : Distribution) : Prop :=
  length (dist_samples d) = n
  ∧ Forall (Summarizes (dist_samples d) (dist_p50 d) (dist_p95 d))
      [hs_runtime_init_ns; hs_service_prepare_ns; hs_service_start_total_ns; hs_request_ns; hs_harness_total_ns].

(** *** Cold starts *)

Lemma http_cold_loop_ok st component its w samples :
  Forall (λ it, se_others (si_service it) = id) its →
  Holds (λ l, length l = (length samples + length its)%nat) (http_cold_loop allows st component its w samples).
Proof.
  intros Ha. revert w samples. induction Ha as [|it its Hit _ IH]; intros w samples; cbn [http_cold_loop length].
  { cbn. lia. }
  eapply holds_bind; [by apply create_ok; [apply default_in_range|vm_compute]|].
  intros [w' s] (Hr & Hw & Hwi & _ & _ & _ & _ & _ & _ & Hd & _). cbn [fst snd] in *.
  eapply (holds_bind (λ _, True)); [by destruct (load_bytes _)|]. intros p _.
  destruct (tier_absent 0 (program_digest p) s) as (s1 & _ & _ & _ & Ht);
    [by eapply memory_ready_le|done|by rewrite Hw, lookup_empty|by rewrite Hwi, lookup_empty|].
  rewrite Hd in Ht by done.
  eapply holds_bind; [by apply start_service_ok|]. intros [[h y] from] (_ & Hi & _ & -> & _).
  rewrite Hit. cbv [id]. rewrite Ht. cbn [snd]. rewrite bool_decide_eq_true_2 by done. cbn [assert mbind bench_bind].
  destruct (initial_between y Hi) as [Hb Hq]. destruct single_limits as [Hl1 Hl2].
  eapply holds_bind; [eapply (handle_fresh lims allows Hpol Hl1 _ _ _ 0 0 1 Warm False); try done; rewrite Hl2; lia|].
  intros [y' resp] (_ & Hwc & _). cbn [fst snd] in Hwc. rewrite Hwc. cbn [assert mbind bench_bind].
  eapply holds_impl; [apply IH|]. cbn. intros l ->. rewrite length_app. cbn. lia.
Qed.
Lemma http_cold_ok st component its w :
  Forall (λ it, se_others (si_service it) = id) its → its ≠ [] → Z.of_nat (length its) * 95 ≤ usize_max →
  Holds (Samples (length its)) (http_cold allows st component its w).
Proof.
  intros Ha Hne Hmax. unfold http_cold. eapply holds_bind; [by apply http_cold_loop_ok|]. cbn. intros l Hl.
  apply distribution_holds; [done|destruct its; [done|cbn; lia]|done].
Qed.

(** *** Starts from disk *)

(** While no worker is dropped, workers start from the pre-instantiated
    component, so the runtime is left alone. *)
Definition from_pre (w : @worker C P) : bool :=
  match w with
  | WPreparing | WCandidate _ | WEvicting1 | WEvicting2 | WEvicting3 | WEvicting4 => false
  | _ => true
  end.
Definition Untouching (r : RuntimeInner C) y : Prop :=
  rt (shared y) = r ∧ is_Some (pre (shared y)) ∧ forallb from_pre (workers y) = true.
Lemma untouching_step h r e y y' :
  allows h e y = true → system_step h e y = Some y' → Retains allows h → Untouching r y → Untouching r y'.
Proof.
  intros Ha Hs Hk (Hr & Hp & Hw). pose proof (pol_alone _ _ Hpol _ _ _ Ha) as Hal.
  destruct e as [q|b|i a| |j a|f]; try done; cbn in Hs.
  - destruct (requests y !! i) as [q|]; cbn in Hs; [|done].
    destruct (request_step a q (shared y)) as [[q' s']|] eqn:Hq; cbn in Hs; [|done]. injection Hs as <-.
    apply request_step_keeps in Hq as (_ & _ & _ & E1 & E2). unfold Untouching. cbn. by rewrite E1, E2.
  - injection Hs as <-. unfold Untouching. cbn. by rewrite forallb_app, Hw.
  - destruct (workers y !! j) as [w|] eqn:Hj; cbn in Hs; [|done].
    destruct (worker_step h a w (shared y)) as [[w' s']|] eqn:Hq; cbn in Hs; [|done]. injection Hs as <-.
    assert (a ≠ WDrop) as Hd by (intros ->; by rewrite Hk in Ha).
    assert (from_pre w = true) as Hfw.
    { rewrite forallb_forall in Hw. apply Hw, list_elem_of_In. by eapply list_elem_of_lookup_2. }
    assert (from_pre w' = true ∧ rt s' = rt (shared y) ∧ pre s' = pre (shared y)) as (Hfw' & E1 & E2).
    { destruct w, a; try done; cbn in Hq; destruct Hp as [p0 Hp]; rewrite ?Hp in Hq;
        repeat case_match; by simplify_eq. }
    unfold Untouching. cbn. rewrite E1, E2. split_and!; [done|done|].
    rewrite forallb_forall in Hw |- *. intros x [k Hx]%list_elem_of_In%list_elem_of_lookup.
    apply list_lookup_insert_Some in Hx as [(_ & <- & _)|[_ Hx]]; [done|].
    apply Hw, list_elem_of_In. by eapply list_elem_of_lookup_2.
Qed.
Lemma handle_untouching h q l r y :
  Retains allows h → Untouching r y → Holds (λ x, Untouching r x.1) (handle allows h q l y).
Proof.
  intros Hk Hu. unfold handle. eapply (holds_bind (Untouching r)).
  - apply advance_keeps; [intros; by eapply untouching_step|]. by destruct Hu.
  - intros y' Hu'. unfold answered. destruct (_ !! _) as [[]|]; try done. by destruct r0.
Qed.

(** The package is not in memory, its only entry on disk is this one, and [n]
    uses of the cache are left. *)
Record OnDisk (n : Z) (dc : DiskCache) (d : string) (prof : WasiProfile) (b : list byte) (s : RuntimeInner C) : Prop := {
  od_ready : MemoryReady n s;
  od_locks : locks_poisoned s = false;
  od_disk : disk s = Some dc;
  od_warm : warm (memory s) !! d = None;
  od_warmish : warmish (memory s) !! d = None;
  od_schedule : schedule (disk_world s) = [];
  od_entry : OnlyEntry dc d prof b (disk_world s);
}.
Lemma tier_on_disk n dc d prof b s :
  OnDisk (n + 2) dc d prof b s → 0 ≤ n →
  ∃ s', tier d s = (s', DiskAot) ∧ OnDisk n dc d prof b s' ∧ disk_world s' = disk_world s.
Proof.
  intros [Hr Hlk Hd Hw Hwi Hs Hone] Hn.
  destruct (tier_absent n d s) as (s1 & R1 & U1 & Hw1 & Ht); [done|done|done|done|].
  rewrite Hd in Ht. pose proof Hone as [(m & Hm & Hb & _) _].
  apply fmap_Some in Hm as (? & Hm & _), Hb as (? & Hb & _).
  rewrite (disk_contains_any_found dc d ALL_PROFILES prof (disk_world s)) in Ht
    by (done || (destruct prof; set_solver) || (rewrite ?Hm, ?Hb; done)).
  eexists. split; [exact Ht|]. split; [|done]. destruct U1.
  split; cbn [memory memory_poisoned locks_poisoned disk disk_world set_disk_world]; [done|congruence|congruence| | |done|done].
  - specialize (ut_warm d). rewrite Hw in ut_warm. by apply fmap_None in ut_warm.
  - specialize (ut_warmish d). rewrite Hwi in ut_warmish. by apply fmap_None in ut_warmish.
Qed.
Lemma on_disk_unseen dc d prof b s : OnDisk 5 dc d prof b s → Unseen dc d s.
Proof. intros []. by split. Qed.

Lemma http_disk_loop_ok st c cache component prof b prepared its w samples :
  config_in_range c → background_workers c ≤ max_permits → disk_cache c = Some cache →
  (∀ h, h_config h = http_benchmark_service_config → Retains allows h) →
  Forall (λ it, se_others (si_service it) = id ∧ se_during_lock (si_service it) = id
                ∧ se_during_compile (si_service it) = id) its →
  let dc := {| disk_config := cache; disk_target := arch st +:+ "-" +:+ os st |} in
  schedule w = [] → OnlyEntry dc (component_digest component) prof b w →
  deserialize_component {| aot_bytes := b; aot_profile := prof |} = Ok prepared →
  Holds (λ l, length l = (length samples + length its)%nat) (http_disk_loop allows st c component its w samples).
Proof.
  intros Hcr Hbg Hc Hk Ha dc Hs Hone Hdes. set (d := component_digest component) in *.
  assert (Hex64 d) as Hd by apply sha256_hex_hex64.
  revert w samples Hs Hone. induction Ha as [|it its (Ho & Hl & Hcm) _ IH]; intros w samples Hs Hone;
    cbn [http_disk_loop length].
  { cbn. lia. }
  eapply holds_bind; [by apply create_ok|].
  intros [w' s] (Hr & _ & _ & _ & _ & _ & _ & _ & _ & _ & r & Hnew & Hi). cbn [fst snd] in *. subst s.
  destruct (load_bytes component) as [p|] eqn:Hp; [|done].
  apply load_bytes_program in Hp as [Hpd Hpb]. fold d in Hpd. cbn [of_result mbind bench_bind].
  assert (w = quiet w) as Hq by (destruct w; cbn in *; by subst). rewrite Hq in Hnew.
  destruct (runtime_new_entries _ _ _ _ _ _ d Hnew Hc Hd) as [Hs' Hsame]. fold dc in Hsame.
  destruct (runtime_new_unseen _ _ _ _ _ _ d Hnew Hc Hcr) as (Hun & Hw & _). fold dc in Hun.
  assert (OnDisk 9 dc d prof b (inner r)) as Hod.
  { destruct Hun. split; try done; [eapply memory_ready_le; [exact Hr|done]|by rewrite Hw|]. rewrite Hw. by eapply only_entry_same. }
  destruct (tier_on_disk 7 _ _ _ _ _ Hod) as (s1 & Ht1 & Hod1 & Hw1); [lia|].
  rewrite Ho. cbv [id]. rewrite Hpd, Ht1. rewrite bool_decide_eq_true_2 by done. cbn [assert mbind bench_bind].
  eapply (holds_bind (λ z, let '(h, y, from) := z in
    h_config h = http_benchmark_service_config ∧ Initial y ∧ from = DiskAot ∧ disk_world (rt (shared y)) = w')).
  { eapply holds_impl; [by apply start_service_ok|]. intros [[h y] from] (Hh & Hin & _ & -> & (pc & Hpr)).
    rewrite Ho, Hl, Hcm in Hpr. rewrite Ho. cbv [id] in Hpr |- *. rewrite Hpd in Hpr |- *.
    destruct (tier_on_disk 5 _ _ _ _ _ Hod1) as (s2 & Ht2 & Hod2 & Hw2); [lia|]. rewrite Ht2 in Hpr |- *. cbn [fst snd] in Hpr |- *.
    destruct (only_entry_reused dc d prof b (program_bytes p) (se_join (si_service it)) prepared s2)
      as (_ & s3 & Hp3 & Hw3 & _); [by eapply on_disk_unseen|apply Hod2|apply Hod2|done|].
    change (λ x, x) with (@id (RuntimeInner C)) in Hpr. rewrite Hp3 in Hpr. injection Hpr as <- _.
    split_and!; [done|done|done|congruence]. }
  intros [[h y] from] (Hh & Hin & -> & Hwy). rewrite bool_decide_eq_true_2 by done. cbn [assert mbind bench_bind].
  eapply (holds_bind); [apply (handle_untouching _ _ _ (rt (shared y))); [by apply Hk|]|].
  { split_and!; [done|apply Hin|by rewrite (in_workers _ Hin)]. }
  intros [y' resp] (Hrt & _). cbn [fst] in Hrt. rewrite Hrt, Hwy.
  eapply holds_impl; [apply IH; [done|by eapply only_entry_same]|]. cbn. intros l ->. rewrite length_app. cbn. lia.
Qed.

Lemma disk_contains_any_still dc d l w : schedule w = [] → (disk_contains_any dc d l w).1 = w.
Proof.
  intros Hs. assert (w = quiet w) as Hq by (destruct w; cbn in *; by subst).
  assert (∀ q, (contains dc d q w).1 = w) as Hc.
  { intros q. unfold contains. destruct (paths dc d q) as [a m]. rewrite Hq. unfold path_is_file. cbn.
    by destruct (bool_decide (is_Some (files w !! a))). }
  induction l as [|q l IH]; [done|]. cbn [disk_contains_any]. specialize (Hc q).
  destruct (contains dc d q w) as [w1 found]. cbn in Hc. subst w1. by destruct found.
Qed.
Lemma tier_publish_failures d (s : RuntimeInner C) : disk_publish_failures (tier d s).1 = disk_publish_failures s.
Proof. unfold tier. repeat case_match; by simplify_eq/=. Qed.
Lemma tier_unseen dc d (s : RuntimeInner C) :
  MemoryReady 7 s → locks_poisoned s = false → disk s = Some dc → warm (memory s) !! d = None →
  warmish (memory s) !! d = None → schedule (disk_world s) = [] →
  let s' := (tier d s).1 in Unseen dc d s' ∧ disk_world s' = disk_world s.
Proof.
  intros Hr Hlk Hd Hw Hwi Hs. destruct (tier_absent 5 d s) as (s1 & R1 & U1 & Hw1 & Ht); [done|done|done|done|].
  rewrite Hd in Ht. pose proof (disk_contains_any_still dc d ALL_PROFILES (disk_world s) Hs) as Hst.
  destruct (disk_contains_any _ _ _ _) as [w1 found]. cbn in Hst. subst w1. rewrite Ht. cbv zeta. cbn [fst].
  split; [|done]. destruct U1.
  split; cbn [memory memory_poisoned locks_poisoned disk set_disk_world]; [done|congruence|congruence| |].
  - specialize (ut_warm d). rewrite Hw in ut_warm. by apply fmap_None in ut_warm.
  - specialize (ut_warmish d). rewrite Hwi in ut_warmish. by apply fmap_None in ut_warmish.
Qed.

(** The directory is new to the package, answers every call, and takes the
    artifact. *)
Definition TakesArtifact (st : Startup) (directory : string) (component : list byte) (w : World) : Prop :=
  schedule w = [] ∧
  ∀ w1 r1, runtime_new (C := C) st (http_disk_config directory) w = Some (w1, Ok r1) →
    (∀ p, EntryAbsent {| disk_config := disk_cache_config_new directory (repeat (byte_of_Z 41) 32);
                         disk_target := arch st +:+ "-" +:+ os st |} (component_digest component) p w1) ∧
    ∀ s c, prepare (component_digest component) component None id id
             (tier (component_digest component) (inner r1)).1 = (s, Ok c) →
      disk_publish_failures s = 0 ∧ schedule (disk_world s) = [].
Definition AloneService (x : ServiceEnv (C := C)) : Prop :=
  se_others x = id ∧ se_during_lock x = id ∧ se_during_compile x = id.

Lemma http_disk_in_range directory : config_in_range (http_disk_config directory).
Proof. split; vm_compute; by repeat split. Qed.
Lemma http_disk_aot_ok st directory component first read_dir its w total :
  (∀ h, h_config h = http_benchmark_service_config → Retains allows h) →
  AloneService first → se_join first = None → Forall (λ it, AloneService (si_service it)) its →
  its ≠ [] → Z.of_nat (length its) * 95 ≤ usize_max →
  directory_bytes read_dir "aot" = Some total → TakesArtifact st directory component w →
  Holds (λ x, Samples (length its) x.1 ∧ total = Ok x.2)
    (http_disk_aot allows st directory component first read_dir its w).
Proof.
  intros Hk (Ho & Hl & Hcm) Hj Ha Hne Hmax Hdir [Hs Hready]. unfold http_disk_aot. cbv zeta.
  set (dc := {| disk_config := disk_cache_config_new directory (repeat (byte_of_Z 41) 32);
                disk_target := arch st +:+ "-" +:+ os st |}) in *.
  set (d := component_digest component) in *.
  eapply holds_bind; [by apply create_ok; [apply http_disk_in_range|vm_compute]|].
  intros [w1 s] (Hr & _ & _ & _ & _ & _ & _ & _ & _ & _ & r & Hnew & Hi). cbn [fst snd] in *. subst s.
  destruct (load_bytes component) as [p|] eqn:Hp; [|done].
  apply load_bytes_program in Hp as [Hpd Hpb]. fold d in Hpd. cbn [of_result mbind bench_bind].
  destruct (Hready w1 r Hnew) as [Habs Hpub].
  destruct (runtime_new_unseen _ _ _ _ _ _ d Hnew eq_refl (http_disk_in_range directory)) as (Hun & Hw1 & Hf1).
  fold dc in Hun. assert (Hex64 d) as Hd by apply sha256_hex_hex64.
  assert (w = quiet w) as Hq by (destruct w; cbn in *; by subst). rewrite Hq in Hnew.
  destruct (runtime_new_entries _ _ _ _ _ _ d Hnew eq_refl Hd) as [Hs1 _].
  destruct (tier_unseen dc d (inner r)) as [Hun1 Hw2];
    [eapply memory_ready_le; [exact Hr|done]|apply Hun|apply Hun|apply Hun|apply Hun|by rewrite Hw1|].
  eapply holds_bind; [by apply start_service_ok|].
  intros [[h y] from] (_ & Hin & _ & _ & (pc & Hpr)).
  rewrite Ho, Hl, Hcm, Hj in Hpr. cbv [id] in Hpr. rewrite Hpd, Hpb in Hpr. fold (@id (RuntimeInner C)) in Hpr.
  destruct (Hpub _ _ Hpr) as [Hpf Hsch].
  destruct (first_preparation dc d component (tier d (inner r)).1 (rt (shared y)) pc) as (b & wp & Hcomp & Hpb' & Hfp & Hdp);
    [done|rewrite Hw2, Hw1; apply Habs| | done| |].
  { rewrite tier_publish_failures. by rewrite Hf1. }
  { rewrite tier_publish_failures. congruence. }
  rewrite Hdir. cbn [of_option mbind bench_bind].
  destruct total as [bytes|e]; [|done]. cbn [map_err of_result mbind bench_bind].
  eapply (holds_bind (λ l, length l = length its)).
  - eapply (http_disk_loop_ok _ _ _ _ _ _ _ _ _ []);
      [apply http_disk_in_range|by vm_compute|done|done|done|done| |by eapply compile_roundtrip].
    eapply publish_only_entry; [done| |exact Hpb']. intros q. unfold EntryAbsent. rewrite Hfp, Hdp, Hw2, Hw1. apply Habs.
  - intros l Hll. eapply holds_bind; [apply (distribution_holds l (length its)); [done|destruct its; [done|cbn; lia]|done]|].
    intros dist Hdist. by cbn.
Qed.
(** *** A resident worker *)

(** The counters keep being those of the requests and workers. *)
Lemma issue_inv n r y : ServiceInv n y → ServiceInv n (issue r y).
Proof. intros []. unfold issue. split; cbn -[zsum]; rewrite ?zsum_app; cbn; lia. Qed.
Lemma service_inv_step h n e y y' :
  n ≤ usize_max → allows h e y = true → system_step h e y = Some y' → ServiceInv n y → ServiceInv n y'.
Proof. intros Hn _ Hs Hi. by eapply system_step_inv. Qed.
Lemma handle_inv h r l n y :
  n ≤ usize_max → ServiceInv n y → Holds (λ x, ServiceInv n x.1) (handle allows h r l y).
Proof.
  intros Hn Hi. unfold handle. eapply (holds_bind (ServiceInv n)).
  - apply advance_keeps; [intros; by eapply service_inv_step|]. by apply issue_inv.
  - intros y' Hi'. unfold answered. destruct (_ !! _) as [[]|]; try done. by destruct r0.
Qed.
Lemma holds_and {A} (P1 P2 : A → Prop) (m : bench A) : Holds P1 m → Holds P2 m → Holds (λ a, P1 a ∧ P2 a) m.
Proof. by destruct m. Qed.

Lemma finished_uncounted (l : list (@pc Req Body)) : forallb finished l = true → zsum counted l = 0.
Proof.
  induction l as [|p l IH]; [done|]. cbn. intros Hf. bool_inv. unfold zsum in IH. rewrite IH by done. by destruct p.
Qed.
(** Between requests a service with a live worker is paused resident. *)
Lemma held_state n k m y : ServiceInv n y → Between k y → Held m y → service_state (shared y) = ServicePausedResident.
Proof.
  intros [_ _ Hf Hl] (_ & _ & Hfin) (_ & _ & Hlive & _). unfold stages in Hlive. cbn in Hlive.
  unfold service_state. rewrite Hf, Hl, finished_uncounted, Hlive by done. done.
Qed.
Lemma waiting_held n m k y : Waiting n m k True y → Held (made (stages (workers y))) y.
Proof.
  intros [_ (Hs & Hc & Ha & _ & _ & Hl)]. specialize (Hl I). pose proof (stages_nonneg (workers y)).
  unfold Held, active, stages in *. cbn in *. split_and!; try done; lia.
Qed.

Lemma paused_loop_ok h xs n m y samples :
  Between n y → Held m y → Retains allows h → Z.of_nat (n + length xs) ≤ 10000 →
  Holds (λ l, length l = (length samples + length xs)%nat) (paused_loop allows h xs y samples).
Proof.
  intros Hb Hh Hk. revert n y samples Hb Hh. induction xs as [|x xs IH]; intros n y samples Hb Hh Hn; cbn [paused_loop length].
  { cbn. lia. }
  destruct single_limits as [Hl1 Hl2].
  eapply holds_bind; [eapply (handle_reuse lims allows Hpol Hl1); try done; rewrite Hl2; cbn in Hn; lia|].
  intros [y' resp] (Hw & Hb' & Hh'). cbn [fst snd] in *. rewrite Hw. cbn [negb assert mbind bench_bind].
  eapply holds_impl; [apply (IH (S n)); [done|done|cbn in Hn; lia]|]. cbn. intros l ->. rewrite length_app. cbn. lia.
Qed.
Lemma paused_resident_ok st component service first yielded xs w :
  (∀ h, h_config h = with_idle_ttl (secs 30) http_benchmark_service_config → Retains allows h) →
  xs ≠ [] → Z.of_nat (length xs) < 10000 →
  Holds (Samples (length xs)) (paused_resident allows st component service first yielded xs w).
Proof.
  intros Hk Hne Hmax. unfold paused_resident. eapply holds_bind; [apply ready_service_ok|].
  intros [h y] (Hh & Hi & Hinv). destruct (initial_between y Hi) as [Hb Hq]. destruct single_limits as [Hl1 Hl2].
  specialize (Hk h Hh).
  assert (1000 ≤ usize_max) as Hu by (unfold usize_max; lia).
  pose proof (handle_inv h tool_request first 1000 y Hu Hinv) as Hkeep.
  assert (Z.of_nat 0 < max_reuse lims) as Hn by (rewrite Hl2; lia).
  pose proof (handle_fresh lims allows Hpol Hl1 h tool_request first 0 0 1 Warm True y Hb Hq (λ _, Hk) ltac:(done) Hn) as Hf.
  eapply holds_bind; [exact (holds_and _ _ _ Hf Hkeep)|].
  intros [y1 resp] [(_ & _ & HS & Hd) Hinv1]. cbn [fst snd] in *.
  pose proof (fresh_over _ _ _ _ _ _ _ HS Hd) as Hw1.
  eapply (holds_bind (λ y, Waiting 1 0 1 True y ∧ ServiceInv 1000 y)).
  { apply holds_and; apply advance_keeps; try done; intros; [by eapply (waiting_step lims)|by eapply service_inv_step]. }
  intros y2 [Hw2 Hinv2]. pose proof (waiting_held _ _ _ _ Hw2) as Hheld.
  rewrite (held_state _ _ _ _ Hinv2 (proj1 Hw2) Hheld). cbn [assert mbind bench_bind].
  eapply holds_bind; [eapply paused_loop_ok; [apply Hw2|done|done|lia]|]. cbn. intros l Hl.
  apply distribution_holds; [done|destruct xs; [done|cbn; lia]|]. unfold usize_max. lia.
Qed.

(** *** Evicted workers *)

(** The client reads the counter only when no worker is between counting its
    eviction and setting the tier. *)
Hypothesis Hlooks : ∀ y, looks y = true → n_evicting (stages (workers y)) = 0.

Lemma poll_evictions_ok h n m k deadline polls y :
  0 ≤ k ≤ u64_max → Waiting n m k False y →
  Holds (λ y, Between n y ∧ package_tier (shared y) = Warmish ∧ ∃ m', Quiet m' (k + 1) Warmish y)
    (poll_evictions allows looks h k deadline polls y).
Proof.
  intros Hk. revert y. induction polls as [|[l now] polls IH]; intros y Hw; cbn [poll_evictions]; [done|].
  eapply (holds_bind (Waiting n m k False)).
  { apply advance_keeps; [|done]. intros e y0 y0' Ha Hs. by eapply (waiting_step lims). }
  intros y1 Hw1. destruct (looks y1) eqn:Hlk; [|done]. cbn [negb]. specialize (Hlooks _ Hlk).
  destruct (k <=? _) eqn:Hidle; [|destruct (deadline <=? now); [done|by apply IH]].
  apply Z.leb_le in Hidle. destruct Hw1 as [Hb (Hs & Hc & Ha & _ & Hi & _)].
  destruct Hi as [[? _]|(Hi & Hl & Hlv & [?|[_ Ht]])]; [lia..|]. cbn. split_and!; [done|done|].
  exists (n_gone (stages (workers y1))). unfold Quiet. split_and!; [|done|done|lia].
  unfold active. rewrite Hs, Hc, Hl, Hlv, Hlooks. done.
Qed.
Lemma warmish_restart_loop_ok h n m k xs y samples :
  1 ≤ k → k + Z.of_nat (length xs) ≤ 10000 → Z.of_nat n = k → Waiting n m k False y →
  Holds (λ l, length l = (length samples + length xs)%nat) (warmish_restart_loop allows looks h k xs y samples).
Proof.
  destruct single_limits as [Hl1 Hl2]. assert (10001 ≤ u64_max) as Hu by (unfold u64_max; lia).
  revert n m k y samples. induction xs as [|x xs IH]; intros n m k y samples Hk Hmax Hn Hw;
    cbn [warmish_restart_loop length].
  { cbn. lia. }
  cbn [length] in Hmax. eapply holds_bind; [eapply poll_evictions_ok; [lia|done]|].
  intros y1 (Hb & Ht & m' & Hq). rewrite Ht, bool_decide_eq_true_2 by done. cbn [assert mbind bench_bind].
  eapply holds_bind; [eapply (handle_fresh lims allows Hpol Hl1 _ _ _ n m' (k + 1) Warmish False); try done; rewrite ?Hl2; lia|].
  intros [y2 resp] (Ht2 & Hw2 & HS & Hd). cbn [fst snd] in *.
  rewrite Ht2, Hw2, bool_decide_eq_true_2 by done. cbn [assert mbind bench_bind].
  eapply holds_impl; [apply (IH (S n) m'); [lia|lia|lia|by eapply fresh_over]|].
  cbn. intros l ->. rewrite length_app. cbn. lia.
Qed.
Lemma warmish_restart_ok st component service first xs w :
  xs ≠ [] → Z.of_nat (length xs) < 10000 →
  Holds (Samples (length xs)) (warmish_restart allows looks st component service first xs w).
Proof.
  intros Hne Hmax. unfold warmish_restart. eapply holds_bind; [apply ready_service_ok|].
  intros [h y] (_ & Hi & _). destruct (initial_between y Hi) as [Hb Hq]. destruct single_limits as [Hl1 Hl2].
  eapply holds_bind; [eapply (handle_fresh lims allows Hpol Hl1 _ _ _ 0 0 1 Warm False); try done; rewrite Hl2; lia|].
  intros [y1 resp] (_ & _ & HS & Hd). cbn [fst snd] in *.
  eapply holds_bind; [eapply (warmish_restart_loop_ok _ 1); [lia|lia|done|by eapply fresh_over]|]. cbn. intros l Hl.
  apply distribution_holds; [done|destruct xs; [done|cbn; lia]|]. unfold usize_max. lia.
Qed.

(** *** The whole benchmark *)

(** No other user of the runtimes, and one entry per iteration. *)
Record AloneHttp (n : Z) (x : HttpEnv (C := C) (Body := Body)) : Prop := {
  ah_first : AloneService (he_disk_first x); ah_join : se_join (he_disk_first x) = None;
  ah_disk : Forall (λ it, AloneService (si_service it)) (he_disk x);
  ah_cold : Forall (λ it, se_others (si_service it) = id) (he_cold x);
  ah_disk_length : Z.of_nat (length (he_disk x)) = n; ah_cold_length : Z.of_nat (length (he_cold x)) = n;
  ah_paused_length : Z.of_nat (length (he_paused x)) = n; ah_warmish_length : Z.of_nat (length (he_warmish x)) = n;
}.

(** The HTTP benchmark measures what it says.  Alone on the machine, with a
    handler that starts a worker only when it needs one and keeps it for its
    idle time, and for fewer iterations than a worker serves requests: the cold
    starts compile, the starts from disk load the artifact, the paused worker
    serves every sample, and each sample after an eviction is served by a new
    worker from the warmish tier.  No assertion fails, and unless the library
    reports an error, or a call does not end, the report has the nearest ranks
    of as many samples as iterations, and those of the requested load. *)
Theorem http_benchmark_asserts_hold st directory component n m x w total :
  (∀ h, h_config h = http_benchmark_service_config → Retains allows h) →
  AloneHttp n x → 1 ≤ n < 10000 → 1 ≤ m → m * 95 ≤ usize_max →
  directory_bytes (he_read_dir x) "aot" = Some total → TakesArtifact st directory component w →
  Holds (λ r, hb_iterations r = n
              ∧ Forall (Samples (Z.to_nat n)) [hb_cold r; hb_disk_aot r; hb_paused_resident r; hb_warmish_restart r]
              ∧ total = Ok (hb_disk_aot_artifact_bytes r)
              ∧ Forall2 (λ c, Measures c m) [1; 8; 32] (hb_throughput r))
    (http_benchmark allows looks st directory component n m x w).
Proof.
  intros Hk [Hf Hj Hd Hc Ld Lc Lp Lw] Hn Hm Hmax Hdir Ht. unfold http_benchmark.
  assert (∀ {A} (l : list A), Z.of_nat (length l) = n → l ≠ [] ∧ length l = Z.to_nat n ∧ Z.of_nat (length l) * 95 ≤ usize_max) as Hlen.
  { intros A l Hl. split_and!; [by intros ->; cbn in Hl; lia|lia|unfold usize_max; lia]. }
  eapply holds_bind; [apply (http_disk_aot_ok st directory component _ _ _ w total); by (done || apply Hlen)|].
  intros [da bytes] [Hda Hbytes]. cbn [fst snd] in *.
  eapply holds_bind; [apply http_cold_ok; [done|by apply Hlen..]|]. intros cold Hcold.
  eapply holds_bind; [apply paused_resident_ok; [done|by apply Hlen|lia]|]. intros pr Hpr. eapply holds_bind; [apply warmish_restart_ok; [by apply Hlen|lia]|]. intros wr Hwr.
  eapply holds_bind; [by apply (service_throughput_ok allows _ _ 1 m)|]. intros t1 H1.
  eapply holds_bind; [by apply (service_throughput_ok allows _ _ 8 m)|]. intros t8 H8.
  eapply holds_bind; [by apply (service_throughput_ok allows _ _ 32 m)|]. intros t32 H32.
  cbn. rewrite (proj1 (proj2 (Hlen _ _ Ld))) in Hda. rewrite (proj1 (proj2 (Hlen _ _ Lc))) in Hcold.
  rewrite (proj1 (proj2 (Hlen _ _ Lp))) in Hpr. rewrite (proj1 (proj2 (Hlen _ _ Lw))) in Hwr.
  split_and!; [done|rewrite !Forall_cons, Forall_nil; by split_and!|done|].
  by repeat (apply Forall2_cons; split).
Qed.

End assertions.

(** ** A run *)

Module HttpBenchmarkExample.
Import Toy DiskCacheExample RuntimeExample RestartExample InvocationExample HttpServiceExample.
Notation System := (@System (list string) HttpRequest (list byte) unit).
Notation event := (@event (list string) (list byte)).

Definition service_component : list byte := str_bytes "wasi:http/handler@0.3.0".
Definition directory : string := "/tmp/http".

(** A worker is started only when there is none, and dropped when its idle time
    is short. *)
Definition lazily (h : HandlerConfig) (e : event) (y : System) : bool :=
  match e with
  | NewBuffered _ | NewStreamed _ | RuntimeStep _ => false
  | NewWorker =>
      (blen (workers y) <? u64_max) && existsb dispatched (requests y)
      && (zsum starting (workers y) + zsum HttpBenchmark.created (workers y) =? 0) && (zsum live (workers y) =? 0)
  | RequestStep _ (Handled (Ok _)) => 0 <? zsum live (workers y)
  | RequestStep _ _ => true
  | WorkerStep _ WDrop => forallb finished (requests y) && (idle_worker_ttl (h_config h) <? secs 1)
  | WorkerStep _ _ => true
  end.
Definition settled (y : System) : bool := n_evicting (stages (workers y)) =? 0.

Lemma lazily_policy : Policy (worker_limits http_benchmark_service_config Http0_3) lazily.
Proof.
  split.
  - intros h e y. by destruct e.
  - intros h y Ha. cbn in Ha. apply andb_true_iff in Ha as [[[?%Z.ltb_lt Hd]%andb_true_iff ?%Z.eqb_eq]%andb_true_iff ?%Z.eqb_eq].
    apply existsb_exists in Hd as (p & Hin%list_elem_of_In & Hp). split_and!; [done| |done|lia]. apply Exists_exists. by exists p.
  - intros h y i r Ha. by apply Z.ltb_lt.
  - intros h y j Ha. cbn in Ha. by apply andb_true_iff in Ha as [? _].
Qed.
Lemma lazily_retains h : h_config h = http_benchmark_service_config → Retains lazily h.
Proof. intros Hh y j. cbn. rewrite Hh. by rewrite andb_false_r. Qed.
Lemma settled_reads y : settled y = true → n_evicting (stages (workers y)) = 0.
Proof. apply Z.eqb_eq. Qed.

(** Request [i] up to its dispatch, and from its answer to its end; worker [j]
    starting from the retained and from no component; its eviction. *)
Definition dispatch (i : nat) : list event := repeat (go i) 7.
Definition reply (i : nat) : list event := RequestStep i answer :: repeat (go i) 5.
Definition spawn (j : nat) : list event :=
  [NewWorker; WorkerStep j WGo; WorkerStep j (WInstance (Ok tt)); WorkerStep j WGo; WorkerStep j WGo; WorkerStep j WGo].
Definition respawn (j : nat) : list event :=
  [NewWorker; WorkerStep j WGo; WorkerStep j (WPrepare None id id); WorkerStep j WGo; WorkerStep j (WInstance (Ok tt));
   WorkerStep j WGo; WorkerStep j WGo; WorkerStep j WGo].
Definition expire (j : nat) : list event := [WorkerStep j (WPoll Idle 0 (millis 6)); WorkerStep j WDrop; WorkerStep j WGo].
Definition evict (j : nat) : list event := repeat (WorkerStep j WGo) 3.

Definition service : ServiceEnv (C := list string) := {|
  se_others := id; se_join := None; se_during_lock := id; se_during_compile := id;
  se_startup_prepare := 3; se_startup_total := 5; se_instant_max := 10 ^ 12 |}.
Definition exchange (n : Z) (l : list event) : Exchange := {| ex_events := l; ex_elapsed := n; ex_harness := n + 2 |}.
Definition first_call : list event := dispatch 0 ++ spawn 0 ++ reply 0.
Definition fresh (n : Z) : ServiceIteration :=
  {| si_runtime_init := 1; si_service := service; si_exchange := exchange n first_call |}.
Definition restart (k : nat) : RestartTurn := {|
  re_started := 0; re_polls := [([], millis 1); (expire k ++ evict k, millis 7)];
  re_exchange := exchange (Z.of_nat k) (dispatch (S k) ++ respawn (S k) ++ reply (S k)) |}.
(** Three requests in batches of one, or all at once. *)
Definition single (i : nat) (n : Z) : Batch := {| ba_events := dispatch i ++ reply i; ba_joined := [(0%nat, n)] |}.
Definition together : Batch := {|
  ba_events := dispatch 1 ++ dispatch 2 ++ reply 2 ++ dispatch 3 ++ reply 3 ++ reply 1;
  ba_joined := [(1%nat, 20); (2%nat, 10); (0%nat, 30)] |}.
Definition load (bs : list Batch) : ThroughputEnv :=
  {| te_service := service; te_first := first_call; te_elapsed := 60; te_batches := bs |}.

Definition env : HttpEnv := {|
  he_disk_first := service;
  he_read_dir := Ok [Ok {| entry_extension := Some "aot"; entry_len := Ok 24 |}; Ok {| entry_extension := Some "json"; entry_len := Ok 9 |}];
  he_disk := [fresh 4; fresh 6]; he_cold := [fresh 9; fresh 8];
  he_paused_service := service; he_paused_first := first_call; he_yielded := [];
  he_paused := [exchange 2 (dispatch 1 ++ reply 1); exchange 1 (dispatch 2 ++ reply 2)];
  he_warmish_service := service; he_warmish_first := first_call; he_warmish := [restart 0; restart 1];
  he_one := load [single 1 10; single 2 20; single 3 30]; he_eight := load [together]; he_thirty_two := load [together] |}.

Definition benchmark : bench HttpReport :=
  http_benchmark lazily settled PreparationExample.startup directory service_component 2 3 env empty_world.
Example http_benchmark_finishes :
  match benchmark with
  | BOk r => Some ((λ d, hs_request_ns (dist_p95 d)) <$> [hb_cold r; hb_disk_aot r; hb_paused_resident r; hb_warmish_restart r],
                   hb_disk_aot_artifact_bytes r, tp_latency_p50_ns <$> hb_throughput r)
  | _ => None
  end = Some ([9; 6; 2; 1], 24, [20; 20; 20]).
Proof. vm_compute. reflexivity. Qed.

(** The client reads the counter after the eviction was counted and before the
    tier was set: the tier it then asserts is the stale one. *)
Definition hasty : RestartTurn := {|
  re_started := 0; re_polls := [(expire 0, millis 7)]; re_exchange := exchange 1 [] |}.
Example eviction_race_panics :
  match warmish_restart lazily (λ _, true) PreparationExample.startup service_component service first_call [hasty] empty_world with
  | BPanic => true
  | _ => false
  end = true.
Proof. vm_compute. reflexivity. Qed.

(** The first runtime over the directory. *)
Definition first_runtime : Runtime (list string) :=
  match runtime_new PreparationExample.startup (http_disk_config directory) empty_world with
  | Some (_, Ok r) => r
  | _ => PreparationExample.start_runtime
  end.
Definition first_prepared : RuntimeInner (list string) * Result (PreparedComponent (list string)) :=
  prepare (component_digest service_component) service_component None id id
    (tier (component_digest service_component) (inner first_runtime)).1.
Lemma http_first_absent p :
  EntryAbsent {| disk_config := disk_cache_config_new directory (repeat (byte_of_Z 41) 32);
                 disk_target := "x86_64-linux" |} (component_digest service_component) p (disk_world (inner first_runtime)).
Proof. destruct p; vm_compute; done. Qed.
Lemma http_first_publishes : disk_publish_failures first_prepared.1 = 0 ∧ schedule (disk_world first_prepared.1) = [].
Proof. vm_compute. done. Qed.
Lemma directory_takes : TakesArtifact (C := list string) PreparationExample.startup directory service_component empty_world.
Proof.
  split; [done|]. intros w1 r1 Hnew.
  assert (r1 = first_runtime) as -> by (unfold first_runtime; by rewrite Hnew).
  destruct (runtime_new_unseen _ _ _ _ _ _ (component_digest service_component) Hnew eq_refl (http_disk_in_range directory))
    as (_ & <- & _).
  split; [exact http_first_absent|]. intros s c Hp. assert (s = first_prepared.1) as -> by (unfold first_prepared; by rewrite Hp).
  exact http_first_publishes.
Qed.
Lemma env_alone : AloneHttp 2 env.
Proof. split; try done; by repeat constructor. Qed.

Lemma http_benchmark_asserts_hold_witness : Holds (λ r, hb_iterations r = 2) benchmark.
Proof.
  unfold benchmark. eapply holds_impl.
  - apply (http_benchmark_asserts_hold Http0_3 lazily settled lazily_policy settled_reads PreparationExample.startup
             directory service_component 2 3 env empty_world (Ok 24));
      [exact lazily_retains|exact env_alone|lia|lia|by vm_compute|vm_compute; reflexivity|exact directory_takes].
  - by intros r [-> _].
Defined.

(** Two services, each with its worker. *)
Definition capacity_turn (rss : string) : ServiceEnv * list event * result string (list byte) :=
  (service, first_call, Ok (str_bytes rss)).
Lemma capacity_benchmark_reads_witness :
  Holds (λ z, let '(aot, _, residents, basis) := z in aot = 24 ∧ one_worker_rss_bytes basis = 7168)
    (capacity_benchmark lazily PreparationExample.startup directory service_component 2 (Ok (str_bytes "VmRSS: 4 kB"))
       (Ok (str_bytes "VmRSS: 9 kB")) [capacity_turn "VmRSS: 7 kB"; capacity_turn "VmRSS: 9 kB"] (he_read_dir env) empty_world).
Proof.
  eapply holds_impl.
  - apply (capacity_benchmark_reads lazily PreparationExample.startup directory service_component 2
             (Ok (str_bytes "VmRSS: 4 kB")) (Ok (str_bytes "VmRSS: 9 kB"))
             [capacity_turn "VmRSS: 7 kB"; capacity_turn "VmRSS: 9 kB"] (he_read_dir env) empty_world); [done|..].
    + apply Forall_cons; split; [|apply Forall_cons; split; [|done]]; vm_compute; by eexists.
    + vm_compute. by eexists.
    + vm_compute. by eexists.
    + vm_compute. by eexists.
  - intros [[[aot storage] residents] basis] (Ha & _ & _ & ->). vm_compute in Ha. by simplify_eq.
Defined.
End HttpBenchmarkExample.
