(* ===== verification/WorkerIsolation.v ===== *)
(** The worker's entry into its isolation profile ([src/src/wasix_worker.rs]):
    closing of inherited descriptors, resource limits, credentials, parent
    death signal, capabilities, and the report of what the kernel then says.
    The kernel is an interface; its laws are the documented effects of the
    calls.  Theorem: a report that is returned is true of the process, which
    is isolated, holds no inherited descriptor and dies with its parent. *)
From S2P Require Import Prelude Errors Interfaces Streams WorkerMessages ProcStatus.

Local Open Scope Z_scope.

(** ** System calls *)

Inductive Resource := Core | Fsize | As | Nofile.
#[global] Instance resource_eq_dec : EqDecision Resource.
Proof. solve_decision. Defined.
Definition resource_debug (r : Resource) : string :=
  match r with Core => "Core" | Fsize => "Fsize" | As => "As" | Nofile => "Nofile" end.

(** [None] is an unlimited resource. *)
Record Rlimit := { current : option Z; maximum : option Z }.

(** The calls of the worker on its own process.  [S] is the state of the
    process; errors are their texts. *)
Class Linux (S : Type) := {
  getppid : S → option Z;
  (** [/proc/self/fd]: the descriptor of the opened directory, then an entry
      name or an error for each entry read. *)
  fd_directory : S → S * result string (Z * list (result string (list byte)));
  close_fd : Z → S → S;
  getrlimit : Resource → S → Rlimit;
  setrlimit : Resource → Rlimit → S → S * result string unit;
  set_keep_capabilities : bool → S → S * result string unit;
  clear_ambient_capability_set : S → S * result string unit;
  getresuid : S → S * result string (Z * Z * Z);
  getresgid : S → S * result string (Z * Z * Z);
  setgroups : list Z → S → S * result string unit;
  setresgid : Z → Z → Z → S → S * result string unit;
  setresuid : Z → Z → Z → S → S * result string unit;
  setfsgid : Z → S → S;
  setfsuid : Z → S → S;
  set_parent_process_death_signal : S → S * result string unit;   (* [SIGKILL] *)
  clear_capabilities : S → S * result string unit;
  set_no_new_privs : S → S * result string unit;
  set_not_dumpable : S → S * result string unit;
  read_status : S → S * result string (list byte);                (* [/proc/self/status] *)
  getgroups : S → S * result string (list Z);
  capabilities : S → S * result string (Z * Z * Z);
  no_new_privs : S → S * result string bool;
  is_dumpable : S → S * result string bool;
}.

Section isolation.
Context {S : Type} `{Linux S}.
Implicit Types s : S.

(** A call with its error text. *)
Definition calling {A} (what : string) (r : S * result string A) : S * result string A :=
  (r.1, map_err (λ e, what +:+ ": " +:+ e) r.2).

(** Entries that are not numbers are skipped; reading stops at an error. *)
Fixpoint inherited (own : Z) (entries : list (result string (list byte))) : result string (list Z) :=
  match entries with
  | [] => Ok []
  | Err e :: _ => Err ("failed to enumerate inherited worker descriptors: " +:+ e)
  | Ok name :: l =>
      descriptors ← inherited own l;
      Ok (match parse_i32 name with
          | Some d => if (2 <? d) && negb (d =? own) then d :: descriptors else descriptors
          | None => descriptors
          end)
  end.

Definition open_worker_descriptors s : S * result string (list Z) :=
  let? (s, listing) := calling "failed to inspect inherited worker descriptors" (fd_directory s) in
  (s, dedup_ids ∘ sort_ids <$> inherited listing.1 listing.2).

Definition close_inherited_worker_descriptors s : S * result string Z :=
  let? (s, inherited) := open_worker_descriptors s in
  if u32_max <? blen inherited then (s, Err "inherited worker descriptor count exceeds the protocol")
  else
    let s := foldl (λ s d, close_fd d s) s inherited in
    let? (s, remaining) := open_worker_descriptors s in
    match remaining with
    | [] => (s, Ok (blen inherited))
    | _ => (s, Err ("worker retained inherited descriptors " +:+ show_list remaining))
    end.

Definition min_limit (l : Rlimit) (profile_maximum : Z) : Z :=
  let m := match current l with Some c => Z.min profile_maximum c | None => profile_maximum end in
  match maximum l with Some h => Z.min m h | None => m end.

Definition lower_worker_limit (r : Resource) (profile_maximum : Z) s : S * result string limit_pair :=
  let m := min_limit (getrlimit r s) profile_maximum in
  let? (s, _x) := calling ("failed to lower worker " +:+ resource_debug r +:+ " limit")
                    (setrlimit r {| current := Some m; maximum := Some m |} s) in
  let installed := getrlimit r s in
  (s, current ← ok_or (current installed) ("worker " +:+ resource_debug r +:+ " soft limit remained unbounded");
      hard ← ok_or (maximum installed) ("worker " +:+ resource_debug r +:+ " hard limit remained unbounded");
      Ok (current, hard)).

Definition rearm_worker_parent_death (expected_parent : Z) s : S * result string unit :=
  let? (s, _x) := calling "failed to re-arm worker parent-death protection"
                    (set_parent_process_death_signal s) in
  (s, reject_if (negb (bool_decide (getppid s = Some expected_parent)))
        "WASIX worker parent exited during isolation setup").

Definition contains_zero (i : Z * Z * Z) : bool := existsb (Z.eqb 0) [i.1.1; i.1.2; i.2].

Definition worker_id : Z := 65534.

(** Root credentials are dropped, groups first. *)
Definition drop_root_credentials s : S * result string unit :=
  let? (s, initial_users) := calling "failed to inspect initial worker user IDs" (getresuid s) in
  let? (s, initial_groups) := calling "failed to inspect initial worker group IDs" (getresgid s) in
  if contains_zero initial_users || contains_zero initial_groups then
    let? (s, _x) := calling "failed to clear worker supplementary groups" (setgroups [] s) in
    let? (s, _x) := calling "failed to drop worker group credentials"
                      (setresgid worker_id worker_id worker_id s) in
    calling "failed to drop worker user credentials" (setresuid worker_id worker_id worker_id s)
  else (s, Ok tt).

Definition settle_filesystem_credentials s : S * result string unit :=
  let? (s, final_users) := calling "failed to inspect final worker user IDs" (getresuid s) in
  let? (s, final_groups) := calling "failed to inspect final worker group IDs" (getresgid s) in
  (setfsuid final_users.1.2 (setfsgid final_groups.1.2 s), Ok tt).

(** A reader of the status file. *)
Definition status_ids (field : string) s : S * result string Ids :=
  let '(s, status) := read_status s in (s, read_linux_status_ids status field).
Definition status_mask (field : string) s : S * result string Z :=
  let '(s, status) := read_status s in (s, read_linux_status_mask status field).

(** The second half: what the kernel reports once everything is set. *)
Definition report_isolation (core file_size address_space open_file : limit_pair) (closed : Z) s
    : S * result string WasixWorkerIsolation :=
  let? (s, user_ids) := status_ids "Uid" s in
  let? (s, group_ids) := status_ids "Gid" s in
  let? (s, supplementary_groups) := calling "failed to verify worker supplementary groups" (getgroups s) in
  let supplementary_groups := sort_ids supplementary_groups in
  let? (s, caps) := calling "failed to verify worker capabilities" (capabilities s) in
  let? (s, nnp) := calling "failed to verify worker no-new-privileges" (no_new_privs s) in
  let? (s, dump) := calling "failed to verify worker dumpability" (is_dumpable s) in
  let? (s, ambient) := status_mask "CapAmb" s in
  let isolation := {|
    profile_version := WASIX_WORKER_ISOLATION_PROFILE_VERSION;
    user_ids := user_ids; group_ids := group_ids;
    supplementary_group_ids := supplementary_groups;
    has_root_supplementary_group := existsb (Z.eqb 0) supplementary_groups;
    no_new_privileges := nnp; dumpable := dump;
    capability_masks := [caps.1.1; caps.1.2; caps.2; ambient];
    core_file_limits := core; file_size_limits := file_size;
    address_space_limits := address_space; open_file_limits := open_file;
    closed_inherited_descriptor_count := closed |} in
  (s, _ ← map_err (λ e, "worker isolation verification failed: " +:+ error_display e)
            (isolation_validate isolation (supplementary_group_ids isolation));
      Ok isolation).

Definition enter_wasix_worker_isolation s : S * result string WasixWorkerIsolation :=
  match getppid s with
  | None => (s, Err "WASIX worker has no live parent process")
  | Some expected_parent =>
      let? (s, closed) := close_inherited_worker_descriptors s in
      let? (s, core) := lower_worker_limit Core 0 s in
      let? (s, file_size) := lower_worker_limit Fsize WASIX_WORKER_MAX_FILE_BYTES s in
      let? (s, address_space) := lower_worker_limit As WASIX_WORKER_MAX_ADDRESS_SPACE_BYTES s in
      let? (s, open_file) := lower_worker_limit Nofile WASIX_WORKER_MAX_OPEN_FILES s in
      let? (s, _x) := calling "failed to disable retained worker capabilities" (set_keep_capabilities false s) in
      let? (s, _x) := calling "failed to clear ambient worker capabilities" (clear_ambient_capability_set s) in
      let? (s, _x) := drop_root_credentials s in
      let? (s, _x) := settle_filesystem_credentials s in
      let? (s, _x) := rearm_worker_parent_death expected_parent s in
      let? (s, _x) := calling "failed to clear worker capabilities" (clear_capabilities s) in
      let? (s, _x) := calling "failed to set worker no-new-privileges" (set_no_new_privs s) in
      let? (s, _x) := calling "failed to disable worker dumpability" (set_not_dumpable s) in
      report_isolation core file_size address_space open_file closed s
  end.
End isolation.

(** ** What the calls are documented to do *)

(** The part of the process the profile is about. *)
Record Process := {
  p_users : Ids;
  p_groups : Ids;
  p_supplementary : list Z;
  p_capabilities : Z * Z * Z;       (* effective, permitted, inheritable *)
  p_ambient : Z;
  p_no_new_privileges : bool;
  p_dumpable : bool;
  p_limits : Resource → Rlimit;
  p_descriptors : gset Z;
  p_death_signal : bool;            (* the parent's death kills the process *)
}.

Definition set_limit (r : Resource) (l : Rlimit) (f : Resource → Rlimit) : Resource → Rlimit :=
  λ r', if decide (r = r') then l else f r'.

(** Calls that change credentials may clear the death signal; they leave the
    descriptors and the limits alone. *)
Definition keeps_resources (v v' : Process) : Prop :=
  p_descriptors v' = p_descriptors v ∧ p_limits v' = p_limits v.
Definition keeps_signal (v v' : Process) : Prop :=
  keeps_resources v v' ∧ p_death_signal v' = p_death_signal v.

(** A call that only looks. *)
Definition looks {S A} (view : S → Process) (f : S → S * result string A) (answer : Process → A → Prop) : Prop :=
  ∀ s, view (f s).1 = view s ∧ ∀ a, (f s).2 = Ok a → answer (view s) a.

Definition res_ids (i : Ids) : Z * Z * Z := (real_id i, effective_id i, saved_id i).

Class LinuxLaws (S : Type) `{Linux S} := {
  view : S → Process;
  view_u32 s : Forall (λ n, 0 ≤ n ≤ u32_max) (id_list (p_users (view s)) ++ id_list (p_groups (view s)));
  view_u64 s : 0 ≤ p_ambient (view s) ≤ u64_max;
  view_fds s fd : fd ∈ p_descriptors (view s) → 0 ≤ fd ≤ 2 ^ 31 - 1;
  (** Every open descriptor has an entry; the directory's own one is new. *)
  fd_directory_law : looks view fd_directory (λ v a,
    a.1 ∉ p_descriptors v ∧ (Forall (λ e, is_ok e = true) a.2 → ∀ fd, fd ∈ p_descriptors v → Ok (decimal fd) ∈ a.2));
  getrlimit_law r s : getrlimit r s = p_limits (view s) r;
  setrlimit_law r l s : (setrlimit r l s).2 = Ok tt →
    p_limits (view (setrlimit r l s).1) = set_limit r l (p_limits (view s))
    ∧ p_descriptors (view (setrlimit r l s).1) = p_descriptors (view s);
  set_keep_capabilities_law b s : keeps_resources (view s) (view (set_keep_capabilities b s).1);
  clear_ambient_law s : keeps_resources (view s) (view (clear_ambient_capability_set s).1);
  setgroups_law l s : keeps_resources (view s) (view (setgroups l s).1);
  setresgid_law a b c s : keeps_resources (view s) (view (setresgid a b c s).1);
  setresuid_law a b c s : keeps_resources (view s) (view (setresuid a b c s).1);
  setfsgid_law g s : keeps_resources (view s) (view (setfsgid g s));
  setfsuid_law u s : keeps_resources (view s) (view (setfsuid u s));
  death_signal_law s : (set_parent_process_death_signal s).2 = Ok tt →
    keeps_resources (view s) (view (set_parent_process_death_signal s).1)
    ∧ p_death_signal (view (set_parent_process_death_signal s).1) = true;
  clear_capabilities_law s : keeps_signal (view s) (view (clear_capabilities s).1);
  set_no_new_privs_law s : keeps_signal (view s) (view (set_no_new_privs s).1);
  set_not_dumpable_law s : keeps_signal (view s) (view (set_not_dumpable s).1);
  getresuid_law : looks view getresuid (λ v a, a = res_ids (p_users v));
  getresgid_law : looks view getresgid (λ v a, a = res_ids (p_groups v));
  getgroups_law : looks view getgroups (λ v a, a = p_supplementary v);
  capabilities_law : looks view capabilities (λ v a, a = p_capabilities v);
  no_new_privs_law : looks view no_new_privs (λ v a, a = p_no_new_privileges v);
  is_dumpable_law : looks view is_dumpable (λ v a, a = p_dumpable v);
  read_status_law : looks view read_status (λ v text,
    StatusField text "Uid" (tabbed (decimal <$> id_list (p_users v)))
    ∧ StatusField text "Gid" (tabbed (decimal <$> id_list (p_groups v)))
    ∧ StatusField text "CapAmb" (tabbed [hex_fixed 16 (p_ambient v)]));
}.

(** A report that is true of a process. *)
Record Truthful (i : WasixWorkerIsolation) (v : Process) : Prop := {
  true_users : user_ids i = p_users v;
  true_groups : group_ids i = p_groups v;
  true_supplementary : supplementary_group_ids i = sort_ids (p_supplementary v);
  true_capabilities : capability_masks i =
    [(p_capabilities v).1.1; (p_capabilities v).1.2; (p_capabilities v).2; p_ambient v];
  true_privileges : no_new_privileges i = p_no_new_privileges v;
  true_dumpable : dumpable i = p_dumpable v;
  true_core : p_limits v Core = {| current := Some (core_file_limits i).1; maximum := Some (core_file_limits i).2 |};
  true_file_size : p_limits v Fsize = {| current := Some (file_size_limits i).1; maximum := Some (file_size_limits i).2 |};
  true_address_space : p_limits v As =
    {| current := Some (address_space_limits i).1; maximum := Some (address_space_limits i).2 |};
  true_open_files : p_limits v Nofile = {| current := Some (open_file_limits i).1; maximum := Some (open_file_limits i).2 |};
}.

(** ** Reports are true *)

Lemma parse_i32_decimal fd : 0 ≤ fd ≤ 2 ^ 31 - 1 → parse_i32 (decimal fd) = Some fd.
Proof.
  intros Hfd. destruct (parse_decimal (2 ^ 31 - 1) fd Hfd) as [Hp _].
  unfold parse_i32. destruct (decimal fd) as [|b [|c l]]; [by rewrite Hp..|].
  case_bool_decide as Hb; [|by rewrite Hp]. subst b. by cbn in Hp.
Qed.

Section laws.
Context {S : Type} {L : Linux S} {LL : LinuxLaws S}.
Implicit Types s : S.

Lemma calling_Ok {A} what (r : S * result string A) s a : calling what r = (s, Ok a) ↔ r = (s, Ok a).
Proof. destruct r as [s' [x|e]]; cbn; naive_solver. Qed.

Lemma looks_Ok {A} (f : S → S * result string A) ans s s' a :
  looks view f ans → f s = (s', Ok a) → view s' = view s ∧ ans (view s) a.
Proof. intros Hf E. destruct (Hf s) as [Hv Ha]. rewrite E in *. auto. Qed.

Lemma inherited_complete own entries l :
  inherited own entries = Ok l →
  Forall (λ e, is_ok e = true) entries
  ∧ ∀ fd, 2 < fd ≤ 2 ^ 31 - 1 → fd ≠ own → Ok (decimal fd) ∈ entries → fd ∈ l.
Proof.
  revert l. induction entries as [|[name|e] entries IH]; intros l E; cbn in E; [|result_inv..].
  - split; [constructor|]. by intros ? _ _ ?%not_elem_of_nil.
  - destruct (IH x H) as [Hok Hin]. split; [by constructor|]. intros fd Hfd Hown Hel.
    apply elem_of_cons in Hel as [[= <-]|Hel].
    + rewrite parse_i32_decimal by lia.
      rewrite (proj2 (Z.ltb_lt 2 fd)), (proj2 (Z.eqb_neq fd own)) by lia. by left.
    + specialize (Hin fd Hfd Hown Hel). destruct (parse_i32 name); [|done].
      destruct (_ && _); [by right|done].
Qed.

Lemma open_worker_descriptors_Ok s s' l :
  open_worker_descriptors s = (s', Ok l) →
  view s' = view s ∧ ∀ fd, fd ∈ p_descriptors (view s) → 2 < fd → fd ∈ l.
Proof.
  unfold open_worker_descriptors. intros E. io_inv. apply calling_Ok in H.
  destruct (looks_Ok _ _ _ _ _ fd_directory_law H) as [Hv [Hown Hall]].
  injection E as -> E. destruct (inherited _ _) as [k|e] eqn:Hi; [|done]. injection E as <-.
  destruct (inherited_complete _ _ _ Hi) as [Hok Hin]. split; [done|]. intros fd Hfd H2.
  cbn. rewrite elem_of_dedup_ids. unfold sort_ids. rewrite merge_sort_Permutation.
  pose proof (view_fds s fd Hfd). apply Hin; [lia| |by apply Hall]. by intros ->.
Qed.

Lemma close_inherited_Ok s s' n :
  close_inherited_worker_descriptors s = (s', Ok n) → ∀ fd, fd ∈ p_descriptors (view s') → fd ≤ 2.
Proof.
  unfold close_inherited_worker_descriptors. intros E. io_inv. destruct (_ <? _); [done|].
  apply io_bind_Ok in E as (s2 & remaining & Ho & E).
  apply open_worker_descriptors_Ok in Ho as [Hv Hin].
  destruct remaining; [|done]. injection E as -> _. intros fd Hfd. rewrite Hv in Hfd.
  destruct (Z.le_gt_cases fd 2) as [|Hgt]; [done|].
  by specialize (Hin fd Hfd Hgt) as ?%not_elem_of_nil.
Qed.

Definition both (p : limit_pair) : Rlimit := {| current := Some p.1; maximum := Some p.2 |}.

Lemma lower_limit_Ok r m s s' p :
  lower_worker_limit r m s = (s', Ok p) →
  p_limits (view s') = set_limit r (both p) (p_limits (view s)) ∧ p_descriptors (view s') = p_descriptors (view s).
Proof.
  unfold lower_worker_limit. intros E. apply io_bind_Ok in E as (s1 & [] & Hset & E).
  apply calling_Ok in Hset. set (lim := min_limit _ _) in *.
  pose proof (setrlimit_law r {| current := Some lim; maximum := Some lim |} s) as Hl.
  rewrite Hset in Hl. destruct (Hl eq_refl) as [Hlim Hfd]. cbn [fst] in *.
  injection E as -> E. rewrite getrlimit_law, Hlim in E. unfold set_limit at 1 2 in E.
  rewrite decide_True in E by done. cbn in E. injection E as <-. by rewrite Hlim.
Qed.

Lemma keeps_refl v : keeps_resources v v.
Proof. by split. Qed.
Lemma keeps_trans v1 v2 v3 : keeps_resources v1 v2 → keeps_resources v2 v3 → keeps_resources v1 v3.
Proof. unfold keeps_resources. intros [-> ->] [-> ->]. done. Qed.
Lemma keeps_view v v' : v' = v → keeps_resources v v'.
Proof. intros ->. apply keeps_refl. Qed.

(** A successful call keeps what its law says the call keeps. *)
Lemma calling_keeps {A} (P : Process → Process → Prop) what (f : S → S * result string A) s s' a :
  (∀ s, P (view s) (view (f s).1)) → calling what (f s) = (s', Ok a) → P (view s) (view s').
Proof. intros Hf E%calling_Ok. specialize (Hf s). by rewrite E in Hf. Qed.

Lemma looks_keeps {A} (f : S → S * result string A) ans s :
  looks view f ans → keeps_resources (view s) (view (f s).1).
Proof. intros Hf. apply keeps_view, Hf. Qed.
End laws.

Section entry.
Context {S : Type} {L : Linux S} {LL : LinuxLaws S}.
Implicit Types s : S.

Lemma drop_root_keeps s s' u :
  drop_root_credentials s = (s', Ok u) → keeps_resources (view s) (view s').
Proof.
  unfold drop_root_credentials. intros E.
  apply io_bind_Ok in E as (s1 & users & H1%(calling_keeps keeps_resources) & E);
    [|intros x; apply (looks_keeps _ _ x getresuid_law)].
  apply io_bind_Ok in E as (s2 & groups & H2%(calling_keeps keeps_resources) & E);
    [|intros x; apply (looks_keeps _ _ x getresgid_law)].
  cbv beta in E. destruct (_ || _); [|injection E as -> _; by eapply keeps_trans].
  apply io_bind_Ok in E as (s3 & u3 & H3%(calling_keeps keeps_resources) & E); [|intros x; apply setgroups_law].
  apply io_bind_Ok in E as (s4 & u4 & H4%(calling_keeps keeps_resources) & E); [|intros x; apply setresgid_law].
  apply (calling_keeps keeps_resources) in E; [|intros x; apply setresuid_law].
  eauto using keeps_trans.
Qed.

Lemma settle_keeps s s' u :
  settle_filesystem_credentials s = (s', Ok u) → keeps_resources (view s) (view s').
Proof.
  unfold settle_filesystem_credentials. intros E.
  apply io_bind_Ok in E as (s1 & users & H1%(calling_keeps keeps_resources) & E);
    [|intros x; apply (looks_keeps _ _ x getresuid_law)].
  apply io_bind_Ok in E as (s2 & groups & H2%(calling_keeps keeps_resources) & E);
    [|intros x; apply (looks_keeps _ _ x getresgid_law)].
  injection E as <- _. eauto using keeps_trans, setfsuid_law, setfsgid_law.
Qed.

Lemma rearm_Ok parent s s' u :
  rearm_worker_parent_death parent s = (s', Ok u) →
  keeps_resources (view s) (view s') ∧ p_death_signal (view s') = true ∧ getppid s' = Some parent.
Proof.
  unfold rearm_worker_parent_death. intros E. apply io_bind_Ok in E as (s1 & [] & H1%calling_Ok & E).
  injection E as -> E. apply reject_if_Ok, negb_false_iff, bool_decide_eq_true in E.
  pose proof (death_signal_law s) as Hl. rewrite H1 in Hl. destruct (Hl eq_refl). auto.
Qed.

Lemma no_colon field : field ∈ ["Uid"; "Gid"; "CapAmb"] → ":"%byte ∉ str_bytes field.
Proof.
  revert field. apply Forall_forall. repeat constructor; by apply (bool_decide_eq_true _).
Qed.

Lemma status_ids_Ok s s' ids :
  (status_ids "Uid" s = (s', Ok ids) → view s' = view s ∧ ids = p_users (view s))
  ∧ (status_ids "Gid" s = (s', Ok ids) → view s' = view s ∧ ids = p_groups (view s)).
Proof.
  pose proof (view_u32 s) as Hr. apply Forall_app in Hr as [Hu Hg].
  unfold status_ids. destruct (read_status s) as [s1 [text|e]] eqn:E; [|done].
  destruct (looks_Ok _ _ _ _ _ read_status_law E) as (Hv & HU & HG & _).
  split; intros [= <- Hi]; (split; [done|]).
  - rewrite (read_ids_ok _ _ _ (no_colon "Uid" ltac:(set_solver)) HU Hu) in Hi. by injection Hi.
  - rewrite (read_ids_ok _ _ _ (no_colon "Gid" ltac:(set_solver)) HG Hg) in Hi. by injection Hi.
Qed.

Lemma status_mask_Ok s s' mask :
  status_mask "CapAmb" s = (s', Ok mask) → view s' = view s ∧ mask = p_ambient (view s).
Proof.
  unfold status_mask. destruct (read_status s) as [s1 [text|e]] eqn:E; [|done].
  destruct (looks_Ok _ _ _ _ _ read_status_law E) as (Hv & _ & _ & HA). intros [= <- Hi]. split; [done|].
  rewrite (read_mask_ok _ _ _ (no_colon "CapAmb" ltac:(set_solver)) HA (view_u64 s)) in Hi. by injection Hi.
Qed.

(** The part of the report that is read back at the end. *)
Lemma report_Ok core file_size address_space open_file closed s s' i :
  report_isolation core file_size address_space open_file closed s = (s', Ok i) →
  let v := view s in
  view s' = v ∧ Isolated i (supplementary_group_ids i)
  ∧ user_ids i = p_users v ∧ group_ids i = p_groups v
  ∧ supplementary_group_ids i = sort_ids (p_supplementary v)
  ∧ capability_masks i = [(p_capabilities v).1.1; (p_capabilities v).1.2; (p_capabilities v).2; p_ambient v]
  ∧ no_new_privileges i = p_no_new_privileges v ∧ dumpable i = p_dumpable v
  ∧ core_file_limits i = core ∧ file_size_limits i = file_size
  ∧ address_space_limits i = address_space ∧ open_file_limits i = open_file.
Proof.
  unfold report_isolation. intros E.
  apply io_bind_Ok in E as (s1 & users & [V1 ->]%(proj1 (status_ids_Ok _ _ _)) & E).
  apply io_bind_Ok in E as (s2 & groups & [V2 ->]%(proj2 (status_ids_Ok _ _ _)) & E).
  apply io_bind_Ok in E as (s3 & supp & [V3 ->]%calling_Ok%(looks_Ok _ _ _ _ _ getgroups_law) & E).
  apply io_bind_Ok in E as (s4 & caps & [V4 ->]%calling_Ok%(looks_Ok _ _ _ _ _ capabilities_law) & E).
  apply io_bind_Ok in E as (s5 & nnp & [V5 ->]%calling_Ok%(looks_Ok _ _ _ _ _ no_new_privs_law) & E).
  apply io_bind_Ok in E as (s6 & dump & [V6 ->]%calling_Ok%(looks_Ok _ _ _ _ _ is_dumpable_law) & E).
  apply io_bind_Ok in E as (s7 & ambient & [V7 ->]%status_mask_Ok & E).
  injection E as -> E. apply bind_Ok in E as ([] & Hv & E). apply map_err_Ok, isolation_validate_iff in Hv.
  injection E as <-. rewrite V7, V6, V5, V4, V3, V2, V1 in *. by split_and!.
Qed.

Lemma enter_isolation_Ok s s' i :
  enter_wasix_worker_isolation s = (s', Ok i) →
  Truthful i (view s') ∧ Isolated i (supplementary_group_ids i)
  ∧ (∀ fd, fd ∈ p_descriptors (view s') → fd ≤ 2) ∧ p_death_signal (view s') = true.
Proof.
  unfold enter_wasix_worker_isolation. destruct (getppid s) as [parent|]; [|done]. intros E.
  apply io_bind_Ok in E as (s1 & closed & F & E). pose proof (close_inherited_Ok _ _ _ F) as F'.
  apply io_bind_Ok in E as (s2 & core & [L2 D2]%lower_limit_Ok & E).
  apply io_bind_Ok in E as (s3 & fsize & [L3 D3]%lower_limit_Ok & E).
  apply io_bind_Ok in E as (s4 & aspace & [L4 D4]%lower_limit_Ok & E).
  apply io_bind_Ok in E as (s5 & nofile & [L5 D5]%lower_limit_Ok & E).
  apply io_bind_Ok in E as (s6 & u6 & K6%(calling_keeps keeps_resources) & E);
    [|intros x; apply set_keep_capabilities_law].
  apply io_bind_Ok in E as (s7 & u7 & K7%(calling_keeps keeps_resources) & E); [|apply clear_ambient_law].
  apply io_bind_Ok in E as (s8 & u8 & K8%drop_root_keeps & E).
  apply io_bind_Ok in E as (s9 & u9 & K9%settle_keeps & E).
  apply io_bind_Ok in E as (s10 & u10 & (K10 & G10 & _)%rearm_Ok & E).
  apply io_bind_Ok in E as (s11 & u11 & [K11 G11]%(calling_keeps keeps_signal) & E); [|apply clear_capabilities_law].
  apply io_bind_Ok in E as (s12 & u12 & [K12 G12]%(calling_keeps keeps_signal) & E); [|apply set_no_new_privs_law].
  apply io_bind_Ok in E as (s13 & u13 & [K13 G13]%(calling_keeps keeps_signal) & E); [|apply set_not_dumpable_law].
  apply report_Ok in E as (V & I & U & G & SG & C & N & D & <- & <- & <- & <-).
  assert (keeps_resources (view s5) (view s13)) as [KD KL] by eauto 12 using keeps_trans.
  rewrite V. split_and!; [|done| |congruence].
  - split; try done; rewrite KL, L5, L4, L3, L2; by unfold set_limit; repeat (rewrite decide_True by done || rewrite decide_False by done).
  - intros fd Hfd. apply F'. by rewrite <- D2, <- D3, <- D4, <- D5, <- KD.
Qed.

(** C16: a worker that completes its entry into isolation reports the truth.
    The credentials, groups, capabilities, flags and limits it reports are
    those of the process in the state it is then in; they satisfy the
    isolation profile; no descriptor beyond the three standard ones is open;
    and the death of its parent kills it. *)
Theorem isolation_report_truthful s s' i :
  enter_wasix_worker_isolation s = (s', Ok i) →
  Truthful i (view s') ∧ Isolated i (supplementary_group_ids i)
  ∧ (∀ fd, fd ∈ p_descriptors (view s') → fd ≤ 2) ∧ p_death_signal (view s') = true.
Proof. apply enter_isolation_Ok. Qed.
End entry.

(** ** A concrete kernel *)
Module WorkerIsolationExample.

(** The state: a parent and a process; [seen] is the process with its numbers
    at their widths. *)
Record sim := { sim_parent : option Z; raw : Process }.

Definition word (n : Z) : Z := n mod 2 ^ 32.
Definition word_ids (i : Ids) : Ids :=
  {| real_id := word (real_id i); effective_id := word (effective_id i);
     saved_id := word (saved_id i); filesystem_id := word (filesystem_id i) |}.
Definition seen (s : sim) : Process :=
  let v := raw s in
  {| p_users := word_ids (p_users v); p_groups := word_ids (p_groups v);
     p_supplementary := p_supplementary v; p_capabilities := p_capabilities v;
     p_ambient := p_ambient v mod 2 ^ 64; p_no_new_privileges := p_no_new_privileges v;
     p_dumpable := p_dumpable v; p_limits := p_limits v;
     p_descriptors := filter (λ fd, 0 ≤ fd ≤ 2 ^ 31 - 1) (p_descriptors v);
     p_death_signal := p_death_signal v |}.
Definition on (s : sim) (v : Process) : sim := {| sim_parent := sim_parent s; raw := v |}.

(** Updates of one aspect; a change of credentials clears the death signal. *)
Definition credentials (users groups : Ids) (supp : list Z) (caps : Z * Z * Z) (amb : Z) (v : Process) : Process :=
  {| p_users := users; p_groups := groups; p_supplementary := supp; p_capabilities := caps; p_ambient := amb;
     p_no_new_privileges := p_no_new_privileges v; p_dumpable := p_dumpable v; p_limits := p_limits v;
     p_descriptors := p_descriptors v; p_death_signal := false |}.
Definition flags (caps : Z * Z * Z) (nnp dump signal : bool) (v : Process) : Process :=
  {| p_users := p_users v; p_groups := p_groups v; p_supplementary := p_supplementary v; p_capabilities := caps;
     p_ambient := p_ambient v; p_no_new_privileges := nnp; p_dumpable := dump; p_limits := p_limits v;
     p_descriptors := p_descriptors v; p_death_signal := signal |}.
Definition resources (limits : Resource → Rlimit) (fds : gset Z) (v : Process) : Process :=
  {| p_users := p_users v; p_groups := p_groups v; p_supplementary := p_supplementary v;
     p_capabilities := p_capabilities v; p_ambient := p_ambient v; p_no_new_privileges := p_no_new_privileges v;
     p_dumpable := p_dumpable v; p_limits := limits; p_descriptors := fds; p_death_signal := p_death_signal v |}.

Definition all_ids (n : Z) : Ids := {| real_id := n; effective_id := n; saved_id := n; filesystem_id := n |}.
Definition set_fs (n : Z) (i : Ids) : Ids :=
  {| real_id := real_id i; effective_id := effective_id i; saved_id := saved_id i; filesystem_id := n |}.
Definition directory_fd (fds : gset Z) : Z := 1 + foldr Z.max 2 (elements fds).
Definition is_root (v : Process) : bool := effective_id (p_users v) =? 0.

(** Changing a credential needs root. *)
Definition privileged (s : sim) (v : Process) : sim * result string unit :=
  if is_root (raw s) then (on s v, Ok tt) else (s, Err "EPERM").

#[export] Instance sim_linux : Linux sim := {
  getppid := sim_parent;
  fd_directory s :=
    let fds := p_descriptors (seen s) in
    (s, Ok (directory_fd fds,
            [Ok (str_bytes "."); Ok (str_bytes "..")] ++ ((λ fd, Ok (decimal fd)) <$> elements fds)
            ++ [Ok (decimal (directory_fd fds))]));
  close_fd fd s := on s (resources (p_limits (raw s)) (p_descriptors (raw s) ∖ {[fd]}) (raw s));
  getrlimit r s := p_limits (raw s) r;
  setrlimit r l s := (on s (resources (set_limit r l (p_limits (raw s))) (p_descriptors (raw s)) (raw s)), Ok tt);
  set_keep_capabilities _ s := (s, Ok tt);
  clear_ambient_capability_set s :=
    (on s (credentials (p_users (raw s)) (p_groups (raw s)) (p_supplementary (raw s)) (p_capabilities (raw s)) 0
             (raw s)), Ok tt);
  getresuid s := (s, Ok (res_ids (p_users (seen s))));
  getresgid s := (s, Ok (res_ids (p_groups (seen s))));
  setgroups l s := privileged s (credentials (p_users (raw s)) (p_groups (raw s)) l (p_capabilities (raw s))
                                   (p_ambient (raw s)) (raw s));
  setresgid g _ _ s := privileged s (credentials (p_users (raw s)) (all_ids g) (p_supplementary (raw s))
                                       (p_capabilities (raw s)) (p_ambient (raw s)) (raw s));
  setresuid u _ _ s := privileged s (credentials (all_ids u) (p_groups (raw s)) (p_supplementary (raw s))
                                       (0, 0, 0) 0 (raw s));
  setfsgid g s := on s (credentials (p_users (raw s)) (set_fs g (p_groups (raw s))) (p_supplementary (raw s))
                          (p_capabilities (raw s)) (p_ambient (raw s)) (raw s));
  setfsuid u s := on s (credentials (set_fs u (p_users (raw s))) (p_groups (raw s)) (p_supplementary (raw s))
                          (p_capabilities (raw s)) (p_ambient (raw s)) (raw s));
  set_parent_process_death_signal s :=
    (on s (flags (p_capabilities (raw s)) (p_no_new_privileges (raw s)) (p_dumpable (raw s)) true (raw s)), Ok tt);
  clear_capabilities s :=
    (on s (flags (0, 0, 0) (p_no_new_privileges (raw s)) (p_dumpable (raw s)) (p_death_signal (raw s)) (raw s)), Ok tt);
  set_no_new_privs s :=
    (on s (flags (p_capabilities (raw s)) true (p_dumpable (raw s)) (p_death_signal (raw s)) (raw s)), Ok tt);
  set_not_dumpable s :=
    (on s (flags (p_capabilities (raw s)) (p_no_new_privileges (raw s)) false (p_death_signal (raw s)) (raw s)), Ok tt);
  read_status s := (s, Ok (ProcStatusExample.text_of (p_users (seen s)) (p_groups (seen s)) (p_ambient (seen s))));
  getgroups s := (s, Ok (p_supplementary (seen s)));
  capabilities s := (s, Ok (p_capabilities (seen s)));
  no_new_privs s := (s, Ok (p_no_new_privileges (seen s)));
  is_dumpable s := (s, Ok (p_dumpable (seen s)));
}.

(** A worker started by root, with an inherited descriptor. *)
Definition root_process : sim := {|
  sim_parent := Some 1;
  raw := {| p_users := all_ids 0; p_groups := all_ids 0; p_supplementary := [0; 4]; p_capabilities := (7, 7, 7);
            p_ambient := 7; p_no_new_privileges := false; p_dumpable := true;
            p_limits := λ _, {| current := None; maximum := Some 1000 |};
            p_descriptors := {[0; 1; 2; 5; 77]}; p_death_signal := true |} |}.
Definition root_report := enter_wasix_worker_isolation root_process.
Example root_enters : match root_report.2 with
  | Ok i => closed_inherited_descriptor_count i = 2 ∧ user_ids i = all_ids 65534 ∧ open_file_limits i = (64, 64)
  | Err _ => False
  end.
Proof. by vm_compute. Qed.

Lemma word_range n : 0 ≤ word n ≤ u32_max.
Proof. unfold word, u32_max. pose proof (Z.mod_pos_bound n (2 ^ 32) eq_refl). lia. Qed.
Lemma ids_range i : Forall (λ n, 0 ≤ n ≤ u32_max) (id_list (word_ids i)).
Proof. repeat constructor; apply word_range. Qed.
Lemma ambient_range n : 0 ≤ n mod 2 ^ 64 ≤ u64_max.
Proof. unfold u64_max. pose proof (Z.mod_pos_bound n (2 ^ 64) eq_refl). lia. Qed.

Lemma directory_fd_fresh (fds : gset Z) : directory_fd fds ∉ fds.
Proof.
  unfold directory_fd. rewrite <- elem_of_elements.
  assert (∀ l x, x ∈ l → x ≤ foldr Z.max 2 l) as Hmax.
  { intros l. induction l as [|y l IH]; intros x; [by intros ?%not_elem_of_nil|].
    intros [->|Hx]%elem_of_cons; cbn; [lia|]. specialize (IH x Hx). lia. }
  intros Hin%Hmax. lia.
Qed.

Lemma text_fields users groups ambient :
  let text := ProcStatusExample.text_of (word_ids users) (word_ids groups) (ambient mod 2 ^ 64) in
  StatusField text "Uid" (tabbed (decimal <$> id_list (word_ids users)))
  ∧ StatusField text "Gid" (tabbed (decimal <$> id_list (word_ids groups)))
  ∧ StatusField text "CapAmb" (tabbed [hex_fixed 16 (ambient mod 2 ^ 64)]).
Proof.
  intros text.
  set (l1 := str_bytes "Name:" ++ tab :: str_bytes "Uid: worker").
  set (l2 := str_bytes "Uid" ++ ":"%byte :: tabbed (decimal <$> id_list (word_ids users))).
  set (l3 := str_bytes "Gid" ++ ":"%byte :: tabbed (decimal <$> id_list (word_ids groups))).
  set (l4 := str_bytes "CapAmb" ++ ":"%byte :: tabbed [hex_fixed 16 (ambient mod 2 ^ 64)]).
  assert (∀ i, Forall word_ok (decimal <$> id_list (word_ids i))) as Hw.
  { intros i. apply Forall_fmap. eapply Forall_impl; [apply ids_range|].
    intros n Hn. exact (proj2 (parse_decimal u32_max n Hn)). }
  assert (line_ok l1) as O1 by (split; [by apply (bool_decide_eq_true _)|done]).
  assert (line_ok l2) as O2 by (apply line_ok_tabbed; [by repeat constructor|apply Hw]).
  assert (line_ok l3) as O3 by (apply line_ok_tabbed; [by repeat constructor|apply Hw]).
  assert (line_ok l4) as O4.
  { apply line_ok_tabbed; [by repeat constructor|]. constructor; [|done]. split; [done|].
    destruct (parse_hex_fixed 16 0 (ambient mod 2 ^ 64) u64_max) as [_ Hp]; [done| |done].
    pose proof (ambient_range ambient). rewrite Z.mod_small; unfold u64_max in *; lia. }
  assert (Forall line_ok [l1; l2; l3; l4]) as O by (repeat (constructor; [assumption|]); constructor).
  split_and!; [exists [l1], [l3; l4]|exists [l1; l2], [l4]|exists [l1; l2; l3], []];
    (split_and!; [done|done|by repeat constructor]).
Qed.

#[export] Instance sim_laws : LinuxLaws sim.
Proof.
  refine {| view := seen |}; intros; try (by split; [|intros a [= <-]]);
    try (cbn; unfold keeps_resources, keeps_signal, privileged; by repeat case_match).
  - apply Forall_app. split; apply ids_range.
  - apply ambient_range.
  - cbn in *. set_solver.
  - intros s. split; [done|]. intros a [= <-]. split; [apply directory_fd_fresh|].
    intros _ fd Hfd. cbn. do 2 right. apply elem_of_app. left. apply list_elem_of_fmap.
    exists fd. by rewrite elem_of_elements.
  - intros s. split; [done|]. intros a [= <-]. apply text_fields.
Defined.

Lemma isolation_report_truthful_witness :
  ∃ s' i, enter_wasix_worker_isolation root_process = (s', Ok i)
    ∧ Truthful i (seen s') ∧ (∀ fd, fd ∈ p_descriptors (seen s') → fd ≤ 2) ∧ p_death_signal (seen s') = true.
Proof.
  destruct root_report as [s' [i|e]] eqn:E; [|by vm_compute in E].
  exists s', i. split; [exact E|].
  destruct (isolation_report_truthful root_process s' i E) as (Ht & _ & Hfd & Hs). exact (conj Ht (conj Hfd Hs)).
Defined.
End WorkerIsolationExample.
