(* ===== verification/WorkerExecutable.v ===== *)
(** Pinning of the worker executable ([src/src/wasix_worker.rs]): the checks
    of its path, ownership, mode and capabilities, its digest, the exec of the
    pinned descriptor in the child, and the digest the running worker computes
    of itself.  Theorems: a pinned executable and every directory above it
    are owner-controlled, its digest is that of the bytes of the pinned file,
    hashing always ends, and a spawned child runs the pinned file or nothing. *)
From S2P Require Import Prelude Errors Interfaces Streams WorkerMessages.

Local Open Scope Z_scope.

(** ** Unix paths *)

Definition slash : byte := byte_of_Z 47.

(** The segments between slashes. *)
Fixpoint segments (segment l : list byte) : list (list byte) :=
  match l with
  | [] => [reverse segment]
  | b :: l' => if bool_decide (b = slash) then reverse segment :: segments [] l' else segments (b :: segment) l'
  end.

Inductive Component := RootDir | CurDir | ParentDir | Normal (name : list byte).

(** [Path::components]: empty segments and dots vanish, a leading dot of a
    relative path apart. *)
Definition segment_component (s : list byte) : option Component :=
  if bool_decide (s = []) || bool_decide (s = str_bytes ".") then None
  else if bool_decide (s = str_bytes "..") then Some ParentDir
  else Some (Normal s).
Definition components (path : list byte) : list Component :=
  match path with
  | b :: l =>
      if bool_decide (b = slash) then RootDir :: omap segment_component (segments [] l)
      else match segments [] path with
           | s :: l' => if bool_decide (s = str_bytes ".") then CurDir :: omap segment_component l'
                        else omap segment_component (s :: l')
           | [] => []
           end
  | [] => []
  end.

(** [Path::parent], by its components. *)
Definition parent_components (path : list byte) : option (list Component) :=
  match last (components path) with
  | None | Some RootDir => None
  | _ => Some (removelast (components path))
  end.

(** [PathBuf::push] of a name, starting from the root. *)
Definition push (prefix name : list byte) : list byte :=
  if bool_decide (last prefix = Some slash) then prefix ++ name else prefix ++ slash :: name.
Definition root_path : list byte := [slash].

(** ** Files *)

Record Stat := { st_mode : Z; st_uid : Z; st_size : Z }.

(** Mode bits: the file type, the write permissions of group and others, the
    execute permissions, and the set-user-ID and set-group-ID bits. *)
Definition S_IFMT : Z := 0xF000.      (* 0o170000 *)
Definition S_IFREG : Z := 0x8000.     (* 0o100000 *)
Definition S_IFDIR : Z := 0x4000.     (* 0o040000 *)
Definition WRITE_OTHERS : Z := 0x12.  (* 0o022 *)
Definition EXECUTE : Z := 0x49.       (* 0o111 *)
Definition SETID_OR_WRITE_OTHERS : Z := 0xC12.   (* 0o6022 *)

(** [FileType::from_raw_mode] *)
Inductive FileType := RegularFile | Directory | OtherFile.
#[global] Instance file_type_eq_dec : EqDecision FileType.
Proof. solve_decision. Defined.
Definition from_raw_mode (mode : Z) : FileType :=
  let t := Z.land mode S_IFMT in
  if t =? S_IFREG then RegularFile else if t =? S_IFDIR then Directory else OtherFile.

Inductive xattr_error := NoData | NotSupported | OtherErrno (message : string).

(** Opening without following links, and the calls on the descriptor. [D] is
    the type of descriptors. *)
Class FileCalls (D : Type) := {
  openat2_directory : list byte → result string D;
  openat2_file : list byte → result string D;
  fstat : D → result string Stat;
  fgetxattr_capability : D → result xattr_error Z;     (* the length of the attribute *)
  pread : D → Z → Z → result string (list byte);       (* offset, buffer length *)
  dup : D → result string D;
  geteuid : Z;
}.

Section pinning.
Context {K : Crypto} {D : Type} {FC : FileCalls D}.

Definition trusted_worker_owner (owner : Z) : bool := (owner =? 0) || (owner =? geteuid).

Definition path_string (p : list byte) : string := String.string_of_list_byte p.

Definition validate_worker_ancestor (path : list byte) : Result unit :=
  descriptor ← map_err (λ e, Configuration ("cannot pin WASIX worker ancestor " +:+ path_string path +:+ ": " +:+ e))
                 (openat2_directory path);
  stat ← map_err (λ e, Configuration ("cannot inspect WASIX worker ancestor " +:+ path_string path +:+ ": " +:+ e))
           (fstat descriptor);
  reject_if (negb (bool_decide (from_raw_mode (st_mode stat) = Directory))
             || negb (trusted_worker_owner (st_uid stat)) || negb (Z.land (st_mode stat) WRITE_OTHERS =? 0))
    (Configuration ("WASIX worker ancestor is not owner-controlled: " +:+ path_string path)).

Fixpoint validate_ancestors_loop (prefix : list byte) (l : list Component) : Result unit :=
  match l with
  | [] => Ok tt
  | RootDir :: l' => validate_ancestors_loop prefix l'
  | Normal name :: l' =>
      let prefix := push prefix name in
      _ ← validate_worker_ancestor prefix;
      validate_ancestors_loop prefix l'
  | _ :: _ => Err (Configuration "WASIX worker path is not canonical")
  end.

Definition validate_worker_ancestors (path : list byte) : Result unit :=
  parent ← ok_or (parent_components path) (Configuration "WASIX worker path has no parent directory");
  _ ← validate_worker_ancestor root_path;
  validate_ancestors_loop root_path parent.

Definition validate_worker_file_stat (path : list byte) (stat : Stat) (file_type : FileType) : Result unit :=
  reject_if (negb (bool_decide (file_type = RegularFile)) || (st_size stat <=? 0)
             || negb (trusted_worker_owner (st_uid stat)) || (Z.land (st_mode stat) EXECUTE =? 0)
             || negb (Z.land (st_mode stat) SETID_OR_WRITE_OTHERS =? 0))
    (Configuration ("WASIX worker must be one owner-controlled, non-setid executable: " +:+ path_string path)).

Definition validate_worker_file_capabilities (path : list byte) (descriptor : D) : Result unit :=
  match fgetxattr_capability descriptor with
  | Ok bytes =>
      if negb (bytes =? 0)
      then Err (Configuration ("WASIX worker must not have file capabilities: " +:+ path_string path))
      else Ok tt
  | Err NoData | Err NotSupported => Ok tt
  | Err (OtherErrno e) =>
      Err (Configuration ("cannot inspect pinned WASIX worker file capabilities for " +:+ path_string path
                            +:+ ": " +:+ e))
  end.

(** The hashing loop; a read gives at most the length of its buffer, and a
    nonempty read advances, so the length of the file bounds the rounds. *)
Fixpoint read_loop (fuel : nat) (descriptor : D) (label : string) (bytes offset : Z) (hashed : list byte)
    : option (result string (list byte)) :=
  if offset <? bytes then
    match fuel with
    | O => None
    | S fuel' =>
        let remaining := Z.min (bytes - offset) (64 * 1024) in
        match pread descriptor offset remaining with
        | Err e => Some (Err ("cannot read " +:+ label +:+ ": " +:+ e))
        | Ok b =>
            let b := take (Z.to_nat remaining) b in
            if blen b =? 0 then Some (Err (label +:+ " ended before its pinned length"))
            else match checked_add u64_max offset (blen b) with
                 | None => Some (Err (label +:+ " offset overflow"))
                 | Some offset => read_loop fuel' descriptor label bytes offset (hashed ++ b)
                 end
        end
    end
  else Some (Ok hashed).

Definition sha256_descriptor (descriptor : D) (bytes : Z) (label : string) : option (result string string) :=
  match read_loop (Z.to_nat bytes) descriptor label bytes 0 [] with
  | None => None
  | Some (Err e) => Some (Err e)
  | Some (Ok hashed) =>
      Some (match pread descriptor bytes 1 with
            | Err e => Err ("cannot finish reading " +:+ label +:+ ": " +:+ e)
            | Ok [] => Ok (sha256_hex hashed)
            | Ok _ => Err (label +:+ " grew while it was pinned")
            end)
  end.

Record PinnedWorkerExecutable := { pinned_descriptor : D; pinned_path : list byte; pinned_sha256 : string }.

Definition open_pinned (path : list byte) : option (Result PinnedWorkerExecutable) :=
  match (_ ← validate_worker_ancestors path;
         descriptor ← map_err (λ e, Configuration ("cannot pin WASIX worker " +:+ path_string path
                                                    +:+ " with openat2: " +:+ e)) (openat2_file path);
         stat ← map_err (λ e, Configuration ("cannot inspect pinned WASIX worker " +:+ path_string path
                                              +:+ ": " +:+ e)) (fstat descriptor);
         _ ← validate_worker_file_stat path stat (from_raw_mode (st_mode stat));
         _ ← validate_worker_file_capabilities path descriptor;
         _ ← reject_if (st_size stat <? 0)
               (Configuration ("WASIX worker size is invalid: " +:+ path_string path));
         Ok (descriptor, st_size stat)) with
  | Err e => Some (Err e)
  | Ok (descriptor, bytes) =>
      match sha256_descriptor descriptor bytes "pinned WASIX worker" with
      | None => None
      | Some (Err e) => Some (Err (Configuration e))
      | Some (Ok sha256) =>
          Some (Ok {| pinned_descriptor := descriptor; pinned_path := path; pinned_sha256 := sha256 |})
      end
  end.

Definition pin_executable (c : WasixWorkerConfig) : option (Result PinnedWorkerExecutable) :=
  match validate_common c with
  | Err e => Some (Err e)
  | Ok _ => open_pinned (str_bytes (executable c))
  end.

(** The digest a running worker computes of its own image, given its opened
    [/proc/self/exe]. *)
Definition current_worker_build_sha256 (self_exe : result string D) : option (result string string) :=
  match (executable ← map_err (λ e, "cannot open running WASIX worker image: " +:+ e) self_exe;
         stat ← map_err (λ e, "cannot inspect running WASIX worker image: " +:+ e) (fstat executable);
         _ ← reject_if (negb (bool_decide (from_raw_mode (st_mode stat) = RegularFile)) || (st_size stat <=? 0))
               "running WASIX worker image is not a regular executable";
         Ok (executable, st_size stat)) with
  | Err e => Some (Err e)
  | Ok (executable, bytes) => sha256_descriptor executable bytes "running WASIX worker image"
  end.

(** ** Executing the pinned descriptor *)

(** The command before it is spawned: the descriptor its hook executes. *)
Record WorkerCommand := {
  cmd_descriptor : D; cmd_argv0 : list byte; cmd_operation : list byte; cmd_expected_parent : Z }.

Definition contains_nul (l : list byte) : bool := existsb (λ b, bool_decide (b = x00)) l.

Definition command (e : PinnedWorkerExecutable) (operation : string) (parent : Z) : Result WorkerCommand :=
  descriptor ← map_err (λ e, Execution ("cannot duplicate pinned WASIX worker: " +:+ e)) (dup (pinned_descriptor e));
  _ ← reject_if (contains_nul (pinned_path e)) (Configuration "WASIX worker path contains a NUL byte");
  _ ← reject_if (contains_nul (str_bytes operation))
        (Configuration "WASIX worker operation contains a NUL byte");
  Ok {| cmd_descriptor := descriptor; cmd_argv0 := pinned_path e; cmd_operation := str_bytes operation;
        cmd_expected_parent := parent |}.

(** The child between fork and exec.  [execveat] returns only when it fails. *)
Record Child := {
  child_death_signal : result string unit;
  child_parent : option Z;
  child_execveat : D → list (list byte) → list (list byte) → option string;
}.
Inductive spawned :=
| Running (image : D) (argv env : list (list byte))
| SpawnFailed (error : string).

Definition pre_exec (c : WorkerCommand) (k : Child) : spawned :=
  match child_death_signal k with
  | Err e => SpawnFailed e
  | Ok _ =>
      if negb (bool_decide (child_parent k = Some (cmd_expected_parent c)))
      then SpawnFailed "No such process (os error 3)"
      else
        let argv := [cmd_argv0 c; cmd_operation c] in
        match child_execveat k (cmd_descriptor c) argv [] with
        | None => Running (cmd_descriptor c) argv []
        | Some e => SpawnFailed e
        end
  end.
End pinning.

(** ** Hashing a descriptor *)

Section hashing.
Context {K : Crypto} {D : Type} {FC : FileCalls D}.
Implicit Types d : D.

(** A descriptor whose file keeps one content: reads may be short, and are
    empty only at the end. *)
Definition stable d (content : list byte) : Prop :=
  ∀ offset n, 0 ≤ offset → 0 < n →
    ∃ k, pread d offset n = Ok (take k (drop (Z.to_nat offset) content))
         ∧ Z.of_nat k ≤ n ∧ (0 < k)%nat.

Lemma read_loop_total fuel d label bytes offset hashed :
  (Z.to_nat (bytes - offset) ≤ fuel)%nat → is_Some (read_loop fuel d label bytes offset hashed).
Proof.
  revert offset hashed. induction fuel as [|fuel IH]; intros offset hashed Hf; cbn [read_loop];
    destruct (Z.ltb_spec offset bytes); eauto; [lia|].
  destruct (pread _ _ _) as [b|e]; [|eauto]. set (c := take _ b). destruct (Z.eqb_spec (blen c) 0); [eauto|].
  destruct (checked_add _ _ _) as [o|] eqn:Ho; [|eauto]. apply checked_add_Some in Ho as [-> _].
  apply IH. pose proof (blen_nonneg c). lia.
Qed.

Lemma read_loop_stable fuel d label bytes offset content :
  stable d content → 0 ≤ offset ≤ blen content → blen content ≤ u64_max → (Z.to_nat (bytes - offset) ≤ fuel)%nat →
  read_loop fuel d label bytes offset (take (Z.to_nat offset) content)
  = Some (if (offset <? bytes) && (blen content <? bytes) then Err (label +:+ " ended before its pinned length")
          else Ok (take (Z.to_nat (Z.max offset bytes)) content)).
Proof.
  intros Hs. revert offset. induction fuel as [|fuel IH]; intros offset Ho Hb Hf; cbn [read_loop];
    destruct (Z.ltb_spec offset bytes) as [Hlt|Hge]; [lia|by rewrite Z.max_l by lia| |by rewrite Z.max_l by lia].
  destruct (Hs offset (Z.min (bytes - offset) (64 * 1024))) as (k & -> & Hk & Hk0); [lia..|].
  set (r := drop (Z.to_nat offset) content). rewrite (take_ge (take k r)) by (rewrite length_take; lia).
  assert (length r = (length content - Z.to_nat offset)%nat) as Hr by apply length_drop.
  destruct (Z.eqb_spec (blen (take k r)) 0) as [E|E]; unfold blen in E; rewrite length_take in E.
  { assert (length content = Z.to_nat offset) as Hend by (unfold blen in *; lia).
    cbn [andb]. rewrite (proj2 (Z.ltb_lt (blen content) bytes)) by (unfold blen in *; lia). done. }
  assert (blen (take k r) = Z.of_nat (length (take k r))) as El by done.
  assert (length (take k r) = (k `min` length r)%nat) as Et by apply length_take.
  destruct (checked_add _ _ _) as [o|] eqn:Hc;
    [apply checked_add_Some in Hc as [-> Hc]|apply checked_add_None in Hc; unfold blen in *; lia].
  assert (take (Z.to_nat offset) content ++ take k r = take (Z.to_nat (offset + blen (take k r))) content) as ->.
  { rewrite El, Z2Nat.inj_add, Nat2Z.id by lia. unfold r. rewrite take_take_drop. fold r. rewrite Et.
    destruct (decide (k ≤ length r)%nat); [f_equal; lia|rewrite !take_ge by lia; done]. }
  rewrite IH by (unfold blen in *; lia). f_equal. cbn [andb].
  destruct (Z.ltb_spec (blen content) bytes) as [Hshort|Hlong]; cbn [andb]; rewrite ?andb_false_r, ?andb_true_r.
  - by rewrite (proj2 (Z.ltb_lt _ _)) by (unfold blen in *; lia).
  - do 3 f_equal. unfold blen in *. lia.
Qed.

(** Hashing a descriptor always ends, and for a file that keeps one content
    it gives the digest of that content exactly when the length it was given
    is the file's. *)
Lemma sha256_descriptor_total d bytes label : is_Some (sha256_descriptor d bytes label).
Proof.
  unfold sha256_descriptor.
  destruct (read_loop_total (Z.to_nat bytes) d label bytes 0 []) as [[b|e] ->]; [lia| |]; eauto.
Qed.

Lemma sha256_descriptor_stable d bytes label content :
  stable d content → 0 ≤ bytes → blen content ≤ u64_max →
  sha256_descriptor d bytes label
  = Some (if bytes =? blen content then Ok (sha256_hex content)
          else if blen content <? bytes then Err (label +:+ " ended before its pinned length")
          else Err (label +:+ " grew while it was pinned")).
Proof.
  intros Hs Hb Hc. unfold sha256_descriptor. pose proof (blen_nonneg content).
  pose proof (read_loop_stable (Z.to_nat bytes) d label bytes 0 content Hs ltac:(lia) ltac:(lia) ltac:(lia)) as Hl.
  change (take (Z.to_nat 0) content) with (@nil byte) in Hl. rewrite Hl.
  destruct (Z.ltb_spec (blen content) bytes) as [Hlt|Hge].
  - rewrite andb_true_r, (proj2 (Z.ltb_lt 0 bytes)), (proj2 (Z.eqb_neq _ _)) by lia. done.
  - rewrite andb_false_r, Z.max_r by lia. destruct (Hs bytes 1) as (k & -> & _ & Hk); [lia..|].
    destruct (Z.eqb_spec bytes (blen content)) as [->|Hne].
    + rewrite drop_ge, take_nil by (unfold blen; lia). by rewrite take_ge by (unfold blen; lia).
    + destruct (drop (Z.to_nat bytes) content) as [|x l] eqn:E.
      { apply (f_equal length) in E. rewrite length_drop in E. cbn in E. unfold blen in *. lia. }
      by destruct k; [lia|].
Qed.
End hashing.

(** ** What pinning guarantees *)

Section trust.
Context {K : Crypto} {D : Type} {FC : FileCalls D}.

(** Nobody but root or this user can write: the bits of [0o022] are clear. *)
Definition owner_writes (st : Stat) : Prop :=
  (st_uid st = 0 ∨ st_uid st = geteuid)
  ∧ Z.testbit (st_mode st) 1 = false ∧ Z.testbit (st_mode st) 4 = false.

(** A directory only its owner, root or this user, can change. *)
Definition OwnerControlled (path : list byte) : Prop :=
  ∃ d st, openat2_directory path = Ok d ∧ fstat d = Ok st
    ∧ from_raw_mode (st_mode st) = Directory ∧ owner_writes st.

(** A regular, nonempty file someone can execute, without the set-user-ID and
    set-group-ID bits and without capabilities. *)
Definition TrustedExecutable (d : D) (bytes : Z) : Prop :=
  ∃ st, fstat d = Ok st ∧ st_size st = bytes ∧ 0 < bytes
    ∧ from_raw_mode (st_mode st) = RegularFile ∧ owner_writes st
    ∧ Z.land (st_mode st) EXECUTE ≠ 0
    ∧ Z.testbit (st_mode st) 10 = false ∧ Z.testbit (st_mode st) 11 = false
    ∧ (fgetxattr_capability d = Ok 0 ∨ fgetxattr_capability d = Err NoData
       ∨ fgetxattr_capability d = Err NotSupported).

(** The directories passed on the way down from [prefix]. *)
Fixpoint descend (prefix : list byte) (names : list (list byte)) : list (list byte) :=
  prefix :: match names with [] => [] | n :: l => descend (push prefix n) l end.

(** A mask is zero exactly when each of its bits is. *)
Lemma land_zero m k : Z.land m k = 0 ↔ ∀ i, 0 ≤ i → Z.testbit k i = true → Z.testbit m i = false.
Proof.
  rewrite <- Z.bits_inj_iff'. setoid_rewrite Z.land_spec. setoid_rewrite Z.bits_0.
  split; intros Hm i Hi.
  - intros Hk. specialize (Hm i Hi). by rewrite Hk, andb_true_r in Hm.
  - specialize (Hm i Hi). destruct (Z.testbit k i); [by rewrite Hm|apply andb_false_r].
Qed.

(** The bits of the two masks of the checks. *)
Lemma testbit_write_others i : 0 ≤ i → Z.testbit WRITE_OTHERS i = true ↔ i = 1 ∨ i = 4.
Proof.
  intros Hi. change WRITE_OTHERS with (Z.lor (2 ^ 1) (2 ^ 4)).
  rewrite Z.lor_spec, !Z.pow2_bits_eqb, orb_true_iff, !Z.eqb_eq by lia. lia.
Qed.

Lemma testbit_setid i :
  0 ≤ i → Z.testbit SETID_OR_WRITE_OTHERS i = true ↔ (i = 1 ∨ i = 4) ∨ i = 10 ∨ i = 11.
Proof.
  intros Hi. change SETID_OR_WRITE_OTHERS with (Z.lor WRITE_OTHERS (Z.lor (2 ^ 10) (2 ^ 11))).
  rewrite !Z.lor_spec, !orb_true_iff, testbit_write_others, !Z.pow2_bits_eqb, !Z.eqb_eq by lia. lia.
Qed.

Lemma write_others_zero m :
  Z.land m WRITE_OTHERS = 0 ↔ Z.testbit m 1 = false ∧ Z.testbit m 4 = false.
Proof.
  rewrite land_zero. split.
  - intros Hm. split; apply Hm; try lia; by apply testbit_write_others; lia.
  - intros [H1 H4] i Hi [->| ->]%testbit_write_others; done.
Qed.

Lemma setid_zero m :
  Z.land m SETID_OR_WRITE_OTHERS = 0 ↔
  (Z.testbit m 1 = false ∧ Z.testbit m 4 = false) ∧ Z.testbit m 10 = false ∧ Z.testbit m 11 = false.
Proof.
  rewrite land_zero. split.
  - intros Hm. split_and!; apply Hm; try lia; by apply testbit_setid; lia.
  - intros ([H1 H4] & H10 & H11) i Hi [[->| ->]|[->| ->]]%testbit_setid; done.
Qed.

Lemma trusted_worker_owner_true uid : trusted_worker_owner uid = true ↔ uid = 0 ∨ uid = geteuid.
Proof. unfold trusted_worker_owner. by rewrite orb_true_iff, !Z.eqb_eq. Qed.

Lemma validate_worker_ancestor_Ok path : validate_worker_ancestor path = Ok tt ↔ OwnerControlled path.
Proof.
  unfold validate_worker_ancestor, OwnerControlled, owner_writes. split.
  - intros Hv. result_inv. bool_inv. do 2 eexists. split_and!; eauto.
    + by apply trusted_worker_owner_true.
    + by apply write_others_zero.
    + by apply write_others_zero.
  - intros (d & st & -> & Hst & Ht & Ho & Hm%write_others_zero). cbn. rewrite Hst. cbn.
    apply reject_if_Ok. rewrite bool_decide_eq_true_2, Hm by done.
    by rewrite (proj2 (trusted_worker_owner_true _) Ho).
Qed.

(** The loop accepts exactly the paths of plain names whose directories are
    all owner-controlled. *)
Lemma validate_ancestors_loop_Ok prefix l :
  RootDir ∉ l → (validate_worker_ancestor prefix = Ok tt ∧ validate_ancestors_loop prefix l = Ok tt ↔
  ∃ names, l = Normal <$> names ∧ Forall OwnerControlled (descend prefix names)).
Proof.
  revert prefix. induction l as [|c l IH]; intros prefix Hn.
  { rewrite validate_worker_ancestor_Ok. cbn. split.
    - intros [Hp _]. exists []. cbn. by rewrite Forall_singleton.
    - intros ([|] & Hl & Hp); [|done]. cbn in Hp. by rewrite Forall_singleton in Hp. }
  apply not_elem_of_cons in Hn as [Hc Hn]. rewrite validate_worker_ancestor_Ok. split.
  - intros [Hp Hl]. destruct c; try done. cbn [validate_ancestors_loop] in Hl. result_inv.
    destruct (proj1 (IH (push prefix name) Hn)) as (names & -> & Hf); [by match goal with x : unit |- _ => destruct x end|].
    exists (name :: names). split; [done|]. by constructor.
  - intros (names & E & Hf). destruct names as [|n names]; [done|]. injection E as -> ->.
    cbn [descend] in Hf. apply Forall_cons in Hf as [Hp Hf]. split; [done|]. cbn [validate_ancestors_loop].
    destruct (proj2 (IH (push prefix n) Hn)) as [-> ->]; [by exists names|done].
Qed.

Lemma segments_no_root (l : list (list byte)) : RootDir ∉ omap segment_component l.
Proof.
  intros (s & _ & Hs)%list_elem_of_omap. unfold segment_component in Hs. by repeat case_match.
Qed.

Lemma validate_worker_ancestors_Ok path :
  head path = Some slash →
  (validate_worker_ancestors path = Ok tt ↔
   ∃ names c, components path = RootDir :: (Normal <$> names) ++ [c] ∧ c ≠ RootDir
     ∧ Forall OwnerControlled (descend root_path names)).
Proof.
  destruct path as [|b l]; [done|]. intros [= ->]. unfold validate_worker_ancestors, parent_components.
  cbn [components]. rewrite bool_decide_eq_true_2 by done. set (cs := omap _ _).
  assert (RootDir ∉ cs) as Hcs by apply segments_no_root.
  destruct cs as [|c cs _] using rev_ind.
  { cbn. split; [done|]. intros (names & c & E & _). by destruct names. }
  rewrite app_comm_cons, last_snoc, removelast_last.
  apply not_elem_of_app in Hcs as [Hcs Hc]. rewrite list_elem_of_singleton in Hc.
  transitivity (validate_worker_ancestor root_path = Ok tt ∧ validate_ancestors_loop root_path cs = Ok tt).
  { destruct c; cbn; try done; destruct (validate_worker_ancestor root_path) as [[]|]; cbn; naive_solver. }
  rewrite validate_ancestors_loop_Ok by done. split.
  - intros (names & -> & Hf). by exists names, c.
  - intros (names & c' & E & _ & Hf). exists names. injection E as E. apply app_inj_tail in E as [-> _]. done.
Qed.

Lemma executable_checks_Ok path d st :
  fstat d = Ok st →
  (validate_worker_file_stat path st (from_raw_mode (st_mode st)) = Ok tt
   ∧ validate_worker_file_capabilities path d = Ok tt ↔ TrustedExecutable d (st_size st)).
Proof.
  intros Hst. unfold validate_worker_file_stat, validate_worker_file_capabilities, TrustedExecutable, owner_writes.
  rewrite reject_if_Ok, !orb_false_iff, !negb_false_iff, bool_decide_eq_true, trusted_worker_owner_true.
  rewrite Z.leb_gt, Z.eqb_neq, Z.eqb_eq, setid_zero. split.
  - intros [((((Ht & Hs) & Ho) & Hx) & Hw & H10 & H11) Hcap]. exists st. split_and!; try done; try apply Hw.
    destruct (fgetxattr_capability d) as [n|[| |m]]; cbn in Hcap; eauto; [|done].
    destruct (Z.eqb_spec n 0); [subst; eauto|done].
  - intros (st' & E & Hs & Hpos & Ht & (Ho & Hw) & Hx & H10 & H11 & Hcap). rewrite Hst in E. simplify_eq.
    split_and!; try done; try apply Hw. by destruct Hcap as [->|[->| ->]].
Qed.

Lemma is_absolute_head path : is_absolute path = true → head (str_bytes path) = Some slash.
Proof.
  destruct path as [|[[] [] [] [] [] [] [] []] path]; vm_compute; done.
Qed.

(** C22: pinning always ends.  For a worker file whose content does not change
    while it is pinned, it succeeds exactly when the configuration is valid,
    the path is absolute and made of plain names, every directory from the root
    down to the file is owned by root or this user and writable by no one else,
    the file is regular, executable, nonempty, owner-controlled, not set-id and
    without capabilities, and its length is that of its content; the pin then
    holds the descriptor that was checked, the path, and the digest of the
    content. *)
Theorem pin_executable_exact c d content :
  openat2_file (str_bytes (executable c)) = Ok d → stable d content → blen content ≤ u64_max →
  ∃ r, pin_executable c = Some r
    ∧ ∀ p, r = Ok p ↔
        validate_common c = Ok tt
        ∧ p = {| pinned_descriptor := d; pinned_path := str_bytes (executable c);
                 pinned_sha256 := sha256_hex content |}
        ∧ (∃ names file, components (str_bytes (executable c)) = RootDir :: (Normal <$> names) ++ [file]
             ∧ file ≠ RootDir ∧ Forall OwnerControlled (descend root_path names))
        ∧ TrustedExecutable d (blen content).
Proof.
  intros Hopen Hs Hmax. unfold pin_executable, open_pinned. set (path := str_bytes (executable c)) in *.
  destruct (validate_common c) as [[]|e] eqn:Hv; [|eexists; split; [done|naive_solver]].
  apply validate_common_iff in Hv as [Habs%is_absolute_head _]. fold path in Habs.
  setoid_rewrite <- (validate_worker_ancestors_Ok path Habs).
  destruct (validate_worker_ancestors path) as [[]|e] eqn:Ha; [|eexists; split; [done|naive_solver]].
  rewrite Hopen. cbn. destruct (fstat d) as [st|e] eqn:Hst; cbn.
  2:{ eexists; split; [done|]. intros p. split; [done|]. intros (_ & _ & _ & st & E & _). congruence. }
  pose proof (executable_checks_Ok path d st Hst) as Hx.
  destruct (validate_worker_file_stat path st _) as [[]|e1]; cbn.
  2:{ eexists; split; [done|]. intros p. split; [done|]. intros (_ & _ & _ & Ht).
      destruct Ht as (st' & E & Hsz & Ht). assert (st' = st) as -> by congruence.
      destruct (proj2 Hx) as [? _]; [|done]. exists st. by rewrite Hsz. }
  destruct (validate_worker_file_capabilities path d) as [[]|e1]; cbn.
  2:{ eexists; split; [done|]. intros p. split; [done|]. intros (_ & _ & _ & Ht).
      destruct Ht as (st' & E & Hsz & Ht). assert (st' = st) as -> by congruence.
      destruct (proj2 Hx) as [_ ?]; [|done]. exists st. by rewrite Hsz. }
  assert (TrustedExecutable d (st_size st)) as Ht by by apply Hx.
  assert (0 < st_size st) as Hpos by by destruct Ht as (st' & _ & _ & ? & _).
  rewrite (proj2 (Z.ltb_ge _ _)) by lia. cbn.
  rewrite (sha256_descriptor_stable d _ _ content) by (done || lia).
  destruct (Z.eqb_spec (st_size st) (blen content)) as [E|E].
  { eexists; split; [done|]. intros p. rewrite <- E. naive_solver. }
  assert (¬ TrustedExecutable d (blen content)) by (intros (st' & E' & ? & _); congruence).
  destruct (blen content <? st_size st); eexists; (split; [done|naive_solver]).
Qed.

(** Two descriptors of one file. *)
Definition SameFile (d d' : D) : Prop :=
  fstat d = fstat d' ∧ ∀ content, stable d content → stable d' content.

Lemma pin_executable_inv c p :
  pin_executable c = Some (Ok p) →
  pinned_path p = str_bytes (executable c) ∧ openat2_file (pinned_path p) = Ok (pinned_descriptor p)
  ∧ ∃ st, fstat (pinned_descriptor p) = Ok st ∧ from_raw_mode (st_mode st) = RegularFile ∧ 0 < st_size st
      ∧ sha256_descriptor (pinned_descriptor p) (st_size st) "pinned WASIX worker" = Some (Ok (pinned_sha256 p)).
Proof.
  unfold pin_executable, open_pinned. destruct (validate_common c); [|done].
  destruct (_ ≫= _) as [[d bytes]|] eqn:E; [|done]. intros Hp. result_inv. destruct x, x2.
  repeat case_match; simplify_eq. cbn. split_and!; [done..|].
  unfold validate_worker_file_stat in *. result_inv. bool_inv. eauto.
Qed.

Lemma pinned_image_digest c p content operation parent cmd k image argv env exe :
  pin_executable c = Some (Ok p) → stable (pinned_descriptor p) content → blen content ≤ u64_max →
  (∀ d d', dup d = Ok d' → SameFile d d') →
  command p operation parent = Ok cmd → pre_exec cmd k = Running image argv env → SameFile image exe →
  argv = [str_bytes (executable c); str_bytes operation] ∧ env = []
  ∧ child_death_signal k = Ok tt ∧ child_parent k = Some parent ∧ child_execveat k image argv env = None
  ∧ SameFile (pinned_descriptor p) exe
  ∧ current_worker_build_sha256 (Ok exe) = Some (Ok (pinned_sha256 p)) ∧ pinned_sha256 p = sha256_hex content.
Proof.
  intros (Hpath & _ & st & Hst & Hreg & Hpos & Hsha)%pin_executable_inv Hs Hmax Hdup Hc Hrun [Hf He].
  unfold command in Hc. result_inv. apply Hdup in H as [Hf' Hs'].
  unfold pre_exec in Hrun. cbn in Hrun. destruct (child_death_signal k) as [[]|] eqn:Hsig; [|done].
  destruct (bool_decide _) eqn:Hpar; [|done]. cbn in Hrun. apply bool_decide_eq_true in Hpar.
  destruct (child_execveat k _ _ _) eqn:Hex; simplify_eq/=.
  assert (st_size st = blen content ∧ pinned_sha256 p = sha256_hex content) as [Hsz Hdig].
  { rewrite (sha256_descriptor_stable _ _ _ content) in Hsha by (done || lia).
    destruct (Z.eqb_spec (st_size st) (blen content)); [naive_solver|by case_match]. }
  rewrite Hpath in *. split_and!; try done.
  - split; [congruence|]. intros l Hl. by apply He, Hs'.
  - unfold current_worker_build_sha256. cbn. rewrite <- Hf, <- Hf', Hst. cbn. rewrite Hreg, bool_decide_eq_true_2 by done.
    rewrite (proj2 (Z.leb_gt _ _)) by lia. cbn.
    rewrite (sha256_descriptor_stable _ _ _ content) by (try (by apply He, Hs'); lia).
    by rewrite Hsz, Z.eqb_refl, Hdig.
Qed.

(** C9: a child spawned from a pinned executable either fails or runs the
    pinned file: the image it executes is the pinned descriptor, with the
    configured path and the operation as its only arguments and an empty
    environment, after it armed its parent-death signal and saw the expected
    parent; the digest that image computes of itself over [/proc/self/exe] is the one
    the parent pinned and compares. *)
Theorem pinned_worker_runs c p content operation parent cmd k image argv env exe :
  pin_executable c = Some (Ok p) → stable (pinned_descriptor p) content → blen content ≤ u64_max →
  (∀ d d', dup d = Ok d' → SameFile d d') →
  command p operation parent = Ok cmd → pre_exec cmd k = Running image argv env → SameFile image exe →
  argv = [str_bytes (executable c); str_bytes operation] ∧ env = []
  ∧ child_death_signal k = Ok tt ∧ child_parent k = Some parent ∧ child_execveat k image argv env = None
  ∧ SameFile (pinned_descriptor p) exe
  ∧ current_worker_build_sha256 (Ok exe) = Some (Ok (pinned_sha256 p)) ∧ pinned_sha256 p = sha256_hex content.
Proof. apply pinned_image_digest. Qed.
End trust.

(** ** A small file system *)

Module WorkerExecutableExample.
Import Toy.

(** A directory or a file by its mode, its owner and its content; reads stop
    after five bytes. *)
Record Node := { mode : Z; owner : Z; content : list byte }.
Definition lookup_node (path : list byte) : result string Node :=
  let dir := {| mode := 0x41ED; owner := 0; content := [] |} in    (* 0o040755 *)
  if bool_decide (path = str_bytes "/") || bool_decide (path = str_bytes "/opt") then Ok dir
  else if bool_decide (path = str_bytes "/opt/worker")
       then Ok {| mode := 0x81ED; owner := 1000; content := str_bytes "worker image" |}   (* 0o100755 *)
       else Err "No such file or directory (os error 2)".

#[export] Instance files : FileCalls Node := {
  openat2_directory := lookup_node;
  openat2_file := lookup_node;
  fstat d := Ok {| st_mode := mode d; st_uid := owner d; st_size := blen (content d) |};
  fgetxattr_capability _ := Err NoData;
  pread d offset n := Ok (take (Z.to_nat (Z.min n 5)) (drop (Z.to_nat offset) (content d)));
  dup d := Ok d;
  geteuid := 1000;
}.

Lemma stable_node d : stable d (content d).
Proof. intros offset n Ho Hn. exists (Z.to_nat (Z.min n 5)). split; [done|lia]. Qed.

Definition config : WasixWorkerConfig := worker_config_new "/opt/worker".
Definition worker : Node := {| mode := 0x81ED; owner := 1000; content := str_bytes "worker image" |}.
Definition pinned : PinnedWorkerExecutable :=
  {| pinned_descriptor := worker; pinned_path := str_bytes "/opt/worker";
     pinned_sha256 := sha256_hex (str_bytes "worker image") |}.
Definition child : @Child Node :=
  {| child_death_signal := Ok tt; child_parent := Some 7; child_execveat _ _ _ := None |}.
Definition probe : WorkerCommand :=
  {| cmd_descriptor := worker; cmd_argv0 := str_bytes "/opt/worker"; cmd_operation := str_bytes "--probe";
     cmd_expected_parent := 7 |}.

Lemma pin_executable_exact_witness :
  pin_executable config = Some (Ok pinned) ∧ OwnerControlled (str_bytes "/opt")
  ∧ TrustedExecutable worker 12.
Proof.
  destruct (pin_executable_exact config worker (content worker)) as (r & Hr & Hp);
    [reflexivity|apply stable_node|vm_compute; discriminate|].
  assert (r = Ok pinned) as -> by (vm_compute in Hr |- *; congruence).
  destruct (proj1 (Hp pinned) eq_refl) as (_ & _ & (names & file & Hc & _ & Hf) & Ht).
  split; [exact Hr|]. split; [|exact Ht].
  change (components _) with (RootDir :: Normal (str_bytes "opt") :: [Normal (str_bytes "worker")]) in Hc.
  injection Hc as Hc. destruct names as [|n [|m l]]; [discriminate| |destruct l; discriminate].
  injection Hc as Hn _. rewrite <- Hn in Hf. exact (Forall_inv (Forall_inv_tail Hf)).
Defined.

Lemma pinned_worker_runs_witness :
  pre_exec probe child = Running worker [str_bytes "/opt/worker"; str_bytes "--probe"] []
  ∧ current_worker_build_sha256 (Ok worker) = Some (Ok (pinned_sha256 pinned)).
Proof.
  split; [reflexivity|].
  eapply (pinned_worker_runs config pinned (content worker) "--probe" 7 probe child worker).
  - vm_compute. reflexivity.
  - apply stable_node.
  - vm_compute. discriminate.
  - intros d d' [= <-]. split; [reflexivity|done].
  - reflexivity.
  - reflexivity.
  - split; [reflexivity|done].
Defined.
End WorkerExecutableExample.
