(* ===== verification/WorkerTests.v ===== *)
(** The unit tests of [src/src/wasix_worker.rs], [wasix_output.rs] and
    [http.rs], run on the model: every test function is a proposition, its
    assertions on the results of the model's operations.  The shell scripts the
    tests start in place of a worker are what they write and how they exit; a
    test that needs no message of the protocol holds for every serialization
    of the messages.  The test of the engine's task pool has no counterpart. *)
From S2P Require Import Prelude Errors Interfaces Streams Types CheckpointCodec WasixOutput Http.
From S2P Require Import WorkerMessages WorkerFrames WorkerProtocol Redaction CheckpointTests WorkerExecutable.

Local Open Scope Z_scope.

(** ** [wasix_output.rs] *)

(** [AsyncWriteExt::write_all] *)
Fixpoint write_all_output (fuel : nat) (s : OutputState) (b : list byte) : OutputState * result io_error unit :=
  match fuel, b with
  | _, [] => (s, Ok tt)
  | O, _ => (s, Err BrokenPipe)
  | S fuel', _ =>
      let? (s, n) := poll_write s b in
      write_all_output fuel' s (drop (Z.to_nat n) b)
  end.
Definition write_text (s : OutputState) (text : string) : OutputState * result io_error unit :=
  write_all_output (String.length text) s (str_bytes text).
Definition failed {E A} (r : result E A) : Prop := match r with Err _ => True | Ok _ => False end.

(** Clones share one state, so the handle that writes and the one that
    finishes are the same state here. *)
Section output.
Let alloc : Allocator := infallible_allocator.
#[local] Existing Instance alloc.

Definition captures_output_at_the_exact_limit : Prop :=
  ∃ s0 s1, output_new 6 = Ok s0 ∧ write_text s0 "424242" = (s1, Ok tt) ∧ finish s1 = Ok (str_bytes "424242").
Definition overflow_is_atomic_and_sticky : Prop :=
  ∃ s0 s1, output_new 6 = Ok s0 ∧ write_text s0 "42" = (s1, Ok tt)
    ∧ (let '(s2, r2) := write_text s1 "42424" in
       let '(s3, r3) := write_text s2 "1" in
       failed r2 ∧ failed r3 ∧ failed (finish s3) ∧ output_bytes s3 = str_bytes "42").
Definition shutdown_closes_all_clones_without_losing_output : Prop :=
  ∃ s0 s1 s2, output_new 6 = Ok s0 ∧ write_text s0 "42" = (s1, Ok tt) ∧ poll_shutdown s1 = (s2, Ok 0)
    ∧ failed (write_text s2 "1").2 ∧ finish (write_text s2 "1").1 = Ok (str_bytes "42").
End output.

(** ** [http.rs] *)

Definition special_addresses : list IpAddr :=
  [V4 0 1 2 3; V4 10 0 0 1; V4 100 64 0 1; V4 127 0 0 1; V4 169 254 1 1; V4 192 0 0 1; V4 192 88 99 1;
   V4 198 18 0 1; V4 203 0 113 1; V4 240 0 0 1; V6 [0; 0; 0; 0; 0; 0; 0; 1]; V6 [0xfc00; 0; 0; 0; 0; 0; 0; 1];
   V6 [0xfe80; 0; 0; 0; 0; 0; 0; 1]; V6 [0x2001; 0xdb8; 0; 0; 0; 0; 0; 1]; V6 [0; 0; 0; 0; 0; 0xffff; 0x7f00; 1]].
Definition public_address_filter_fails_closed_for_special_ranges : Prop :=
  Forall (λ a, is_public_ip a = false) special_addresses
  ∧ is_public_ip (V4 8 8 8 8) = true ∧ is_public_ip (V6 [0x2606; 0x4700; 0x4700; 0; 0; 0; 0; 0x1111]) = true.

(** ** Messages and frames of [wasix_worker.rs] *)

Definition all_ids (id : Z) : Ids := {| real_id := id; effective_id := id; saved_id := id; filesystem_id := id |}.
Definition compatible_for_test : WasixWorkerIsolation := {|
  profile_version := WASIX_WORKER_ISOLATION_PROFILE_VERSION; user_ids := all_ids 65534; group_ids := all_ids 65534;
  supplementary_group_ids := []; has_root_supplementary_group := false; no_new_privileges := true;
  dumpable := false; capability_masks := [0; 0; 0; 0]; core_file_limits := (0, 0);
  file_size_limits := (WASIX_WORKER_MAX_FILE_BYTES, WASIX_WORKER_MAX_FILE_BYTES);
  address_space_limits := (WASIX_WORKER_MAX_ADDRESS_SPACE_BYTES, WASIX_WORKER_MAX_ADDRESS_SPACE_BYTES);
  open_file_limits := (WASIX_WORKER_MAX_OPEN_FILES, WASIX_WORKER_MAX_OPEN_FILES);
  closed_inherited_descriptor_count := 0 |}.

Definition is_unsupported {A} (r : Result A) : Prop := match r with Err (UnsupportedComponent _) => True | _ => False end.
Definition is_execution {A} (r : Result A) : Prop := match r with Err (Execution _) => True | _ => False end.

Section compatibility.
Context `{BuildInfo} (pid : Z).

Definition rejects_each_worker_compatibility_mismatch : Prop :=
  let m := worker_metadata_current compatible_for_test (repeated "4") pid in
  let with_fields v rv c b p :=
    {| protocol_version := v; runtime_version := rv; cohort_id := c; metadata_build_sha256 := b;
       process_id := p; isolation := isolation m |} in
  let validate x := worker_metadata_validate x pid (repeated "4") [] in
  is_unsupported (validate (with_fields (protocol_version m + 1) (runtime_version m) (cohort_id m)
                              (metadata_build_sha256 m) (process_id m)))
  ∧ is_unsupported (validate (with_fields (protocol_version m) (runtime_version m +:+ "-other") (cohort_id m)
                                (metadata_build_sha256 m) (process_id m)))
  ∧ is_unsupported (validate (with_fields (protocol_version m) (runtime_version m) (cohort_id m +:+ "-other")
                                (metadata_build_sha256 m) (process_id m)))
  ∧ is_unsupported (validate (with_fields (protocol_version m) (runtime_version m) (cohort_id m)
                                (repeated "5") (process_id m)))
  ∧ is_execution (validate (with_fields (protocol_version m) (runtime_version m) (cohort_id m)
                              (metadata_build_sha256 m) (Z.min u32_max (pid + 1)))).
End compatibility.

(** The isolation report with one field after the other changed. *)
Definition incompatible : list WasixWorkerIsolation :=
  let c := compatible_for_test in
  let build pv us gs sg root nnp du cap core fsz asz nof := {|
    profile_version := pv; user_ids := us; group_ids := gs; supplementary_group_ids := sg;
    has_root_supplementary_group := root; no_new_privileges := nnp; dumpable := du; capability_masks := cap;
    core_file_limits := core; file_size_limits := fsz; address_space_limits := asz; open_file_limits := nof;
    closed_inherited_descriptor_count := closed_inherited_descriptor_count c |} in
  let pv := profile_version c in let us := user_ids c in let gs := group_ids c in
  let sg := supplementary_group_ids c in let root := has_root_supplementary_group c in
  let nnp := no_new_privileges c in let du := dumpable c in let cap := capability_masks c in
  let core := core_file_limits c in let fsz := file_size_limits c in
  let asz := address_space_limits c in let nof := open_file_limits c in
  let file := WASIX_WORKER_MAX_FILE_BYTES + 1 in
  let space := WASIX_WORKER_MAX_ADDRESS_SPACE_BYTES + 1 in
  [build (pv + 1) us gs sg root nnp du cap core fsz asz nof;
   build pv {| real_id := real_id us; effective_id := 0; saved_id := saved_id us; filesystem_id := filesystem_id us |}
     gs sg root nnp du cap core fsz asz nof;
   build pv us {| real_id := real_id gs; effective_id := effective_id gs; saved_id := 0;
                  filesystem_id := filesystem_id gs |} sg root nnp du cap core fsz asz nof;
   build pv {| real_id := real_id us; effective_id := effective_id us; saved_id := saved_id us; filesystem_id := 123 |}
     gs sg root nnp du cap core fsz asz nof;
   build pv us gs sg true nnp du cap core fsz asz nof;
   build pv us gs [123] root nnp du cap core fsz asz nof;
   build pv us gs sg root false du cap core fsz asz nof;
   build pv us gs sg root nnp true cap core fsz asz nof;
   build pv us gs sg root nnp du (<[0%nat := 1]> cap) core fsz asz nof;
   build pv us gs sg root nnp du cap (1, 1) fsz asz nof;
   build pv us gs sg root nnp du cap core (file, file) asz nof;
   build pv us gs sg root nnp du cap core fsz (space, space) nof;
   build pv us gs sg root nnp du cap core fsz asz (65, 65)].
Definition rejects_each_worker_isolation_mismatch : Prop :=
  Forall (λ i, failed (isolation_validate i [])) incompatible.

Definition bad_frames : list (list byte) :=
  [be_bytes 4 0; be_bytes 4 (MAX_HANDSHAKE_BYTES + 1); be_bytes 4 5 ++ str_bytes "no"].
Definition rejects_zero_oversized_and_truncated_frames : Prop :=
  Forall (λ bytes, is_execution (@read_frame infallible_allocator (cursor bytes))) bad_frames.

Definition worker_diagnostics_are_bounded_and_report_truncation : Prop :=
  ∃ d, @read_worker_diagnostics infallible_allocator
         [Chunk (replicate (Z.to_nat (WASIX_WORKER_MAX_DIAGNOSTIC_BYTES + 1)) "x"%byte)] = Some (Ok d)
    ∧ blen (diagnostic_bytes d) = WASIX_WORKER_MAX_DIAGNOSTIC_BYTES ∧ truncated d = true
    ∧ Forall (λ b, b = "x"%byte) (diagnostic_bytes d).

(** ** Supervised workers *)

(** A shell script in place of the worker: what it writes on both streams,
    and its exit status once it has one. *)
Record Script := { script_stdout : reader; script_stderr : reader; script_status : ExitStatus }.
Definition exits_with (code : Z) (diagnostic : string) : Script := {|
  script_stdout := []; script_stderr := [Chunk (str_bytes diagnostic)];
  script_status := {| status_code := Some code; status_signal := None;
                      status_display := "exit status: " +:+ show code |} |}.
Definition killed_by_sigterm (diagnostic : string) : Script := {|
  script_stdout := []; script_stderr := [Chunk (str_bytes diagnostic)];
  script_status := {| status_code := None; status_signal := Some 15; status_display := "signal: 15 (SIGTERM)" |} |}.
(** The script's output ends at some time. *)
Definition exits_at {X} (d : option Z) (s : X) : Timer X :=
  {| ready_at := d; timer_lag := 0; interrupted_in := s |}.
Definition test_worker (pid : Z) : WorkerProcess := worker_process_new pid (repeated "0").
Definition supervised_binding (instance : string) : WasixCheckpointBinding :=
  unwrap test_binding (binding_new ("sha256:" +:+ repeated "1") (repeated "2") "_start" instance 1).
Definition no_control : Control := {| sent := []; faults := [] |}.
Definition contains (needle text : string) : Prop := String.index 0 needle text ≠ None.

Section supervised.
Context {K : Crypto} {B : BuildInfo} (pid : Z).
Context {JMeta : Json WasixWorkerMetadata} {JRA : Json WasixCheckpointRestoreAck}.
Context {JRC : Json WasixCheckpointRestoreCompletion} {JCA : Json WasixCheckpointCaptureAck}.
Context {JCC : Json WasixCheckpointCaptureCompletion}.
Let alloc : Allocator := infallible_allocator.
#[local] Existing Instance alloc.

Definition premature_restore_input : CheckpointRestoreInput := {|
  ri_control := no_control; ri_open := false; ri_module := None; ri_journal := None;
  ri_expected := {| er_binding := supervised_binding "premature-eof-test"; er_module_bytes := 1;
                    er_module_sha256 := repeated "2"; er_journal_bytes := 1; er_journal_sha256 := repeated "3" |} |}.

(** The worker has exited by the time it is looked at, or does within the
    100 ms: [try_wait] may still find it running.  Its output ends within the
    five seconds of the supervisor. *)
Definition premature_restore_worker_eof_reports_phase_status_and_diagnostics : Prop :=
  let script := exits_with 17 "premature restore EOF diagnostic" in
  ∀ seen d, seen = Ok None ∨ seen = Ok (Some (script_status script)) → d ≤ secs 5 →
  ∃ w i f,
    supervise_checkpoint_restore (test_worker pid) (Ok (script_status script)) [] (script_stdout script) (secs 5)
      premature_restore_input
      {| race_timer := exits_at (Some d) (test_worker pid, premature_restore_input); race_cancel := None |}
      (observe_failed_restore_worker_exit seen (Some (Ok (script_status script))))
      (read_worker_diagnostics (script_stderr script))
    = (w, i, Err (CheckpointRestore f))
    ∧ rf_phase f = RestoreReady ∧ rf_reason f = RestoreProtocol
    ∧ rf_exit_code f = Some 17 ∧ rf_exit_signal f = None
    ∧ diagnostic_bytes (rf_diagnostics f) = str_bytes "premature restore EOF diagnostic"
    ∧ ¬ contains "premature restore EOF diagnostic" (error_display (CheckpointRestore f))
    ∧ fmt (CheckpointRestore f) = fmt (blanked (CheckpointRestore f)).

Definition fake_capture_operation : CheckpointCaptureInput := {|
  ci_control := no_control; ci_open := false; ci_module := None; ci_request := [];
  ci_expected := {| ec_binding := supervised_binding "capture-diagnostics-test"; ec_module_bytes := 1;
                    ec_module_sha256 := repeated "2"; ec_request_bytes := 1; ec_request_sha256 := repeated "3" |} |}.
(** [spawn_fake_capture_worker] and its supervision, with a script whose output
    ends at some time or never; a cancellation that interrupts it leaves the
    worker as it was. *)
Definition supervise_fake_capture (script : Script) (exits cancelled : option Z) (seen : result string (option ExitStatus))
    : WorkerProcess * CheckpointCaptureInput * Result WasixCheckpointCapture :=
  let w := test_worker pid in
  supervise_checkpoint_capture w (Ok (script_status script)) [] (script_stdout script) (secs 5) (secs 5)
    fake_capture_operation (exits_at exits (w, fake_capture_operation)) (exits_at exits (w, fake_capture_operation))
    ((λ d, (d, (w, fake_capture_operation))) <$> cancelled)
    (observe_failed_worker_exit seen (Some (Ok (script_status script))))
    (read_worker_diagnostics (script_stderr script)).

Definition premature_capture_worker_eof_reports_phase_status_and_diagnostics : Prop :=
  let script := exits_with 17 "premature capture EOF diagnostic" in
  ∀ seen d, seen = Ok None ∨ seen = Ok (Some (script_status script)) → d ≤ secs 5 →
  ∃ w i f,
    supervise_fake_capture script (Some d) None seen = (w, i, Err (CheckpointCapture f))
    ∧ cf_phase f = CaptureReady ∧ cf_reason f = CaptureProtocol
    ∧ cf_exit_code f = Some 17 ∧ cf_exit_signal f = None
    ∧ diagnostic_bytes (cf_diagnostics f) = str_bytes "premature capture EOF diagnostic"
    ∧ ¬ contains "premature capture EOF diagnostic" (error_display (CheckpointCapture f))
    ∧ fmt (CheckpointCapture f) = fmt (blanked (CheckpointCapture f)).

Definition signalled_capture_worker_reports_its_termination_signal : Prop :=
  let script := killed_by_sigterm "signalled capture diagnostic" in
  ∀ seen d, seen = Ok None ∨ seen = Ok (Some (script_status script)) → d ≤ secs 5 →
  ∃ w i f,
    supervise_fake_capture script (Some d) None seen = (w, i, Err (CheckpointCapture f))
    ∧ cf_phase f = CaptureReady ∧ cf_exit_code f = None ∧ cf_exit_signal f = Some 15
    ∧ diagnostic_bytes (cf_diagnostics f) = str_bytes "signalled capture diagnostic".

(** [sleep 30], killed by the supervisor. *)
Definition sleeping : Script := {|
  script_stdout := []; script_stderr := [];
  script_status := {| status_code := None; status_signal := Some 9; status_display := "signal: 9 (SIGKILL)" |} |}.
Definition capture_cancellation_kills_and_reaps_the_worker_group : Prop :=
  ∀ seen d, d ≤ secs 5 → ∃ w i, supervise_fake_capture sleeping None (Some d) seen = (w, i, Err Cancelled)
    ∧ group_killed w = true ∧ reaped w = true ∧ wp_process_id w = pid.

Definition working_memfd : MemFd := {|
  memfd_create := Ok tt; memfd_write _ := Ok tt; memfd_rewind := Ok tt; memfd_add_seals := Ok tt;
  memfd_get_seals := Ok true; memfd_fstat l := Ok (true, 0, blen l) |}.
Definition cancelled_checkpoint_preparation_stops_before_transport : Prop :=
  sealed_checkpoint_input working_memfd (λ _, true) (replicate (Z.to_nat (64 * 1024)) x01) = Err Cancelled.
End supervised.

(** ** The pinned executable *)

(** A file system of names and inodes; a descriptor is an inode. *)
Record Inode := { inode_mode : Z; inode_content : list byte }.
Record Files := { names : list (string * nat); inodes : list Inode }.
Definition name_lookup (path : string) (fs : Files) : option nat :=
  snd <$> head (filter (λ e, e.1 = path) (names fs)).
Definition rename_file (from to : string) (fs : Files) : Files :=
  match name_lookup from fs with
  | None => fs
  | Some i => {| names := (to, i) :: filter (λ e, e.1 ≠ from ∧ e.1 ≠ to) (names fs); inodes := inodes fs |}
  end.
(** [std::fs::write]: creates the file or truncates the one the name has. *)
Definition write_file (path : string) (bytes : list byte) (fs : Files) : Files :=
  match name_lookup path fs with
  | Some i => {| names := names fs;
                 inodes := alter (λ n, {| inode_mode := inode_mode n; inode_content := bytes |}) i (inodes fs) |}
  | None => {| names := (path, length (inodes fs)) :: names fs;
               inodes := inodes fs ++ [{| inode_mode := 0x81A4; inode_content := bytes |}] |}    (* 0o100644 *)
  end.
Definition set_permissions (path : string) (mode : Z) (fs : Files) : Files :=
  match name_lookup path fs with
  | Some i => {| names := names fs;
                 inodes := alter (λ n, {| inode_mode := mode; inode_content := inode_content n |}) i (inodes fs) |}
  | None => fs
  end.
Definition file_calls (fs : Files) : FileCalls nat :=
  let open_at (path : list byte) :=
    match name_lookup (path_string path) fs with
    | Some i => Ok i
    | None => Err "No such file or directory (os error 2)"
    end in
  let inode i := match inodes fs !! i with Some n => Ok n | None => Err "Bad file descriptor (os error 9)" end in
  {| openat2_directory := open_at; openat2_file := open_at;
     fstat i := (n ← inode i;
                Ok {| st_mode := inode_mode n; st_uid := 1000; st_size := blen (inode_content n) |});
     fgetxattr_capability _ := Err NoData;
     pread i offset size := (n ← inode i;
                            Ok (take (Z.to_nat size) (drop (Z.to_nat offset) (inode_content n))));
     dup i := Ok i; geteuid := 1000 |}.

Definition directories : Files := {|
  names := [("/", 0%nat); ("/target", 1%nat); ("/target/pinned", 2%nat)];
  inodes := replicate 3 {| inode_mode := 0x41C0; inode_content := [] |} |}.    (* 0o040700 *)
Definition worker_path : string := "/target/pinned/worker".

Definition pinned_worker_survives_path_replacement : Prop :=
  ∀ parent : Z,
  let image := str_bytes "the test executable" in
  let before := set_permissions worker_path 0x81C0 (write_file worker_path image directories) in
  let after := set_permissions worker_path 0x81C0
                 (write_file worker_path (str_bytes "#!/bin/sh exit 99")
                    (rename_file worker_path "/target/pinned/replaced-worker" before)) in
  ∃ pinned cmd i,
    open_pinned (FC := file_calls before) (str_bytes worker_path) = Some (Ok pinned)
    ∧ command (FC := file_calls after) pinned "--list" parent = Ok cmd
    ∧ pre_exec cmd {| child_death_signal := Ok tt; child_parent := Some parent; child_execveat _ _ _ := None |}
      = Running i [str_bytes worker_path; str_bytes "--list"] []
    ∧ inode_content <$> inodes after !! i = Some image
    ∧ name_lookup worker_path after ≠ Some i.

(** ** All pass *)

Local Ltac computed := vm_compute; first [reflexivity | discriminate | exact I | by eexists].
Local Ltac passes :=
  cbv beta zeta;
  lazymatch goal with
  | |- _ ∧ _ => split; [passes|passes]
  | |- ex _ => eexists; passes
  | |- Forall _ [] => constructor
  | |- Forall _ (_ :: _) => apply Forall_cons; split; [passes|passes]
  | |- _ => computed
  end.

Lemma captures_output_at_the_exact_limit_passes : captures_output_at_the_exact_limit.
Proof. unfold captures_output_at_the_exact_limit. passes. Qed.
Lemma overflow_is_atomic_and_sticky_passes : overflow_is_atomic_and_sticky.
Proof. unfold overflow_is_atomic_and_sticky. eexists _, _. repeat (split; [reflexivity|]). vm_compute. done. Qed.
Lemma shutdown_closes_all_clones_without_losing_output_passes : shutdown_closes_all_clones_without_losing_output.
Proof. unfold shutdown_closes_all_clones_without_losing_output. passes. Qed.
Lemma public_address_filter_fails_closed_for_special_ranges_passes : public_address_filter_fails_closed_for_special_ranges.
Proof. unfold public_address_filter_fails_closed_for_special_ranges, special_addresses. passes. Qed.
Lemma append_other s : s +:+ "-other" ≠ s.
Proof. induction s as [|c s IH]; [done|]. by intros [= ?]. Qed.
Lemma rejects_each_worker_compatibility_mismatch_passes `{BuildInfo} pid :
  pid < u32_max → rejects_each_worker_compatibility_mismatch pid.
Proof.
  intros Hp. unfold rejects_each_worker_compatibility_mismatch, worker_metadata_validate, worker_metadata_current.
  cbn -[Z.min u32_max].
  rewrite (bool_decide_eq_true_2 (cargo_pkg_version = cargo_pkg_version)) by done.
  rewrite (bool_decide_eq_false_2 (cargo_pkg_version +:+ "-other" = cargo_pkg_version)) by apply append_other.
  rewrite (proj2 (Z.eqb_neq (Z.min u32_max (pid + 1)) pid)) by lia. done.
Qed.
Lemma rejects_each_worker_isolation_mismatch_passes : rejects_each_worker_isolation_mismatch.
Proof. unfold rejects_each_worker_isolation_mismatch, incompatible. passes. Qed.
Lemma rejects_zero_oversized_and_truncated_frames_passes : rejects_zero_oversized_and_truncated_frames.
Proof. unfold rejects_zero_oversized_and_truncated_frames, bad_frames. passes. Qed.
Lemma worker_diagnostics_are_bounded_and_report_truncation_passes : worker_diagnostics_are_bounded_and_report_truncation.
Proof.
  unfold worker_diagnostics_are_bounded_and_report_truncation.
  set (l := replicate _ _). assert (blen l = WASIX_WORKER_MAX_DIAGNOSTIC_BYTES + 1) as Hl.
  { unfold l, blen. rewrite length_replicate. by vm_compute. }
  eexists. split; [apply worker_diagnostics_exact; [|done]|].
  { apply Forall_singleton. exists l. split; [done|]. intros E. by rewrite E in Hl. }
  cbn [diagnostic_bytes truncated]. rewrite reader_bytes_cons, app_nil_r. cbn [event_bytes]. split_and!.
  - unfold blen in *. rewrite length_take. unfold WASIX_WORKER_MAX_DIAGNOSTIC_BYTES in *. lia.
  - rewrite Hl. by vm_compute.
  - apply Forall_take, Forall_replicate. done.
Qed.

Section supervised_pass.
Context {K : Crypto} {B : BuildInfo} (pid : Z).
Context {JMeta : Json WasixWorkerMetadata} {JRA : Json WasixCheckpointRestoreAck}.
Context {JRC : Json WasixCheckpointRestoreCompletion} {JCA : Json WasixCheckpointCaptureAck}.
Context {JCC : Json WasixCheckpointCaptureCompletion}.

Lemma exits_in_time {X} d (s : X) : d ≤ secs 5 → in_time (secs 5) (exits_at (Some d) s) = true.
Proof. intros Hd. unfold in_time. cbn [ready_at timer_lag exits_at]. apply Z.leb_le. lia. Qed.
Lemma premature_restore_worker_eof_passes :
  premature_restore_worker_eof_reports_phase_status_and_diagnostics pid.
Proof.
  unfold premature_restore_worker_eof_reports_phase_status_and_diagnostics, supervise_checkpoint_restore, raced.
  intros seen d Hseen Hd. cbn [race_timer race_cancel]. rewrite exits_in_time by done.
  destruct Hseen as [-> | ->]; (eexists _, _, _; split; [reflexivity|];
    repeat (split; [reflexivity|]); split; [intros Hc; apply Hc; reflexivity|reflexivity]).
Qed.
Lemma premature_capture_worker_eof_passes :
  premature_capture_worker_eof_reports_phase_status_and_diagnostics pid.
Proof.
  unfold premature_capture_worker_eof_reports_phase_status_and_diagnostics, supervise_fake_capture.
  unfold supervise_checkpoint_capture, perform_checkpoint_capture. cbv zeta. intros seen d Hseen Hd. rewrite exits_in_time by done.
  destruct Hseen as [-> | ->]; (eexists _, _, _; split; [reflexivity|];
    repeat (split; [reflexivity|]); split; [intros Hc; apply Hc; reflexivity|reflexivity]).
Qed.
Lemma signalled_capture_worker_passes : signalled_capture_worker_reports_its_termination_signal pid.
Proof.
  unfold signalled_capture_worker_reports_its_termination_signal, supervise_fake_capture.
  unfold supervise_checkpoint_capture, perform_checkpoint_capture. cbv zeta. intros seen d Hseen Hd. rewrite exits_in_time by done.
  destruct Hseen as [-> | ->]; (eexists _, _, _; repeat (split; [reflexivity|]); reflexivity).
Qed.
Lemma capture_cancellation_passes : capture_cancellation_kills_and_reaps_the_worker_group pid.
Proof.
  unfold capture_cancellation_kills_and_reaps_the_worker_group, supervise_fake_capture.
  unfold supervise_checkpoint_capture, perform_checkpoint_capture. intros seen d Hd. cbn -[Z.leb secs]. rewrite Z.add_0_r.
  rewrite (proj2 (Z.leb_le d (secs 5)) Hd). eexists _, _. repeat (split; [reflexivity|]). reflexivity.
Qed.
End supervised_pass.

Lemma fill_cancelled m on_write i l written :
  l ≠ [] → fill m (λ _, true) on_write i l written = Err Cancelled.
Proof. by destruct l. Qed.
Lemma cancelled_checkpoint_preparation_passes `{Crypto} : cancelled_checkpoint_preparation_stops_before_transport.
Proof.
  unfold cancelled_checkpoint_preparation_stops_before_transport, sealed_checkpoint_input.
  set (l := replicate _ _). assert (blen l = 65536) as Hl.
  { unfold l, blen. rewrite length_replicate. by vm_compute. }
  rewrite Hl. change (u64_max <? 65536) with false. cbn [reject_if map_err mbind result_bind memfd_create working_memfd].
  destruct (WorkerProtocol.chunks _ _ l) eqn:E; [|by rewrite fill_cancelled]. done.
Qed.
Lemma pinned_worker_survives_path_replacement_passes : pinned_worker_survives_path_replacement.
Proof.
  unfold pinned_worker_survives_path_replacement. intros parent. eexists _, _, _. do 2 (split; [computed|]).
  split; [unfold pre_exec; cbn -[bool_decide]; by rewrite bool_decide_eq_true_2|]. passes.
Qed.
