(* ===== verification/WorkerJournal.v ===== *)
(** Guest execution inside an isolated worker and the inspection of Wasmer
    journals ([src/src/wasix_worker.rs]).  Wasmer itself (compilation, the
    journal's record format, the running guest) is an interface.  Theorems:
    which journals a capture and a restore accept, what a finalized capture
    contains, that a captured journal is accepted by the restoring worker, and
    what a successful execution guarantees about the module, the journal, the
    exit code and the captured output. *)
From S2P Require Import Prelude Errors Interfaces Streams Types CheckpointCodec WasixOutput WorkerMessages.
From S2P Require Import WorkerFrames WorkerProtocol.

Local Open Scope Z_scope.

(** ** Wasmer *)

(** The records of a journal this code looks at. *)
Inductive JournalEntry :=
| InitModuleV1 (wasm_hash : list byte)
| SetThreadV1
| SnapshotV1 (explicit : bool)
| OtherEntry.
Record LogRecord := { record : JournalEntry; record_end : Z }.

(** An opened journal: the records [read] returns one after another, and the
    error that ends them, if any. *)
Record LogFileJournal := { lj_records : list LogRecord; lj_error : option string }.

Record BaseTunables := {
  static_memory_bound : Z;                   (* pages *)
  static_memory_offset_guard_size : Z;
  dynamic_memory_offset_guard_size : Z;
}.

(** The environment a guest is spawned in. *)
Inductive MountedJournal := ReadOnlyJournal (j : LogFileJournal) | WritableJournal.
Record GuestBuilder := {
  gb_name : string;
  gb_module_hash : list byte;
  gb_journal : MountedJournal;
  gb_args : list string;
  gb_envs : list (string * string);
  gb_networking : bool;
  gb_http_client : bool;
  gb_skip_stdio_during_bootstrap : bool;
  gb_explicit_snapshot_trigger : bool;
  gb_stop_running_after_snapshot : bool;
}.

(** What spawning the guest and waiting for it does: the outcome of each
    call, the operations on the two output sinks until every task has
    stopped, and the bytes of the writable journal file by then. *)
Record GuestRun := {
  gr_build : result string unit;
  gr_spawn : result string unit;
  gr_join : result string unit;
  gr_wait : result string Z;
  gr_stdout : list output_op;
  gr_stderr : list output_op;
  gr_journal : list byte;
}.

Class Wasmer (M : Type) := {
  module_new : BaseTunables → list byte → result string M;
  module_hash : M → option (list byte);
  journal_from_file : list byte → result string LogFileJournal;
  spawn_exec_module : M → GuestBuilder → GuestRun;
  exit_is_success : Z → bool;
  exit_display : Z → string;
}.

(** ** Reading a sealed file whole *)

Fixpoint read_bytes_loop (fuel : nat) (f : SealedFile) (s : pread_fn) (length offset : Z) (bytes : list byte)
    : option (result string (list byte)) :=
  if offset <? length then
    match fuel with
    | O => None
    | S fuel' =>
        match pread f s offset (length - offset) with
        | Err e => Some (Err ("cannot read sealed restore module: " +:+ e))
        | Ok [] => Some (Err "sealed restore module ended before its acknowledged length")
        | Ok b =>
            match checked_add usize_max offset (blen b) with
            | None => Some (Err "sealed restore module offset overflowed")
            | Some offset => read_bytes_loop fuel' f s length offset (bytes ++ b)
            end
        end
    end
  else Some (Ok bytes).

Definition read_sealed_module_bytes `{Allocator} (f : SealedFile) (s : pread_fn) (module_length : Z)
    : option (result string (list byte)) :=
  match (_ ← reject_if (usize_max <? module_length) "sealed restore module length overflows usize";
         map_err (λ e, "cannot allocate sealed restore module: " +:+ e) (try_reserve_exact module_length)) with
  | Err e => Some (Err e)
  | Ok _ => read_bytes_loop (Z.to_nat module_length) f s module_length 0 []
  end.

(** The value of a loop that ended; the loops here always do. *)
Definition finished {A} (o : option (result string A)) : result string A :=
  match o with Some r => r | None => Err "unfinished" end.

(** ** Journal inspection *)

Record Inspection := { module_records : Z; thread_records : Z; explicit_snapshots : Z; checkpoint_end : option Z }.

Fixpoint inspect_records (expected : list byte) (l : list LogRecord) (i : Inspection) : result string Inspection :=
  match l with
  | [] => Ok i
  | r :: l' =>
      i ← (match record r with
           | InitModuleV1 wasm_hash =>
               _ ← reject_if (negb (bool_decide (wasm_hash = expected)))
                     "capture journal module hash does not match the module";
               Ok {| module_records := saturating_add u32_max (module_records i) 1;
                     thread_records := thread_records i; explicit_snapshots := explicit_snapshots i;
                     checkpoint_end := checkpoint_end i |}
           | SetThreadV1 =>
               Ok {| module_records := module_records i;
                     thread_records := saturating_add u32_max (thread_records i) 1;
                     explicit_snapshots := explicit_snapshots i; checkpoint_end := checkpoint_end i |}
           | SnapshotV1 true =>
               Ok {| module_records := module_records i; thread_records := thread_records i;
                     explicit_snapshots := saturating_add u32_max (explicit_snapshots i) 1;
                     checkpoint_end := Some (record_end r) |}
           | _ => Ok i
           end);
      inspect_records expected l' i
  end.

Fixpoint count_module_records (module_hash : list byte) (l : list LogRecord) (n : Z) : result string Z :=
  match l with
  | [] => Ok n
  | r :: l' =>
      n ← (match record r with
           | InitModuleV1 wasm_hash =>
               _ ← reject_if (negb (bool_decide (wasm_hash = module_hash)))
                     "restore journal module hash does not match the sealed module";
               ok_or (checked_add u32_max n 1) "restore journal module record count overflowed"
           | _ => Ok n
           end);
      count_module_records module_hash l' n
  end.

(** [read] at the end of the records. *)
Definition records_end (j : LogFileJournal) (what : string) : result string unit :=
  match lj_error j with Some e => Err (what +:+ e) | None => Ok tt end.

Section execution.
Context {K : Crypto} {A : Allocator} {M : Type} {WM : Wasmer M}.

Definition inspect_captured_journal (try_clone : result string unit) (journal : list byte) (expected : list byte)
    : result string Z :=
  _ ← map_err (λ e, "cannot clone completed capture journal: " +:+ e) try_clone;
  inspection ← map_err (λ e, "cannot inspect completed capture journal: " +:+ e) (journal_from_file journal);
  i ← inspect_records expected (lj_records inspection)
        {| module_records := 0; thread_records := 0; explicit_snapshots := 0; checkpoint_end := None |};
  _ ← records_end inspection "cannot decode completed capture journal: ";
  _ ← reject_if (negb (module_records i =? 1) || (thread_records i =? 0) || negb (explicit_snapshots i =? 1))
        "capture journal is missing required explicit snapshot state";
  ok_or (checkpoint_end i) "capture journal has no explicit snapshot boundary".

Definition checked_restore_journal (try_clone : result string unit) (journal : SealedFile) (module_hash : list byte)
    : result string LogFileJournal :=
  _ ← map_err (λ e, "cannot clone sealed restore journal: " +:+ e) try_clone;
  inspection ← map_err (λ e, "cannot open sealed restore journal: " +:+ e) (journal_from_file (sf_bytes journal));
  n ← count_module_records module_hash (lj_records inspection) 0;
  _ ← records_end inspection "cannot inspect sealed restore journal: ";
  _ ← reject_if (negb (n =? 1))
        ("restore journal contains " +:+ show n +:+ " module initialization records");
  map_err (λ e, "cannot reopen sealed restore journal: " +:+ e) (journal_from_file (sf_bytes journal)).

(** The kernel's answers about the capture journal file, a memfd. *)
Record CaptureFile := {
  cf_create : result string unit;
  cf_clone : result string unit;
  cf_inspection_clone : result string unit;
  cf_set_len : result string unit;
  cf_add_seals : result string unit;
  cf_ops : FdOps;
}.

Definition create_capture_journal_file (c : CaptureFile) : result string SealedFile :=
  _ ← map_err (λ e, "cannot create capture journal memfd: " +:+ e) (cf_create c);
  Ok {| sf_bytes := []; sf_sealed := false; sf_regular := true; sf_nlink := 0 |}.

(** [File::set_len]: cuts the file or extends it with zeros. *)
Definition set_len (n : Z) (f : SealedFile) : SealedFile :=
  {| sf_bytes := resize (Z.to_nat n) x00 (sf_bytes f); sf_sealed := sf_sealed f; sf_regular := sf_regular f;
     sf_nlink := sf_nlink f |}.
Definition add_seals (f : SealedFile) : SealedFile :=
  {| sf_bytes := sf_bytes f; sf_sealed := true; sf_regular := sf_regular f; sf_nlink := sf_nlink f |}.

Definition finalize_capture_journal (c : CaptureFile) (journal_file : SealedFile) (expected : list byte)
    : result string (list byte) :=
  checkpoint_end ← inspect_captured_journal (cf_inspection_clone c) (sf_bytes journal_file) expected;
  _ ← map_err (λ e, "cannot truncate capture journal prefix: " +:+ e) (cf_set_len c);
  let journal_file := set_len checkpoint_end journal_file in
  _ ← map_err (λ e, "cannot seal capture journal: " +:+ e) (cf_add_seals c);
  let journal_file := add_seals journal_file in
  accepted ← finished (inspect_sealed_worker_input journal_file (cf_ops c) WASIX_WORKER_MAX_CHECKPOINT_BYTES
                         "capture journal");
  finished (read_sealed_module_bytes journal_file (fd_pread (cf_ops c)) (sw_bytes accepted)).

(** ** Running the guest *)

Definition bounded_wasix_worker_engine : BaseTunables :=
  {| static_memory_bound := 4096; static_memory_offset_guard_size := 64 * 1024;
     dynamic_memory_offset_guard_size := 64 * 1024 |}.

(** [Display] of the sink's I/O errors. *)
Definition io_message (e : io_error) : string :=
  match e with FsUnsupported => "unsupported" | BrokenPipe => "broken pipe" | OutOfMemory m | OtherIo m => m end.

(** The module both operations run: read, compiled by the bounded engine,
    and its content hash. *)
Definition sealed_module (what : string) (s : pread_fn) (module : SealedFile) (module_length : Z)
    : result string (M * list byte) :=
  bytes ← finished (read_sealed_module_bytes module s module_length);
  m ← map_err (λ e, "cannot compile sealed " +:+ what +:+ " module: " +:+ e)
        (module_new bounded_wasix_worker_engine bytes);
  hash ← ok_or (module_hash m) ("compiled " +:+ what +:+ " module has no content hash");
  Ok (m, hash).

(** The names of an operation in its messages. *)
Record Wording := { wd_what : string; wd_process : string; wd_out : string; wd_err : string }.
Definition restore_wording : Wording :=
  {| wd_what := "restore"; wd_process := "restored WASIX process"; wd_out := "restore output";
     wd_err := "restore error output" |}.
Definition capture_wording : Wording :=
  {| wd_what := "capture"; wd_process := "WASIX capture process"; wd_out := "capture stdout";
     wd_err := "capture stderr" |}.

(** From the Tokio runtime to the end of the guest: the sinks are allocated,
    the guest runs and writes to them, and every task is joined before they are
    looked at again. *)
Definition run_guest (wd : Wording) (tokio : result string unit) (run : GuestRun)
    : result string (Z * OutputState * OutputState) :=
  _ ← map_err (λ e, "cannot initialize WASIX " +:+ wd_what wd +:+ " runtime: " +:+ e) tokio;
  stdout ← map_err (λ e, "cannot allocate bounded " +:+ wd_out wd +:+ ": " +:+ io_message e)
             (output_new WASIX_WORKER_MAX_RESTORE_OUTPUT_BYTES);
  stderr ← map_err (λ e, "cannot allocate bounded " +:+ wd_err wd +:+ ": " +:+ io_message e)
             (output_new WASIX_WORKER_MAX_RESTORE_OUTPUT_BYTES);
  _ ← map_err (λ e, "cannot build WASIX " +:+ wd_what wd +:+ " environment: " +:+ e) (gr_build run);
  _ ← map_err (λ e, "cannot spawn " +:+ wd_process wd +:+ ": " +:+ e) (gr_spawn run);
  _ ← map_err (λ e, "cannot join " +:+ wd_process wd +:+ ": " +:+ e) (gr_join run);
  exit_code ← map_err (λ e, wd_process wd +:+ " failed: " +:+ e) (gr_wait run);
  _ ← reject_if (negb (exit_is_success exit_code)) (wd_process wd +:+ " exited with " +:+ exit_display exit_code);
  Ok (exit_code, (output_run stdout (gr_stdout run)).1, (output_run stderr (gr_stderr run)).1).

Definition finish_outputs (wd : Wording) (stdout stderr : OutputState) : result string (list byte * list byte) :=
  captured_stdout ← map_err (λ e, "cannot finish bounded " +:+ wd_out wd +:+ ": " +:+ io_message e) (finish stdout);
  captured_stderr ← map_err (λ e, "cannot finish bounded " +:+ wd_err wd +:+ ": " +:+ io_message e) (finish stderr);
  Ok (captured_stdout, captured_stderr).

Definition restore_builder (hash : list byte) (journal : LogFileJournal) : GuestBuilder :=
  {| gb_name := "restored-checkpoint"; gb_module_hash := hash; gb_journal := ReadOnlyJournal journal; gb_args := [];
     gb_envs := []; gb_networking := false; gb_http_client := false; gb_skip_stdio_during_bootstrap := true;
     gb_explicit_snapshot_trigger := false; gb_stop_running_after_snapshot := false |}.

Definition execute_wasix_checkpoint_restore (s : pread_fn) (try_clone tokio : result string unit)
    (module : SealedFile) (module_length : Z) (journal : SealedFile) : result string ExecutedCheckpointRestore :=
  '(m, hash) ← sealed_module "restore" s module module_length;
  journal ← checked_restore_journal try_clone journal hash;
  '(exit_code, stdout, stderr) ← run_guest restore_wording tokio
                                   (spawn_exec_module m (restore_builder hash journal));
  '(captured_stdout, captured_stderr) ← finish_outputs restore_wording stdout stderr;
  Ok {| xr_exit_code := exit_code; xr_stdout := captured_stdout; xr_stderr := captured_stderr |}.

Definition capture_builder (hash : list byte) (request : WasixCheckpointCaptureRequest) : GuestBuilder :=
  {| gb_name := "checkpoint-source"; gb_module_hash := hash; gb_journal := WritableJournal;
     gb_args := arguments request; gb_envs := environment request; gb_networking := false;
     gb_http_client := false; gb_skip_stdio_during_bootstrap := true; gb_explicit_snapshot_trigger := true;
     gb_stop_running_after_snapshot := true |}.

Definition execute_wasix_checkpoint_capture (s : pread_fn) (c : CaptureFile) (tokio : result string unit)
    (module : SealedFile) (module_length : Z) (request : WasixCheckpointCaptureRequest)
    : result string ExecutedCheckpointCapture :=
  '(m, hash) ← sealed_module "capture" s module module_length;
  journal_file ← create_capture_journal_file c;
  _ ← map_err (λ e, "cannot clone capture journal memfd: " +:+ e) (cf_clone c);
  _ ← map_err (λ e, "cannot open capture journal: " +:+ e) (journal_from_file (sf_bytes journal_file));
  let run := spawn_exec_module m (capture_builder hash request) in
  '(exit_code, stdout, stderr) ← run_guest capture_wording tokio run;
  let journal_file := {| sf_bytes := gr_journal run; sf_sealed := sf_sealed journal_file;
                         sf_regular := sf_regular journal_file; sf_nlink := sf_nlink journal_file |} in
  '(captured_stdout, captured_stderr) ← finish_outputs capture_wording stdout stderr;
  captured_journal ← finalize_capture_journal c journal_file hash;
  Ok {| xc_exit_code := exit_code; xc_journal := captured_journal; xc_stdout := captured_stdout;
        xc_stderr := captured_stderr |}.
End execution.

(** ** The records a journal holds *)

(** The hashes of its module records, its thread records, and the ends of its
    explicit snapshots. *)
Definition inits (l : list LogRecord) : list (list byte) :=
  omap (λ r, match record r with InitModuleV1 h => Some h | _ => None end) l.
Definition threads (l : list LogRecord) : list unit :=
  omap (λ r, match record r with SetThreadV1 => Some tt | _ => None end) l.
Definition snapshots (l : list LogRecord) : list Z :=
  omap (λ r, match record r with SnapshotV1 true => Some (record_end r) | _ => None end) l.

Definition counted (i : Inspection) : Prop :=
  0 ≤ module_records i ≤ u32_max ∧ 0 ≤ thread_records i ≤ u32_max ∧ 0 ≤ explicit_snapshots i ≤ u32_max.

Lemma saturating_add_blen {X} (n : Z) (x : X) (l : list X) :
  saturating_add u32_max (saturating_add u32_max n 1) (blen l) = saturating_add u32_max n (blen (x :: l)).
Proof. unfold saturating_add, blen. cbn [length]. lia. Qed.

Lemma saturating_add_nil {X} n : 0 ≤ n ≤ u32_max → saturating_add u32_max n (blen (@nil X)) = n.
Proof. unfold saturating_add, blen. cbn. lia. Qed.

(** The loop counts the records of each kind, saturating, and keeps the end of
    the last snapshot; it stops at the first foreign module. *)
Lemma inspect_records_spec expected l i :
  counted i →
  inspect_records expected l i =
  (if forallb (λ h, bool_decide (h = expected)) (inits l)
   then Ok {| module_records := saturating_add u32_max (module_records i) (blen (inits l));
              thread_records := saturating_add u32_max (thread_records i) (blen (threads l));
              explicit_snapshots := saturating_add u32_max (explicit_snapshots i) (blen (snapshots l));
              checkpoint_end := match last (snapshots l) with Some e => Some e | None => checkpoint_end i end |}
   else Err "capture journal module hash does not match the module").
Proof.
  revert i. induction l as [|[e z] l IH]; intros i (Hm & Ht & Hs); cbn [inspect_records].
  { cbn. rewrite !saturating_add_nil by done. by destruct i. }
  unfold inits, threads, snapshots in *. cbn [omap list_omap record record_end].
  destruct e as [h| |[]|]; cbn [forallb].
  - destruct (bool_decide (h = expected)); cbn; [|done]. rewrite IH by (unfold counted, saturating_add; cbn; lia).
    cbn. by rewrite <- saturating_add_blen.
  - cbn. rewrite IH by (unfold counted, saturating_add; cbn; lia). cbn. by rewrite <- saturating_add_blen.
  - cbn. rewrite IH by (unfold counted, saturating_add; cbn; lia). cbn. rewrite <- saturating_add_blen.
    rewrite last_cons. by destruct (last _).
  - cbn. by apply IH.
  - cbn. by apply IH.
Qed.

Lemma count_module_records_Ok hash l n m :
  0 ≤ n ≤ u32_max →
  count_module_records hash l n = Ok m ↔
  Forall (eq hash) (inits l) ∧ m = n + blen (inits l) ∧ m ≤ u32_max.
Proof.
  revert n. induction l as [|[e z] l IH]; intros n Hn; cbn [count_module_records record].
  { cbn. unfold blen. cbn. split; [intros [= <-]|]; [split_and!; [constructor|lia..]|].
    intros (_ & -> & _). by rewrite Z.add_0_r. }
  unfold inits in *. cbn [omap list_omap record]. destruct e as [h| |b|]; cbn [mbind result_bind];
    try (by apply IH).
  rewrite Forall_cons. destruct (bool_decide_reflect (h = hash)) as [->|Hne]; cbn [negb reject_if mbind result_bind].
  2:{ split; [done|]. intros ([? _] & _). congruence. }
  destruct (checked_add u32_max n 1) as [k|] eqn:Hc; cbn [ok_or mbind result_bind].
  - apply checked_add_Some in Hc as [-> Hc]. rewrite IH by lia. unfold blen. cbn [length]. split; intros; split_and!; try tauto; lia.
  - apply checked_add_None in Hc. split; [done|]. unfold blen. cbn [length]. intros (_ & -> & ?). lia.
Qed.

Lemma singleton_of_blen {X} (x : X) (l : list X) :
  Forall (eq x) l → blen l = 1 → l = [x].
Proof.
  intros Hf. destruct l as [|y [|z l]]; unfold blen; cbn [length]; [lia| |lia]. intros _.
  by inversion_clear Hf; subst.
Qed.

(** ** What the inspections accept *)

Section inspection.
Context {M : Type} {WM : Wasmer M}.

Lemma records_end_Ok j what : records_end j what = Ok tt ↔ lj_error j = None.
Proof. unfold records_end. by destruct (lj_error j). Qed.

(** A journal is a complete capture of a module exactly when it decodes to the
    end and holds one module record, of that module, at least one thread and
    one explicit snapshot. *)
Definition CompleteCapture (j : LogFileJournal) (expected : list byte) (e : Z) : Prop :=
  lj_error j = None ∧ inits (lj_records j) = [expected] ∧ threads (lj_records j) ≠ []
  ∧ snapshots (lj_records j) = [e].

Lemma forallb_eq (h : list byte) l : forallb (λ x, bool_decide (x = h)) l = true ↔ Forall (eq h) l.
Proof.
  rewrite forallb_forall, Forall_forall. setoid_rewrite bool_decide_eq_true.
  setoid_rewrite list_elem_of_In. split; intros Hx x Hin; symmetry; auto.
Qed.

Lemma inspect_captured_journal_iff try_clone journal expected e :
  inspect_captured_journal try_clone journal expected = Ok e ↔
  try_clone = Ok tt ∧ ∃ j, journal_from_file journal = Ok j ∧ CompleteCapture j expected e.
Proof.
  unfold inspect_captured_journal, CompleteCapture.
  destruct try_clone as [[]|]; cbn [map_err mbind result_bind]; [|naive_solver].
  destruct (journal_from_file journal) as [j|]; cbn [map_err mbind result_bind]; [|naive_solver].
  rewrite inspect_records_spec by (unfold counted, u32_max; cbn; lia). cbn [module_records thread_records
    explicit_snapshots checkpoint_end]. set (l := lj_records j).
  transitivity (lj_error j = None ∧ inits l = [expected] ∧ threads l ≠ [] ∧ snapshots l = [e]);
    [|naive_solver].
  destruct (forallb _ (inits l)) eqn:Hf; cbn [mbind result_bind].
  2:{ split; [done|]. intros (_ & Hi & _). rewrite Hi in Hf. cbn in Hf. by rewrite bool_decide_eq_true_2 in Hf. }
  apply forallb_eq in Hf. rewrite bind_Ok. setoid_rewrite (reject_bind_Ok _ _ _ e).
  cbn [module_records thread_records explicit_snapshots checkpoint_end]. split.
  - intros ([] & Hend%records_end_Ok & Hr & Hlast). bool_inv. unfold saturating_add, u32_max in *.
    destruct (snapshots l) as [|z [|z' r]] eqn:Es; unfold blen in *; cbn in *; [lia| |lia].
    injection Hlast as <-. split_and!; [done| |by intros E; rewrite E in *; cbn in *; lia|done].
    apply singleton_of_blen; [done|unfold blen; lia].
  - intros (Hend & Hi & Ht & Hs). exists tt. rewrite records_end_Ok, Hi, Hs. split_and!; [done| |done].
    destruct (threads l) as [|[] r] eqn:Et; [done|].
    rewrite !orb_false_iff, !negb_false_iff, Z.eqb_neq, !Z.eqb_eq. unfold saturating_add, blen, u32_max. cbn. lia.
Qed.

Lemma checked_restore_journal_iff try_clone journal hash j :
  checked_restore_journal try_clone journal hash = Ok j ↔
  try_clone = Ok tt ∧ journal_from_file (sf_bytes journal) = Ok j
  ∧ lj_error j = None ∧ inits (lj_records j) = [hash].
Proof.
  unfold checked_restore_journal. destruct try_clone as [[]|]; cbn [map_err mbind result_bind]; [|naive_solver].
  destruct (journal_from_file (sf_bytes journal)) as [j'|]; cbn [map_err mbind result_bind]; [|naive_solver].
  split.
  - intros Hc. result_inv. rewrite count_module_records_Ok in * by (unfold u32_max; lia). destruct_and!. bool_inv.
    split_and!; [done|done| |].
    + match goal with H : records_end _ _ = Ok ?x |- _ => destruct x; by apply records_end_Ok in H end.
    + apply singleton_of_blen; [done|lia].
  - intros (_ & [= ->] & Hend & Hi).
    assert (count_module_records hash (lj_records j) 0 = Ok 1) as ->.
    { apply count_module_records_Ok; rewrite ?Hi; unfold u32_max, blen; cbn; [lia|].
      split_and!; [by constructor|lia..]. }
    cbn [mbind result_bind]. by rewrite (proj2 (records_end_Ok _ _) Hend).
Qed.
End inspection.

(** ** Reading back a sealed file *)

Section reading_back.
Context {A : Allocator}.

Lemma pread_progress f s offset n b :
  pread f s offset n = Ok b → b = take (length b) (drop (Z.to_nat offset) (sf_bytes f)).
Proof.
  unfold pread. intros Hp. result_inv. rewrite length_take, length_drop.
  set (d := drop _ _). assert (length d = (length (sf_bytes f) - Z.to_nat offset)%nat) as <- by apply length_drop.
  set (k := Z.to_nat _). destruct (decide (k ≤ length d)%nat); [by rewrite Nat.min_l by lia|].
  by rewrite Nat.min_r, !take_ge by lia.
Qed.

(** A nonempty read advances, so the length bounds the rounds. *)
Lemma read_bytes_loop_total fuel f s n offset bytes :
  (Z.to_nat (n - offset) ≤ fuel)%nat → is_Some (read_bytes_loop fuel f s n offset bytes).
Proof.
  revert offset bytes. induction fuel as [|fuel IH]; intros offset bytes Hf; cbn [read_bytes_loop];
    destruct (Z.ltb_spec offset n); eauto; [lia|].
  destruct (pread _ _ _ _) as [[|x b]|]; [eauto| |eauto].
  destruct (checked_add _ _ _) as [o|] eqn:Hc; [|eauto]. apply checked_add_Some in Hc as [-> _].
  apply IH. unfold blen. cbn [length]. lia.
Qed.

Lemma read_sealed_module_bytes_total f s n : is_Some (read_sealed_module_bytes f s n).
Proof. unfold read_sealed_module_bytes. case_match; [apply read_bytes_loop_total; lia|eauto]. Qed.

Lemma read_bytes_loop_Ok fuel f s offset bytes b :
  0 ≤ offset ≤ blen (sf_bytes f) → bytes = take (Z.to_nat offset) (sf_bytes f) →
  read_bytes_loop fuel f s (blen (sf_bytes f)) offset bytes = Some (Ok b) → b = sf_bytes f.
Proof.
  revert offset bytes. induction fuel as [|fuel IH]; intros offset bytes Ho Hb Hl; cbn [read_bytes_loop] in Hl;
    destruct (Z.ltb_spec offset (blen (sf_bytes f))); try done;
    try (simplify_eq; rewrite take_ge; [done|unfold blen in *; lia]).
  destruct (pread _ _ _ _) as [[|x p]|] eqn:Hp; try done. apply pread_progress in Hp.
  destruct (checked_add _ _ _) as [o|] eqn:Hc; [|done]. apply checked_add_Some in Hc as [-> _].
  assert (length (x :: p) ≤ length (sf_bytes f) - Z.to_nat offset)%nat.
  { rewrite Hp, length_take, length_drop. lia. }
  eapply IH; [| |exact Hl]; [unfold blen in *; lia|].
  rewrite Hp at 1. rewrite Hb, take_take_drop. f_equal. unfold blen. lia.
Qed.

Lemma read_sealed_module_bytes_Ok f s b :
  read_sealed_module_bytes f s (blen (sf_bytes f)) = Some (Ok b) → b = sf_bytes f.
Proof.
  unfold read_sealed_module_bytes. case_match; [|done]. intros Hl.
  eapply read_bytes_loop_Ok; [|done|exact Hl]. pose proof (blen_nonneg (sf_bytes f)). lia.
Qed.

Lemma finished_Ok {X} (o : option (result string X)) x : finished o = Ok x → o = Some (Ok x).
Proof. destruct o as [r|]; cbn; congruence. Qed.
End reading_back.

(** ** Captured journals *)

(** What is relied on of Wasmer: exit code zero is success, and a journal is a log whose records end
    inside the file, so that the file cut after one of them holds the records
    up to it. *)
Class WasmerLaws {M} (WM : Wasmer M) : Prop := {
  exit_success_zero n : exit_is_success n = true ↔ n = 0;
  journal_prefix b j l1 r l2 :
    journal_from_file b = Ok j → lj_records j = l1 ++ r :: l2 →
    0 ≤ record_end r ≤ blen b
    ∧ journal_from_file (take (Z.to_nat (record_end r)) b) = Ok {| lj_records := l1 ++ [r]; lj_error := None |};
}.

Section captured.
Context {K : Crypto} {A : Allocator} {M : Type} {WM : Wasmer M}.

(** The sealed file holds the journal up to the snapshot, cut or filled with
    zeros to its recorded end. *)
Lemma finalize_Ok c f expected b :
  finalize_capture_journal c f expected = Ok b →
  ∃ e, inspect_captured_journal (cf_inspection_clone c) (sf_bytes f) expected = Ok e
    ∧ b = resize (Z.to_nat e) x00 (sf_bytes f) ∧ 0 < blen b ≤ WASIX_WORKER_MAX_CHECKPOINT_BYTES.
Proof.
  unfold finalize_capture_journal. intros Hf. apply bind_Ok in Hf as (e & He & Hf). exists e. split; [done|].
  do 2 (apply bind_Ok in Hf as (? & _ & Hf); cbn beta zeta in Hf).
  apply bind_Ok in Hf as (a & Ha%finished_Ok & Hb%finished_Ok).
  apply inspect_Ok in Ha as (E & _ & Hlen & _). rewrite E in Hb. apply read_sealed_module_bytes_Ok in Hb as ->.
  by cbn [add_seals set_len sf_bytes] in *.
Qed.

Lemma omap_singleton_split {X Y} (f : X → option Y) (l : list X) y :
  omap f l = [y] → ∃ l1 x l2, l = l1 ++ x :: l2 ∧ f x = Some y ∧ omap f l1 = [] ∧ omap f l2 = [].
Proof.
  induction l as [|x l IH]; cbn; [done|]. destruct (f x) as [z|] eqn:Hx.
  - intros [= -> Hl]. by exists [], x, l.
  - intros (l1 & x' & l2 & -> & Hf & H1 & H2)%IH. exists (x :: l1), x', l2. cbn. by rewrite Hx, H1.
Qed.

Context {WL : WasmerLaws WM}.

(** C21: a finalized capture is the journal up to and including its only
    explicit snapshot, nothing of it lost and nothing after it kept, and fits
    a checkpoint.  The restoring worker, given those bytes and the same module,
    opens exactly the records up to the snapshot, and accepts them if and only
    if the module record precedes the snapshot. *)
Theorem captured_journal_restores c f expected b :
  finalize_capture_journal c f expected = Ok b →
  ∃ j l1 r l2, journal_from_file (sf_bytes f) = Ok j ∧ lj_records j = l1 ++ r :: l2
    ∧ record r = SnapshotV1 true ∧ snapshots l1 = [] ∧ snapshots l2 = []
    ∧ b = take (Z.to_nat (record_end r)) (sf_bytes f) ∧ blen b = record_end r
    ∧ 0 < blen b ≤ WASIX_WORKER_MAX_CHECKPOINT_BYTES
    ∧ ∀ sealed restored, sf_bytes sealed = b →
        checked_restore_journal (Ok tt) sealed expected = Ok restored ↔
        restored = {| lj_records := l1 ++ [r]; lj_error := None |} ∧ inits l1 = [expected].
Proof using WL.
  intros (e & (_ & j & Hj & Hend & Hi & Ht & Hs)%inspect_captured_journal_iff & Hb & Hlen)%finalize_Ok.
  apply omap_singleton_split in Hs as (l1 & r & l2 & Hl & Hr & H1 & H2).
  destruct (record r) as [| |[]|] eqn:Er; try done. injection Hr as <-.
  destruct (journal_prefix _ _ _ _ _ Hj Hl) as [Hrange Hprefix].
  assert (b = take (Z.to_nat (record_end r)) (sf_bytes f)) as Hcut.
  { rewrite Hb, resize_le by (unfold blen in *; lia). done. }
  exists j, l1, r, l2. split_and!; try done.
  - rewrite Hcut. unfold blen in *. rewrite length_take. lia.
  - lia.
  - lia.
  - intros f' restored Hf'. rewrite checked_restore_journal_iff, Hf', Hcut, Hprefix.
    assert (inits (l1 ++ [r]) = inits l1) as Ei.
    { unfold inits. rewrite omap_app. cbn. rewrite Er. by rewrite app_nil_r. }
    split; [intros (_ & [= <-] & _ & E)|intros [-> E]]; cbn [lj_records] in *; rewrite Ei in *; done.
Qed.
End captured.

(** ** Executions *)

Section executed.
Context {K : Crypto} {A : Allocator} {M : Type} {WM : Wasmer M} {WL : WasmerLaws WM}.

(** The sink took every write of these operations and [b] is what they wrote. *)
Definition Delivered (ops : list output_op) (b : list byte) : Prop :=
  ∃ s0, output_new WASIX_WORKER_MAX_RESTORE_OUTPUT_BYTES = Ok s0
    ∧ b = accepted_bytes ops (output_run s0 ops).2
    ∧ Forall (λ r, ¬ overflow_reported WASIX_WORKER_MAX_RESTORE_OUTPUT_BYTES r) (output_run s0 ops).2
    ∧ blen b ≤ WASIX_WORKER_MAX_RESTORE_OUTPUT_BYTES.

Lemma finish_Ok s0 ops b :
  output_new WASIX_WORKER_MAX_RESTORE_OUTPUT_BYTES = Ok s0 → finish (output_run s0 ops).1 = Ok b → Delivered ops b.
Proof.
  intros Hnew Hf. exists s0. split; [done|]. unfold output_new in Hnew. unfold finish in Hf. result_inv.
  set (s0 := {| output_bytes := []; limit := _; overflowed := false; closed := false |}) in *.
  assert (OutputOk s0) as Hok by (split; unfold blen, s0; cbn; by vm_compute).
  pose proof (output_run_ok s0 ops Hok) as Hrun. destruct (output_run s0 ops) as [s rs].
  destruct Hrun as ([Hlim _] & Hl & Hb & Ho). cbn [fst snd] in *. split_and!; [done| |].
  - apply Forall_Exists_neg. intros Hex. assert (overflowed s = true) by (apply Ho; by right). congruence.
  - rewrite Hl in Hlim. done.
Qed.

Lemma run_guest_Ok wd tokio run n out err a b :
  run_guest wd tokio run = Ok (n, out, err) → finish_outputs wd out err = Ok (a, b) →
  gr_wait run = Ok n ∧ n = 0 ∧ Delivered (gr_stdout run) a ∧ Delivered (gr_stderr run) b.
Proof using WL.
  unfold run_guest, finish_outputs. intros Hr Hf. result_inv.
  match goal with Hx : negb (exit_is_success _) = false |- _ =>
    apply negb_false_iff, exit_success_zero in Hx end.
  split_and!; eauto using finish_Ok.
Qed.

Lemma sealed_module_Ok what s module m hash :
  sealed_module what s module (blen (sf_bytes module)) = Ok (m, hash) →
  module_new bounded_wasix_worker_engine (sf_bytes module) = Ok m ∧ module_hash m = Some hash.
Proof.
  unfold sealed_module. intros Hs. apply bind_Ok in Hs as (b & Hb%finished_Ok%read_sealed_module_bytes_Ok & Hs).
  subst. by result_inv.
Qed.

(** A restore that reports success: what ran, on what, and how it ended. *)
Record RestoredRun (module journal : SealedFile) (x : ExecutedCheckpointRestore) : Prop := {
  rr_run : ∃ m hash j, module_new bounded_wasix_worker_engine (sf_bytes module) = Ok m
    ∧ module_hash m = Some hash
    ∧ journal_from_file (sf_bytes journal) = Ok j ∧ lj_error j = None ∧ inits (lj_records j) = [hash]
    ∧ gr_wait (spawn_exec_module m (restore_builder hash j)) = Ok (xr_exit_code x)
    ∧ Delivered (gr_stdout (spawn_exec_module m (restore_builder hash j))) (xr_stdout x)
    ∧ Delivered (gr_stderr (spawn_exec_module m (restore_builder hash j))) (xr_stderr x);
  rr_exit : xr_exit_code x = 0;
}.

Lemma execute_restore_Ok s try_clone tokio module journal x :
  execute_wasix_checkpoint_restore s try_clone tokio module (blen (sf_bytes module)) journal = Ok x →
  RestoredRun module journal x.
Proof using WL.
  unfold execute_wasix_checkpoint_restore. intros Hx.
  apply bind_Ok in Hx as ([m hash] & Hm%sealed_module_Ok & Hx).
  apply bind_Ok in Hx as (j & Hj & Hx). apply checked_restore_journal_iff in Hj as (_ & Hj & Hend & Hi).
  apply bind_Ok in Hx as ([[n out] err] & Hr & Hx). apply bind_Ok in Hx as ([a b] & Hf & Hx).
  injection Hx as <-. destruct (run_guest_Ok _ _ _ _ _ _ _ _ Hr Hf) as (Hw & Hn & Ho & He).
  split; [|done]. exists m, hash, j. by destruct Hm.
Qed.

(** A capture that reports success: what ran, how it ended, and its journal. *)
Record CapturedRun (module : SealedFile) (request : WasixCheckpointCaptureRequest)
    (x : ExecutedCheckpointCapture) : Prop := {
  cr_run : ∃ m hash, module_new bounded_wasix_worker_engine (sf_bytes module) = Ok m
    ∧ module_hash m = Some hash
    ∧ let run := spawn_exec_module m (capture_builder hash request) in
      gr_wait run = Ok (xc_exit_code x)
      ∧ Delivered (gr_stdout run) (xc_stdout x) ∧ Delivered (gr_stderr run) (xc_stderr x)
      ∧ ∃ e j, journal_from_file (gr_journal run) = Ok j ∧ CompleteCapture j hash e
          ∧ xc_journal x = take (Z.to_nat e) (gr_journal run);
  cr_exit : xc_exit_code x = 0;
  cr_size : 0 < blen (xc_journal x) ≤ WASIX_WORKER_MAX_CHECKPOINT_BYTES;
}.

Lemma execute_capture_Ok s c tokio module request x :
  execute_wasix_checkpoint_capture s c tokio module (blen (sf_bytes module)) request = Ok x →
  CapturedRun module request x.
Proof using WL.
  unfold execute_wasix_checkpoint_capture. intros Hx.
  apply bind_Ok in Hx as ([m hash] & Hm%sealed_module_Ok & Hx).
  apply bind_Ok in Hx as (f & Hf & Hx). do 2 (apply bind_Ok in Hx as (? & _ & Hx)). cbn beta zeta in Hx.
  apply bind_Ok in Hx as ([[n out] err] & Hr & Hx). apply bind_Ok in Hx as ([a b] & Ho & Hx).
  apply bind_Ok in Hx as (jb & Hj & Hx). injection Hx as <-.
  destruct (run_guest_Ok _ _ _ _ _ _ _ _ Hr Ho) as (Hw & Hn & Ha & Hb).
  apply finalize_Ok in Hj as (e & He & -> & Hlen). cbn [sf_bytes] in *.
  apply inspect_captured_journal_iff in He as (_ & j & Hj & Hc).
  split; [|done|done]. exists m, hash. cbn. destruct Hm. split_and!; try done. exists e, j. split_and!; try done.
  destruct Hc as (_ & _ & _ & Hs). apply omap_singleton_split in Hs as (l1 & r & l2 & Hl & Hr' & _).
  destruct (record r) as [| |[]|]; try done. injection Hr' as <-.
  destruct (journal_prefix _ _ _ _ _ Hj Hl) as [Hrange _]. rewrite resize_le by (unfold blen in *; lia). done.
Qed.
End executed.

(** ** A small guest engine *)

Module WorkerJournalExample.
Import Toy.
#[export] Instance allocator : Allocator := infallible_allocator.

(** The records of the log file format, after its magic. *)
Definition toy_entry (t : Z) (payload : list byte) : JournalEntry :=
  if t =? 1 then InitModuleV1 payload
  else if t =? 3 then SetThreadV1
  else if t =? 59 then SnapshotV1 (bool_decide (payload = str_bytes "snapshot"))
  else OtherEntry.
Fixpoint toy_records (fuel : nat) (offset : Z) (l : list byte) : list LogRecord :=
  match fuel with
  | O => []
  | S fuel' =>
      let n := 8 + be_val (slice l 2 8) in
      if blen l <? 8 then [] else if blen l <? n then []
      else {| record := toy_entry (be_val (slice l 0 2)) (slice l 8 n); record_end := offset + n |}
           :: toy_records fuel' (offset + n) (drop (Z.to_nat n) l)
  end.

(** A module is its bytes and so is its hash; a captured guest writes its
    module record, a thread and a snapshot, and more after it; a restored
    guest prints how many records it resumed from. *)
#[export] Instance toy_wasmer : Wasmer (list byte) := {
  module_new _ b := if bool_decide (b = []) then Err "empty module" else Ok b;
  module_hash b := Some b;
  journal_from_file b :=
    if bool_decide (b = []) then Ok {| lj_records := []; lj_error := None |}
    else if bool_decide (take 8 b = JOURNAL_MAGIC)
         then Ok {| lj_records := toy_records (length b) 8 (drop 8 b); lj_error := None |}
         else Err "not a journal";
  spawn_exec_module m g :=
    {| gr_build := Ok tt; gr_spawn := Ok tt; gr_join := Ok tt; gr_wait := Ok 0;
       gr_stdout := match gb_journal g with
                    | ReadOnlyJournal j => [OpWrite (str_bytes (show (blen (lj_records j)))); OpFlush]
                    | WritableJournal => [OpWrite (str_bytes "ready")]
                    end;
       gr_stderr := [];
       gr_journal := JOURNAL_MAGIC ++ encode_records
         [(1, m); (3, str_bytes "thread"); (35, []); (59, str_bytes "snapshot"); (35, str_bytes "after")] |};
  exit_is_success n := n =? 0;
  exit_display := show;
}.

Lemma slice_take (l : list byte) a b n : 0 ≤ a → b ≤ n → slice (take (Z.to_nat n) l) a b = slice l a b.
Proof.
  intros Ha Hb. unfold slice. rewrite skipn_firstn_comm, take_take. f_equal. lia.
Qed.

Lemma toy_prefix fuel fuel' offset b l1 r l2 :
  toy_records fuel offset b = l1 ++ r :: l2 →
  offset + 8 ≤ record_end r ≤ offset + blen b
  ∧ (record_end r - offset ≤ Z.of_nat fuel' →
     toy_records fuel' offset (take (Z.to_nat (record_end r - offset)) b) = l1 ++ [r]).
Proof.
  revert fuel' offset b l1. induction fuel as [|fuel IH]; intros fuel' offset b l1 E; [by destruct l1|].
  cbn [toy_records] in E. pose proof (be_val_range (slice b 2 8)) as [Hn _]. set (n := 8 + be_val (slice b 2 8)) in *.
  destruct (Z.ltb_spec (blen b) 8) as [|H8]; [by destruct l1|].
  destruct (Z.ltb_spec (blen b) n) as [|Hb]; [by destruct l1|].
  assert (∀ k, n ≤ k ≤ blen b → (0 < fuel')%nat →
    toy_records fuel' offset (take (Z.to_nat k) b)
    = {| record := toy_entry (be_val (slice b 0 2)) (slice b 8 n); record_end := offset + n |}
      :: toy_records (pred fuel') (offset + n) (take (Z.to_nat (k - n)) (drop (Z.to_nat n) b))) as Hstep.
  { intros k Hk Hf. destruct fuel' as [|f]; [lia|]. cbn [toy_records pred].
    assert (blen (take (Z.to_nat k) b) = k) as -> by (unfold blen in *; rewrite length_take; lia).
    rewrite (slice_take b 2 8), (slice_take b 0 2) by lia. fold n. rewrite (slice_take b 8 n) by lia.
    rewrite (proj2 (Z.ltb_ge _ _)), (proj2 (Z.ltb_ge _ _)) by lia. f_equal.
    rewrite skipn_firstn_comm. do 2 f_equal. lia. }
  destruct l1 as [|r' l1]; injection E as <- E.
  - cbn [record_end]. split; [lia|]. intros Hf. replace (offset + n - offset) with n by lia.
    rewrite Hstep by lia. rewrite Z.sub_diag. by destruct (pred fuel').
  - apply IH with (fuel' := pred fuel') in E as [Hr E].
    assert (blen (drop (Z.to_nat n) b) = blen b - n) as Hd by (unfold blen in *; rewrite length_drop; lia).
    split; [lia|]. intros Hf. rewrite Hstep by lia.
    replace (record_end r - offset - n) with (record_end r - (offset + n)) by lia. rewrite E by lia. done.
Qed.

#[export] Instance toy_wasmer_laws : WasmerLaws toy_wasmer.
Proof.
  split; [intros n; apply Z.eqb_eq|]. intros b j l1 r l2 Hj Hl.
  cbn [journal_from_file toy_wasmer] in Hj.
  case_bool_decide as Hb; [injection Hj as <-; by destruct l1|]. case_bool_decide as Hmagic; [|done].
  injection Hj as <-. cbn [lj_records] in Hl.
  apply toy_prefix with (fuel' := length (take (Z.to_nat (record_end r)) b)) in Hl as [Hr Hp].
  assert (8 ≤ blen b) as H8.
  { pose proof blen_journal_magic as Hm. rewrite <- Hmagic in Hm. unfold blen in *. rewrite length_take in Hm. lia. }
  assert (blen (drop 8 b) = blen b - 8) as Hd by (unfold blen in *; rewrite length_drop; lia).
  split; [lia|]. cbn [journal_from_file toy_wasmer].
  assert (length (take (Z.to_nat (record_end r)) b) = Z.to_nat (record_end r)) as Hlen
    by (rewrite length_take; unfold blen in *; lia).
  rewrite bool_decide_eq_false_2 by (intros E; rewrite E in Hlen; cbn in Hlen; lia).
  rewrite take_take, Nat.min_l, bool_decide_eq_true_2 by (done || lia). do 2 f_equal.
  rewrite <- Hp by lia. f_equal. rewrite skipn_firstn_comm. f_equal. lia.
Qed.

Definition ops : FdOps := {| fd_seals_error := None; fd_stat_error := None; fd_pread _ _ := Ok 3 |}.
Definition capture_file : CaptureFile :=
  {| cf_create := Ok tt; cf_clone := Ok tt; cf_inspection_clone := Ok tt; cf_set_len := Ok tt; cf_add_seals := Ok tt;
     cf_ops := ops |}.
Definition prefix : list byte := JOURNAL_MAGIC ++ encode_records
  [(1, str_bytes "module"); (3, str_bytes "thread"); (35, []); (59, str_bytes "snapshot")].
Definition written : SealedFile :=
  {| sf_bytes := prefix ++ encode_record (35, str_bytes "after"); sf_sealed := false; sf_regular := true;
     sf_nlink := 0 |}.

(** The capture keeps the records up to the snapshot, and a restore accepts
    them. *)
Lemma captured_journal_restores_witness :
  finalize_capture_journal capture_file written (str_bytes "module") = Ok prefix
  ∧ is_ok (checked_restore_journal (Ok tt) (set_len 60 written) (str_bytes "module")) = true.
Proof.
  assert (finalize_capture_journal capture_file written (str_bytes "module") = Ok prefix) as Hf
    by (vm_compute; reflexivity).
  split; [exact Hf|].
  destruct (captured_journal_restores capture_file written (str_bytes "module") prefix Hf)
    as (j & l1 & r & l2 & Hj & Hl & Hr & H1 & H2 & Hb & He & Hn & Hrestore).
  specialize (Hrestore (set_len 60 written) {| lj_records := l1 ++ [r]; lj_error := None |} ltac:(vm_compute; reflexivity)).
  rewrite (proj2 Hrestore); [reflexivity|]. split; [reflexivity|].
  assert (journal_from_file (sf_bytes written) = Ok j) as Hj' by exact Hj. vm_compute in Hj'. injection Hj' as <-.
  assert (blen prefix = 60) as E by (vm_compute; reflexivity). rewrite E in He. clear Hf Hj Hb Hn Hrestore E H1 H2 Hr.
  cbn [lj_records] in Hl.
  destruct l1 as [|? [|? [|? [|? [|? l1]]]]]; simplify_eq/=; try (reflexivity || lia). by destruct l1.
Defined.
End WorkerJournalExample.
