(* ===== verification/WorkerOperations.v ===== *)
(** The public worker operations of [src/src/wasix_worker.rs]: probe,
    checkpoint transport, restore and capture, from their configuration to the
    supervised worker, and the worker binary's dispatch.  Theorems: a worker is
    spawned only after every check of the operation passed, no operation leaves
    a worker behind, a worker is supervised no longer than its timeouts allow,
    and a captured checkpoint that was sealed and opened passes every
    check of a restore. *)
From S2P Require Import Prelude Errors Interfaces Streams Types CheckpointCodec WorkerMessages WorkerExecutable.
From S2P Require Import WorkerFrames WorkerProtocol.

Local Open Scope Z_scope.

(** ** Preparation of the sealed inputs *)

(** A blocking task and the timer it races, and how joining the task fails, if
    it does; when the timer fires the task sees the flag from some chunk on. *)
Record waiting := { wait_timer : Timer nat; wait_panic : option string }.

Definition preparation_wait (what : string) (timeout : Z) (wt : waiting) (task : (nat → bool) → Result PreparedInput)
    : Result PreparedInput :=
  if in_time timeout (wait_timer wt) then
    match wait_panic wt with
    | None => task (λ _, false)
    | Some e => Err (Execution (what +:+ " memfd preparation failed to join: " +:+ e))
    end
  else let _joined := task (λ i, (interrupted_in (wait_timer wt) <=? i)%nat) in Err Timeout.

(** ** The control channel *)

Record Channel := { ch_socketpair : result string unit; ch_nonblocking : result string unit; ch_register : result string unit }.

Definition checkpoint_control_channel (ch : Channel) (faults : list (option string)) : Result Control :=
  _ ← map_err (λ e, Execution ("failed to create checkpoint descriptor channel: " +:+ e)) (ch_socketpair ch);
  _ ← map_err (λ e, Execution ("failed to configure checkpoint descriptor channel: " +:+ e)) (ch_nonblocking ch);
  _ ← map_err (λ e, Execution ("failed to register checkpoint descriptor channel: " +:+ e)) (ch_register ch);
  Ok {| sent := []; faults := faults |}.

(** ** Spawning *)

Inductive StdioKind := NullIo | Piped | ControlSocket.
Record CommandSetup := {
  env_cleared : bool; current_dir : string; stdin_io : StdioKind; stdout_io : StdioKind; stderr_io : StdioKind;
  kill_on_drop : bool; process_group : Z }.
Definition worker_setup (stdin stderr : StdioKind) : CommandSetup :=
  {| env_cleared := true; current_dir := "/"; stdin_io := stdin; stdout_io := Piped; stderr_io := stderr;
     kill_on_drop := true; process_group := 0 |}.

(** [Drop for WorkerProcess] *)
Definition worker_drop (w : WorkerProcess) : WorkerProcess := kill_tree w.

Section operations.
Context {K : Crypto} `{BuildInfo} {A : Allocator} {D : Type} {FC : FileCalls D}.
Context {JMeta : Json WasixWorkerMetadata} {JTA : Json WasixCheckpointTransportAck}.
Context {JRA : Json WasixCheckpointRestoreAck} {JRC : Json WasixCheckpointRestoreCompletion}.
Context {JCR : Json WasixCheckpointCaptureRequest} {JCA : Json WasixCheckpointCaptureAck}.
Context {JCC : Json WasixCheckpointCaptureCompletion}.

(** What forking and the child do, and the identifier the child has. *)
Record Spawn := { sp_fork : CommandSetup → result string unit; sp_child : @Child D; sp_id : option Z }.

(** [Command::spawn]: a failure of the child before its exec is the spawn's. *)
Definition command_spawn (setup : CommandSetup) (cmd : @WorkerCommand D) (sp : Spawn) : result string unit :=
  _ ← sp_fork sp setup;
  match pre_exec cmd (sp_child sp) with Running _ _ _ => Ok tt | SpawnFailed e => Err e end.

(** The process that was spawned, if any, and the handle the caller goes on
    with.  A child has no identifier only once it was waited for to its end, and
    then no process is left. *)
Definition spawn_wasix_worker (c : WasixWorkerConfig) (operation : WasixWorkerOperation) (setup : CommandSetup)
    (cmd : @WorkerCommand D) (sp : Spawn) (build : string) : option WorkerProcess * Result WorkerProcess :=
  match command_spawn setup cmd sp with
  | Err e => (None, Err (Execution ("failed to spawn WASIX worker " +:+ executable c +:+ ": " +:+ e)))
  | Ok _ =>
      match sp_id sp with
      | None => (None, Err (Execution "WASIX worker did not expose a process identifier"))
      | Some pid =>
          let '(w, r) := place_worker (placement c) operation (worker_process_new pid build) in
          (Some w, _ ← r; Ok w)
      end
  end.

(** Everything an operation meets outside the runtime: the clock, the two
    preparations, the channel, the child, what it writes, how it exits. *)
Record World := {
  wd_clock : nat → Z;                        (* successive [Instant::now] *)
  wd_module_memfd : MemFd;
  wd_module_wait : waiting;
  wd_journal_memfd : MemFd;
  wd_journal_wait : waiting;
  wd_channel : Channel;
  wd_faults : list (option string);
  wd_parent : Z;
  wd_spawn : Spawn;
  wd_stdout_piped : bool;
  wd_stderr_piped : bool;
  wd_stdout : reader;
  wd_exit : result string ExitStatus;
  wd_observed : option ExitStatus;
  wd_diagnostics : option (result string WasixWorkerDiagnostics);
  wd_panic : option (string * WorkerProcess);   (* the supervisor's, and its worker then *)
}.

Definition remaining (c : WasixWorkerConfig) (o : World) (k : nat) : Z :=
  saturating_sub (wd_clock o 0 + handshake_timeout c) (wd_clock o k).

(** [Supervisor::wait]: the outcome of the task, or its join error; a panic
    drops the worker it held. *)
Definition supervisor_wait {X} (what : string) (o : World) (ended : WorkerProcess * Result X)
    : option WorkerProcess * Result X :=
  match wd_panic o with
  | Some (e, w) => (Some (worker_drop w), Err (Execution ("WASIX " +:+ what +:+ " supervisor failed: " +:+ e)))
  | None => (Some ended.1, ended.2)
  end.

(** Spawns a worker and takes its pipes, then runs its supervisor. *)
Definition with_worker {X} (c : WasixWorkerConfig) (operation : WasixWorkerOperation) (setup : CommandSetup)
    (what : string) (no_stdout : string) (no_stderr : option string) (cmd : @WorkerCommand D)
    (e : @PinnedWorkerExecutable D) (o : World) (supervisor : WorkerProcess → WorkerProcess * Result X)
    : option WorkerProcess * Result X :=
  match spawn_wasix_worker c operation setup cmd (wd_spawn o) (pinned_sha256 e) with
  | (p, Err x) => (p, Err x)
  | (_, Ok w) =>
      if negb (wd_stdout_piped o) then (Some (worker_drop w), Err (Execution no_stdout))
      else match no_stderr, wd_stderr_piped o with
           | Some message, false => (Some (worker_drop w), Err (Execution message))
           | _, _ => supervisor_wait what o (supervisor w)
           end
  end.

(** Every operation validates its configuration and pins the executable before
    anything else; [None] is a hash that did not end. *)
Definition validated {X} (c : WasixWorkerConfig) (k : option (option WorkerProcess * Result X))
    : option (option WorkerProcess * Result X) :=
  match validate_common c with Err e => Some (None, Err e) | Ok _ => k end.
Definition pinned {X} (c : WasixWorkerConfig) (k : @PinnedWorkerExecutable D → option WorkerProcess * Result X)
    : option (option WorkerProcess * Result X) :=
  match pin_executable c with
  | None => None
  | Some (Err e) => Some (None, Err e)
  | Some (Ok executable) => Some (k executable)
  end.

(** Checks before a worker exists. *)
Definition checked {X Y} (r : Result X) (k : X → option WorkerProcess * Result Y)
    : option WorkerProcess * Result Y :=
  match r with Err e => (None, Err e) | Ok x => k x end.

(** ** Probe *)

Definition probe_wasix_worker_linux (c : WasixWorkerConfig) (o : World) (race : Race (WorkerProcess * unit))
    (e : @PinnedWorkerExecutable D) : option WorkerProcess * Result WasixWorkerMetadata :=
  checked (command e "--protocol-probe" (wd_parent o)) (λ cmd,
    with_worker c Probe (worker_setup NullIo NullIo) "worker" "WASIX worker stdout was not piped" None cmd e o
      (λ w, let '(w, _, res) := supervise_probe w (wd_exit o) (allowed_supplementary_groups c) (wd_stdout o)
                                  (handshake_timeout c) race in
            (w, res))).

Definition probe_wasix_worker (c : WasixWorkerConfig) (o : World) (race : Race (WorkerProcess * unit))
    : option (option WorkerProcess * Result WasixWorkerMetadata) :=
  validated c $ pinned c (probe_wasix_worker_linux c o race).

(** ** Transport *)

Definition transport_checks (c : WasixWorkerConfig) (o : World) (e : @PinnedWorkerExecutable D)
    (checkpoint : VerifiedWasixCheckpoint) : Result (PreparedInput * Control * @WorkerCommand D) :=
  let '(journal, checkpoint_build) := into_parts checkpoint in
  _ ← reject_if (negb (bool_decide (pinned_sha256 e = checkpoint_build)))
        (Checkpoint "transport worker build does not match the authenticated source worker");
  _ ← reject_if (bool_decide (journal = []) || (WASIX_WORKER_MAX_CHECKPOINT_BYTES <? blen journal))
        (Checkpoint "verified checkpoint journal exceeds the worker transport limit");
  prepared ← preparation_wait "checkpoint" (handshake_timeout c) (wd_journal_wait o)
               (λ cancelled, sealed_checkpoint_input (wd_journal_memfd o) cancelled journal);
  _ ← reject_if (remaining c o 1 =? 0) Timeout;
  control ← checkpoint_control_channel (wd_channel o) (wd_faults o);
  cmd ← command e "--checkpoint-transport-probe" (wd_parent o);
  Ok (prepared, control, cmd).

Definition probe_wasix_checkpoint_transport_linux (c : WasixWorkerConfig) (o : World)
    (race : Race (WorkerProcess * CheckpointTransportInput)) (checkpoint : VerifiedWasixCheckpoint)
    (e : @PinnedWorkerExecutable D) : option WorkerProcess * Result WasixCheckpointTransportMetadata :=
  let binding := verified_binding checkpoint in
  checked (transport_checks c o e checkpoint) (λ '(prepared, control, cmd),
    with_worker c CheckpointTransport (worker_setup ControlSocket NullIo) "checkpoint transport"
      "WASIX worker stdout was not piped" None cmd e o
      (λ w, let input := {| ti_control := control; ti_open := true; ti_file := Some (pi_file prepared);
                            ti_expected := {| et_binding := binding; et_journal_bytes := pi_bytes prepared;
                                              et_journal_sha256 := pi_sha256 prepared |} |} in
            let '(w, _, res) := supervise_checkpoint_transport w (wd_exit o) (allowed_supplementary_groups c)
                                  (wd_stdout o) (remaining c o 1) input race in
            (w, res))).

Definition probe_wasix_checkpoint_transport (c : WasixWorkerConfig) (o : World)
    (race : Race (WorkerProcess * CheckpointTransportInput)) (checkpoint : VerifiedWasixCheckpoint)
    : option (option WorkerProcess * Result WasixCheckpointTransportMetadata) :=
  validated c $ pinned c (probe_wasix_checkpoint_transport_linux c o race checkpoint).

(** ** Restore *)

Definition restore_checks (c : WasixWorkerConfig) (o : World) (e : @PinnedWorkerExecutable D)
    (checkpoint : VerifiedWasixCheckpoint) (module : list byte)
    : Result (PreparedInput * PreparedInput * Control * @WorkerCommand D) :=
  let binding := verified_binding checkpoint in
  _ ← reject_if (negb (bool_decide (binding_command binding = "_start")))
        (UnsupportedComponent ("WASIX checkpoint command " +:+ show_debug (binding_command binding)
           +:+ " cannot be restored; only " +:+ show_debug "_start" +:+ " is supported"));
  _ ← reject_if (bool_decide (module = []) || (WASIX_WORKER_MAX_MODULE_BYTES <? blen module))
        (Checkpoint "WASIX restore module exceeds the worker input limit");
  let '(journal, checkpoint_build) := into_parts checkpoint in
  _ ← reject_if (negb (bool_decide (pinned_sha256 e = checkpoint_build)))
        (Checkpoint "destination worker build does not match the authenticated source worker");
  _ ← reject_if (bool_decide (journal = []) || (WASIX_WORKER_MAX_CHECKPOINT_BYTES <? blen journal))
        (Checkpoint "verified checkpoint journal exceeds the worker restore limit");
  prepared_module ← preparation_wait "module" (handshake_timeout c) (wd_module_wait o)
                      (λ cancelled, sealed_module_input (wd_module_memfd o) cancelled module);
  _ ← reject_if (negb (bool_decide (pi_sha256 prepared_module = binding_module_sha256 binding)))
        (Checkpoint "WASIX restore module does not match the authenticated checkpoint binding");
  _ ← reject_if (remaining c o 1 =? 0) Timeout;
  prepared_checkpoint ← preparation_wait "checkpoint" (remaining c o 1) (wd_journal_wait o)
                          (λ cancelled, sealed_checkpoint_input (wd_journal_memfd o) cancelled journal);
  _ ← reject_if (remaining c o 2 =? 0) Timeout;
  control ← checkpoint_control_channel (wd_channel o) (wd_faults o);
  cmd ← command e "--checkpoint-restore" (wd_parent o);
  Ok (prepared_module, prepared_checkpoint, control, cmd).

Definition restore_input (checkpoint : VerifiedWasixCheckpoint) (module journal : PreparedInput) (control : Control)
    : CheckpointRestoreInput :=
  {| ri_control := control; ri_open := true; ri_module := Some (pi_file module); ri_journal := Some (pi_file journal);
     ri_expected := {| er_binding := verified_binding checkpoint;
                       er_module_bytes := pi_bytes module; er_module_sha256 := pi_sha256 module;
                       er_journal_bytes := pi_bytes journal; er_journal_sha256 := pi_sha256 journal |} |}.

Definition restore_wasix_checkpoint_linux (c : WasixWorkerConfig) (o : World)
    (race : Race (WorkerProcess * CheckpointRestoreInput)) (checkpoint : VerifiedWasixCheckpoint)
    (module : list byte) (e : @PinnedWorkerExecutable D)
    : option WorkerProcess * Result WasixCheckpointRestoreMetadata :=
  checked (restore_checks c o e checkpoint module) (λ '(prepared_module, prepared_checkpoint, control, cmd),
    with_worker c CheckpointRestoreOp (worker_setup ControlSocket Piped) "checkpoint restore"
      "WASIX restore worker stdout was not piped" (Some "WASIX restore worker diagnostics were not piped") cmd e o
      (λ w, let '(w, _, res) := supervise_checkpoint_restore w (wd_exit o) (allowed_supplementary_groups c)
                                  (wd_stdout o) (remaining c o 2)
                                  (restore_input checkpoint prepared_module prepared_checkpoint control)
                                  race (wd_observed o) (wd_diagnostics o) in
            (w, res))).

Definition restore_wasix_checkpoint (c : WasixWorkerConfig) (o : World)
    (race : Race (WorkerProcess * CheckpointRestoreInput)) (checkpoint : VerifiedWasixCheckpoint)
    (module : list byte) : option (option WorkerProcess * Result WasixCheckpointRestoreMetadata) :=
  validated c $ pinned c (restore_wasix_checkpoint_linux c o race checkpoint module).

(** ** Capture *)

(** What can interrupt a capture: the caller's token while the module is
    prepared, the timers of its two phases, and a cancellation while the worker
    runs. *)
Record CaptureInterrupts := {
  cancelled_preparing : bool;
  prepare_timer : Timer (WorkerProcess * CheckpointCaptureInput);
  collect_timer : Timer (WorkerProcess * CheckpointCaptureInput);
  cancelled_running : option (Z * (WorkerProcess * CheckpointCaptureInput));
}.

Definition capture_checks (c : WasixWorkerConfig) (o : World) (ci : CaptureInterrupts) (e : @PinnedWorkerExecutable D)
    (binding : WasixCheckpointBinding) (module : list byte) (request : WasixCheckpointCaptureRequest)
    : Result (PreparedInput * list byte * Control * @WorkerCommand D) :=
  _ ← reject_if (negb (bool_decide (binding_command binding = "_start")))
        (UnsupportedComponent ("WASIX checkpoint capture supports only the " +:+ show_debug "_start" +:+ " command"));
  _ ← reject_if (bool_decide (module = []) || (WASIX_WORKER_MAX_MODULE_BYTES <? blen module))
        (Checkpoint "WASIX capture module exceeds the worker input limit");
  request ← map_err (λ e, Configuration ("capture request encoding failed: " +:+ e)) (to_vec request);
  _ ← reject_if (bool_decide (request = []) || (WASIX_WORKER_MAX_CAPTURE_REQUEST_BYTES <? blen request))
        (Configuration "WASIX checkpoint capture request exceeds the protocol limit");
  _ ← reject_if (cancelled_preparing ci) Cancelled;
  prepared_module ← preparation_wait "module" (handshake_timeout c) (wd_module_wait o)
                      (λ cancelled, sealed_module_input (wd_module_memfd o) cancelled module);
  _ ← reject_if (negb (bool_decide (pi_sha256 prepared_module = binding_module_sha256 binding)))
        (Checkpoint "WASIX capture module does not match the checkpoint binding");
  _ ← reject_if (remaining c o 1 =? 0) Timeout;
  control ← checkpoint_control_channel (wd_channel o) (wd_faults o);
  cmd ← command e "--checkpoint-capture" (wd_parent o);
  Ok (prepared_module, request, control, cmd).

Definition capture_wasix_checkpoint_linux (c : WasixWorkerConfig) (o : World) (ci : CaptureInterrupts)
    (binding : WasixCheckpointBinding) (module : list byte) (request : WasixCheckpointCaptureRequest)
    (execution_timeout : Z) (e : @PinnedWorkerExecutable D) : option WorkerProcess * Result WasixCheckpointCapture :=
  checked (capture_checks c o ci e binding module request) (λ '(prepared_module, request, control, cmd),
    with_worker c CheckpointCaptureOp (worker_setup ControlSocket Piped) "checkpoint capture"
      "WASIX capture worker stdout was not piped" (Some "WASIX capture worker diagnostics were not piped") cmd e o
      (λ w, let input := {| ci_control := control; ci_open := true; ci_module := Some (pi_file prepared_module);
                            ci_request := request;
                            ci_expected := {| ec_binding := binding; ec_module_bytes := pi_bytes prepared_module;
                                              ec_module_sha256 := pi_sha256 prepared_module;
                                              ec_request_bytes := blen request;
                                              ec_request_sha256 := sha256_hex request |} |} in
            let '(w, _, res) := supervise_checkpoint_capture w (wd_exit o) (allowed_supplementary_groups c)
                                  (wd_stdout o) (remaining c o 1) execution_timeout input (prepare_timer ci)
                                  (collect_timer ci) (cancelled_running ci) (wd_observed o) (wd_diagnostics o) in
            (w, res))).

Definition capture_wasix_checkpoint (c : WasixWorkerConfig) (o : World) (ci : CaptureInterrupts)
    (binding : WasixCheckpointBinding) (module : list byte) (input : CommandInput)
    : option (option WorkerProcess * Result WasixCheckpointCapture) :=
  validated c $
  match capture_request_new input with
  | Err e => Some (None, Err e)
  | Ok (request, execution_timeout, cancelled) =>
      if cancelled then Some (None, Err Cancelled)
      else pinned c (capture_wasix_checkpoint_linux c o ci binding module request execution_timeout)
  end.
End operations.

(** ** The worker binary *)

Definition usage : string :=
  "usage: runtrue-wasix-worker (--protocol-probe|--checkpoint-transport-probe|--checkpoint-restore|--checkpoint-capture)".

(** The programs of a worker, each from the output it writes to. *)
Record Programs (W : Type) := {
  run_probe : W → W * result string unit;
  run_transport : W → W * result string unit;
  run_restore : W → W * result string unit;
  run_capture : W → W * result string unit;
}.
Arguments run_probe {W}.
Arguments run_transport {W}.
Arguments run_restore {W}.
Arguments run_capture {W}.

(** The exit code and what is printed on standard error. *)
Definition worker_main {W} (arguments : list (list byte)) (programs : Programs W) (w : W)
    : W * Z * option string :=
  let rest := tail arguments in                 (* without the program name *)
  let operation := head rest in
  let dispatched :=
    if negb (bool_decide (tail rest = [])) then None
    else match operation with
         | Some value =>
             if bool_decide (value = str_bytes "--protocol-probe") then Some (run_probe programs w)
             else if bool_decide (value = str_bytes "--checkpoint-transport-probe")
                  then Some (run_transport programs w)
             else if bool_decide (value = str_bytes "--checkpoint-restore") then Some (run_restore programs w)
             else if bool_decide (value = str_bytes "--checkpoint-capture") then Some (run_capture programs w)
             else None
         | None => None
         end in
  match dispatched with
  | None => (w, 64, Some usage)
  | Some (w, Ok _) => (w, 0, None)
  | Some (w, Err e) => (w, 70, Some e)
  end.

(** ** Spawned workers *)

Section ended.
Context {K : Crypto} `{BuildInfo} {A : Allocator} {D : Type} {FC : FileCalls D}.
Context {JMeta : Json WasixWorkerMetadata} {JTA : Json WasixCheckpointTransportAck}.
Context {JRA : Json WasixCheckpointRestoreAck} {JRC : Json WasixCheckpointRestoreCompletion}.
Context {JCR : Json WasixCheckpointCaptureRequest} {JCA : Json WasixCheckpointCaptureAck}.
Context {JCC : Json WasixCheckpointCaptureCompletion}.
Implicit Types o : @World D.
Implicit Types e : @PinnedWorkerExecutable D.

Lemma spawn_wasix_worker_Ok c op setup cmd (sp : @Spawn D) build p w :
  spawn_wasix_worker c op setup cmd sp build = (p, Ok w) →
  p = Some w ∧ ∃ pid, sp_id sp = Some pid ∧ w = worker_process_new pid build
    ∧ ∃ image argv env, pre_exec cmd (sp_child sp) = Running image argv env.
Proof.
  unfold spawn_wasix_worker, command_spawn. destruct (sp_fork sp setup) as [[]|]; cbn; [|done].
  destruct (pre_exec cmd (sp_child sp)) eqn:Hx; [|done]. destruct (sp_id sp) as [pid|]; [|done].
  unfold place_worker. destruct (placement c) as [place|]; [destruct (place _) as [[u|err]|]|];
    cbn; intros; result_inv; eauto 10.
Qed.

Lemma spawn_wasix_worker_Err c op setup cmd (sp : @Spawn D) build w x :
  spawn_wasix_worker c op setup cmd sp build = (Some w, Err x) → gone w.
Proof.
  unfold spawn_wasix_worker. destruct (command_spawn setup cmd sp); [|done]. destruct (sp_id sp); [|done].
  unfold place_worker. repeat case_match; cbn; intros; simplify_eq; by apply reap_gone.
Qed.

(** A worker an operation is done with: killed with its group in every case,
    and reaped unless its handle was dropped. *)
Definition ended o (w : WorkerProcess) : Prop :=
  group_killed w = true
  ∧ (wd_panic o = None → wd_stdout_piped o = true → wd_stderr_piped o = true → gone w).

Lemma gone_ended o w : gone w → ended o w.
Proof. intros Hg. split; [apply Hg|done]. Qed.

Lemma with_worker_ended {X} c op setup what no_out no_err cmd e o (supervisor : WorkerProcess → WorkerProcess * Result X) w res :
  (∀ w, wp_active w = true → gone (supervisor w).1) →
  (∀ m w, wd_panic o = Some (m, w) → accounted w) →
  with_worker c op setup what no_out no_err cmd e o supervisor = (Some w, res) → ended o w.
Proof.
  intros Hsup Hpanic. unfold with_worker.
  destruct (spawn_wasix_worker _ _ _ _ _ _) as [p [w0|x]] eqn:Hs.
  - apply spawn_wasix_worker_Ok in Hs as (_ & pid & _ & -> & _).
    destruct (wd_stdout_piped o) eqn:Ho; cbn [negb]; [|intros; simplify_eq; split; [done|congruence]].
    assert (supervisor_wait what o (supervisor (worker_process_new pid (pinned_sha256 e))) = (Some w, res) → ended o w)
      as Hw.
    { unfold supervisor_wait. destruct (wd_panic o) as [[m wp]|] eqn:Hp; intros; simplify_eq.
      - split; [|congruence]. unfold worker_drop, kill_tree. destruct (Hpanic _ _ eq_refl) as [->|[]]; [done|].
        by destruct (wp_active wp).
      - by apply gone_ended, Hsup. }
    destruct no_err, (wd_stderr_piped o) eqn:He; try done. intros. simplify_eq. split; [done|congruence].
  - intros. simplify_eq. by eapply gone_ended, spawn_wasix_worker_Err.
Qed.

Lemma checked_Some {X Y} (r : Result X) (k : X → option WorkerProcess * Result Y) w res :
  checked r k = (Some w, res) → ∃ x, r = Ok x ∧ k x = (Some w, res).
Proof. destruct r; cbn; [eauto|done]. Qed.

Lemma operation_Some {X} c (k : @PinnedWorkerExecutable D → option WorkerProcess * Result X) w res :
  validated c (pinned c k) = Some (Some w, res) →
  ∃ e, validate_common c = Ok tt ∧ pin_executable c = Some (Ok e) ∧ k e = (Some w, res).
Proof.
  unfold validated, pinned. destruct (validate_common c) as [[]|]; [|done].
  destruct (pin_executable c) as [[e|]|]; [|done..]. intros [= Hk]. eauto.
Qed.

(** Wherever a capture is interrupted, its worker is armed or already reaped. *)
Definition interrupts_accounted (ci : CaptureInterrupts) : Prop :=
  timer_accounted (prepare_timer ci) ∧ timer_accounted (collect_timer ci) ∧ cancel_accounted (cancelled_running ci).

(** C8: no operation leaves a worker behind.  Whatever a probe, a transport, a
    restore or a capture ends with (success, a rejected placement, a missing
    pipe, a protocol violation, a worker failure, a timeout, a cancellation, a
    panicking supervisor), the worker it spawned, if any, was killed with its
    process group; and it was reaped and its handle disarmed whenever the
    supervisor itself ran to its end. *)
Theorem operations_leave_no_worker c o w :
  (∀ m v, wd_panic o = Some (m, v) → accounted v) →
  (∀ race res, race_accounted race → probe_wasix_worker c o race = Some (Some w, res) → ended o w)
  ∧ (∀ race v res, race_accounted race →
       probe_wasix_checkpoint_transport c o race v = Some (Some w, res) → ended o w)
  ∧ (∀ race v module res, race_accounted race →
       restore_wasix_checkpoint c o race v module = Some (Some w, res) → ended o w)
  ∧ (∀ ci b module input res, interrupts_accounted ci →
       capture_wasix_checkpoint c o ci b module input = Some (Some w, res) → ended o w).
Proof.
  intros Hpanic. split_and!.
  - intros race res Hrace (e & _ & _ & Hk)%operation_Some. apply checked_Some in Hk as (cmd & _ & Hk).
    eapply with_worker_ended; [|exact Hpanic|exact Hk]. intros w0 Ha. cbn beta.
    destruct (supervise_probe _ _ _ _ _ _) as [[w1 u] x] eqn:Hs. unfold supervise_probe in Hs.
    destruct (perform_handshake w0 _ _ _) as [w2 y] eqn:Hp. apply perform_handshake_accounted in Hp as [? ?]; [|done].
    by eapply (supervise_gone _ _ _ _ _ _ Hrace); [| |exact Hs].
  - intros race v res Hrace (e & _ & _ & Hk)%operation_Some. apply checked_Some in Hk as ([[i ctl] cmd] & _ & Hk).
    eapply with_worker_ended; [|exact Hpanic|exact Hk]. intros w0 Ha. cbn beta zeta.
    destruct (supervise_checkpoint_transport _ _ _ _ _ _ _) as [[w1 u] x] eqn:Hs. unfold supervise_checkpoint_transport in Hs.
    destruct (perform_checkpoint_transport w0 _ _ _ _) as [[w2 j] y] eqn:Hp.
    apply perform_transport_accounted in Hp as [? ?]; [|done]. by eapply (supervise_gone _ _ _ _ _ _ Hrace); [| |exact Hs].
  - intros race v module res Hrace (e & _ & _ & Hk)%operation_Some.
    apply checked_Some in Hk as ([[[pm pj] ctl] cmd] & _ & Hk).
    eapply with_worker_ended; [|exact Hpanic|exact Hk]. intros w0 Ha. cbn beta.
    destruct (supervise_checkpoint_restore _ _ _ _ _ _ _ _ _) as [[w1 u] x] eqn:Hs.
    by eapply supervise_restore_gone.
  - intros ci b module input res (Hc1 & Hc2 & Hc3). unfold capture_wasix_checkpoint.
    destruct (capture_request_new input) as [[[request t] [|]]|];
      [by unfold validated; case_match| |by unfold validated; case_match].
    intros (e & _ & _ & Hk)%operation_Some. apply checked_Some in Hk as ([[[pm rq] ctl] cmd] & _ & Hk).
    eapply with_worker_ended; [|exact Hpanic|exact Hk]. intros w0 Ha. cbn beta zeta.
    destruct (supervise_checkpoint_capture _ _ _ _ _ _ _ _ _ _ _ _) as [[w1 u] x] eqn:Hs.
    eapply supervise_capture_gone; [exact Ha|exact Hc1|exact Hc2|exact Hc3|exact Hs].
Qed.

(** ** Admission *)

(** The checks of a restore, as one proposition over what was pinned, opened
    and supplied. *)
Record RestorePermitted c o e (v : VerifiedWasixCheckpoint) (module : list byte) : Prop := {
  adm_command : binding_command (verified_binding v) = "_start";
  adm_module : 0 < blen module ≤ WASIX_WORKER_MAX_MODULE_BYTES;
  adm_module_digest : sha256_hex module = binding_module_sha256 (verified_binding v);
  adm_build : pinned_sha256 e = verified_worker_build_sha256 v;
  adm_journal : 0 < blen (into_parts v).1 ≤ WASIX_WORKER_MAX_CHECKPOINT_BYTES;
  adm_time : ∀ k, (k = 1 ∨ k = 2)%nat → remaining c o k ≠ 0;
}.

Lemma nonempty_within {X} `{EqDecision X} (l : list X) n :
  bool_decide (l = []) || (n <? blen l) = false ↔ 0 < blen l ≤ n.
Proof.
  rewrite orb_false_iff, bool_decide_eq_false, Z.ltb_ge.
  destruct l; unfold blen; cbn [length]; split; intros [? ?]; split; try done; lia.
Qed.

(** A preparation that ended in time and could be joined. *)
Definition ready_in_time (timeout : Z) (wt : waiting) : Prop :=
  in_time timeout (wait_timer wt) = true ∧ wait_panic wt = None.
Lemma preparation_wait_Ok what timeout wt task p :
  preparation_wait what timeout wt task = Ok p ↔ ready_in_time timeout wt ∧ task (λ _, false) = Ok p.
Proof.
  unfold preparation_wait, ready_in_time. destruct (in_time _ _); [|naive_solver]. destruct (wait_panic wt); naive_solver.
Qed.

(** The checks pass exactly for admitted restores whose inputs could be
    sealed and whose channel and command could be made. *)
Lemma restore_checks_Ok c o e v module pm pj ctl cmd :
  restore_checks c o e v module = Ok (pm, pj, ctl, cmd) ↔
  RestorePermitted c o e v module
  ∧ ready_in_time (handshake_timeout c) (wd_module_wait o) ∧ sealed_module_input (wd_module_memfd o) (λ _, false) module = Ok pm
  ∧ ready_in_time (remaining c o 1) (wd_journal_wait o)
  ∧ sealed_checkpoint_input (wd_journal_memfd o) (λ _, false) (into_parts v).1 = Ok pj
  ∧ checkpoint_control_channel (wd_channel o) (wd_faults o) = Ok ctl
  ∧ command e "--checkpoint-restore" (wd_parent o) = Ok cmd.
Proof.
  assert ((into_parts v).2 = verified_worker_build_sha256 v) as Hb by done.
  unfold restore_checks. destruct (into_parts v) as [journal build] eqn:Hp. cbn [fst snd] in *. split.
  - rewrite !reject_bind_Ok, !negb_false_iff, !bool_decide_eq_true, !nonempty_within. intros (Hc & Hm & Hbuild & Hj & Hx).
    result_inv. bool_inv. rewrite preparation_wait_Ok in *. destruct_and!.
    match goal with H : sealed_module_input _ _ _ = Ok _ |- _ =>
      pose proof (sealed_module_input_Ok _ _ _ _ H) as (_ & _ & Hsha & _) end.
    split_and!; try done. split; rewrite ?Hp; try done; try congruence.
    intros k [->| ->]; done.
  - intros ([Hc Hm Hd Hbuild Hj Ht] & Hmw & Hms & Hjw & Hjs & Hctl & Hcmd). rewrite Hp in Hj. cbn [fst] in Hj.
    pose proof (sealed_module_input_Ok _ _ _ _ Hms) as (_ & _ & Hsha & _).
    rewrite !reject_bind_Ok, !negb_false_iff, !bool_decide_eq_true, !nonempty_within.
    do 4 (split; [done || congruence|]).
    rewrite (proj2 (preparation_wait_Ok _ _ _ _ _) (conj Hmw Hms)). cbn [mbind result_bind].
    rewrite reject_bind_Ok, negb_false_iff, bool_decide_eq_true. split; [congruence|].
    rewrite reject_bind_Ok, Z.eqb_neq. split; [auto|].
    rewrite (proj2 (preparation_wait_Ok _ _ _ _ _) (conj Hjw Hjs)). cbn [mbind result_bind].
    rewrite reject_bind_Ok, Z.eqb_neq. split; [auto|]. by rewrite Hctl, Hcmd.
Qed.

(** ** What successful operations return *)

Lemma with_worker_Ok {X} c op setup what no_out no_err cmd e o (supervisor : WorkerProcess → WorkerProcess * Result X) p x :
  with_worker c op setup what no_out no_err cmd e o supervisor = (p, Ok x) →
  ∃ pid, (supervisor (worker_process_new pid (pinned_sha256 e))).2 = Ok x.
Proof.
  unfold with_worker, supervisor_wait. destruct (spawn_wasix_worker _ _ _ _ _ _) as [q [w|y]] eqn:Hs; [|done].
  apply spawn_wasix_worker_Ok in Hs as (_ & pid & _ & -> & _). intros Hw. exists pid.
  repeat case_match; by simplify_eq/=.
Qed.

Lemma restore_exchange_Ok w groups x module journal r ctl ctl' m ack r' :
  restore_exchange w groups x module journal r ctl = (ctl', Ok (m, ack, r')) →
  (∃ r1, read_ready w groups r = Ok (m, r1))
  ∧ ra_module_sha256 ack = er_module_sha256 x ∧ ra_journal_sha256 ack = er_journal_sha256 x.
Proof.
  unfold restore_exchange. intros Hx. destruct (read_ready w groups r) as [[m1 r1]|] eqn:Hr; cbn in Hx; [|done].
  destruct module; [|done]. io_inv. destruct journal; [|done]. io_inv.
  destruct (_ ≫= _) as [[ack1 r2]|] eqn:Hack; [|done]. io_inv. simplify_eq. split; [eauto|].
  result_pairs.
  match goal with Hv : restore_ack_validate _ _ _ _ _ = Ok _ |- _ => unfold restore_ack_validate in Hv end.
  result_inv. by bool_inv.
Qed.

Lemma supervise_restore_Ok w exit groups r timeout v pm pj ctl race observed diagnostics w' i' m :
  supervise_checkpoint_restore w exit groups r timeout (restore_input v pm pj ctl) race observed diagnostics
    = (w', i', Ok m) →
  (∃ r1, read_ready w groups r = Ok (rm_worker m, r1)) ∧ rm_binding m = verified_binding v
  ∧ rm_module_sha256 m = pi_sha256 pm ∧ rm_journal_sha256 m = pi_sha256 pj.
Proof.
  unfold supervise_checkpoint_restore. intros Hs.
  destruct (raced timeout race) as [decided [|[]|[]]]; [|done..].
  destruct (perform_checkpoint_restore _ _ _ _ _) as [[w1 i1] [x|f]] eqn:Hp; cbn in Hs; [|done]. simplify_eq.
  unfold perform_checkpoint_restore, prepare_checkpoint_restore in Hp. cbn [restore_input ri_open] in Hp.
  destruct (restore_exchange _ _ _ _ _ _ _) as [c1 [[[m1 ack] r1]|]] eqn:Hx; [|done].
  apply restore_exchange_Ok in Hx as (Hr & Hm & Hj).
  destruct (collect_checkpoint_restore_output r1) as [[[out err] r2]|]; [|done].
  destruct (finish_worker_output _ _ _ _) as [w2 [[]|]]; cbn in Hp; simplify_eq. cbn. by split_and!.
Qed.

(** C15: a restore that spawns a worker was admitted: the configuration is
    valid, the executable was pinned and is the build that captured the
    checkpoint, the command is the supported one, the module and the journal
    are within their limits, the module is the bound one and there is time
    left.  A restore that succeeds reports the checkpoint's binding, the
    digests of exactly the module and the journal it was given, and a worker
    that proved to be the pinned build and isolated. *)
Theorem restore_admission c o race v module p res :
  restore_wasix_checkpoint c o race v module = Some (p, res) →
  (∀ w, p = Some w →
     ∃ e, validate_common c = Ok tt ∧ pin_executable c = Some (Ok e) ∧ RestorePermitted c o e v module)
  ∧ (∀ m, res = Ok m →
     ∃ e, pin_executable c = Some (Ok e) ∧ RestorePermitted c o e v module
       ∧ rm_binding m = verified_binding v ∧ rm_module_sha256 m = sha256_hex module
       ∧ rm_journal_sha256 m = sha256_hex (into_parts v).1
       ∧ metadata_build_sha256 (rm_worker m) = pinned_sha256 e
       ∧ Isolated (isolation (rm_worker m)) (allowed_supplementary_groups c)).
Proof.
  unfold restore_wasix_checkpoint, validated, pinned. intros Hr.
  destruct (validate_common c) as [[]|] eqn:Hv; [|simplify_eq; by split].
  destruct (pin_executable c) as [[e|]|] eqn:He; [|simplify_eq; by split|done].
  injection Hr as Hr. unfold restore_wasix_checkpoint_linux, checked in Hr.
  destruct (restore_checks c o e v module) as [[[[pm pj] ctl] cmd]|] eqn:Hc; [|simplify_eq; by split].
  pose proof Hc as (Ha & _ & Hm & _ & Hj & _ & _)%restore_checks_Ok. split; [eauto|]. intros m ->.
  apply with_worker_Ok in Hr as (pid & Hs).
  destruct (supervise_checkpoint_restore _ _ _ _ _ _ _ _ _) as [[w' i'] x] eqn:Hx. cbn in Hs. subst x.
  apply supervise_restore_Ok in Hx as ((r1 & Hready) & Hb & Hms & Hjs).
  apply sealed_module_input_Ok in Hm as (_ & _ & Hm & _). apply sealed_checkpoint_input_Ok in Hj as (_ & _ & Hj & _).
  exists e. rewrite Hms, Hjs. unfold read_ready in Hready. result_pairs. destruct_all unit.
  match goal with Hw : worker_metadata_validate _ _ _ _ = Ok _ |- _ =>
    apply worker_metadata_validate_iff in Hw as (_ & _ & _ & Hbuild & _ & Hi) end.
  by split_and!.
Qed.

(** ** From capture to restore *)

Lemma capture_checks_Ok c o ci e b module request pm rq ctl cmd :
  capture_checks c o ci e b module request = Ok (pm, rq, ctl, cmd) →
  binding_command b = "_start" ∧ 0 < blen module ≤ WASIX_WORKER_MAX_MODULE_BYTES
  ∧ sha256_hex module = binding_module_sha256 b ∧ remaining c o 1 ≠ 0.
Proof.
  unfold capture_checks. rewrite !reject_bind_Ok, negb_false_iff, bool_decide_eq_true, nonempty_within.
  intros (Hc & Hm & Hx). result_inv. bool_inv. rewrite preparation_wait_Ok in *. destruct_and!.
  match goal with Hs : sealed_module_input _ _ _ = Ok _ |- _ => apply sealed_module_input_Ok in Hs as (_ & _ & Hs & _) end.
  split_and!; congruence || done.
Qed.

Lemma supervise_capture_performs w exit groups r t1 t2 i prepare collect cancel observed diagnostics w' i' m :
  supervise_checkpoint_capture w exit groups r t1 t2 i prepare collect cancel observed diagnostics = (w', i', Ok m) →
  ∃ w0 i0, perform_checkpoint_capture w exit groups r t1 t2 i prepare collect = (w0, i0, Ok m).
Proof.
  unfold supervise_checkpoint_capture. destruct (perform_checkpoint_capture _ _ _ _ _ _ _ _ _) as [[w0 i0] x]. intros Hs.
  exists w0, i0. destruct cancel as [[at_time [w1 i1]]|]; [destruct (at_time <=? supervised_for w0); [done|]|];
    destruct x as [m'|[f|]]; cbn in Hs; by simplify_eq.
Qed.
Lemma supervise_capture_Ok w exit groups r t1 t2 i prepare collect cancel observed diagnostics w' i' m :
  supervise_checkpoint_capture w exit groups r t1 t2 i prepare collect cancel observed diagnostics = (w', i', Ok m) →
  ∃ journal, from_attested_worker_capture journal (ec_binding (ci_expected i)) (wp_build_sha256 w) = Ok (cm_journal m)
    ∧ 0 < blen journal ≤ WASIX_WORKER_MAX_CHECKPOINT_BYTES.
Proof.
  intros Hs%supervise_capture_performs. destruct Hs as (w0 & i0 & Hs). unfold perform_checkpoint_capture in Hs.
  destruct (in_time t1 prepare); cbn [negb] in Hs; [|by destruct (interrupted_in prepare)].
  destruct (prepare_checkpoint_capture w groups r i) as [i1 [[[meta ack] r1]|]] eqn:Hp; [|done].
  destruct (in_time t2 collect); cbn [negb] in Hs; [|by destruct (interrupted_in collect)].
  destruct (collect_checkpoint_capture_output w exit r1) as [w1 [[[[compl journal] out] err]|]] eqn:Hcol; [|done].
  destruct (from_attested_worker_capture _ _ _) as [cap|] eqn:Hcap; [|done]. cbn in Hs. simplify_eq.
  cbn [cm_journal].
  exists journal. split.
  - unfold prepare_checkpoint_capture in Hp. destruct (ci_open i); [|by repeat case_match].
    destruct (capture_exchange _ _ _ _ _ _ _) as [c1 x] eqn:Hx. simplify_eq. cbn in Hcap.
    unfold capture_exchange in Hx. destruct (read_ready w groups r) as [[m1 r2]|] eqn:Hr; [|done]. cbn in Hx.
    assert (m1 = meta) as ->.
    { destruct (ci_module i); [|done]. io_inv. destruct (write_control_frame _ _) as [? [|]]; [|done].
      destruct (_ ≫= _) as [[]|]; [|done]. io_inv. by simplify_eq. }
    unfold read_ready in Hr. result_pairs.
    destruct_all unit.
    match goal with Hw : worker_metadata_validate _ _ _ _ = Ok _ |- _ =>
      apply worker_metadata_validate_iff in Hw as (_ & _ & _ & <- & _ & _) end. done.
  - unfold collect_checkpoint_capture_output in Hcol. destruct (_ ≫= _) as [[[[[? ?] ?] ?] ?]|] eqn:Hb; [|done].
    io_inv. simplify_eq. result_pairs.
    match goal with Hl : read_bounded_worker_frame _ _ false _ = Ok _ |- _ =>
      apply read_length_prefixed_within in Hl as [? Hne] end.
    specialize (Hne eq_refl). split; [|done]. destruct journal; [done|]. unfold blen. cbn. lia.
Qed.

Lemma capture_Some c o ci b module input p res :
  capture_wasix_checkpoint c o ci b module input = Some (p, res) → p ≠ None ∨ is_ok res = true →
  ∃ e request t, validate_common c = Ok tt ∧ capture_request_new input = Ok (request, t, false)
    ∧ pin_executable c = Some (Ok e) ∧ capture_wasix_checkpoint_linux c o ci b module request t e = (p, res).
Proof.
  unfold capture_wasix_checkpoint, validated, pinned. intros Hc Hp.
  destruct (validate_common c) as [[]|]; [|simplify_eq; naive_solver].
  destruct (capture_request_new input) as [[[request t] [|]]|]; [simplify_eq; naive_solver| |simplify_eq; naive_solver].
  destruct (pin_executable c) as [[e|]|]; [|simplify_eq; naive_solver|done].
  injection Hc as Hc. exists e, request, t. by split_and!.
Qed.

(** ** How long a worker is supervised *)

(** The supervisor, if it ran, decides how long, and whether in time. *)
Lemma with_worker_time {X} c op setup what no_out no_err cmd e o (supervisor : WorkerProcess → WorkerProcess * Result X)
    limit (done_in_time : bool) w res :
  wd_panic o = None → 0 ≤ limit →
  (∀ w, supervised_for (supervisor w).1 ≤ limit ∧ (done_in_time = false → is_ok (supervisor w).2 = false)) →
  with_worker c op setup what no_out no_err cmd e o supervisor = (Some w, res) →
  supervised_for w ≤ limit ∧ (done_in_time = false → is_ok res = false).
Proof.
  intros Hpanic Hl Hsup. unfold with_worker, spawn_wasix_worker, supervisor_wait. rewrite Hpanic.
  destruct (command_spawn _ _ _) as [u|]; [|done]. destruct (sp_id _) as [pid|]; [|done].
  assert (∀ w1 y, place_worker (placement c) op (worker_process_new pid (pinned_sha256 e)) = (w1, y) →
    supervised_for w1 = 0) as Hplace.
  { unfold place_worker. intros w1 y Hp. repeat case_match; by simplify_eq. }
  destruct (place_worker _ _ _) as [w1 y] eqn:Hp. specialize (Hplace _ _ eq_refl).
  assert (supervised_for (worker_drop w1) = 0) as Hdrop by (unfold worker_drop, kill_tree; by case_match).
  intros Hw. destruct y as [u'|]; cbn [mbind result_bind] in Hw; repeat case_match; simplify_eq; try apply Hsup; split; done || lia.
Qed.

(** What every supervisor does to the clock of its worker; and an operation
    that is not ready in time does not succeed. *)
Lemma cleanup_time (b : bool) w :
  supervised_for (if b then disarm (wait_child (kill_tree w)) else w) = supervised_for w.
Proof. unfold kill_tree. by destruct b, (wp_active w). Qed.
Lemma raced_late {X} timeout (race : Race X) :
  in_time timeout (race_timer race) = false → (raced timeout race).2 ≠ SelectedDone.
Proof. unfold raced. intros Hin. destruct (race_cancel race) as [[]|]; rewrite Hin; [case_match|]; done. Qed.
Lemma supervise_time {X Y} timeout (race : Race (WorkerProcess * X)) (perform : WorkerProcess * X * Result Y) :
  let r := supervise timeout race perform in
  supervised_for r.1.1 ≤ timeout + timer_lag (race_timer race)
  ∧ (in_time timeout (race_timer race) = false → is_ok r.2 = false).
Proof.
  pose proof (raced_by timeout race) as Hb. pose proof (raced_late timeout race) as Hd.
  unfold supervise, spawn_worker_reaper. destruct (raced timeout race) as [decided sel]. cbn [fst snd] in *.
  destruct sel as [|[w i]|[w i]]; [destruct perform as [[w i] outcome]|..]; cbn [fst snd];
    (split; [by rewrite cleanup_time|]); try done. intros Hin. by destruct (Hd Hin).
Qed.
Lemma supervise_restore_time w exit groups r timeout i race observed diagnostics :
  let r := supervise_checkpoint_restore w exit groups r timeout i race observed diagnostics in
  supervised_for r.1.1 ≤ timeout + timer_lag (race_timer race)
  ∧ (in_time timeout (race_timer race) = false → is_ok r.2 = false).
Proof.
  pose proof (raced_by timeout race) as Hb. pose proof (raced_late timeout race) as Hd.
  unfold supervise_checkpoint_restore. destruct (raced timeout race) as [decided sel]. cbn [fst snd] in *.
  destruct sel as [|[w1 i1]|[w1 i1]]; [destruct (perform_checkpoint_restore _ _ _ _ _) as [[w1 i1] x]|..]; cbn [fst snd];
    (split; [by rewrite cleanup_time|]); try done. intros Hin. by destruct (Hd Hin).
Qed.
Lemma ended_by {X} timeout (t : Timer X) : ended_at timeout t ≤ timeout + timer_lag t.
Proof. unfold ended_at. case_match; lia. Qed.
Lemma perform_capture_time w exit groups r t1 t2 i prepare collect :
  0 ≤ t2 + timer_lag collect →
  let r := perform_checkpoint_capture w exit groups r t1 t2 i prepare collect in
  supervised_for r.1.1 ≤ t1 + timer_lag prepare + (t2 + timer_lag collect)
  ∧ (in_time t1 prepare && in_time t2 collect = false → is_ok r.2 = false).
Proof.
  intros Hpos. pose proof (ended_by t1 prepare). pose proof (ended_by t2 collect). unfold perform_checkpoint_capture.
  destruct (in_time t1 prepare); cbn [negb andb]; [|destruct (interrupted_in prepare); cbn; split; done || lia].
  destruct (prepare_checkpoint_capture _ _ _ _) as [i1 [[[m ack] r1]|]]; [|cbn; split; done || lia].
  destruct (in_time t2 collect); cbn [negb]; [|destruct (interrupted_in collect); cbn; split; done || lia].
  destruct (collect_checkpoint_capture_output w exit r1) as [w1 x].
  destruct x as [[[[? ?] ?] ?]|]; cbn; split; done || lia.
Qed.
Lemma supervise_capture_time w exit groups r t1 t2 i prepare collect cancel observed diagnostics :
  0 ≤ t2 + timer_lag collect →
  let r := supervise_checkpoint_capture w exit groups r t1 t2 i prepare collect cancel observed diagnostics in
  supervised_for r.1.1 ≤ t1 + timer_lag prepare + (t2 + timer_lag collect)
  ∧ (in_time t1 prepare && in_time t2 collect = false → is_ok r.2 = false).
Proof.
  intros Hpos. destruct (perform_capture_time w exit groups r t1 t2 i prepare collect Hpos) as [Ht Hd].
  unfold supervise_checkpoint_capture.
  destruct (perform_checkpoint_capture _ _ _ _ _ _ _ _ _) as [[w1 i1] x]. cbn [fst snd] in Ht, Hd.
  destruct cancel as [[at_time [w2 i2]]|]; [destruct (Z.leb_spec at_time (supervised_for w1))|];
    cbn [fst snd]; rewrite cleanup_time; cbn [supervised_for supervised];
    (split; [lia|]); try done; intros Hin; specialize (Hd Hin); by destruct x as [|[]].
Qed.

(** The deadline of an operation: what its preparation took and what is left. *)
Lemma remaining_deadline c o k :
  wd_clock o 0 ≤ wd_clock o k → remaining c o k ≠ 0 →
  0 < remaining c o k ∧ wd_clock o k - wd_clock o 0 + remaining c o k = handshake_timeout c.
Proof. intros Hclock. unfold remaining, saturating_sub. lia. Qed.

Lemma probe_time c o race w res :
  wd_panic o = None → 0 ≤ handshake_timeout c + timer_lag (race_timer race) →
  probe_wasix_worker c o race = Some (Some w, res) →
  validate_common c = Ok tt ∧ supervised_for w ≤ handshake_timeout c + timer_lag (race_timer race)
  ∧ (in_time (handshake_timeout c) (race_timer race) = false → is_ok res = false).
Proof.
  intros Hpanic Hl (e & Hv & _ & Hk)%operation_Some. apply checked_Some in Hk as (cmd & _ & Hk). split; [done|].
  eapply with_worker_time; [done|done| |exact Hk]. intros w0. cbn beta. unfold supervise_probe.
  match goal with |- context [supervise ?a ?b ?x] => pose proof (supervise_time a b x) as Ht; by destruct (supervise a b x) as [[? ?] ?] end.
Qed.
Lemma transport_time c o race v w res :
  wd_panic o = None → 0 ≤ timer_lag (race_timer race) →
  probe_wasix_checkpoint_transport c o race v = Some (Some w, res) →
  validate_common c = Ok tt ∧ remaining c o 1 ≠ 0
  ∧ supervised_for w ≤ remaining c o 1 + timer_lag (race_timer race)
  ∧ (in_time (remaining c o 1) (race_timer race) = false → is_ok res = false).
Proof.
  intros Hpanic Hl (e & Hv & _ & Hk)%operation_Some. apply checked_Some in Hk as ([[i ctl] cmd] & Hc & Hk). split; [done|].
  split; [unfold transport_checks in Hc; destruct (into_parts v); result_inv; by bool_inv|].
  eapply with_worker_time; [done|unfold remaining, saturating_sub; lia| |exact Hk]. intros w0. cbn beta zeta.
  unfold supervise_checkpoint_transport.
  match goal with |- context [supervise ?a ?b ?x] => pose proof (supervise_time a b x) as Ht; by destruct (supervise a b x) as [[? ?] ?] end.
Qed.
Lemma restore_time c o race v module w res :
  wd_panic o = None → 0 ≤ timer_lag (race_timer race) →
  restore_wasix_checkpoint c o race v module = Some (Some w, res) →
  validate_common c = Ok tt ∧ remaining c o 1 ≠ 0 ∧ remaining c o 2 ≠ 0
  ∧ supervised_for w ≤ remaining c o 2 + timer_lag (race_timer race)
  ∧ (in_time (remaining c o 2) (race_timer race) = false → is_ok res = false).
Proof.
  intros Hpanic Hl (e & Hv & _ & Hk)%operation_Some.
  apply checked_Some in Hk as ([[[pm pj] ctl] cmd] & (Ha & _)%restore_checks_Ok & Hk). split; [done|].
  split; [apply (adm_time _ _ _ _ _ Ha); auto|]. split; [apply (adm_time _ _ _ _ _ Ha); auto|].
  eapply with_worker_time; [done|unfold remaining, saturating_sub; lia| |exact Hk]. intros w0. cbn beta zeta.
  match goal with |- context [supervise_checkpoint_restore ?a ?b ?d ?f ?g ?h ?i ?j ?k] =>
    pose proof (supervise_restore_time a b d f g h i j k) as Ht;
    by destruct (supervise_checkpoint_restore a b d f g h i j k) as [[? ?] ?] end.
Qed.
Lemma capture_time c o ci b module input w res :
  wd_panic o = None → 0 ≤ timer_lag (prepare_timer ci) → 0 ≤ timeout input + timer_lag (collect_timer ci) →
  capture_wasix_checkpoint c o ci b module input = Some (Some w, res) →
  validate_common c = Ok tt ∧ timeout input ≠ 0 ∧ timeout input ≤ MAX_HANDSHAKE_TIMEOUT ∧ remaining c o 1 ≠ 0
  ∧ supervised_for w ≤ remaining c o 1 + timer_lag (prepare_timer ci) + (timeout input + timer_lag (collect_timer ci))
  ∧ (in_time (remaining c o 1) (prepare_timer ci) && in_time (timeout input) (collect_timer ci) = false → is_ok res = false).
Proof.
  intros Hpanic Hp Hl Hc. apply capture_Some in Hc as (e & rq & t & Hv & Hrq & _ & Hk); [|by left].
  apply checked_Some in Hk as ([[[pm rqb] ctl] cmd] & (_ & _ & _ & Ht)%capture_checks_Ok & Hk). split; [done|].
  assert (t = timeout input ∧ timeout input ≠ 0 ∧ timeout input ≤ MAX_HANDSHAKE_TIMEOUT) as (-> & Ht1 & Ht2).
  { unfold capture_request_new in Hrq. result_inv. bool_inv. done. }
  split; [done|]. split; [done|]. split; [done|].
  eapply with_worker_time; [done|unfold remaining, saturating_sub; lia| |exact Hk]. intros w0. cbn beta zeta.
  match goal with |- context [supervise_checkpoint_capture ?a ?b ?d ?f ?g ?h ?i ?j ?k ?l ?m ?n] =>
    pose proof (supervise_capture_time a b d f g h i j k l m n Hl) as Htt;
    by destruct (supervise_checkpoint_capture a b d f g h i j k l m n) as [[? ?] ?] end.
Qed.

(** C23: how long an operation's worker is supervised.  On a clock that does not
    go back, with timers that fire late by some time (their lag), a supervisor
    that does not panic decides about a probed worker within the configured
    timeout; about a worker of a transport or a restore within what the
    preparation of its inputs left of that timeout, so that both together stay
    within it; and about a capturing worker within what is left of it for the
    handshake and the timeout of the request for the guest.  An operation whose
    worker is not done by then does not succeed.  Each timeout is positive and
    at most thirty seconds, and something was left of it when the worker was
    spawned: an operation whose preparation used it up fails without one.
    Spawning itself is not timed. *)
Theorem worker_time_bounded c o w :
  wd_panic o = None → (∀ k, wd_clock o 0 ≤ wd_clock o k) → 0 ≤ handshake_timeout c →
  let spent k := wd_clock o k - wd_clock o 0 in
  let limit := handshake_timeout c in
  (∀ race res, 0 ≤ timer_lag (race_timer race) → probe_wasix_worker c o race = Some (Some w, res) →
     0 < limit ≤ secs 30 ∧ supervised_for w ≤ limit + timer_lag (race_timer race)
     ∧ (in_time limit (race_timer race) = false → is_ok res = false))
  ∧ (∀ race v res, 0 ≤ timer_lag (race_timer race) →
       probe_wasix_checkpoint_transport c o race v = Some (Some w, res) →
       0 < limit ≤ secs 30 ∧ spent 1%nat < limit
       ∧ spent 1%nat + supervised_for w ≤ limit + timer_lag (race_timer race)
       ∧ (in_time (limit - spent 1%nat) (race_timer race) = false → is_ok res = false))
  ∧ (∀ race v module res, 0 ≤ timer_lag (race_timer race) →
       restore_wasix_checkpoint c o race v module = Some (Some w, res) →
       0 < limit ≤ secs 30 ∧ spent 1%nat < limit ∧ spent 2%nat < limit
       ∧ spent 2%nat + supervised_for w ≤ limit + timer_lag (race_timer race)
       ∧ (in_time (limit - spent 2%nat) (race_timer race) = false → is_ok res = false))
  ∧ (∀ ci b module input res,
       0 ≤ timer_lag (prepare_timer ci) → 0 ≤ timer_lag (collect_timer ci) → 0 ≤ timeout input →
       capture_wasix_checkpoint c o ci b module input = Some (Some w, res) →
       0 < limit ≤ secs 30 ∧ spent 1%nat < limit ∧ 0 < timeout input ≤ secs 30
       ∧ spent 1%nat + supervised_for w
         ≤ limit + timer_lag (prepare_timer ci) + (timeout input + timer_lag (collect_timer ci))
       ∧ (in_time (limit - spent 1%nat) (prepare_timer ci) = false
          ∨ in_time (timeout input) (collect_timer ci) = false → is_ok res = false)).
Proof.
  intros Hpanic Hclock H0. cbv zeta.
  assert (validate_common c = Ok tt → 0 < handshake_timeout c ≤ secs 30) as Hlimit
    by (intros (_ & ? & ? & _)%validate_common_iff; unfold MAX_HANDSHAKE_TIMEOUT in *; lia).
  pose proof (λ k, remaining_deadline c o k (Hclock k)) as Hdl. split_and!.
  - intros race res Hlag Hop. apply probe_time in Hop as (Hv & Ht & Hd); [auto|done|lia].
  - intros race v res Hlag Hop. apply transport_time in Hop as (Hv & Hr & Ht & Hd); [|done..].
    destruct (Hdl 1%nat Hr) as [? E]. replace (handshake_timeout c - _) with (remaining c o 1) by lia.
    split_and!; [apply Hlimit, Hv..|lia|lia|done].
  - intros race v module res Hlag Hop. apply restore_time in Hop as (Hv & Hr1 & Hr2 & Ht & Hd); [|done..].
    destruct (Hdl 1%nat Hr1) as [? ?], (Hdl 2%nat Hr2) as [? E].
    replace (handshake_timeout c - _) with (remaining c o 2) by lia. split_and!; [apply Hlimit, Hv..|lia|lia|lia|done].
  - intros ci b module input res Hlag1 Hlag2 Ht0 Hop. apply capture_time in Hop as (Hv & Ht1 & Ht2 & Hr & Ht & Hd); [|done|done|lia].
    destruct (Hdl 1%nat Hr) as [? E]. replace (handshake_timeout c - _) with (remaining c o 1) by lia.
    unfold MAX_HANDSHAKE_TIMEOUT in Ht2. split_and!; [apply Hlimit, Hv..|lia|lia|lia|lia|].
    intros Hin. apply Hd, andb_false_iff. done.
Qed.

Context {CL : CryptoLaws K} {JM : Json CheckpointMetadata} {JW : JsonWriter CheckpointMetadata}.
Context {JML : JsonLaws JM} {JWL : JsonWriterLaws JM JW}.

(** The life cycle of a checkpoint.  A capture that succeeds and is sealed
    opens under the same key and binding as the captured journal, bound to the
    build of the worker that captured it; and a restore of it with the same
    deployment and the same module is admitted: none of the restore's checks
    can refuse it as long as time is left. *)
Theorem captured_checkpoint_restorable codec c o ci b module input p m art o' :
  capture_wasix_checkpoint c o ci b module input = Some (p, Ok m) →
  seal_capture codec (cm_journal m) = Ok art →
  CHECKPOINT_HEADER_BYTES + MAX_CHECKPOINT_METADATA_BYTES + max_journal_bytes codec + CHECKPOINT_TAG_BYTES
    ≤ usize_max →
  (∀ n, try_reserve_exact n = Ok tt) → (∀ k, (k = 1 ∨ k = 2)%nat → remaining c o' k ≠ 0) →
  ∃ v e, open codec b art = Ok v ∧ pin_executable c = Some (Ok e)
    ∧ (into_parts v).1 = captured_bytes (cm_journal m) ∧ verified_binding v = b
    ∧ RestorePermitted c o' e v module.
Proof using CL JML JWL.
  intros Hcap Hseal Hmax Halloc Htime.
  apply capture_Some in Hcap as (e & request & t & Hv & _ & He & Hk); [|by right].
  unfold capture_wasix_checkpoint_linux, checked in Hk.
  destruct (capture_checks c o ci e b module request) as [[[[pm rq] ctl] cmd]|] eqn:Hc; [|done].
  apply capture_checks_Ok in Hc as (Hcmd & Hmod & Hsha & _). apply with_worker_Ok in Hk as (pid & Hs).
  destruct (supervise_checkpoint_capture _ _ _ _ _ _ _ _ _ _ _ _) as [[w' i'] x] eqn:Hx. cbn in Hs. subst x.
  apply supervise_capture_Ok in Hx as (journal & Hj & Hlen). cbn in Hj.
  destruct (sealed_authentic _ _ _ _ _ _ Hj Hseal Hmax) as (md & -> & Ha).
  eexists _, e. split; [by apply open_authentic|]. split; [done|].
  assert (into_parts {| verified_binding := b; verified_bytes := journal; verified_range := (0, blen journal);
     verified_artifact_sha256 := sha256_hex (envelope codec md journal);
     verified_worker_build_sha256 := pinned_sha256 e |} = (journal, pinned_sha256 e)) as Hp.
  { unfold into_parts. cbn. by rewrite Z.sub_0_r, take_ge by (unfold blen; lia). }
  assert (captured_bytes (cm_journal m) = journal) as Ej.
  { unfold from_attested_worker_capture in Hj. result_inv. by rewrite <- Hj. }
  rewrite Hp, Ej. split_and!; [done..|]. split; rewrite ?Hp; done.
Qed.
End ended.
