(* ===== verification/WorkerEndToEnd.v ===== *)
(** The two ends of the worker boundary put together: the parent's operations
    of [src/src/wasix_worker.rs] against the worker binary that runs on the
    pinned image, enters isolation, inspects what it receives and executes the
    guest.  Theorems: a restore and a capture complete end to end with the
    guest's exact output and journal. *)
From S2P Require Import Prelude Errors Interfaces Streams Types CheckpointCodec WasixOutput ProcStatus WorkerMessages.
From S2P Require Import WorkerIsolation WorkerExecutable WorkerFrames WorkerProtocol WorkerJournal WorkerOperations.

Local Open Scope Z_scope.

(** ** The worker process *)

Section worker_process.
Context {K : Crypto} `{BuildInfo} {A : Allocator} {D : Type} {FC : FileCalls D}.
Context {JMeta : Json WasixWorkerMetadata} {JTA : Json WasixCheckpointTransportAck}.
Context {JRA : Json WasixCheckpointRestoreAck} {JRC : Json WasixCheckpointRestoreCompletion}.
Context {JCR : Json WasixCheckpointCaptureRequest} {JCA : Json WasixCheckpointCaptureAck}.
Context {JCC : Json WasixCheckpointCaptureCompletion}.
Context {S : Type} {L : Linux S} {M : Type} {WM : Wasmer M}.

(** What the worker finds in its process: its image, its kernel state, its
    identifier, and the outcomes of the calls around the guest. *)
Record WorkerWorld := {
  ww_exe : D;
  ww_state : S;
  ww_pid : Z;
  ww_module_ops : FdOps;
  ww_journal_ops : FdOps;
  ww_clear_stdin : result string unit;
  ww_clone : result string unit;
  ww_tokio : result string unit;
  ww_capture_file : CaptureFile;
}.

Definition worker_env (x : WorkerWorld) : WorkerEnv :=
  {| we_build := finished (current_worker_build_sha256 (Ok (ww_exe x)));
     we_isolation := (enter_wasix_worker_isolation (ww_state x)).2;
     we_process_id := ww_pid x; we_module_ops := ww_module_ops x; we_journal_ops := ww_journal_ops x;
     we_clear_stdin := ww_clear_stdin x |}.

Definition restore_execution (x : WorkerWorld) : SealedFile → Z → SealedFile → result string ExecutedCheckpointRestore :=
  execute_wasix_checkpoint_restore (fd_pread (ww_module_ops x)) (ww_clone x) (ww_tokio x).
Definition capture_execution (x : WorkerWorld)
    : SealedFile → Z → WasixCheckpointCaptureRequest → result string ExecutedCheckpointCapture :=
  execute_wasix_checkpoint_capture (fd_pread (ww_module_ops x)) (ww_capture_file x) (ww_tokio x).

(** The programs of the binary, reading what the parent sends. *)
Definition worker_programs (x : WorkerWorld) (incoming : list control_op) : Programs (list byte) :=
  {| run_probe := write_wasix_worker_probe (worker_env x);
     run_transport := write_wasix_checkpoint_transport_probe (worker_env x) incoming;
     run_restore := write_wasix_checkpoint_restore (worker_env x) (restore_execution x) incoming;
     run_capture := write_wasix_checkpoint_capture (worker_env x) (capture_execution x) incoming |}.

Lemma worker_main_Ok {W} path operation (programs : Programs W) w w' e :
  worker_main [path; operation] programs w = (w', 0, e) →
  (operation = str_bytes "--checkpoint-restore" → ∃ u, run_restore programs w = (w', Ok u))
  ∧ (operation = str_bytes "--checkpoint-capture" → ∃ u, run_capture programs w = (w', Ok u)).
Proof.
  unfold worker_main. cbn [tail head]. rewrite bool_decide_eq_true_2 by done. cbn [negb].
  intros Hm. split; intros ->;
    repeat match type of Hm with context [bool_decide ?P] =>
      let b := eval vm_compute in (bool_decide P) in change (bool_decide P) with b in Hm end; cbn iota in Hm;
    [destruct (run_restore programs w) as [w1 [u|]]|destruct (run_capture programs w) as [w1 [u|]]];
    simplify_eq; eauto.
Qed.
End worker_process.

(** ** Restore *)

Section restore.
Context {K : Crypto} {CL : CryptoLaws K} `{BuildInfo} {A : Allocator} {D : Type} {FC : FileCalls D}.
Context {JMeta : Json WasixWorkerMetadata} {JTA : Json WasixCheckpointTransportAck}.
Context {JRA : Json WasixCheckpointRestoreAck} {JRC : Json WasixCheckpointRestoreCompletion}.
Context {JCR : Json WasixCheckpointCaptureRequest} {JCA : Json WasixCheckpointCaptureAck}.
Context {JCC : Json WasixCheckpointCaptureCompletion}.
Context {JLM : JsonLaws JMeta} {JLA : JsonLaws JRA} {JLC : JsonLaws JRC}.
Context {JNM : JsonNonEmpty JMeta} {JNA : JsonNonEmpty JRA} {JNC : JsonNonEmpty JRC}.
Context {S : Type} {L : Linux S} {LL : LinuxLaws S} {M : Type} {WM : Wasmer M} {WL : WasmerLaws WM}.
Context (Halloc : ∀ n, try_reserve_exact n = Ok tt).
Implicit Types (x : @WorkerWorld D S) (o : @World D).

(** A deployment: the pinned file keeps its content, descriptors of it are the
    same file, and the spawned child runs it as [pid], unhindered. *)
Record Deployed (c : WasixWorkerConfig) o (e : @PinnedWorkerExecutable D) (setup : CommandSetup)
    (cmd : @WorkerCommand D) x (argv : list (list byte)) : Prop := {
  dep_pin : pin_executable c = Some (Ok e);
  dep_content : ∃ content, stable (pinned_descriptor e) content ∧ blen content ≤ u64_max;
  dep_dup : ∀ d d', dup d = Ok d' → SameFile d d';
  dep_fork : sp_fork (wd_spawn o) setup = Ok tt;
  dep_exec : ∃ image env, pre_exec cmd (sp_child (wd_spawn o)) = Running image argv env ∧ SameFile image (ww_exe x);
  dep_id : sp_id (wd_spawn o) = Some (ww_pid x);
  dep_placement : placement c = None;
  dep_pipes : wd_stdout_piped o = true ∧ wd_stderr_piped o = true;
  dep_panic : wd_panic o = None;
  dep_faults : wd_faults o = [];
}.

Lemma command_expected e operation parent (cmd : @WorkerCommand D) :
  command e operation parent = Ok cmd → cmd_expected_parent cmd = parent.
Proof. unfold command. intros Hc. by result_inv. Qed.

(** The child of a deployment is started on the operation and hashes to the
    pinned build. *)
Lemma deployed_child c o e setup cmd x argv operation :
  Deployed c o e setup cmd x argv → command e operation (wd_parent o) = Ok cmd →
  argv = [str_bytes (executable c); str_bytes operation]
  ∧ we_build (worker_env x) = Ok (pinned_sha256 e) ∧ ∃ content, pinned_sha256 e = sha256_hex content.
Proof.
  intros [Hp (content & Hs & Hl) Hd _ (image & env & Hx & Hsame) _ _ _ _ _] Hc.
  destruct (pinned_image_digest c e content operation (wd_parent o) cmd _ _ _ _ (ww_exe x) Hp Hs Hl Hd Hc Hx Hsame)
    as (Ha & _ & _ & _ & _ & _ & Hb & Hc'). split_and!; [done| |by exists content]. cbn. by rewrite Hb.
Qed.

(** What spawning gives the parent in a deployment. *)
Lemma deployed_worker {X} c o e op setup what no_out no_err cmd x argv
    (supervisor : WorkerProcess → WorkerProcess * Result X) w res :
  Deployed c o e setup cmd x argv →
  supervisor (worker_process_new (ww_pid x) (pinned_sha256 e)) = (w, res) →
  with_worker c op setup what no_out no_err cmd e o supervisor = (Some w, res).
Proof.
  intros [_ _ _ Hf (image & env & Hx & _) Hid Hpl [Ho He] Hp _] Hs.
  unfold with_worker, spawn_wasix_worker, command_spawn, place_worker, supervisor_wait.
  rewrite Hf. cbn [mbind result_bind]. rewrite Hx, Hid, Hpl. cbn [mbind result_bind]. rewrite Ho, He, Hp. cbn [negb].
  rewrite Hs. by destruct no_err.
Qed.

(** A restore whose worker ended well: in a deployment the parent's checks
    passed, and the worker binary, started with the arguments the parent passes
    and fed what the parent sends, ended with exit code zero; the parent reads
    exactly what it wrote, in the time that is left and without a cancellation. *)
Record RestoreDelivered c o (race : Race (WorkerProcess * CheckpointRestoreInput)) (v : VerifiedWasixCheckpoint)
    (module : list byte) (e : @PinnedWorkerExecutable D) (pm pj : PreparedInput) x : Prop := {
  rd_run : ∃ ctl cmd argv bytes diagnostics,
    Deployed c o e (worker_setup ControlSocket Piped) cmd x argv
    ∧ restore_checks c o e v module = Ok (pm, pj, ctl, cmd)
    ∧ worker_main argv (worker_programs x (restore_ops (pi_file pm) (pi_file pj))) [] = (bytes, 0, diagnostics)
    ∧ reader_bytes (wd_stdout o) = bytes;
  rd_groups : ∀ i, (enter_wasix_worker_isolation (ww_state x)).2 = Ok i →
    supplementary_group_ids i = allowed_supplementary_groups c;
  rd_in_time : (raced (remaining c o 2) race).2 = SelectedDone;
  rd_steady : steady (wd_stdout o);
  rd_exit : ∃ st, wd_exit o = Ok st ∧ success st = true;
}.

Lemma restore_delivered c o race v module e pm pj x :
  RestoreDelivered c o race v module e pm pj x →
  ∃ s i r w m,
    enter_wasix_worker_isolation (ww_state x) = (s, Ok i) ∧ Truthful i (view s)
    ∧ sf_bytes (pi_file pm) = module ∧ sf_bytes (pi_file pj) = (into_parts v).1
    ∧ RestoredRun (pi_file pm) (pi_file pj) r
    ∧ restore_wasix_checkpoint c o race v module = Some (Some w, Ok m)
    ∧ rm_stdout m = xr_stdout r ∧ rm_stderr m = xr_stderr r ∧ rm_binding m = verified_binding v ∧ gone w.
Proof using JLM JLA JLC JNM JNA JNC Halloc CL LL WL.
  intros [(ctl & cmd & argv & bytes & diagnostics & Hdep & Hchecks & Hmain & Hbytes) Hgroups Htime Hsteady (st & Hexit & Hst)].
  pose proof Hchecks as (Hadm & _ & Hm & _ & Hj & Hctl & Hcmd)%restore_checks_Ok.
  destruct (deployed_child _ _ _ _ _ _ _ _ Hdep Hcmd) as (-> & Hbuild & _).
  apply worker_main_Ok in Hmain as [Hrun _]. destruct (Hrun eq_refl) as [u Hw]. cbn [run_restore worker_programs] in Hw.
  pose proof Hw as (build & i & mm & jm & y & f1 & f2 & f3 & _ & Hi & _)%worker_restore_inv.
  cbn [worker_env we_isolation] in Hi.
  destruct (enter_wasix_worker_isolation (ww_state x)) as [s i'] eqn:Hs. cbn [snd] in Hi. subst i'.
  pose proof (enter_isolation_Ok _ _ _ Hs) as (Htrue & Hiso & _). rewrite (Hgroups i eq_refl) in Hiso.
  apply sealed_module_input_Ok in Hm as (Em1 & Em2 & Em3 & _). apply sealed_checkpoint_input_Ok in Hj as (Ej1 & Ej2 & Ej3 & _).
  unfold checkpoint_control_channel in Hctl. rewrite (dep_faults _ _ _ _ _ _ _ Hdep) in Hctl. result_inv.
  destruct (restore_completes Halloc (worker_process_new (ww_pid x) (pinned_sha256 e)) st
    (allowed_supplementary_groups c) (wd_stdout o) (restore_input v pm pj {| sent := []; faults := [] |})
    (worker_env x) i (restore_execution x) (pi_file pm) (pi_file pj) (reader_bytes (wd_stdout o)) u)
    as (r & w & i' & m & Hr & Hp & Hout & Herr & _ & Hgone); try done; try (cbn; congruence).
  { cbn. by rewrite Hs. }
  { intros z Hz%execute_restore_Ok. apply Hz. }
  destruct (raced (remaining c o 2) race) as [decided sel] eqn:Hraced. cbn [snd] in Htime. subst sel.
  assert (∃ m', supervise_checkpoint_restore (worker_process_new (ww_pid x) (pinned_sha256 e)) (wd_exit o)
     (allowed_supplementary_groups c) (wd_stdout o) (remaining c o 2)
     (restore_input v pm pj {| sent := []; faults := [] |}) race (wd_observed o) (wd_diagnostics o)
       = (supervised decided w, i', Ok m')
     ∧ rm_stdout m' = rm_stdout m ∧ rm_stderr m' = rm_stderr m) as (m' & Hsup & Eo & Ee).
  { unfold supervise_checkpoint_restore. rewrite Hraced, Hexit, Hp. cbn. by eexists. }
  exists s, i, r, (supervised decided w), m'. split; [done|]. split; [done|]. split; [done|]. split; [done|].
  split; [by eapply execute_restore_Ok|]. split_and!; try congruence; [|by eapply supervise_restore_Ok|exact Hgone].
  unfold restore_wasix_checkpoint, validated, pinned, restore_wasix_checkpoint_linux. rewrite (dep_pin _ _ _ _ _ _ _ Hdep).
  assert (validate_common c = Ok tt) as ->.
  { pose proof (dep_pin _ _ _ _ _ _ _ Hdep) as Hpin. unfold pin_executable in Hpin. by destruct (validate_common c) as [[]|]. }
  f_equal. rewrite Hchecks. cbn [checked].
  eapply deployed_worker; [exact Hdep|]. by rewrite Hsup.
Qed.

(** C6: restore, end to end.  In a deployment, let the parent's checks pass and
    let the worker binary, started by the parent with the arguments it passes
    and fed what the parent sends, end with exit code zero, in the time that is
    left and without a cancellation.  Then the worker
    entered isolation truthfully, ran the sealed module on the sealed journal,
    whose only module record is that module's, to exit code zero; and the
    restore succeeds with exactly the output the guest wrote, however it was
    delivered, and leaves no worker. *)
Theorem restore_end_to_end c o race v module e pm pj ctl cmd x argv bytes diagnostics st :
  Deployed c o e (worker_setup ControlSocket Piped) cmd x argv →
  restore_checks c o e v module = Ok (pm, pj, ctl, cmd) →
  worker_main argv (worker_programs x (restore_ops (pi_file pm) (pi_file pj))) [] = (bytes, 0, diagnostics) →
  (∀ i, (enter_wasix_worker_isolation (ww_state x)).2 = Ok i →
     supplementary_group_ids i = allowed_supplementary_groups c) →
  steady (wd_stdout o) → reader_bytes (wd_stdout o) = bytes → wd_exit o = Ok st → success st = true →
  (raced (remaining c o 2) race).2 = SelectedDone →
  ∃ s i r w m,
    enter_wasix_worker_isolation (ww_state x) = (s, Ok i) ∧ Truthful i (view s)
    ∧ sf_bytes (pi_file pm) = module ∧ sf_bytes (pi_file pj) = (into_parts v).1
    ∧ RestoredRun (pi_file pm) (pi_file pj) r
    ∧ restore_wasix_checkpoint c o race v module = Some (Some w, Ok m)
    ∧ rm_stdout m = xr_stdout r ∧ rm_stderr m = xr_stderr r ∧ rm_binding m = verified_binding v ∧ gone w.
Proof using JLM JLA JLC JNM JNA JNC Halloc CL LL WL.
  intros Hdep Hchecks Hmain Hgroups Hsteady Hbytes Hexit Hst Htime. apply (restore_delivered c o race v module e pm pj x).
  split; [by exists ctl, cmd, argv, bytes, diagnostics|done|done|done|by exists st].
Qed.
End restore.
