(* ===== verification/CaptureEndToEnd.v ===== *)
(** Capture across the worker boundary ([src/src/wasix_worker.rs]): what the
    worker's capture program reads and writes, what the parent makes of it, and
    the theorem that both complete together with the guest's exact journal and
    output. *)
From S2P Require Import Prelude Errors Interfaces Streams Types CheckpointCodec WasixOutput ProcStatus WorkerMessages.
From S2P Require Import WorkerIsolation WorkerExecutable WorkerFrames WorkerProtocol WorkerJournal WorkerOperations WorkerEndToEnd.

Local Open Scope Z_scope.

Section capture.
Context {K : Crypto} {CL : CryptoLaws K} `{BuildInfo} {A : Allocator} {D : Type} {FC : FileCalls D}.
Context {JMeta : Json WasixWorkerMetadata} {JTA : Json WasixCheckpointTransportAck}.
Context {JRA : Json WasixCheckpointRestoreAck} {JRC : Json WasixCheckpointRestoreCompletion}.
Context {JCR : Json WasixCheckpointCaptureRequest} {JCA : Json WasixCheckpointCaptureAck}.
Context {JCC : Json WasixCheckpointCaptureCompletion}.
Context {JLM : JsonLaws JMeta} {JLR : JsonLaws JCR} {JLA : JsonLaws JCA} {JLC : JsonLaws JCC}.
Context {JNM : JsonNonEmpty JMeta} {JNA : JsonNonEmpty JCA} {JNC : JsonNonEmpty JCC}.
Context {S : Type} {L : Linux S} {LL : LinuxLaws S} {M : Type} {WM : Wasmer M} {WL : WasmerLaws WM}.
Context (Halloc : ∀ n, try_reserve_exact n = Ok tt).
Implicit Types (x : @WorkerWorld D S) (o : @World D).

(** What the parent sends through the control socket. *)
Definition capture_ops (module : SealedFile) (request : list byte) : list control_op :=
  [Descriptor "M" module; Bytes (be_bytes 4 (blen request)); Bytes request; Bytes ["E"%byte]; Shutdown].

Definition capture_completion (y : ExecutedCheckpointCapture) : WasixCheckpointCaptureCompletion :=
  {| cc_exit_code := xc_exit_code y;
     cc_journal_bytes := blen (xc_journal y); cc_journal_sha256 := sha256_hex (xc_journal y);
     cc_stdout_bytes := blen (xc_stdout y); cc_stdout_sha256 := sha256_hex (xc_stdout y);
     cc_stderr_bytes := blen (xc_stderr y); cc_stderr_sha256 := sha256_hex (xc_stderr y) |}.

Lemma write_bounded_frame_inv (w out f : list byte) maximum allow_empty label u :
  write_worker_bounded_frame w f maximum allow_empty label = (out, Ok u) →
  out = w ++ framed f ∧ blen f ≤ maximum ∧ blen f ≤ u32_max ∧ (allow_empty = true ∨ f ≠ []).
Proof.
  unfold write_worker_bounded_frame. rewrite vec_write_length_prefixed. case_match eqn:Hb; [done|].
  intros Hx. simplify_eq. rewrite !orb_false_iff, andb_false_iff, negb_false_iff, bool_decide_eq_false, !Z.ltb_ge in Hb.
  destruct_and!. done.
Qed.

(** The worker reads back the request the parent framed. *)
Lemma control_frame_read request :
  0 < blen request ≤ WASIX_WORKER_MAX_CAPTURE_REQUEST_BYTES →
  ∃ r, read_worker_control_frame
         (control_reader [Bytes (be_bytes 4 (blen request)); Bytes request; Bytes ["E"%byte]; Shutdown])
         WASIX_WORKER_MAX_CAPTURE_REQUEST_BYTES "capture request" = Ok (request, r).
Proof using Halloc.
  intros Hr. set (rd := control_reader _).
  assert (steady rd) as Hs.
  { unfold rd. cbn [control_reader]. repeat constructor; eexists; (split; [reflexivity|]); [done| |done].
    intros ->. unfold blen in Hr. cbn in Hr. lia. }
  destruct (read_framed A Halloc std_eof WASIX_WORKER_MAX_CAPTURE_REQUEST_BYTES false
     (λ e, "cannot read " +:+ "capture request" +:+ " length: " +:+ e)
     (λ n, "capture request" +:+ " length " +:+ show n +:+ " is invalid")
     (λ e, "cannot allocate " +:+ "capture request" +:+ ": " +:+ e)
     (λ e, "cannot read " +:+ "capture request" +:+ ": " +:+ e) rd request ["E"%byte]) as (r' & Hr' & _).
  - done.
  - done.
  - unfold WASIX_WORKER_MAX_CAPTURE_REQUEST_BYTES, u32_max in *. lia.
  - lia.
  - right. intros ->. unfold blen in Hr. cbn in Hr. lia.
  - by exists r'.
Qed.

(** What a successful capture worker saw and wrote. *)
Lemma worker_capture_inv env execute module rq request bytes u :
  to_vec request = Ok rq → 0 < blen rq ≤ WASIX_WORKER_MAX_CAPTURE_REQUEST_BYTES →
  write_wasix_checkpoint_capture env execute (capture_ops module rq) [] = (bytes, Ok u) →
  ∃ build iso mm y f1 f2 f3,
    we_build env = Ok build ∧ we_isolation env = Ok iso
    ∧ inspect_sealed_worker_input module (we_module_ops env) WASIX_WORKER_MAX_MODULE_BYTES "module" = Some (Ok mm)
    ∧ execute module (sw_bytes mm) request = Ok y
    ∧ message (worker_metadata_current iso build (we_process_id env)) f1
    ∧ message {| ca_module_bytes := sw_bytes mm; ca_module_sha256 := sw_sha256 mm;
                 ca_request_bytes := blen rq; ca_request_sha256 := sha256_hex rq |} f2
    ∧ message (capture_completion y) f3
    ∧ bytes = framed f1 ++ framed f2 ++ framed f3 ++ framed (xc_journal y) ++ framed (xc_stdout y)
              ++ framed (xc_stderr y)
    ∧ blen (xc_journal y) ≤ WASIX_WORKER_MAX_CHECKPOINT_BYTES ∧ xc_journal y ≠ []
    ∧ blen (xc_stdout y) ≤ WASIX_WORKER_MAX_RESTORE_OUTPUT_BYTES
    ∧ blen (xc_stderr y) ≤ WASIX_WORKER_MAX_RESTORE_OUTPUT_BYTES.
Proof using JLR Halloc.
  intros Hto Hlen. unfold write_wasix_checkpoint_capture, capture_ops. intros Hw.
  destruct (control_frame_read rq Hlen) as [rest Hframe].
  repeat match goal with
  | Hx : io_bind _ _ = (_, Ok _) |- _ => apply io_bind_Ok in Hx as (?w & ?a & ?Hp & Hx)
  | Hx : pure _ _ = (_, Ok _) |- _ => unfold pure in Hx; simplify_eq
  | Hx : write_message _ _ _ = (_, Ok _) |- _ => apply write_message_inv in Hx as (?f & ?Hm & ->)
  | Hx : write_ready _ _ = (_, Ok _) |- _ => apply write_ready_inv in Hx as (?build & ?iso & ?f & ?Hb & ?Hi & ?Hm & ->)
  | Hx : write_worker_output_frame _ _ _ = (_, Ok _) |- _ => apply write_output_frame_inv in Hx as (-> & ?Hl & ?Hl)
  | Hx : write_worker_bounded_frame _ _ _ _ _ = (_, Ok _) |- _ =>
      apply write_bounded_frame_inv in Hx as (-> & ?Hl & ?Hl & ?Hne)
  | Hx : inspected _ = Ok _ |- _ => apply inspected_Ok in Hx
  | Hx : receive_checkpoint_descriptor (Descriptor _ _ :: _) _ _ = Ok _ |- _ =>
      apply receive_Ok in Hx; subst; cbn [fst snd] in *
  end.
  match goal with Hx : read_worker_control_frame _ _ _ = Ok ?a, Hd : map_err _ (from_slice (?a.1)) = Ok _ |- _ =>
    rewrite Hframe in Hx; injection Hx as <-; cbn [fst snd] in *; rewrite (from_to request rq Hto) in Hd; simplify_eq/= end.
  match goal with Hne : _ ∨ xc_journal _ ≠ [] |- _ => destruct Hne as [|Hne]; [done|] end.
  do 7 eexists. split_and!; try eassumption. by rewrite <- !app_assoc.
Qed.

(** ** The parent *)

Lemma read_bounded r maximum allow_empty label f rest :
  blen f ≤ maximum → blen f ≤ u32_max → (allow_empty = true ∨ f ≠ []) →
  steady r → reader_bytes r = framed f ++ rest →
  ∃ r', read_bounded_worker_frame r maximum allow_empty label = Ok (f, r') ∧ steady r' ∧ reader_bytes r' = rest.
Proof using Halloc. intros Hm H32 Hne Hs Hb. by apply read_framed. Qed.

Lemma capture_exchange_honest w groups e module rq r iso f1 f2 rest :
  message (worker_metadata_current iso (wp_build_sha256 w) (wp_process_id w)) f1 → Isolated iso groups →
  message {| ca_module_bytes := ec_module_bytes e; ca_module_sha256 := ec_module_sha256 e;
             ca_request_bytes := ec_request_bytes e; ca_request_sha256 := ec_request_sha256 e |} f2 →
  blen rq ≤ u32_max → steady r → reader_bytes r = framed f1 ++ framed f2 ++ rest →
  ∃ ack r', capture_exchange w groups e (Some module) rq r {| sent := []; faults := [] |}
    = ({| sent := capture_ops module rq; faults := [] |},
       Ok (worker_metadata_current iso (wp_build_sha256 w) (wp_process_id w), ack, r'))
    ∧ ca_module_sha256 ack = ec_module_sha256 e ∧ steady r' ∧ reader_bytes r' = rest.
Proof using JLM JLA JNM JNA Halloc.
  intros Hm1 Hiso Hm2 H32 Hs Hb.
  destruct (read_message Halloc JMeta _ _ _ _ Hm1 Hs Hb) as (r1 & Hr1 & Hf1 & Hs1 & Hb1).
  destruct (read_message Halloc JCA _ _ _ _ Hm2 Hs1 Hb1) as (r2 & Hr2 & Hf2 & Hs2 & Hb2).
  exists {| ca_module_bytes := ec_module_bytes e; ca_module_sha256 := ec_module_sha256 e;
            ca_request_bytes := ec_request_bytes e; ca_request_sha256 := ec_request_sha256 e |}, r2.
  split_and!; [|done..].
  unfold capture_exchange, read_ready.
  rewrite Hr1. cbn [mbind result_bind]. rewrite Hf1. cbn [map_err mbind result_bind].
  rewrite (proj2 (worker_metadata_validate_iff _ _ _ _)) by by split_and!.
  cbn [mbind result_bind map_err try_control control_do faults sent app io_bind].
  unfold write_control_frame. rewrite (proj2 (Z.ltb_ge _ _)) by lia.
  cbn [write_all control_write control_do faults sent app map_err].
  rewrite Hr2. cbn [mbind result_bind]. rewrite Hf2. cbn [map_err mbind result_bind].
  unfold capture_ack_matches. cbn [ca_module_bytes ca_module_sha256 ca_request_bytes ca_request_sha256].
  rewrite !Z.eqb_refl, !bool_decide_true by done. done.
Qed.

Lemma capture_completion_ok y :
  xc_exit_code y = 0 → blen (xc_journal y) ≤ u64_max → blen (xc_stdout y) ≤ u64_max → blen (xc_stderr y) ≤ u64_max →
  capture_completion_validate (capture_completion y) (xc_journal y) (xc_stdout y) (xc_stderr y) = Ok tt.
Proof.
  intros Hx Hj Ho He. apply reject_if_Ok. unfold output_matches. cbn.
  rewrite Hx, !(proj2 (Z.leb_le _ _)), !Z.eqb_refl, !bool_decide_true by done. done.
Qed.

(** The parent's collection of what an honest worker writes. *)
Lemma collect_capture_honest w st y f3 r :
  message (capture_completion y) f3 → xc_exit_code y = 0 →
  blen (xc_journal y) ≤ WASIX_WORKER_MAX_CHECKPOINT_BYTES → xc_journal y ≠ [] →
  blen (xc_stdout y) ≤ WASIX_WORKER_MAX_RESTORE_OUTPUT_BYTES →
  blen (xc_stderr y) ≤ WASIX_WORKER_MAX_RESTORE_OUTPUT_BYTES →
  steady r → reader_bytes r = framed f3 ++ framed (xc_journal y) ++ framed (xc_stdout y) ++ framed (xc_stderr y) →
  success st = true →
  collect_checkpoint_capture_output w (Ok st) r
  = (disarm (kill_tree (wait_child w)), Ok (capture_completion y, xc_journal y, xc_stdout y, xc_stderr y)).
Proof using JLC JNC Halloc.
  intros Hm Hx Hj Hne Ho He Hs Hb Hst.
  assert (WASIX_WORKER_MAX_CHECKPOINT_BYTES ≤ u32_max ∧ WASIX_WORKER_MAX_RESTORE_OUTPUT_BYTES ≤ u32_max
          ∧ u32_max ≤ u64_max) as (L1 & L2 & L3) by (vm_compute; by split_and!).
  destruct (read_message Halloc JCC _ _ _ _ Hm Hs Hb) as (r1 & Hr1 & Hf1 & Hs1 & Hb1).
  destruct (read_bounded r1 WASIX_WORKER_MAX_CHECKPOINT_BYTES false "capture journal" _ _ Hj ltac:(lia)
              ltac:(by right) Hs1 Hb1) as (r2 & Hr2 & Hs2 & Hb2).
  destruct (read_bounded r2 WASIX_WORKER_MAX_RESTORE_OUTPUT_BYTES true "capture stdout" _ _ Ho ltac:(lia)
              ltac:(by left) Hs2 Hb2) as (r3 & Hr3 & Hs3 & Hb3).
  rewrite <- (app_nil_r (framed (xc_stderr y))) in Hb3.
  destruct (read_bounded r3 WASIX_WORKER_MAX_RESTORE_OUTPUT_BYTES true "capture stderr" _ _ He ltac:(lia)
              ltac:(by left) Hs3 Hb3) as (r4 & Hr4 & Hs4 & Hb4).
  unfold collect_checkpoint_capture_output, finish_checkpoint_capture_output.
  rewrite Hr1. cbn [map_err mbind result_bind]. rewrite Hf1. cbn [map_err mbind result_bind].
  rewrite Hr2. cbn [map_err mbind result_bind]. rewrite Hr3. cbn [map_err mbind result_bind].
  rewrite Hr4. cbn [map_err mbind result_bind]. rewrite capture_completion_ok by (done || lia).
  cbn [map_err mbind result_bind]. rewrite read_one_end, Hst by done. done.
Qed.

(** ** Both ends *)

(** The checks before a capture yield what the parent then sends. *)
Lemma capture_checks_inv c o ci e b module request pm rq ctl cmd :
  capture_checks c o ci e b module request = Ok (pm, rq, ctl, cmd) →
  to_vec request = Ok rq ∧ 0 < blen rq ≤ WASIX_WORKER_MAX_CAPTURE_REQUEST_BYTES
  ∧ sealed_module_input (wd_module_memfd o) (λ _, false) module = Ok pm
  ∧ checkpoint_control_channel (wd_channel o) (wd_faults o) = Ok ctl
  ∧ command e "--checkpoint-capture" (wd_parent o) = Ok cmd.
Proof.
  intros Hc. unfold capture_checks in Hc. rewrite !reject_bind_Ok in Hc. destruct Hc as (_ & _ & Hc).
  apply bind_Ok in Hc as (rq' & Hto%map_err_Ok & Hc). rewrite reject_bind_Ok, nonempty_within in Hc.
  destruct Hc as [Hlen Hc]. result_inv. rewrite preparation_wait_Ok in *. destruct_and!. done.
Qed.

(** A journal with the structure checkpoints require is attested for the
    binding and build it was captured under. *)
Lemma attested_capture journal b build content :
  binding_validate b = Ok tt → scan_journal journal = Ok tt → build = sha256_hex content →
  from_attested_worker_capture journal b build
  = Ok {| captured_bytes := journal; captured_binding := b; captured_worker_build_sha256 := build;
          explicit_snapshot := true |}.
Proof using CL.
  intros Hbinding Hscan ->. unfold from_attested_worker_capture. rewrite Hbinding, Hscan. cbn [mbind result_bind].
  unfold validate_sha256. by rewrite sha256_hex_length, sha256_hex_lower.
Qed.

(** A capture whose worker ended well: the configuration, the binding and the
    input are accepted, in a deployment the parent's checks passed, both phases
    ended in time and without a cancellation, and the worker binary, started with the arguments the parent
    passes and fed what the parent sends, ended with exit code zero; the parent
    reads exactly what it wrote. *)
Record CaptureDelivered c o (ci : CaptureInterrupts) (b : WasixCheckpointBinding) (module : list byte)
    (input : CommandInput) (request : WasixCheckpointCaptureRequest) (e : @PinnedWorkerExecutable D)
    (pm : PreparedInput) x : Prop := {
  cd_valid : validate_common c = Ok tt;
  cd_binding : binding_validate b = Ok tt;
  cd_request : ∃ t, capture_request_new input = Ok (request, t, false) ∧ in_time t (collect_timer ci) = true;
  cd_run : ∃ rq ctl cmd argv bytes diagnostics,
    Deployed c o e (worker_setup ControlSocket Piped) cmd x argv
    ∧ capture_checks c o ci e b module request = Ok (pm, rq, ctl, cmd)
    ∧ worker_main argv (worker_programs x (capture_ops (pi_file pm) rq)) [] = (bytes, 0, diagnostics)
    ∧ reader_bytes (wd_stdout o) = bytes;
  cd_interrupts : in_time (remaining c o 1) (prepare_timer ci) = true ∧ cancelled_running ci = None;
  cd_groups : ∀ i, (enter_wasix_worker_isolation (ww_state x)).2 = Ok i →
    supplementary_group_ids i = allowed_supplementary_groups c;
  cd_steady : steady (wd_stdout o);
  cd_exit : ∃ st, wd_exit o = Ok st ∧ success st = true;
}.

Lemma capture_delivered c o ci b module input request e pm x :
  CaptureDelivered c o ci b module input request e pm x →
  ∃ s i y,
    enter_wasix_worker_isolation (ww_state x) = (s, Ok i) ∧ Truthful i (view s)
    ∧ sf_bytes (pi_file pm) = module ∧ CapturedRun (pi_file pm) request y
    ∧ (scan_journal (xc_journal y) = Ok tt →
       ∃ w m, capture_wasix_checkpoint c o ci b module input = Some (Some w, Ok m)
         ∧ from_attested_worker_capture (xc_journal y) b (pinned_sha256 e) = Ok (cm_journal m)
         ∧ cm_stdout m = xc_stdout y ∧ cm_stderr m = xc_stderr y ∧ cm_binding m = b
         ∧ cm_module_sha256 m = sha256_hex module ∧ cm_journal_sha256 m = sha256_hex (xc_journal y) ∧ gone w).
Proof using JLM JLR JLA JLC JNM JNA JNC Halloc CL LL WL.
  intros [Hvalid Hbinding (t & Hrequest & Hi2) (rq & ctl & cmd & argv & bytes & diagnostics & Hdep & Hchecks & Hmain & Hbytes)
          (Hi1 & Hi3) Hgroups Hsteady (st & Hexit & Hst)].
  destruct (capture_checks_inv _ _ _ _ _ _ _ _ _ _ _ Hchecks) as (Hto & Hlen & Hm & Hctl & Hcmd).
  destruct (deployed_child _ _ _ _ _ _ _ _ Hdep Hcmd) as (-> & Hbuild & content & Hsha).
  apply worker_main_Ok in Hmain as [_ Hrun]. destruct (Hrun eq_refl) as [u Hw]. cbn [run_capture worker_programs] in Hw.
  apply worker_capture_inv with (request := request) in Hw
    as (build & i & mm & y & f1 & f2 & f3 & Hb' & Hi & Hmm & Hy & M1 & M2 & M3 & -> & Lj & Nj & Lo & Le); [|done..].
  rewrite Hbuild in Hb'. injection Hb' as <-. cbn [worker_env we_isolation we_process_id we_module_ops] in *.
  destruct (enter_wasix_worker_isolation (ww_state x)) as [s i'] eqn:Hs. cbn [snd] in Hi. subst i'.
  pose proof (enter_isolation_Ok _ _ _ Hs) as (Htrue & Hiso & _). rewrite (Hgroups i eq_refl) in Hiso.
  apply inspect_Ok in Hmm as (E1 & E2 & _). apply sealed_module_input_Ok in Hm as (Em1 & Em2 & Em3 & _).
  rewrite E1 in Hy. pose proof (execute_capture_Ok _ _ _ _ _ _ Hy) as Hcap.
  exists s, i, y. do 4 (split; [done|]). intros Hscan.
  unfold checkpoint_control_channel in Hctl. rewrite (dep_faults _ _ _ _ _ _ _ Hdep) in Hctl. result_inv.
  set (w0 := worker_process_new (ww_pid x) (pinned_sha256 e)).
  set (expected := {| ec_binding := b; ec_module_bytes := pi_bytes pm; ec_module_sha256 := pi_sha256 pm;
                      ec_request_bytes := blen rq; ec_request_sha256 := sha256_hex rq |}).
  destruct (capture_exchange_honest w0 (allowed_supplementary_groups c) expected (pi_file pm) rq (wd_stdout o) i f1 f2
    (framed f3 ++ framed (xc_journal y) ++ framed (xc_stdout y) ++ framed (xc_stderr y)))
    as (ack & r2 & Hx & Hack & Hs2 & Hb2); try done.
  { unfold expected. cbn. rewrite Em2, Em3, <- E1, <- E2 in *. congruence. }
  { unfold WASIX_WORKER_MAX_CAPTURE_REQUEST_BYTES, u32_max in *. lia. }
  pose proof (attested_capture (xc_journal y) b (pinned_sha256 e) content Hbinding Hscan Hsha) as Hatt.
  pose proof (collect_capture_honest w0 st y f3 r2 M3 (cr_exit _ _ _ Hcap) Lj Nj Lo Le Hs2 Hb2 Hst) as Hcol.
  exists (supervised (ended_at (remaining c o 1) (prepare_timer ci) + ended_at t (collect_timer ci))
            (disarm (kill_tree (wait_child w0)))),
    {| cm_worker := worker_metadata_current i (wp_build_sha256 w0) (wp_process_id w0); cm_binding := b;
       cm_stdout := xc_stdout y; cm_stderr := xc_stderr y; cm_module_sha256 := ca_module_sha256 ack;
       cm_journal_sha256 := sha256_hex (xc_journal y);
       cm_journal := {| captured_bytes := xc_journal y; captured_binding := b;
                        captured_worker_build_sha256 := pinned_sha256 e; explicit_snapshot := true |} |}.
  split; [|split_and!; try done; cbn; by rewrite Hack].
  unfold capture_wasix_checkpoint, validated, pinned, capture_wasix_checkpoint_linux.
  rewrite Hvalid, Hrequest, (dep_pin _ _ _ _ _ _ _ Hdep), Hchecks. cbn [checked]. f_equal.
  eapply deployed_worker; [exact Hdep|].
  unfold supervise_checkpoint_capture, perform_checkpoint_capture, prepare_checkpoint_capture.
  rewrite Hi1, Hi2, Hi3, Hexit. cbn [negb ci_open ci_expected ci_module ci_request ci_control].
  fold w0 expected. rewrite Hx. cbn [is_ok]. rewrite Hcol. cbn. rewrite Hatt. reflexivity.
Qed.

(** C7: capture, end to end.  In a deployment, let the parent's checks pass and
    let the worker binary, started by the parent with the arguments it passes
    and fed what the parent sends, end with exit code zero, each phase within its
    timeout and without a cancellation.  Then the worker
    entered isolation truthfully and ran the sealed module with the requested
    arguments and environment to its explicit snapshot and exit code zero; and
    if the journal up to that snapshot has the structure checkpoints require,
    the capture succeeds with exactly that journal, attested for this binding and
    build, and exactly the output the guest wrote, and leaves no worker. *)
Theorem capture_end_to_end c o ci b module input request t e pm rq ctl cmd x argv bytes diagnostics st :
  validate_common c = Ok tt → binding_validate b = Ok tt →
  capture_request_new input = Ok (request, t, false) →
  Deployed c o e (worker_setup ControlSocket Piped) cmd x argv →
  capture_checks c o ci e b module request = Ok (pm, rq, ctl, cmd) →
  in_time (remaining c o 1) (prepare_timer ci) = true → in_time t (collect_timer ci) = true → cancelled_running ci = None →
  worker_main argv (worker_programs x (capture_ops (pi_file pm) rq)) [] = (bytes, 0, diagnostics) →
  (∀ i, (enter_wasix_worker_isolation (ww_state x)).2 = Ok i →
     supplementary_group_ids i = allowed_supplementary_groups c) →
  steady (wd_stdout o) → reader_bytes (wd_stdout o) = bytes → wd_exit o = Ok st → success st = true →
  ∃ s i y,
    enter_wasix_worker_isolation (ww_state x) = (s, Ok i) ∧ Truthful i (view s)
    ∧ sf_bytes (pi_file pm) = module ∧ CapturedRun (pi_file pm) request y
    ∧ (scan_journal (xc_journal y) = Ok tt →
       ∃ w m, capture_wasix_checkpoint c o ci b module input = Some (Some w, Ok m)
         ∧ from_attested_worker_capture (xc_journal y) b (pinned_sha256 e) = Ok (cm_journal m)
         ∧ cm_stdout m = xc_stdout y ∧ cm_stderr m = xc_stderr y ∧ cm_binding m = b
         ∧ cm_module_sha256 m = sha256_hex module ∧ cm_journal_sha256 m = sha256_hex (xc_journal y) ∧ gone w).
Proof using JLM JLR JLA JLC JNM JNA JNC Halloc CL LL WL.
  intros ???? Hchecks ?????????. apply (capture_delivered c o ci b module input request e pm x).
  split; [done|done|by exists t|by exists rq, ctl, cmd, argv, bytes, diagnostics|done|done|done|by exists st].
Qed.
End capture.
