(* ===== verification/WorkerScenario.v ===== *)
(** One checkpoint from capture to restore, computed: a small file system, a
    kernel, a guest engine and a deployment on which the operations of
    [WorkerOperations] and both ends of the worker boundary run.  Every theorem
    about them is applied here. *)
From S2P Require Import Prelude Errors Interfaces Streams Types CheckpointCodec WasixOutput ProcStatus WorkerMessages.
From S2P Require Import WorkerIsolation WorkerExecutable WorkerFrames WorkerProtocol WorkerJournal WorkerOperations WorkerEndToEnd CaptureEndToEnd.

Local Open Scope Z_scope.

Module WorkerScenarioExample.
Import Toy CheckpointExample WorkerExample WorkerExecutableExample WorkerIsolationExample WorkerJournalExample.

(** ** Codecs of the capture messages *)

Definition enc_request (r : WasixCheckpointCaptureRequest) : list (list string) :=
  [arguments r; (environment r).*1; (environment r).*2].
Definition dec_request (l : list (list string)) : option WasixCheckpointCaptureRequest :=
  match l with
  | [a; ks; vs] => Some {| arguments := a; environment := zip ks vs |}
  | _ => None
  end.
#[export] Instance request_json : Json WasixCheckpointCaptureRequest := json enc_request dec_request.
#[export] Instance request_json_laws : JsonLaws request_json.
Proof. apply json_laws. intros [a l]. unfold dec_request, enc_request. cbn. by rewrite zip_fst_snd. Qed.

Definition enc_capture_ack (a : WasixCheckpointCaptureAck) : list (list string) :=
  [[of_z (ca_module_bytes a); ca_module_sha256 a; of_z (ca_request_bytes a); ca_request_sha256 a]].
Definition dec_capture_ack (l : list (list string)) : option WasixCheckpointCaptureAck :=
  match l with
  | [[a; b; c; d]] =>
      Some {| ca_module_bytes := to_z a; ca_module_sha256 := b; ca_request_bytes := to_z c; ca_request_sha256 := d |}
  | _ => None
  end.
#[export] Instance capture_ack_json : Json WasixCheckpointCaptureAck := json enc_capture_ack dec_capture_ack.
#[export] Instance capture_ack_json_laws : JsonLaws capture_ack_json.
Proof. apply json_laws. intros []. cbn -[of_z to_z]. by rewrite !to_of_z. Qed.
#[export] Instance capture_ack_json_nonempty : JsonNonEmpty capture_ack_json.
Proof. by apply json_nonempty. Qed.

Definition enc_captured (c : WasixCheckpointCaptureCompletion) : list (list string) :=
  [[of_z (cc_exit_code c); of_z (cc_journal_bytes c); cc_journal_sha256 c; of_z (cc_stdout_bytes c);
    cc_stdout_sha256 c; of_z (cc_stderr_bytes c); cc_stderr_sha256 c]].
Definition dec_captured (l : list (list string)) : option WasixCheckpointCaptureCompletion :=
  match l with
  | [[e; j; jh; a; ah; b; bh]] =>
      Some {| cc_exit_code := to_z e; cc_journal_bytes := to_z j; cc_journal_sha256 := jh; cc_stdout_bytes := to_z a;
              cc_stdout_sha256 := ah; cc_stderr_bytes := to_z b; cc_stderr_sha256 := bh |}
  | _ => None
  end.
#[export] Instance captured_json : Json WasixCheckpointCaptureCompletion := json enc_captured dec_captured.
#[export] Instance captured_json_laws : JsonLaws captured_json.
Proof. apply json_laws. intros []. cbn -[of_z to_z]. by rewrite !to_of_z. Qed.
#[export] Instance captured_json_nonempty : JsonNonEmpty captured_json.
Proof. by apply json_nonempty. Qed.

Definition enc_transport_ack (a : WasixCheckpointTransportAck) : list (list string) :=
  [[of_z (ta_journal_bytes a); ta_journal_sha256 a]].
Definition dec_transport_ack (l : list (list string)) : option WasixCheckpointTransportAck :=
  match l with [[a; b]] => Some {| ta_journal_bytes := to_z a; ta_journal_sha256 := b |} | _ => None end.
#[export] Instance transport_ack_json : Json WasixCheckpointTransportAck := json enc_transport_ack dec_transport_ack.

(** ** The deployment *)

Definition a_config : WasixWorkerConfig := worker_config_new "/opt/worker".
Definition executable_pin : PinnedWorkerExecutable := WorkerExecutableExample.pinned.
Definition the_module : list byte := str_bytes "module".
Definition the_binding : WasixCheckpointBinding :=
  {| binding_environment_id := "sha256:" +:+ CheckpointExample.digest; binding_module_sha256 := sha256_hex the_module;
     binding_command := "_start"; binding_instance_id := "run-7"; binding_generation := 3 |}.
Definition the_child : @Child Node :=
  {| child_death_signal := Ok tt; child_parent := Some 7; child_execveat _ _ _ := None |}.
Definition a_command (operation : string) : @WorkerCommand Node :=
  {| cmd_descriptor := WorkerExecutableExample.worker; cmd_argv0 := str_bytes "/opt/worker";
     cmd_operation := str_bytes operation; cmd_expected_parent := 7 |}.
Definition argv (operation : string) : list (list byte) := [str_bytes "/opt/worker"; str_bytes operation].
Definition process : @WorkerWorld Node sim :=
  {| ww_exe := WorkerExecutableExample.worker; ww_state := root_process; ww_pid := 42; ww_module_ops := fd_ops;
     ww_journal_ops := fd_ops; ww_clear_stdin := Ok tt; ww_clone := Ok tt; ww_tokio := Ok tt;
     ww_capture_file := capture_file |}.

(** Inputs that are prepared within three time units. *)
Definition prepared_at_once : waiting :=
  {| wait_timer := {| ready_at := Some 3; timer_lag := 0; interrupted_in := 0%nat |}; wait_panic := None |}.
(** A parent whose worker writes [bytes], delivered in two pieces, one time
    unit per look at the clock. *)
Definition world (bytes : list byte) (exit : result string ExitStatus) : @World Node :=
  {| wd_clock := Z.of_nat; wd_module_memfd := memfd; wd_module_wait := prepared_at_once; wd_journal_memfd := memfd;
     wd_journal_wait := prepared_at_once;
     wd_channel := {| ch_socketpair := Ok tt; ch_nonblocking := Ok tt; ch_register := Ok tt |};
     wd_faults := []; wd_parent := 7;
     wd_spawn := {| sp_fork _ := Ok tt; sp_child := the_child; sp_id := Some 42 |};
     wd_stdout_piped := true; wd_stderr_piped := true;
     wd_stdout := [Chunk (take 9 bytes); Chunk (drop 9 bytes)];
     wd_exit := exit; wd_observed := None; wd_diagnostics := Some (Ok no_diagnostics); wd_panic := None |}.

Lemma deployed bytes exit operation :
  Deployed a_config (world bytes exit) executable_pin (worker_setup ControlSocket Piped) (a_command operation) process
    (argv operation).
Proof.
  split; [vm_compute; reflexivity| | |reflexivity| |reflexivity|reflexivity|by split|reflexivity|reflexivity].
  - exists (content WorkerExecutableExample.worker). split; [apply stable_node|vm_compute; discriminate].
  - intros d d' [= <-]. by split.
  - exists WorkerExecutableExample.worker, []. split; [reflexivity|by split].
Qed.

(** ** Capture *)

Definition the_input : CommandInput :=
  {| stdin := []; args := ["--level"; "7"]; Types.env := ∅; timeout := 1000000000; cancelled := false |}.
Definition the_request : WasixCheckpointCaptureRequest := {| arguments := ["--level"; "7"]; environment := [] |}.
Definition request_bytes : list byte :=
  Eval vm_compute in match to_vec the_request with Ok b => b | Err _ => [] end.
Definition sealed_file : SealedFile := pi_file (sealed the_module).
Definition capture_output : list byte :=
  Eval vm_compute in
    (worker_main (argv "--checkpoint-capture") (worker_programs process (capture_ops sealed_file request_bytes)) []).1.1.
(** The handshake takes a thousand time units and the guest two thousand. *)
Definition no_input : CheckpointCaptureInput :=
  {| ci_control := {| sent := []; faults := [] |}; ci_open := false; ci_module := None; ci_request := [];
     ci_expected := {| ec_binding := the_binding; ec_module_bytes := 0; ec_module_sha256 := EmptyString;
                       ec_request_bytes := 0; ec_request_sha256 := EmptyString |} |}.
Definition takes {X} (d : Z) (s : X) : Timer X := {| ready_at := Some d; timer_lag := 0; interrupted_in := s |}.
Definition a_worker : WorkerProcess := worker_process_new 42 (pinned_sha256 executable_pin).
Definition uninterrupted : CaptureInterrupts :=
  {| cancelled_preparing := false; prepare_timer := takes 1000 (a_worker, no_input);
     collect_timer := takes 2000 (a_worker, no_input); cancelled_running := None |}.
Definition capture_world := world capture_output (Ok exited).

Example capture_worker_succeeds :
  worker_main (argv "--checkpoint-capture") (worker_programs process (capture_ops sealed_file request_bytes)) []
  = (capture_output, 0, None).
Proof. vm_compute. reflexivity. Qed.

Lemma steady_delivery bytes exit :
  (9 < length bytes)%nat → steady (wd_stdout (world bytes exit)) ∧ reader_bytes (wd_stdout (world bytes exit)) = bytes.
Proof.
  intros Hl. split.
  - unfold steady. cbn [wd_stdout world]. rewrite !Forall_cons, Forall_nil.
    split_and!; [| |done]; eexists; (split; [reflexivity|]); intros E; apply (f_equal length) in E;
      rewrite ?length_take, ?length_drop in E; cbn [length] in E; lia.
  - unfold reader_bytes. cbn. by rewrite app_nil_r, take_drop.
Qed.

(** The kernel's report of this process has no supplementary group. *)
Lemma no_groups i : (enter_wasix_worker_isolation root_process).2 = Ok i → supplementary_group_ids i = [].
Proof. vm_compute. by intros [= <-]. Qed.

Definition journal_bytes : list byte := WorkerJournalExample.prefix.

Lemma capture_end_to_end_witness :
  ∃ s i y, enter_wasix_worker_isolation root_process = (s, Ok i) ∧ Truthful i (seen s)
    ∧ CapturedRun sealed_file the_request y
    ∧ (scan_journal (xc_journal y) = Ok tt →
       ∃ w m, capture_wasix_checkpoint a_config capture_world uninterrupted the_binding the_module the_input
              = Some (Some w, Ok m) ∧ cm_stdout m = xc_stdout y ∧ gone w).
Proof.
  destruct (steady_delivery capture_output (Ok exited)) as [Hs Hb]; [vm_compute; lia|].
  destruct (capture_end_to_end (λ _, eq_refl) a_config capture_world uninterrupted the_binding the_module the_input
    the_request 1000000000 executable_pin (sealed the_module) request_bytes {| sent := []; faults := [] |}
    (a_command "--checkpoint-capture") process (argv "--checkpoint-capture") capture_output None exited)
    as (s & i & y & H1 & H2 & H3 & H4 & H5).
  - vm_compute. reflexivity.
  - vm_compute. reflexivity.
  - vm_compute. reflexivity.
  - apply deployed.
  - vm_compute. reflexivity.
  - vm_compute. reflexivity.
  - vm_compute. reflexivity.
  - reflexivity.
  - apply capture_worker_succeeds.
  - apply no_groups.
  - exact Hs.
  - exact Hb.
  - reflexivity.
  - reflexivity.
  - exists s, i, y. split; [exact H1|]. split; [exact H2|]. split; [exact H4|].
    intros Hscan. destruct (H5 Hscan) as (w & m & Hc & _ & Ho & _ & _ & _ & _ & Hg). exists w, m.
    exact (conj Hc (conj Ho Hg)).
Defined.

(** ** Seal, open, restore *)

Definition captured : WasixCheckpointCapture :=
  match capture_wasix_checkpoint a_config capture_world uninterrupted the_binding the_module the_input with
  | Some (_, Ok m) => m
  | _ => {| cm_worker := worker_metadata_current WorkerMessagesExample.isolated "b1" 42; cm_binding := the_binding; cm_stdout := []; cm_stderr := [];
            cm_module_sha256 := EmptyString; cm_journal_sha256 := EmptyString; cm_journal := capture |}
  end.
Definition the_artifact : list byte :=
  Eval vm_compute in match seal_capture codec (cm_journal captured) with Ok a => a | Err _ => [] end.
Definition reopened : VerifiedWasixCheckpoint :=
  {| verified_binding := the_binding; verified_bytes := journal_bytes; verified_range := (0, 60);
     verified_artifact_sha256 := sha256_hex the_artifact; verified_worker_build_sha256 := pinned_sha256 executable_pin |}.

Example capture_succeeds :
  capture_wasix_checkpoint a_config capture_world uninterrupted the_binding the_module the_input
  = Some (Some (supervised 3000 (disarm (kill_tree (wait_child a_worker)))), Ok captured).
Proof. vm_compute. reflexivity. Qed.

Lemma captured_checkpoint_restorable_witness :
  ∃ v e, open codec the_binding the_artifact = Ok v ∧ pin_executable a_config = Some (Ok e)
    ∧ (into_parts v).1 = journal_bytes ∧ RestorePermitted a_config capture_world e v the_module.
Proof.
  destruct (captured_checkpoint_restorable codec a_config capture_world uninterrupted the_binding the_module the_input
    (Some (supervised 3000 (disarm (kill_tree (wait_child a_worker))))) captured the_artifact
    capture_world) as (v & e & Ho & Hp & Hj & _ & Ha).
  - apply capture_succeeds.
  - vm_compute. reflexivity.
  - vm_compute. discriminate.
  - intros n. reflexivity.
  - intros k [->| ->]; vm_compute; discriminate.
  - exists v, e. split; [exact Ho|]. split; [exact Hp|]. split; [|exact Ha].
    etransitivity; [exact Hj|]. vm_compute. reflexivity.
Defined.

Definition restore_output : list byte :=
  Eval vm_compute in
    (worker_main (argv "--checkpoint-restore")
       (worker_programs process (restore_ops sealed_file (pi_file (sealed journal_bytes)))) []).1.1.
Definition restore_world := world restore_output (Ok exited).
Definition no_restore_input : CheckpointRestoreInput :=
  restore_input reopened (sealed the_module) (sealed journal_bytes) {| sent := []; faults := [] |}.
(** The restored guest takes a thousand time units, or never ends; its timer is
    seven late. *)
Definition restored_at_once : Race (WorkerProcess * CheckpointRestoreInput) :=
  {| race_timer := takes 1000 (a_worker, no_restore_input); race_cancel := None |}.
Definition never_restored : Race (WorkerProcess * CheckpointRestoreInput) :=
  {| race_timer := {| ready_at := None; timer_lag := 7; interrupted_in := (a_worker, no_restore_input) |};
     race_cancel := None |}.

Lemma restore_end_to_end_witness :
  ∃ r w m, RestoredRun sealed_file (pi_file (sealed journal_bytes)) r
    ∧ restore_wasix_checkpoint a_config restore_world restored_at_once reopened the_module = Some (Some w, Ok m)
    ∧ rm_stdout m = xr_stdout r ∧ rm_stdout m = str_bytes "4" ∧ gone w.
Proof.
  destruct (steady_delivery restore_output (Ok exited)) as [Hs Hb]; [vm_compute; lia|].
  destruct (restore_end_to_end (λ _, eq_refl) a_config restore_world restored_at_once reopened the_module executable_pin
    (sealed the_module) (sealed journal_bytes) {| sent := []; faults := [] |}
    (a_command "--checkpoint-restore") process (argv "--checkpoint-restore") restore_output None exited)
    as (s & i & r & w & m & _ & _ & _ & _ & Hr & Hx & Ho & _ & _ & Hg).
  - apply deployed.
  - vm_compute. reflexivity.
  - vm_compute. reflexivity.
  - apply no_groups.
  - exact Hs.
  - exact Hb.
  - reflexivity.
  - reflexivity.
  - vm_compute. reflexivity.
  - exists r, w, m. split; [exact Hr|]. split; [exact Hx|]. split; [exact Ho|]. split; [|exact Hg].
    vm_compute in Hx. injection Hx as _ <-. reflexivity.
Defined.

Lemma restore_admission_witness :
  ∃ m e, (restore_wasix_checkpoint a_config restore_world restored_at_once reopened the_module ≫= λ p, Some p.2) = Some (Ok m)
    ∧ RestorePermitted a_config restore_world e reopened the_module ∧ rm_journal_sha256 m = sha256_hex journal_bytes.
Proof.
  destruct (restore_wasix_checkpoint a_config restore_world restored_at_once reopened the_module) as [[p [m|x]]|] eqn:E;
    [|vm_compute in E; discriminate..].
  destruct (restore_admission _ _ _ _ _ _ _ E) as [_ Hm].
  destruct (Hm m eq_refl) as (e & _ & Ha & _ & _ & Hj & _).
  exists m, e. split; [reflexivity|]. split; [exact Ha|]. rewrite Hj. vm_compute. reflexivity.
Defined.

(** A worker that never ends is supervised for what is left of the timeout, and
    the timer's lag. *)
Example never_restored_times_out :
  (restore_wasix_checkpoint a_config restore_world never_restored reopened the_module ≫= λ p, Some p.2) = Some (Err Timeout).
Proof. vm_compute. reflexivity. Qed.
Lemma worker_time_bounded_witness :
  ∃ w, restore_wasix_checkpoint a_config restore_world never_restored reopened the_module = Some (Some w, Err Timeout)
    ∧ 2 + supervised_for w ≤ 5000000000 + 7 ∧ supervised_for w = 5000000005.
Proof.
  destruct (restore_wasix_checkpoint a_config restore_world never_restored reopened the_module) as [[[w|] r]|] eqn:E;
    [|vm_compute in E; discriminate..].
  assert (∀ k, wd_clock restore_world 0 ≤ wd_clock restore_world k) as Hclock by (intros k; cbn; lia).
  assert (0 ≤ handshake_timeout a_config) as H0 by (vm_compute; discriminate).
  destruct (worker_time_bounded a_config restore_world w eq_refl Hclock H0) as (_ & _ & Hr & _).
  assert (0 ≤ timer_lag (race_timer never_restored)) as Hl by (vm_compute; discriminate).
  destruct (Hr never_restored reopened the_module r Hl E) as (_ & _ & _ & Ht & _).
  exists w. split; [|split; [exact Ht|]].
  - pose proof never_restored_times_out as Hx. rewrite E in Hx. cbn in Hx. injection Hx as ->. reflexivity.
  - vm_compute in E. injection E as <- _. reflexivity.
Defined.

(** A worker that never exits is killed and reaped all the same. *)
Lemma operations_leave_no_worker_witness :
  ∃ w, (restore_wasix_checkpoint a_config (world restore_output (Err "no such process")) restored_at_once reopened the_module
        ≫= λ p, p.1) = Some w ∧ ended (world restore_output (Err "no such process")) w.
Proof.
  destruct (restore_wasix_checkpoint a_config (world restore_output (Err "no such process")) restored_at_once reopened
              the_module) as [[[w|] r]|] eqn:E; [|vm_compute in E; discriminate..].
  exists w. split; [reflexivity|].
  destruct (operations_leave_no_worker a_config (world restore_output (Err "no such process")) w) as (_ & _ & Hr & _).
  - intros m v. discriminate.
  - eapply (Hr restored_at_once reopened the_module r); [|exact E]. split; [by left|discriminate].
Defined.
End WorkerScenarioExample.
