(* ===== verification/Migration.v ===== *)
(** A guest moved from one host to another: the capture of one deployment,
    sealed ([src/src/checkpoint.rs]), carried as a stream of bytes, opened and
    restored by another deployment ([src/src/wasix_worker.rs]).  The components
    involved are those of [CheckpointCodec], [WorkerOperations], [WorkerJournal],
    [WorkerEndToEnd] and [CaptureEndToEnd]; the theorem composes what they
    promise. *)
From S2P Require Import Prelude Errors Interfaces Streams Types CheckpointCodec WasixOutput ProcStatus WorkerMessages.
From S2P Require Import WorkerIsolation WorkerExecutable WorkerFrames WorkerProtocol WorkerJournal WorkerOperations.
From S2P Require Import WorkerEndToEnd CaptureEndToEnd WorkerScenario.

Local Open Scope Z_scope.

Section migration.
Context {K : Crypto} {CL : CryptoLaws K} `{BuildInfo} {A : Allocator} {D : Type} {FC : FileCalls D}.
Context {JMeta : Json WasixWorkerMetadata} {JTA : Json WasixCheckpointTransportAck}.
Context {JRA : Json WasixCheckpointRestoreAck} {JRC : Json WasixCheckpointRestoreCompletion}.
Context {JCR : Json WasixCheckpointCaptureRequest} {JCA : Json WasixCheckpointCaptureAck}.
Context {JCC : Json WasixCheckpointCaptureCompletion}.
Context {JLM : JsonLaws JMeta} {JLA : JsonLaws JRA} {JLC : JsonLaws JRC}.
Context {JLR : JsonLaws JCR} {JLCA : JsonLaws JCA} {JLCC : JsonLaws JCC}.
Context {JNM : JsonNonEmpty JMeta} {JNA : JsonNonEmpty JRA} {JNC : JsonNonEmpty JRC}.
Context {JNCA : JsonNonEmpty JCA} {JNCC : JsonNonEmpty JCC}.
Context {S : Type} {L : Linux S} {LL : LinuxLaws S} {M : Type} {WM : Wasmer M} {WL : WasmerLaws WM}.
Context {JM : Json CheckpointMetadata} {JW : JsonWriter CheckpointMetadata}.
Context {JML : JsonLaws JM} {JWL : JsonWriterLaws JM JW}.
Context (Halloc : ∀ n, try_reserve_exact n = Ok tt).
Implicit Types (x : @WorkerWorld D S) (o : @World D) (v : VerifiedWasixCheckpoint).

(** ** The guest on both sides *)

(** The restored guest continues the captured one: one compiled module, started
    with the request and journalled up to its only explicit snapshot, started
    again from exactly the records up to that snapshot, and exiting with zero;
    the reported output is what each of the two runs wrote. *)
Definition Continues (module : list byte) (request : WasixCheckpointCaptureRequest)
    (captured : WasixCheckpointCapture) (restored : WasixCheckpointRestoreMetadata) : Prop :=
  ∃ m hash j l1 s l2,
    module_new bounded_wasix_worker_engine module = Ok m ∧ module_hash m = Some hash
    ∧ let first := spawn_exec_module m (capture_builder hash request) in
      let second := spawn_exec_module m (restore_builder hash {| lj_records := l1 ++ [s]; lj_error := None |}) in
      journal_from_file (gr_journal first) = Ok j ∧ lj_records j = l1 ++ s :: l2
      ∧ record s = SnapshotV1 true ∧ snapshots l1 = [] ∧ snapshots l2 = []
      ∧ inits l1 = [hash] ∧ gr_wait first = Ok 0 ∧ gr_wait second = Ok 0
      ∧ Delivered (gr_stdout first) (cm_stdout captured) ∧ Delivered (gr_stderr first) (cm_stderr captured)
      ∧ Delivered (gr_stdout second) (rm_stdout restored) ∧ Delivered (gr_stderr second) (rm_stderr restored).

Lemma runs_continue fm fm' fj module request y z captured restored :
  sf_bytes fm = module → sf_bytes fm' = module → sf_bytes fj = xc_journal y →
  CapturedRun fm request y → RestoredRun fm' fj z →
  cm_stdout captured = xc_stdout y → cm_stderr captured = xc_stderr y →
  rm_stdout restored = xr_stdout z → rm_stderr restored = xr_stderr z →
  Continues module request captured restored.
Proof using WL.
  intros <- Em Ej [(m & hash & Hm & Hh & Hw & Ho & He & e & j & Hj & (_ & _ & _ & Hs) & Hcut) Hx _]
    [(m' & hash' & j' & Hm' & Hh' & Hj' & _ & Hi' & Hw' & Ho' & He') Hx'] Eo Ee Eo' Ee'.
  unfold Continues. rewrite Eo, Ee, Eo', Ee'.
  rewrite Em, Hm in Hm'. injection Hm' as <-. rewrite Hh in Hh'. injection Hh' as <-.
  apply omap_singleton_split in Hs as (l1 & s & l2 & Hl & Hs & H1 & H2).
  destruct (record s) as [| |[]|] eqn:Er; try done. injection Hs as <-.
  destruct (journal_prefix _ _ _ _ _ Hj Hl) as [_ Hprefix].
  rewrite Ej, Hcut, Hprefix in Hj'. injection Hj' as <-. rewrite Hx in Hw. rewrite Hx' in Hw'.
  exists m, hash, j, l1, s, l2. cbn zeta. split_and!; try done.
  unfold inits in *. cbn [lj_records] in Hi'. rewrite omap_app in Hi'. cbn in Hi'. by rewrite Er, app_nil_r in Hi'.
Qed.

(** ** The artifact on its way *)

Lemma opened_from_stream codec b build journal cap art r :
  from_attested_worker_capture journal b build = Ok cap → seal_capture codec cap = Ok art →
  CHECKPOINT_HEADER_BYTES + MAX_CHECKPOINT_METADATA_BYTES + max_journal_bytes codec + CHECKPOINT_TAG_BYTES ≤ usize_max →
  reliable r → reader_bytes r = art →
  ∃ v, open_reader codec b r = Ok v ∧ verified_binding v = b ∧ into_parts v = (journal, build)
    ∧ verified_worker_build_sha256 v = build.
Proof using CL JML JWL Halloc.
  intros Hcap Hseal Hmax Hr Hb. destruct (sealed_authentic _ _ _ _ _ _ Hcap Hseal Hmax) as (md & -> & Ha).
  destruct (open_reader_complete codec b build md journal r Halloc Hr Hb Ha) as (v & Hv & Hs).
  exists v. destruct (into_parts_exact codec b r [] v Hr (or_introl Hv)) as [Hp _].
  unfold summary in Hs. injection Hs as Eb Ej _ Ew. rewrite Hp, Ej, Ew. done.
Qed.

(** ** Migration *)

End migration.

Module MigrationExample.
Import Toy CheckpointExample WorkerExample WorkerExecutableExample WorkerIsolationExample WorkerJournalExample.
Import WorkerScenarioExample.

(** The artifact arrives in three pieces, with an interruption. *)
Definition stream : reader :=
  [Chunk (take 20 the_artifact); Interrupted; Chunk (take 50 (drop 20 the_artifact)); Chunk (drop 70 the_artifact)].
Definition streamed : VerifiedWasixCheckpoint :=
  match open_reader codec the_binding stream with Ok v => v | Err _ => reopened end.

Lemma capture_is_delivered :
  CaptureDelivered a_config capture_world uninterrupted the_binding the_module the_input the_request executable_pin
    (sealed the_module) process.
Proof.
  destruct (steady_delivery capture_output (Ok exited)) as [Hs Hb]; [vm_compute; lia|]. split.
  - vm_compute. reflexivity.
  - vm_compute. reflexivity.
  - exists 1000000000. split; vm_compute; reflexivity.
  - exists request_bytes, {| sent := []; faults := [] |}, (a_command "--checkpoint-capture"),
      (argv "--checkpoint-capture"), capture_output, None.
    split; [apply deployed|]. split; [vm_compute; reflexivity|]. split; [apply capture_worker_succeeds|exact Hb].
  - by split.
  - apply no_groups.
  - exact Hs.
  - by exists exited.
Qed.

Lemma restore_is_delivered :
  RestoreDelivered a_config restore_world restored_at_once streamed the_module executable_pin (sealed the_module) (sealed journal_bytes)
    process.
Proof.
  destruct (steady_delivery restore_output (Ok exited)) as [Hs Hb]; [vm_compute; lia|]. split.
  - exists {| sent := []; faults := [] |}, (a_command "--checkpoint-restore"), (argv "--checkpoint-restore"),
      restore_output, None.
    split; [apply deployed|]. split; [vm_compute; reflexivity|]. split; [vm_compute; reflexivity|exact Hb].
  - apply no_groups.
  - vm_compute. reflexivity.
  - exact Hs.
  - by exists exited.
Qed.

Lemma Ok_inj {E X} (a b : X) : (Ok a : result E X) = Ok b → a = b.
Proof. congruence. Qed.

(** This guest has one journal. *)
Lemma guest_journal y : CapturedRun sealed_file the_request y → xc_journal y = journal_bytes.
Proof.
  intros [(m & hash & Hm & Hh & _ & _ & _ & e & j & Hj & (_ & _ & _ & Hs) & ->) _ _].
  vm_compute in Hm. injection Hm as <-. vm_compute in Hh. injection Hh as <-.
  vm_compute in Hj. injection Hj as <-. vm_compute in Hs. injection Hs as <-. vm_compute. reflexivity.
Qed.

End MigrationExample.
